(** * spy_agent: pattern detection, option pricing and trade simulation

    A shallow embedding of the core of the [spy_agent] package
    ([options_model.py], [patterns.py], [backtester.py], [config.py]) and
    the properties of it that the specification states.

    Number model.  Python floats are modelled by real numbers with exact
    arithmetic; "not a number" is modelled, where the code tests for it
    ([pd.isna]), by [None] in [option R].  A Python [/] whose divisor is
    not a non-zero literal is the partial [py_div] (ZeroDivisionError);
    a numpy division is [np_div], whose [None] stands for a non-finite
    result.  Timestamps are minutes since an epoch midnight, so that
    [.date()] is the quotient by 1440 and [.time()] the remainder. *)

From Stdlib Require Import Reals Lra Lia ZArith List String Bool.
From Stdlib Require Import Permutation Sorted RelationClasses.
Import ListNotations.
Local Open Scope R_scope.

(** ** Python and numpy primitives *)

Module Py.

Definition Rltb (x y : R) : bool := if Rlt_dec x y then true else false.
Definition Rleb (x y : R) : bool := if Rle_dec x y then true else false.
Definition Rgtb (x y : R) : bool := Rltb y x.
Definition Rgeb (x y : R) : bool := Rleb y x.
Definition Reqb (x y : R) : bool := if Req_dec_T x y then true else false.

(** Error monad: [None] is a raised exception. *)
Definition bind {A B : Type} (m : option A) (k : A -> option B) : option B :=
  match m with
  | Some a => k a
  | None => None
  end.

(** [x / y] on Python floats raises ZeroDivisionError when [y] is zero. *)
Definition py_div (x y : R) : option R :=
  if Req_dec_T y 0 then None else Some (x / y).

(** [math.log] raises ValueError outside the positive reals. *)
Definition math_log (x : R) : option R :=
  if Rlt_dec 0 x then Some (ln x) else None.

(** [int(x)]: truncation toward zero. *)
Definition py_int (x : R) : Z :=
  if Rle_dec 0 x then Zfloor x else Zceil x.

(** [round(x)] with one argument: nearest integer, ties to even. *)
Definition py_round (x : R) : Z :=
  let f := Zfloor x in
  if Rlt_dec (x - IZR f) (1 / 2) then f
  else if Rlt_dec (1 / 2) (x - IZR f) then (f + 1)%Z
  else if Z.even f then f else (f + 1)%Z.

(** numpy's elementwise division: [None] is a non-finite quotient
    (nan or an infinity), produced without raising. *)
Definition np_div (x y : R) : option R :=
  if Req_dec_T y 0 then None else Some (x / y).

(** [len] of a list. *)
Definition len {A : Type} (l : list A) : nat := List.length l.

(** [sum] of a list of floats. *)
Definition sum (l : list R) : R := fold_left Rplus l 0.

End Py.

Notation "x <- m ;; k" := (Py.bind m (fun x => k))
  (at level 61, m at next level, right associativity).

(** Timestamps: minutes since an epoch midnight. *)
Definition Timestamp := Z.
Definition date_of (t : Timestamp) : Z := (t / 1440)%Z.
Definition time_of (t : Timestamp) : Z := (t mod 1440)%Z.
(** [dt.datetime.combine(d, dt.time(h, m))]. *)
Definition combine (d : Z) (h m : Z) : Timestamp := (d * 1440 + h * 60 + m)%Z.
(** [(t1 - t0).total_seconds() / 60]. *)
Definition minutes_between (t1 t0 : Timestamp) : R := IZR (t1 - t0).

(** ** config.py *)

Module Config.

Record AgentConfig := {
  orb_minutes : Z;
  orb_breakout_buffer : R;
  vwap_rejection_threshold : R;
  rsi_overbought : R;
  rsi_oversold : R;
  adx_trend_threshold : R;
  bb_squeeze_threshold : R;
  volume_spike_multiplier : R;
  mean_rev_zscore_threshold : R;
  sr_lookback_days : Z;
  sr_proximity_pct : R;
  risk_free_rate : R;
  default_iv : R;
  initial_capital : R;
  position_size_pct : R;
  max_loss_per_trade_pct : R;
  profit_target_pct : R;
  slippage_pct : R;
  commission_per_contract : R;
  min_pattern_confidence : R;
  enabled_patterns : list string
}.

(** The dataclass defaults. *)
Definition default : AgentConfig := {|
  orb_minutes := 15;
  orb_breakout_buffer := 0.10;
  vwap_rejection_threshold := 0.15;
  rsi_overbought := 70;
  rsi_oversold := 30;
  adx_trend_threshold := 25;
  bb_squeeze_threshold := 0.5;
  volume_spike_multiplier := 2;
  mean_rev_zscore_threshold := 2;
  sr_lookback_days := 20;
  sr_proximity_pct := 0.1;
  risk_free_rate := 0.05;
  default_iv := 0.15;
  initial_capital := 10000;
  position_size_pct := 5;
  max_loss_per_trade_pct := 50;
  profit_target_pct := 100;
  slippage_pct := 1;
  commission_per_contract := 0.65;
  min_pattern_confidence := 0.6;
  enabled_patterns :=
    [ "opening_range_breakout"; "opening_range_breakdown";
      "vwap_rejection_long"; "vwap_rejection_short";
      "vwap_crossover_long"; "vwap_crossover_short";
      "macd_bullish_cross"; "macd_bearish_cross";
      "rsi_oversold_bounce"; "rsi_overbought_fade";
      "ema_bullish_cross"; "ema_bearish_cross";
      "bollinger_squeeze_breakout"; "volume_spike_continuation";
      "mean_reversion_long"; "mean_reversion_short";
      "gap_fill_long"; "gap_fill_short";
      "previous_day_high_break"; "previous_day_low_break";
      "midday_reversal"; "power_hour_momentum";
      "double_bottom"; "double_top";
      "support_bounce"; "resistance_rejection" ]%string
|}.

End Config.

(** ** options_model.py *)

Module OptionsModel.
Import Py.

Inductive OptionType := CALL | PUT.

(** The integrand of the standard normal distribution, up to its
    normalising constant. *)
Definition gauss (t : R) : R := exp (- (t * t) / 2).

Lemma gauss_continuity : continuity gauss.
Proof.
  unfold gauss.
  apply derivable_continuous.
  intro x. reg.
Qed.

Definition gauss_integrable (a b : R) : Riemann_integrable gauss a b :=
  match Rle_dec a b with
  | left Hab =>
      continuity_implies_RiemannInt Hab
        (fun x _ => gauss_continuity x)
  | right Hab =>
      RiemannInt_P1
        (continuity_implies_RiemannInt
           (Rlt_le _ _ (Rnot_le_lt _ _ Hab))
           (fun x _ => gauss_continuity x))
  end.

(** [scipy.stats.norm.cdf]: the standard normal distribution function,
    [1/2 + (1/sqrt(2 pi)) * integral of exp(-t^2/2) from 0 to x]. *)
Definition norm_cdf (x : R) : R :=
  1 / 2 + / sqrt (2 * PI) * RiemannInt (gauss_integrable 0 x).

Definition intrinsic (S K : R) (option_type : OptionType) : R :=
  match option_type with
  | CALL => Rmax (S - K) 0
  | PUT => Rmax (K - S) 0
  end.

Definition black_scholes_price
    (S K T r sigma : R) (option_type : OptionType) : option R :=
  if Rle_dec T 0 then
    (* At expiration - intrinsic value only *)
    Some (match option_type with
          | CALL => Rmax (S - K) 0
          | PUT => Rmax (K - S) 0
          end)
  else
    let sqrt_T := sqrt T in
    q <- py_div S K ;;
    l <- math_log q ;;
    d1 <- py_div (l + (r + 0.5 * sigma ^ 2) * T) (sigma * sqrt_T) ;;
    let d2 := d1 - sigma * sqrt_T in
    let price :=
      match option_type with
      | CALL => S * norm_cdf d1 - K * exp (- r * T) * norm_cdf d2
      | PUT => K * exp (- r * T) * norm_cdf (- d2) - S * norm_cdf (- d1)
      end in
    Some (Rmax price 0.01).

(** Market close is 4:00 PM; a trading year is 252 days of 6.5 hours. *)
Definition time_to_expiry_years (current_time market_close : Timestamp) : R :=
  let seconds_remaining :=
    Rmax (minutes_between market_close current_time * 60) 0 in
  let trading_seconds_per_year := 252 * 6.5 * 3600 in
  seconds_remaining / trading_seconds_per_year.

(** SPY options have $1 strikes. *)
Definition select_strike
    (underlying_price : R) (option_type : OptionType) (moneyness : string) : Z :=
  let rounded := py_round underlying_price in
  if String.eqb moneyness "ATM" then rounded
  else if String.eqb moneyness "OTM1" then
    match option_type with CALL => rounded + 1 | PUT => rounded - 1 end
  else if String.eqb moneyness "OTM2" then
    match option_type with CALL => rounded + 2 | PUT => rounded - 2 end
  else if String.eqb moneyness "ITM1" then
    match option_type with CALL => rounded - 1 | PUT => rounded + 1 end
  else rounded.

Definition estimate_0dte_premium
    (underlying_price strike minutes_to_close iv r : R)
    (option_type : OptionType) : option R :=
  let hours_remaining := minutes_to_close / 60 in
  let T := hours_remaining / (252 * 6.5) in
  black_scholes_price underlying_price strike T r iv option_type.

Definition estimate_iv_from_time (minutes_to_close base_iv : R) : R :=
  let hours := minutes_to_close / 60 in
  let multiplier :=
    if Rgtb hours 5 then 2.5
    else if Rgtb hours 3 then 2.0
    else if Rgtb hours 1 then 1.5
    else 1.2 in
  base_iv * multiplier.

(** A complete 0 DTE option trade. *)
Record OptionTrade := {
  entry_time : Timestamp;
  exit_time : option Timestamp;
  option_type : OptionType;
  strike : R;
  entry_underlying : R;
  exit_underlying : option R;
  entry_premium : R;
  exit_premium : option R;
  contracts : Z;
  pattern : string;
  direction : string;
  iv : R
}.

Definition pnl_per_contract (t : OptionTrade) : R :=
  match exit_premium t with
  | None => 0
  | Some x => (x - entry_premium t) * 100
  end.

Definition total_pnl (t : OptionTrade) : R :=
  pnl_per_contract t * IZR (contracts t).

Definition pnl_pct (t : OptionTrade) : option R :=
  if Rle_dec (entry_premium t) 0 then Some 0
  else
    let x := match exit_premium t with Some x => x | None => 0 end in
    q <- py_div (x - entry_premium t) (entry_premium t) ;;
    Some (q * 100).

Definition duration_minutes (t : OptionTrade) : R :=
  match exit_time t with
  | None => 0
  | Some e => minutes_between e (entry_time t)
  end.

(** [scipy.stats.norm.pdf]: the standard normal density. *)
Definition norm_pdf (x : R) : R := gauss x / sqrt (2 * PI).

(** The dictionary [calculate_greeks] returns. *)
Record Greeks := {
  delta : R;
  gamma : R;
  theta : R;
  vega : R
}.

Definition calculate_greeks
    (S K T r sigma : R) (option_type : OptionType) : option Greeks :=
  if Rle_dec T 0 then
    let intrinsic :=
      match option_type with
      | CALL => Rmax (S - K) 0
      | PUT => Rmax (K - S) 0
      end in
    let itm := Rgtb intrinsic 0 in
    Some {| delta := (if itm then 1 else 0)
                     * (match option_type with CALL => 1 | PUT => -1 end);
            gamma := 0; theta := 0; vega := 0 |}
  else
    let sqrt_T := sqrt T in
    q <- py_div S K ;;
    l <- math_log q ;;
    d1 <- py_div (l + (r + 0.5 * sigma ^ 2) * T) (sigma * sqrt_T) ;;
    let d2 := d1 - sigma * sqrt_T in
    let n_d1 := norm_pdf d1 in
    let N_d1 := norm_cdf d1 in
    gamma <- py_div n_d1 (S * sigma * sqrt_T) ;;
    (* Per 1% IV change *)
    let vega := S * n_d1 * sqrt_T / 100 in
    decay <- py_div (- (S * n_d1 * sigma)) (2 * sqrt_T) ;;
    match option_type with
    | CALL =>
        let delta := N_d1 in
        let theta := (decay - r * K * exp (- r * T) * norm_cdf d2) / 365 in
        Some {| delta := delta; gamma := gamma; theta := theta; vega := vega |}
    | PUT =>
        let delta := N_d1 - 1 in
        let theta := (decay + r * K * exp (- r * T) * norm_cdf (- d2)) / 365 in
        Some {| delta := delta; gamma := gamma; theta := theta; vega := vega |}
    end.

End OptionsModel.

(** ** indicators.py *)

Module Indicators.
Import Py.

(** A pandas Series of floats is a list with NaN as [None].  The
    functions below take series without NaN, as the cleaned price
    columns are, and return series that may hold NaN. *)

(** Arithmetic on floats that may be NaN, and of two series with the
    same index, value by value. *)
Definition fl_add (a b : option R) : option R :=
  x <- a ;; y <- b ;; Some (x + y).
Definition fl_sub (a b : option R) : option R :=
  x <- a ;; y <- b ;; Some (x - y).
Definition fl_mul (a b : option R) : option R :=
  x <- a ;; y <- b ;; Some (x * y).
Definition fl_div (a b : option R) : option R :=
  x <- a ;; y <- b ;; np_div x y.

Definition zip_with {A B C : Type} (op : A -> B -> C) (a : list A)
    (b : list B) : list C :=
  map (fun p => op (fst p) (snd p)) (List.combine a b).

(** [series.rolling(window=period)]: the window at position [i] holds
    the last [period] values up to [i]. *)
Definition window (series : list R) (period i : nat) : list R :=
  firstn period (skipn (i + 1 - period) series).

(** [series.rolling(window=period).mean()] and [.std()]: NaN while
    fewer than [period] values are there (min_periods is the window);
    pandas raises ValueError for a negative window. *)
Definition rolling (aggregate : list R -> option R) (series : list R)
    (period : Z) : option (list (option R)) :=
  if (period <? 0)%Z then None
  else
    let n := Z.to_nat period in
    Some (map (fun i => if (i + 1 <? n)%nat then None
                        else aggregate (window series n i))
            (seq 0 (len series))).

(** The mean of a window, NaN for an empty one; its sample standard
    deviation (ddof = 1), NaN below two values. *)
Definition mean (w : list R) : option R :=
  if (len w =? 0)%nat then None else Some (sum w / INR (len w)).

Definition std (w : list R) : option R :=
  if (len w <=? 1)%nat then None
  else
    let m := sum w / INR (len w) in
    Some (sqrt (sum (map (fun x => (x - m) ^ 2) w) / INR (len w - 1))).

(** Simple Moving Average. *)
Definition sma (series : list R) (period : Z) : option (list (option R)) :=
  rolling mean series period.

(** [close.diff()] *)
Definition diff (series : list R) : list (option R) :=
  match series with
  | [] => []
  | _ :: later => None :: zip_with (fun x prev => Some (x - prev)) later series
  end.

(** [delta.where(cond, 0.0)]: the value where the condition holds, 0.0
    elsewhere; a comparison with NaN does not hold. *)
Definition where_ (cond : R -> bool) (delta : list (option R)) : list R :=
  map (fun d => match d with
                | Some x => if cond x then x else 0
                | None => 0
                end) delta.

(** [series.ewm(alpha=alpha, min_periods=n).mean()] with the default
    adjust=True: the average of the values so far, a value [k]
    positions back weighing (1 - alpha)^k; NaN while fewer than [n]
    values are there. *)
Fixpoint weighted (q : R) (recent : list R) : R :=
  match recent with
  | [] => 0
  | x :: older => x + q * weighted q older
  end.

Definition ewm_mean (alpha : R) (min_periods : nat) (series : list R)
    : list (option R) :=
  map (fun i =>
         if (i + 1 <? min_periods)%nat then None
         else
           let recent := rev (firstn (i + 1) series) in
           Some (weighted (1 - alpha) recent
                 / weighted (1 - alpha) (map (fun _ => 1) recent)))
    (seq 0 (len series)).

(** [series.replace(0, np.nan)] *)
Definition replace_zero (x : option R) : option R :=
  match x with
  | Some v => if Reqb v 0 then None else Some v
  | None => None
  end.

(** Relative Strength Index.  [1.0 / period] raises for a zero period
    and pandas raises unless 0 < alpha <= 1. *)
Definition rsi (close : list R) (period : Z) : option (list (option R)) :=
  if (period <? 1)%Z then None
  else
    let delta := diff close in
    let gain := where_ (fun d => Rgtb d 0) delta in
    let loss := map Ropp (where_ (fun d => Rltb d 0) delta) in
    let avg_gain := ewm_mean (1 / IZR period) (Z.to_nat period) gain in
    let avg_loss := ewm_mean (1 / IZR period) (Z.to_nat period) loss in
    let rs := zip_with (fun g l => fl_div g (replace_zero l)) avg_gain avg_loss in
    Some (map (fun r => fl_sub (Some 100) (fl_div (Some 100) (fl_add (Some 1) r)))
            rs).

(** Bollinger Bands: returns (upper, middle, lower, bandwidth_pct). *)
Definition bollinger_bands (close : list R) (period : Z) (std_mult : R)
    : option (list (option R) * list (option R) * list (option R)
              * list (option R)) :=
  middle <- sma close period ;;
  std <- rolling std close period ;;
  let upper := zip_with (fun m s => fl_add m (fl_mul (Some std_mult) s)) middle std in
  let lower := zip_with (fun m s => fl_sub m (fl_mul (Some std_mult) s)) middle std in
  let bandwidth :=
    zip_with (fun width m => fl_mul (fl_div width m) (Some 100))
      (zip_with fl_sub upper lower) middle in
  Some (upper, middle, lower, bandwidth).

(** The dictionary [pivot_points] returns. *)
Record PivotPoints := {
  pivot : R;
  r1 : R;
  r2 : R;
  r3 : R;
  s1 : R;
  s2 : R;
  s3 : R
}.

(** Classic pivot points from previous day's HLC. *)
Definition pivot_points (high low close : R) : PivotPoints :=
  let pivot := (high + low + close) / 3 in
  let r1 := 2 * pivot - low in
  let s1 := 2 * pivot - high in
  let r2 := pivot + (high - low) in
  let s2 := pivot - (high - low) in
  let r3 := high + 2 * (pivot - low) in
  let s3 := low - 2 * (high - pivot) in
  {| pivot := pivot; r1 := r1; r2 := r2; r3 := r3;
     s1 := s1; s2 := s2; s3 := s3 |}.

(** [series.tail(n)]: the last [n] values. *)
Definition tail {A : Type} (n : nat) (l : list A) : list A :=
  skipn (len l - n) l.

(** [recent.iloc[i]] *)
Definition at_ (recent : list R) (i : nat) : R := nth i recent 0.

(** [peaks.sort(key=lambda x: x[1], reverse=True)] and
    [troughs.sort(key=lambda x: x[1])]: stable sorts of (position,
    value) pairs by value. *)
Fixpoint insert_descending (x : nat * R) (l : list (nat * R))
    : list (nat * R) :=
  match l with
  | [] => [x]
  | y :: l' =>
      if Rgeb (snd x) (snd y) then x :: l else y :: insert_descending x l'
  end.

Fixpoint insert_ascending (x : nat * R) (l : list (nat * R))
    : list (nat * R) :=
  match l with
  | [] => [x]
  | y :: l' =>
      if Rleb (snd x) (snd y) then x :: l else y :: insert_ascending x l'
  end.

(** [abs(p1[0] - p2[0])] on list positions. *)
Definition distance (i j : nat) : nat := (i - j) + (j - i).

(** Detect double top pattern in recent price action. *)
Definition detect_double_top (high : list R) (lookback : nat)
    (tolerance_pct : R) : bool :=
  let recent := tail lookback high in
  if (len recent <? 10)%nat then false
  else
    (* Find two highest peaks *)
    let peaks :=
      flat_map
        (fun i =>
           if Rgtb (at_ recent i) (at_ recent (i - 1))
              && Rgtb (at_ recent i) (at_ recent (i + 1))
           then
             if Rgtb (at_ recent i) (at_ recent (i - 2))
                && Rgtb (at_ recent i) (at_ recent (i + 2))
             then [(i, at_ recent i)] else []
           else [])
        (seq 2 (len recent - 2 - 2)) in
    if (len peaks <? 2)%nat then false
    else
      (* Check if two highest peaks are at similar levels *)
      match fold_right insert_descending [] peaks with
      | p1 :: p2 :: _ =>
          let tolerance := snd p1 * tolerance_pct / 100 in
          (* Peaks should be at similar height but separated in time *)
          Rltb (Rabs (snd p1 - snd p2)) tolerance
          && (5 <? distance (fst p1) (fst p2))%nat
      | _ => false
      end.

(** Detect double bottom pattern in recent price action. *)
Definition detect_double_bottom (low : list R) (lookback : nat)
    (tolerance_pct : R) : bool :=
  let recent := tail lookback low in
  if (len recent <? 10)%nat then false
  else
    let troughs :=
      flat_map
        (fun i =>
           if Rltb (at_ recent i) (at_ recent (i - 1))
              && Rltb (at_ recent i) (at_ recent (i + 1))
           then
             if Rltb (at_ recent i) (at_ recent (i - 2))
                && Rltb (at_ recent i) (at_ recent (i + 2))
             then [(i, at_ recent i)] else []
           else [])
        (seq 2 (len recent - 2 - 2)) in
    if (len troughs <? 2)%nat then false
    else
      match fold_right insert_ascending [] troughs with
      | t1 :: t2 :: _ =>
          let tolerance := snd t1 * tolerance_pct / 100 in
          Rltb (Rabs (snd t1 - snd t2)) tolerance
          && (5 <? distance (fst t1) (fst t2))%nat
      | _ => false
      end.

End Indicators.

(** ** patterns.py *)

Module Patterns.
Import Py.

Inductive Direction := LONG | SHORT.

Definition direction_value (d : Direction) : string :=
  match d with LONG => "LONG" | SHORT => "SHORT" end.

(** A detected trading signal.  [description] keeps the fixed text of
    the source's formatted string. *)
Record Signal := {
  timestamp : Timestamp;
  pattern : string;
  direction : Direction;
  confidence : R;
  entry_price : R;
  stop_price : R;
  target_price : R;
  description : string;
  metadata : list (string * R)
}.

Definition risk_reward (s : Signal) : option R :=
  let risk := Rabs (entry_price s - stop_price s) in
  let reward := Rabs (target_price s - entry_price s) in
  if Rgtb risk 0 then py_div reward risk else Some 0.

(** *** The detection context

    [scan] computes every indicator once, as a series over the frame's
    index, and hands the detectors the frame together with those
    series.  The context is modelled as one table: a row holds a bar,
    the optional previous-day levels and VWAP, and the value of every
    indicator series at that bar ([None] is NaN).  Whether the optional
    columns exist at all is recorded beside the rows. *)
Record Row := {
  index : Timestamp;
  open : R;
  high : R;
  low : R;
  close : R;
  volume : R;
  prev_high : option R;
  prev_low : option R;
  prev_close : option R;
  vwap : option R;
  rsi : option R;
  macd_line : option R;
  macd_signal : option R;
  adx : option R;
  bb_upper : option R;
  bb_mid : option R;
  bb_lower : option R;
  bb_bw : option R;
  ema_fast : option R;
  ema_slow : option R;
  vol_sma : option R;
  zscore : option R;
  atr : option R
}.

Record Ctx := {
  df : list Row;
  vwap_given : bool;         (* [ctx["vwap"] is not None] *)
  has_prev_high : bool;      (* ["prev_high" in df.columns] *)
  has_prev_low : bool;
  has_prev_close : bool
}.

Definition row0 : Row :=
  {| index := 0%Z; open := 0; high := 0; low := 0; close := 0; volume := 0;
     prev_high := None; prev_low := None; prev_close := None; vwap := None;
     rsi := None; macd_line := None; macd_signal := None; adx := None;
     bb_upper := None; bb_mid := None; bb_lower := None; bb_bw := None;
     ema_fast := None; ema_slow := None; vol_sma := None; zscore := None;
     atr := None |}.

(** [.iloc[i]]; the detectors only use positions inside the frame. *)
Definition iloc (rows : list Row) (i : nat) : Row := nth i rows row0.
(** [.iloc[-1]] *)
Definition iloc_last (rows : list Row) : Row := last rows row0.

(** [series.get(idx, default)]: the value at label [idx]. *)
Definition get {A : Type} (col : Row -> A) (rows : list Row)
    (idx : Timestamp) (default : A) : A :=
  match find (fun r => Z.eqb (index r) idx) rows with
  | Some r => col r
  | None => default
  end.

(** [x = series.get(idx, d)] followed by [if pd.isna(x): x = d]. *)
Definition get_or (col : Row -> option R) (rows : list Row)
    (idx : Timestamp) (d : R) : R :=
  match get col rows idx (Some d) with
  | Some x => x
  | None => d
  end.

Definition atr_at (rows : list Row) (idx : Timestamp) : R :=
  get_or atr rows idx 1.

(** Comparisons with a possibly-NaN operand are false on NaN. *)
Definition fl_lt (a b : option R) : bool :=
  match a, b with
  | Some x, Some y => Rltb x y
  | _, _ => false
  end.
Definition fl_gt (a b : option R) : bool := fl_lt b a.
Definition isna (a : option R) : bool :=
  match a with Some _ => false | None => true end.

(** [series.max()] and [series.min()] of a non-empty series. *)
Definition series_max (l : list R) : R := fold_left Rmax (tl l) (hd 0 l).
Definition series_min (l : list R) : R := fold_left Rmin (tl l) (hd 0 l).

(** [range(a, b)] *)
Definition range (a b : nat) : list nat := seq a (b - a).

(** A loop that appends the first signal its body yields and breaks. *)
Fixpoint first_signal {A : Type} (body : A -> option Signal) (l : list A)
    : list Signal :=
  match l with
  | [] => []
  | i :: l' =>
      match body i with
      | Some s => [s]
      | None => first_signal body l'
      end
  end.

(** A loop that appends every signal its body yields. *)
Definition each_signal {A : Type} (body : A -> option Signal) (l : list A)
    : list Signal :=
  flat_map (fun i => match body i with Some s => [s] | None => [] end) l.

(** [df.groupby("date")]: the groups in increasing order of date, each
    keeping the frame's row order. *)
Fixpoint insert_date (d : Z) (l : list Z) : list Z :=
  match l with
  | [] => [d]
  | x :: l' =>
      if (d <? x)%Z then d :: l
      else if (d =? x)%Z then l
      else x :: insert_date d l'
  end.

Definition unique_dates (rows : list Row) : list Z :=
  fold_right insert_date [] (map (fun r => date_of (index r)) rows).

Definition on_date (d : Z) (rows : list Row) : list Row :=
  filter (fun r => Z.eqb (date_of (index r)) d) rows.

Definition groupby_date (rows : list Row) : list (Z * list Row) :=
  map (fun d => (d, on_date d rows)) (unique_dates rows).

Section Detectors.

Variable config : Config.AgentConfig.

(** The indicator library's structural finders, used as they are. *)
Variable detect_double_bottom : list R -> nat -> bool.
Variable detect_double_top : list R -> nat -> bool.
Variable find_support_resistance :
  list R -> list R -> list R -> Z -> list R * list R.

(* --- Opening Range Breakout/Breakdown --- *)

Definition _get_opening_range (rows : list Row) : list (Z * (R * R)) :=
  flat_map
    (fun g : Z * list Row =>
       let (date, group) := g in
       let first_bar_time := index (iloc group 0) in
       let cutoff := (first_bar_time + Config.orb_minutes config)%Z in
       let or_bars := filter (fun r => (index r <=? cutoff)%Z) group in
       if (0 <? len or_bars)%nat
       then [(date, (series_max (map high or_bars),
                     series_min (map low or_bars)))]
       else [])
    (groupby_date rows).

Definition _orb_confidence (rows : list Row) (or_high or_low : R)
    (idx : Timestamp) : R :=
  let conf := 0.5 in
  let vol := get volume rows idx 0 in
  let vol_avg := get vol_sma rows idx (Some 1) in
  let conf :=
    match vol_avg with
    | Some va =>
        if Rgtb va 0 then
          if Rgtb vol (1.5 * va) then conf + 0.15 else conf
        else conf
    | None => conf
    end in
  let adx_at := get adx rows idx (Some 0) in
  let conf :=
    if fl_gt adx_at (Some (Config.adx_trend_threshold config))
    then conf + 0.15 else conf in
  let or_range := or_high - or_low in
  let conf :=
    if Rgtb or_range 0 then
      let atr_at := get atr rows idx (Some or_range) in
      if fl_lt (Some or_range) atr_at then conf + 0.1 else conf
    else conf in
  Rmin conf 1.0.

Definition _detect_orb_long (ctx : Ctx) : list Signal :=
  let rows := df ctx in
  flat_map
    (fun e : Z * (R * R) =>
       let '(date, (or_high, or_low)) := e in
       let day_bars := on_date date rows in
       let cutoff_time :=
         (index (iloc day_bars 0) + Config.orb_minutes config)%Z in
       let post_or := filter (fun r => (cutoff_time <? index r)%Z) day_bars in
       first_signal
         (fun i =>
            let row := iloc post_or i in
            let prev := iloc post_or (i - 1) in
            let threshold := or_high + Config.orb_breakout_buffer config in
            if Rleb (close prev) threshold && Rgtb (close row) threshold
            then Some {|
              timestamp := index row;
              pattern := "opening_range_breakout";
              direction := LONG;
              confidence := _orb_confidence rows or_high or_low (index row);
              entry_price := close row;
              stop_price := or_high - 0.5 * (or_high - or_low);
              target_price := close row + 1.5 * (or_high - or_low);
              description :=
                "ORB Long: price broke above opening range high";
              metadata := [("or_high", or_high); ("or_low", or_low)]%string
            |}
            else None)
         (range 1 (len post_or)))
    (_get_opening_range rows).

Definition _detect_orb_short (ctx : Ctx) : list Signal :=
  let rows := df ctx in
  flat_map
    (fun e : Z * (R * R) =>
       let '(date, (or_high, or_low)) := e in
       let day_bars := on_date date rows in
       let cutoff_time :=
         (index (iloc day_bars 0) + Config.orb_minutes config)%Z in
       let post_or := filter (fun r => (cutoff_time <? index r)%Z) day_bars in
       first_signal
         (fun i =>
            let row := iloc post_or i in
            let prev := iloc post_or (i - 1) in
            let threshold := or_low - Config.orb_breakout_buffer config in
            if Rgeb (close prev) threshold && Rltb (close row) threshold
            then Some {|
              timestamp := index row;
              pattern := "opening_range_breakdown";
              direction := SHORT;
              confidence := _orb_confidence rows or_high or_low (index row);
              entry_price := close row;
              stop_price := or_low + 0.5 * (or_high - or_low);
              target_price := close row - 1.5 * (or_high - or_low);
              description :=
                "ORB Short: price broke below opening range low";
              metadata := [("or_high", or_high); ("or_low", or_low)]%string
            |}
            else None)
         (range 1 (len post_or)))
    (_get_opening_range rows).

(* --- VWAP Patterns --- *)

Definition _detect_vwap_rejection_long (ctx : Ctx) : list Signal :=
  if negb (vwap_given ctx) then []
  else
    let rows := df ctx in
    let thresh := Config.vwap_rejection_threshold config in
    each_signal
      (fun i =>
         let idx := index (iloc rows i) in
         let price := close (iloc rows i) in
         match get vwap rows idx None with
         | None => None
         | Some v =>
             let prev_low := low (iloc rows (i - 1)) in
             if Rltb (Rabs (prev_low - v)) thresh && Rgtb price (v + thresh)
             then
               let a := atr_at rows idx in
               Some {|
                 timestamp := idx;
                 pattern := "vwap_rejection_long";
                 direction := LONG;
                 confidence := 0.65;
                 entry_price := price;
                 stop_price := v - a * 0.5;
                 target_price := price + a;
                 description := "VWAP Rejection Long: bounced off VWAP";
                 metadata := []
               |}
             else None
         end)
      (range 2 (len rows)).

Definition _detect_vwap_rejection_short (ctx : Ctx) : list Signal :=
  if negb (vwap_given ctx) then []
  else
    let rows := df ctx in
    let thresh := Config.vwap_rejection_threshold config in
    each_signal
      (fun i =>
         let idx := index (iloc rows i) in
         let price := close (iloc rows i) in
         match get vwap rows idx None with
         | None => None
         | Some v =>
             let prev_high := high (iloc rows (i - 1)) in
             if Rltb (Rabs (prev_high - v)) thresh && Rltb price (v - thresh)
             then
               let a := atr_at rows idx in
               Some {|
                 timestamp := idx;
                 pattern := "vwap_rejection_short";
                 direction := SHORT;
                 confidence := 0.65;
                 entry_price := price;
                 stop_price := v + a * 0.5;
                 target_price := price - a;
                 description := "VWAP Rejection Short: rejected at VWAP";
                 metadata := []
               |}
             else None
         end)
      (range 2 (len rows)).

Definition _detect_vwap_cross_long (ctx : Ctx) : list Signal :=
  if negb (vwap_given ctx) then []
  else
    let rows := df ctx in
    each_signal
      (fun i =>
         let idx := index (iloc rows i) in
         match get vwap rows idx None,
               get vwap rows (index (iloc rows (i - 1))) None with
         | Some v, Some v_prev =>
             if Rltb (close (iloc rows (i - 1))) v_prev
                && Rgtb (close (iloc rows i)) v
             then
               let a := atr_at rows idx in
               Some {|
                 timestamp := idx;
                 pattern := "vwap_crossover_long";
                 direction := LONG;
                 confidence := 0.55;
                 entry_price := close (iloc rows i);
                 stop_price := v - a * 0.3;
                 target_price := close (iloc rows i) + a * 0.8;
                 description := "VWAP Cross Long: price crossed above VWAP";
                 metadata := []
               |}
             else None
         | _, _ => None
         end)
      (range 1 (len rows)).

Definition _detect_vwap_cross_short (ctx : Ctx) : list Signal :=
  if negb (vwap_given ctx) then []
  else
    let rows := df ctx in
    each_signal
      (fun i =>
         let idx := index (iloc rows i) in
         match get vwap rows idx None,
               get vwap rows (index (iloc rows (i - 1))) None with
         | Some v, Some v_prev =>
             if Rgtb (close (iloc rows (i - 1))) v_prev
                && Rltb (close (iloc rows i)) v
             then
               let a := atr_at rows idx in
               Some {|
                 timestamp := idx;
                 pattern := "vwap_crossover_short";
                 direction := SHORT;
                 confidence := 0.55;
                 entry_price := close (iloc rows i);
                 stop_price := v + a * 0.3;
                 target_price := close (iloc rows i) - a * 0.8;
                 description := "VWAP Cross Short: price crossed below VWAP";
                 metadata := []
               |}
             else None
         | _, _ => None
         end)
      (range 1 (len rows)).

(* --- Momentum Patterns --- *)

Definition _detect_macd_bull (ctx : Ctx) : list Signal :=
  let rows := df ctx in
  each_signal
    (fun i =>
       let idx := index (iloc rows i) in
       let ml := fun j => macd_line (iloc rows j) in
       let ms := fun j => macd_signal (iloc rows j) in
       if isna (ml i) || isna (ms i) then None
       else if fl_lt (ml (i - 1)%nat) (ms (i - 1)%nat) && fl_gt (ml i) (ms i) then
         let a := atr_at rows idx in
         let conf := 0.55 in
         let conf :=
           if fl_gt (get adx rows idx (Some 0))
                    (Some (Config.adx_trend_threshold config))
           then conf + 0.1 else conf in
         Some {|
           timestamp := idx;
           pattern := "macd_bullish_cross";
           direction := LONG;
           confidence := conf;
           entry_price := close (iloc rows i);
           stop_price := close (iloc rows i) - a;
           target_price := close (iloc rows i) + a * 1.5;
           description := "MACD Bullish Cross: MACD crossed above signal line";
           metadata := []
         |}
       else None)
    (range 1 (len rows)).

Definition _detect_macd_bear (ctx : Ctx) : list Signal :=
  let rows := df ctx in
  each_signal
    (fun i =>
       let idx := index (iloc rows i) in
       let ml := fun j => macd_line (iloc rows j) in
       let ms := fun j => macd_signal (iloc rows j) in
       if isna (ml i) || isna (ms i) then None
       else if fl_gt (ml (i - 1)%nat) (ms (i - 1)%nat) && fl_lt (ml i) (ms i) then
         let a := atr_at rows idx in
         let conf := 0.55 in
         let conf :=
           if fl_gt (get adx rows idx (Some 0))
                    (Some (Config.adx_trend_threshold config))
           then conf + 0.1 else conf in
         Some {|
           timestamp := idx;
           pattern := "macd_bearish_cross";
           direction := SHORT;
           confidence := conf;
           entry_price := close (iloc rows i);
           stop_price := close (iloc rows i) + a;
           target_price := close (iloc rows i) - a * 1.5;
           description := "MACD Bearish Cross: MACD crossed below signal line";
           metadata := []
         |}
       else None)
    (range 1 (len rows)).

Definition _detect_rsi_oversold (ctx : Ctx) : list Signal :=
  let rows := df ctx in
  let threshold := Config.rsi_oversold config in
  each_signal
    (fun i =>
       let idx := index (iloc rows i) in
       let rsi_vals := fun j => rsi (iloc rows j) in
       if isna (rsi_vals i) || isna (rsi_vals (i - 1)%nat) then None
       else if fl_lt (rsi_vals (i - 1)%nat) (Some threshold)
               && fl_gt (rsi_vals i) (Some threshold) then
         let a := atr_at rows idx in
         Some {|
           timestamp := idx;
           pattern := "rsi_oversold_bounce";
           direction := LONG;
           confidence := 0.6;
           entry_price := close (iloc rows i);
           stop_price := low (iloc rows i) - a * 0.3;
           target_price := close (iloc rows i) + a;
           description := "RSI Oversold Bounce: RSI crossed above threshold from below";
           metadata := []
         |}
       else None)
    (range 1 (len rows)).

Definition _detect_rsi_overbought (ctx : Ctx) : list Signal :=
  let rows := df ctx in
  let threshold := Config.rsi_overbought config in
  each_signal
    (fun i =>
       let idx := index (iloc rows i) in
       let rsi_vals := fun j => rsi (iloc rows j) in
       if isna (rsi_vals i) || isna (rsi_vals (i - 1)%nat) then None
       else if fl_gt (rsi_vals (i - 1)%nat) (Some threshold)
               && fl_lt (rsi_vals i) (Some threshold) then
         let a := atr_at rows idx in
         Some {|
           timestamp := idx;
           pattern := "rsi_overbought_fade";
           direction := SHORT;
           confidence := 0.6;
           entry_price := close (iloc rows i);
           stop_price := high (iloc rows i) + a * 0.3;
           target_price := close (iloc rows i) - a;
           description := "RSI Overbought Fade: RSI crossed below threshold from above";
           metadata := []
         |}
       else None)
    (range 1 (len rows)).

Definition _detect_ema_bull_cross (ctx : Ctx) : list Signal :=
  let rows := df ctx in
  each_signal
    (fun i =>
       let idx := index (iloc rows i) in
       let ef := fun j => ema_fast (iloc rows j) in
       let es := fun j => ema_slow (iloc rows j) in
       match ef i, es i with
       | Some _, Some es_i =>
           if fl_lt (ef (i - 1)%nat) (es (i - 1)%nat) && fl_gt (ef i) (es i) then
             let a := atr_at rows idx in
             Some {|
               timestamp := idx;
               pattern := "ema_bullish_cross";
               direction := LONG;
               confidence := 0.55;
               entry_price := close (iloc rows i);
               stop_price := es_i - a * 0.3;
               target_price := close (iloc rows i) + a;
               description := "EMA Bull Cross: fast EMA crossed above slow EMA";
               metadata := []
             |}
           else None
       | _, _ => None
       end)
    (range 1 (len rows)).

Definition _detect_ema_bear_cross (ctx : Ctx) : list Signal :=
  let rows := df ctx in
  each_signal
    (fun i =>
       let idx := index (iloc rows i) in
       let ef := fun j => ema_fast (iloc rows j) in
       let es := fun j => ema_slow (iloc rows j) in
       match ef i, es i with
       | Some _, Some es_i =>
           if fl_gt (ef (i - 1)%nat) (es (i - 1)%nat) && fl_lt (ef i) (es i) then
             let a := atr_at rows idx in
             Some {|
               timestamp := idx;
               pattern := "ema_bearish_cross";
               direction := SHORT;
               confidence := 0.55;
               entry_price := close (iloc rows i);
               stop_price := es_i + a * 0.3;
               target_price := close (iloc rows i) - a;
               description := "EMA Bear Cross: fast EMA crossed below slow EMA";
               metadata := []
             |}
           else None
       | _, _ => None
       end)
    (range 1 (len rows)).

(* --- Bollinger Band Squeeze --- *)

Definition _detect_bb_squeeze (ctx : Ctx) : list Signal :=
  let rows := df ctx in
  let squeeze_thresh := Config.bb_squeeze_threshold config in
  snd
    (fold_left
       (fun (st : bool * list Signal) (i : nat) =>
          let (in_squeeze, signals) := st in
          let idx := index (iloc rows i) in
          match bb_bw (iloc rows i) with
          | None => st
          | Some bw =>
              if Rltb bw squeeze_thresh then (true, signals)
              else if in_squeeze && Rgeb bw squeeze_thresh then
                let price := close (iloc rows i) in
                let a := atr_at rows idx in
                let upper := bb_upper (iloc rows i) in
                let lower := bb_lower (iloc rows i) in
                if fl_gt (Some price) upper then
                  (false,
                   signals ++ [{|
                     timestamp := idx;
                     pattern := "bollinger_squeeze_breakout";
                     direction := LONG;
                     confidence := 0.65;
                     entry_price := price;
                     stop_price := price - a;
                     target_price := price + a * 1.5;
                     description := "BB Squeeze Breakout Long: volatility expansion to upside";
                     metadata := []
                   |}])
                else if fl_lt (Some price) lower then
                  (false,
                   signals ++ [{|
                     timestamp := idx;
                     pattern := "bollinger_squeeze_breakout";
                     direction := SHORT;
                     confidence := 0.65;
                     entry_price := price;
                     stop_price := price + a;
                     target_price := price - a * 1.5;
                     description := "BB Squeeze Breakout Short: volatility expansion to downside";
                     metadata := []
                   |}])
                else (false, signals)
              else st
          end)
       (range 1 (len rows)) (false, [])).

(* --- Volume Spike --- *)

Definition _detect_volume_spike (ctx : Ctx) : list Signal :=
  let rows := df ctx in
  let mult := Config.volume_spike_multiplier config in
  each_signal
    (fun i =>
       let idx := index (iloc rows i) in
       let v := volume (iloc rows (i - 1)) in
       match vol_sma (iloc rows (i - 1)) with
       | None => None
       | Some va =>
           if Reqb va 0 then None
           else if Rgtb v (mult * va) then
             let move := close (iloc rows (i - 1)) - open (iloc rows (i - 1)) in
             let confirm := close (iloc rows i) - open (iloc rows i) in
             let a := atr_at rows idx in
             if Rgtb move 0 && Rgtb confirm 0 then
               Some {|
                 timestamp := idx;
                 pattern := "volume_spike_continuation";
                 direction := LONG;
                 confidence := 0.6;
                 entry_price := close (iloc rows i);
                 stop_price := low (iloc rows (i - 1));
                 target_price := close (iloc rows i) + a;
                 description := "Volume Spike Long: bullish continuation";
                 metadata := []
               |}
             else if Rltb move 0 && Rltb confirm 0 then
               Some {|
                 timestamp := idx;
                 pattern := "volume_spike_continuation";
                 direction := SHORT;
                 confidence := 0.6;
                 entry_price := close (iloc rows i);
                 stop_price := high (iloc rows (i - 1));
                 target_price := close (iloc rows i) - a;
                 description := "Volume Spike Short: bearish continuation";
                 metadata := []
               |}
             else None
           else None
       end)
    (range 2 (len rows)).

(* --- Mean Reversion --- *)

Definition _detect_mean_rev_long (ctx : Ctx) : list Signal :=
  let rows := df ctx in
  let thresh := Config.mean_rev_zscore_threshold config in
  each_signal
    (fun i =>
       let idx := index (iloc rows i) in
       let zs := fun j => zscore (iloc rows j) in
       if isna (zs i) || isna (zs (i - 1)%nat) then None
       else if fl_lt (zs (i - 1)%nat) (Some (- thresh))
               && fl_gt (zs i) (Some (- thresh)) then
         let a := atr_at rows idx in
         Some {|
           timestamp := idx;
           pattern := "mean_reversion_long";
           direction := LONG;
           confidence := 0.6;
           entry_price := close (iloc rows i);
           stop_price := close (iloc rows i) - a;
           target_price :=
             match bb_mid (iloc rows i) with
             | Some m => m
             | None => close (iloc rows i) + a
             end;
           description := "Mean Reversion Long: z-score recovered";
           metadata := []
         |}
       else None)
    (range 1 (len rows)).

Definition _detect_mean_rev_short (ctx : Ctx) : list Signal :=
  let rows := df ctx in
  let thresh := Config.mean_rev_zscore_threshold config in
  each_signal
    (fun i =>
       let idx := index (iloc rows i) in
       let zs := fun j => zscore (iloc rows j) in
       if isna (zs i) || isna (zs (i - 1)%nat) then None
       else if fl_gt (zs (i - 1)%nat) (Some thresh)
               && fl_lt (zs i) (Some thresh) then
         let a := atr_at rows idx in
         Some {|
           timestamp := idx;
           pattern := "mean_reversion_short";
           direction := SHORT;
           confidence := 0.6;
           entry_price := close (iloc rows i);
           stop_price := close (iloc rows i) + a;
           target_price :=
             match bb_mid (iloc rows i) with
             | Some m => m
             | None => close (iloc rows i) - a
             end;
           description := "Mean Reversion Short: z-score dropped";
           metadata := []
         |}
       else None)
    (range 1 (len rows)).

(* --- Gap Patterns --- *)

Definition _detect_gap_fill_long (ctx : Ctx) : list Signal :=
  if negb (has_prev_close ctx) then []
  else
    let rows := df ctx in
    flat_map
      (fun g : Z * list Row =>
         let (date, group) := g in
         if (len group <? 3)%nat then []
         else
           let first_bar := iloc group 0 in
           match prev_close first_bar with
           | None => []
           | Some prev_close =>
               let gap := open first_bar - prev_close in
               if Rltb gap (- 0.5) then   (* Gap down > $0.50 *)
                 first_signal
                   (fun i =>
                      if Rgtb (close (iloc group i))
                              (close (iloc group (i - 1)))
                      then
                        let idx := index (iloc group i) in
                        Some {|
                          timestamp := idx;
                          pattern := "gap_fill_long";
                          direction := LONG;
                          confidence := 0.6;
                          entry_price := close (iloc group i);
                          stop_price :=
                            series_min (map low (firstn (i + 1) group));
                          target_price := prev_close;
                          description := "Gap Fill Long: filling gap down";
                          metadata :=
                            [("gap_size", gap);
                             ("prev_close", prev_close)]%string
                        |}
                      else None)
                   (range 2 (Nat.min (len group) 12))   (* First hour *)
               else []
           end)
      (groupby_date rows).

Definition _detect_gap_fill_short (ctx : Ctx) : list Signal :=
  if negb (has_prev_close ctx) then []
  else
    let rows := df ctx in
    flat_map
      (fun g : Z * list Row =>
         let (date, group) := g in
         if (len group <? 3)%nat then []
         else
           let first_bar := iloc group 0 in
           match prev_close first_bar with
           | None => []
           | Some prev_close =>
               let gap := open first_bar - prev_close in
               if Rgtb gap 0.5 then
                 first_signal
                   (fun i =>
                      if Rltb (close (iloc group i))
                              (close (iloc group (i - 1)))
                      then
                        let idx := index (iloc group i) in
                        Some {|
                          timestamp := idx;
                          pattern := "gap_fill_short";
                          direction := SHORT;
                          confidence := 0.6;
                          entry_price := close (iloc group i);
                          stop_price :=
                            series_max (map high (firstn (i + 1) group));
                          target_price := prev_close;
                          description := "Gap Fill Short: filling gap up";
                          metadata :=
                            [("gap_size", gap);
                             ("prev_close", prev_close)]%string
                        |}
                      else None)
                   (range 2 (Nat.min (len group) 12))
               else []
           end)
      (groupby_date rows).

(* --- Previous Day Level Breaks --- *)

Definition _detect_prev_high_break (ctx : Ctx) : list Signal :=
  if negb (has_prev_high ctx) then []
  else
    let rows := df ctx in
    each_signal
      (fun i =>
         let idx := index (iloc rows i) in
         match prev_high (iloc rows i) with
         | None => None
         | Some ph =>
             if Rleb (close (iloc rows (i - 1))) ph
                && Rgtb (close (iloc rows i)) ph
             then
               let a := atr_at rows idx in
               Some {|
                 timestamp := idx;
                 pattern := "previous_day_high_break";
                 direction := LONG;
                 confidence := 0.65;
                 entry_price := close (iloc rows i);
                 stop_price := ph - a * 0.3;
                 target_price := close (iloc rows i) + a;
                 description := "Prev Day High Break: broke above previous day high";
                 metadata := []
               |}
             else None
         end)
      (range 1 (len rows)).

Definition _detect_prev_low_break (ctx : Ctx) : list Signal :=
  if negb (has_prev_low ctx) then []
  else
    let rows := df ctx in
    each_signal
      (fun i =>
         let idx := index (iloc rows i) in
         match prev_low (iloc rows i) with
         | None => None
         | Some pl =>
             if Rgeb (close (iloc rows (i - 1))) pl
                && Rltb (close (iloc rows i)) pl
             then
               let a := atr_at rows idx in
               Some {|
                 timestamp := idx;
                 pattern := "previous_day_low_break";
                 direction := SHORT;
                 confidence := 0.65;
                 entry_price := close (iloc rows i);
                 stop_price := pl + a * 0.3;
                 target_price := close (iloc rows i) - a;
                 description := "Prev Day Low Break: broke below previous day low";
                 metadata := []
               |}
             else None
         end)
      (range 1 (len rows)).

(* --- Time-of-Day Patterns --- *)

(** [dt.time(h, m)] as minutes after midnight. *)
Definition clock (h m : Z) : Z := (h * 60 + m)%Z.

Definition _detect_midday_reversal (ctx : Ctx) : list Signal :=
  let rows := df ctx in
  flat_map
    (fun g : Z * list Row =>
       let (date, group) := g in
       let midday :=
         filter (fun r => (clock 11 30 <=? time_of (index r))%Z
                          && (time_of (index r) <=? clock 12 30)%Z) group in
       if (len midday <? 3)%nat then []
       else
         (* Check morning trend *)
         let morning :=
           filter (fun r => (time_of (index r) <? clock 11 30)%Z) group in
         if (len morning <? 5)%nat then []
         else
           let morning_move :=
             close (iloc_last morning) - open (iloc morning 0) in
           first_signal
             (fun i =>
                let idx := index (iloc midday i) in
                let rsi_val := get_or rsi rows idx 50 in
                let a := atr_at rows idx in
                let c := fun j => close (iloc midday j) in
                (* Morning was bullish, midday reversal down *)
                if Rgtb morning_move (a * 0.5) && Rgtb rsi_val 65
                   && (Rltb (c i) (c (i - 1)%nat)
                       && Rltb (c (i - 1)%nat) (c (i - 2)%nat))
                then
                  Some {|
                    timestamp := idx;
                    pattern := "midday_reversal";
                    direction := SHORT;
                    confidence := 0.6;
                    entry_price := c i;
                    stop_price :=
                      series_max (map high (firstn (i + 1) midday));
                    target_price := c i - a * 0.8;
                    description := "Midday Reversal Short: bearish reversal after bullish morning";
                    metadata := []
                  |}
                (* Morning was bearish, midday reversal up *)
                else if Rltb morning_move (- a * 0.5) && Rltb rsi_val 35
                        && (Rgtb (c i) (c (i - 1)%nat)
                            && Rgtb (c (i - 1)%nat) (c (i - 2)%nat))
                then
                  Some {|
                    timestamp := idx;
                    pattern := "midday_reversal";
                    direction := LONG;
                    confidence := 0.6;
                    entry_price := c i;
                    stop_price :=
                      series_min (map low (firstn (i + 1) midday));
                    target_price := c i + a * 0.8;
                    description := "Midday Reversal Long: bullish reversal after bearish morning";
                    metadata := []
                  |}
                else None)
             (range 2 (len midday)))
    (groupby_date rows).

Definition _detect_power_hour (ctx : Ctx) : list Signal :=
  let rows := df ctx in
  flat_map
    (fun g : Z * list Row =>
       let (date, group) := g in
       let power :=
         filter (fun r => (clock 15 0 <=? time_of (index r))%Z
                          && (time_of (index r) <=? clock 15 30)%Z) group in
       if (len power <? 3)%nat then []
       else
         (* Determine day's trend going into power hour *)
         let pre_power :=
           filter (fun r => (time_of (index r) <? clock 15 0)%Z) group in
         if (len pre_power <? 10)%nat then []
         else
           let day_move :=
             close (iloc_last pre_power) - open (iloc pre_power 0) in
           let idx := index (iloc power 2) in
           let a := atr_at rows idx in
           let adx_at := get_or adx rows idx 0 in
           (* Strong trend into power hour with ADX confirmation *)
           if Rgtb (Rabs day_move) (a * 0.5) && Rgtb adx_at 20 then
             let first_moves := close (iloc power 2) - close (iloc power 0) in
             if Rgtb day_move 0 && Rgtb first_moves 0 then
               [{|
                 timestamp := idx;
                 pattern := "power_hour_momentum";
                 direction := LONG;
                 confidence := 0.6;
                 entry_price := close (iloc power 2);
                 stop_price := series_min (map low (firstn 3 power));
                 target_price := close (iloc power 2) + a * 0.5;
                 description := "Power Hour Momentum Long: bullish trend continuing into close";
                 metadata := []
               |}]
             else if Rltb day_move 0 && Rltb first_moves 0 then
               [{|
                 timestamp := idx;
                 pattern := "power_hour_momentum";
                 direction := SHORT;
                 confidence := 0.6;
                 entry_price := close (iloc power 2);
                 stop_price := series_max (map high (firstn 3 power));
                 target_price := close (iloc power 2) - a * 0.5;
                 description := "Power Hour Momentum Short: bearish trend continuing into close";
                 metadata := []
               |}]
             else []
           else [])
    (groupby_date rows).

(* --- Chart Patterns --- *)

Definition _detect_double_bottom (ctx : Ctx) : list Signal :=
  let rows := df ctx in
  flat_map
    (fun g : Z * list Row =>
       let (date, group) := g in
       if (len group <? 15)%nat then []
       else if detect_double_bottom (map low group) (len group) then
         let idx := index (iloc_last group) in
         let a := atr_at rows idx in
         [{|
           timestamp := idx;
           pattern := "double_bottom";
           direction := LONG;
           confidence := 0.65;
           entry_price := close (iloc_last group);
           stop_price := series_min (map low group) - a * 0.2;
           target_price :=
             close (iloc_last group)
             + (close (iloc_last group) - series_min (map low group));
           description := "Double Bottom: bullish reversal pattern detected";
           metadata := []
         |}]
       else [])
    (groupby_date rows).

Definition _detect_double_top (ctx : Ctx) : list Signal :=
  let rows := df ctx in
  flat_map
    (fun g : Z * list Row =>
       let (date, group) := g in
       if (len group <? 15)%nat then []
       else if detect_double_top (map high group) (len group) then
         let idx := index (iloc_last group) in
         let a := atr_at rows idx in
         [{|
           timestamp := idx;
           pattern := "double_top";
           direction := SHORT;
           confidence := 0.65;
           entry_price := close (iloc_last group);
           stop_price := series_max (map high group) + a * 0.2;
           target_price :=
             close (iloc_last group)
             - (series_max (map high group) - close (iloc_last group));
           description := "Double Top: bearish reversal pattern detected";
           metadata := []
         |}]
       else [])
    (groupby_date rows).

(* --- Support/Resistance --- *)

Definition _detect_support_bounce (ctx : Ctx) : list Signal :=
  let rows := df ctx in
  let (supports, _) :=
    find_support_resistance (map high rows) (map low rows) (map close rows)
      (Config.sr_lookback_days config * 78) in   (* Approx bars *)
  match supports with
  | [] => []
  | _ =>
      flat_map
        (fun i =>
           let idx := index (iloc rows i) in
           first_signal
             (fun s_level =>
                let proximity :=
                  x <- np_div (Rabs (low (iloc rows (i - 1)) - s_level)) s_level ;;
                  Some (x * 100) in
                if fl_lt proximity (Some (Config.sr_proximity_pct config))
                   && Rgtb (close (iloc rows i)) (close (iloc rows (i - 1)))
                then
                  let a := atr_at rows idx in
                  Some {|
                    timestamp := idx;
                    pattern := "support_bounce";
                    direction := LONG;
                    confidence := 0.6;
                    entry_price := close (iloc rows i);
                    stop_price := s_level - a * 0.3;
                    target_price := close (iloc rows i) + a;
                    description := "Support Bounce: bounced off support";
                    metadata := [("support_level", s_level)]%string
                  |}
                else None)
             (firstn 3 supports))
        (range 2 (len rows))
  end.

Definition _detect_resistance_rejection (ctx : Ctx) : list Signal :=
  let rows := df ctx in
  let (_, resistances) :=
    find_support_resistance (map high rows) (map low rows) (map close rows)
      (Config.sr_lookback_days config * 78) in
  match resistances with
  | [] => []
  | _ =>
      flat_map
        (fun i =>
           let idx := index (iloc rows i) in
           first_signal
             (fun r_level =>
                let proximity :=
                  x <- np_div (Rabs (high (iloc rows (i - 1)) - r_level)) r_level ;;
                  Some (x * 100) in
                if fl_lt proximity (Some (Config.sr_proximity_pct config))
                   && Rltb (close (iloc rows i)) (close (iloc rows (i - 1)))
                then
                  let a := atr_at rows idx in
                  Some {|
                    timestamp := idx;
                    pattern := "resistance_rejection";
                    direction := SHORT;
                    confidence := 0.6;
                    entry_price := close (iloc rows i);
                    stop_price := r_level + a * 0.3;
                    target_price := close (iloc rows i) - a;
                    description := "Resistance Rejection: rejected at resistance";
                    metadata := [("resistance_level", r_level)]%string
                  |}
                else None)
             (firstn 3 resistances))
        (range 2 (len rows))
  end.

(* --- scan --- *)

(** What a call of a detector does: it returns its signals, or an
    exception (a subclass of [Exception]) leaves it. *)
Inductive outcome :=
| Returns (pattern_signals : list Signal)
| Raises.

Definition detector := Ctx -> outcome.

(** The loop of [scan] over the detector table: a detector runs when
    its name is enabled; the [try] extends [signals] by what it
    returns and the [except Exception: pass] drops a detector that
    raised. *)
Fixpoint run_detectors (enabled : list string)
    (detectors : list (string * detector)) (ctx : Ctx)
    (signals : list Signal) : list Signal :=
  match detectors with
  | [] => signals
  | (name, detect) :: rest =>
      if existsb (String.eqb name) enabled then
        match detect ctx with
        | Returns pattern_signals =>
            run_detectors enabled rest ctx (signals ++ pattern_signals)
        | Raises => run_detectors enabled rest ctx signals
        end
      else run_detectors enabled rest ctx signals
  end.

(** [signals.sort(key=lambda s: s.timestamp)]: a stable sort. *)
Fixpoint insert_by_timestamp (s : Signal) (l : list Signal) : list Signal :=
  match l with
  | [] => [s]
  | x :: l' =>
      if (timestamp s <=? timestamp x)%Z then s :: l
      else x :: insert_by_timestamp s l'
  end.

Definition sort_by_timestamp (l : list Signal) : list Signal :=
  fold_right insert_by_timestamp [] l.

(** The detector table of [scan], in its order. *)
Definition detectors : list (string * detector) :=
  map (fun p : string * (Ctx -> list Signal) =>
         (fst p, fun ctx => Returns (snd p ctx)))
    [ ("opening_range_breakout", _detect_orb_long);
      ("opening_range_breakdown", _detect_orb_short);
      ("vwap_rejection_long", _detect_vwap_rejection_long);
      ("vwap_rejection_short", _detect_vwap_rejection_short);
      ("vwap_crossover_long", _detect_vwap_cross_long);
      ("vwap_crossover_short", _detect_vwap_cross_short);
      ("macd_bullish_cross", _detect_macd_bull);
      ("macd_bearish_cross", _detect_macd_bear);
      ("rsi_oversold_bounce", _detect_rsi_oversold);
      ("rsi_overbought_fade", _detect_rsi_overbought);
      ("ema_bullish_cross", _detect_ema_bull_cross);
      ("ema_bearish_cross", _detect_ema_bear_cross);
      ("bollinger_squeeze_breakout", _detect_bb_squeeze);
      ("volume_spike_continuation", _detect_volume_spike);
      ("mean_reversion_long", _detect_mean_rev_long);
      ("mean_reversion_short", _detect_mean_rev_short);
      ("gap_fill_long", _detect_gap_fill_long);
      ("gap_fill_short", _detect_gap_fill_short);
      ("previous_day_high_break", _detect_prev_high_break);
      ("previous_day_low_break", _detect_prev_low_break);
      ("midday_reversal", _detect_midday_reversal);
      ("power_hour_momentum", _detect_power_hour);
      ("double_bottom", _detect_double_bottom);
      ("double_top", _detect_double_top);
      ("support_bounce", _detect_support_bounce);
      ("resistance_rejection", _detect_resistance_rejection) ]%string.

(** The body of [scan] from the point where the context has been built,
    over a detector table: the loop, then the sort. *)
Definition scan_table (enabled : list string)
    (table : list (string * detector)) (ctx : Ctx) : list Signal :=
  let signals := run_detectors enabled table ctx [] in
  sort_by_timestamp signals.

Definition scan (ctx : Ctx) : list Signal :=
  scan_table (Config.enabled_patterns config) detectors ctx.

End Detectors.

End Patterns.

(** ** backtester.py *)

Module Backtest.
Import Py.

(** Results from a backtest run. *)
Record BacktestResult := {
  trades : list OptionsModel.OptionTrade;
  initial_capital : R;
  final_capital : R;
  config : Config.AgentConfig
}.

Definition total_trades (r : BacktestResult) : nat := len (trades r).

Definition winners (r : BacktestResult) : list OptionsModel.OptionTrade :=
  filter (fun t => Rgtb (OptionsModel.total_pnl t) 0) (trades r).

Definition losers (r : BacktestResult) : list OptionsModel.OptionTrade :=
  filter (fun t => Rleb (OptionsModel.total_pnl t) 0) (trades r).

Definition win_rate (r : BacktestResult) : option R :=
  if (total_trades r =? 0)%nat then Some 0
  else
    q <- py_div (INR (len (winners r))) (INR (total_trades r)) ;;
    Some (q * 100).

Definition total_pnl (r : BacktestResult) : R :=
  Py.sum (map OptionsModel.total_pnl (trades r)).

Definition avg_pnl (r : BacktestResult) : option R :=
  if (total_trades r =? 0)%nat then Some 0
  else py_div (total_pnl r) (INR (total_trades r)).

(** [np.maximum.accumulate]: the running maximum. *)
Fixpoint maximum_accumulate_from (m : R) (l : list R) : list R :=
  match l with
  | [] => []
  | x :: l' => Rmax m x :: maximum_accumulate_from (Rmax m x) l'
  end.

Definition maximum_accumulate (l : list R) : list R :=
  match l with
  | [] => []
  | x :: l' => x :: maximum_accumulate_from x l'
  end.

(** [(eq - peak) / peak * 100], elementwise. *)
Fixpoint drawdowns (eq peak : list R) : list (option R) :=
  match eq, peak with
  | e :: eq', p :: peak' =>
      (q <- np_div (e - p) p ;; Some (q * 100)) :: drawdowns eq' peak'
  | _, _ => []
  end.

(** [dd.min()] of a non-empty array: a non-finite entry makes the
    result non-finite. *)
Fixpoint np_min (l : list (option R)) : option R :=
  match l with
  | [] => None
  | [x] => x
  | x :: l' => a <- x ;; b <- np_min l' ;; Some (Rmin a b)
  end.

Definition equity_curve (r : BacktestResult) : list R :=
  fold_left
    (fun equity t => equity ++ [last equity 0 + OptionsModel.total_pnl t])
    (trades r) [initial_capital r].

Definition max_drawdown (r : BacktestResult) : option R :=
  match trades r with
  | [] => Some 0
  | _ =>
      let eq := equity_curve r in
      let peak := maximum_accumulate eq in
      let dd := drawdowns eq peak in
      np_min dd
  end.

Fixpoint map_m {A B : Type} (f : A -> option B) (l : list A) : option (list B) :=
  match l with
  | [] => Some []
  | a :: l' => b <- f a ;; bs <- map_m f l' ;; Some (b :: bs)
  end.

(** [np.mean] and [np.std] (population standard deviation). *)
Definition np_mean (l : list R) : R := Py.sum l / INR (len l).
Definition np_std (l : list R) : R :=
  sqrt (np_mean (map (fun x => (x - np_mean l) ^ 2) l)).

(** The returns and their deviation are exact reals here, so the guard
    [std_ret == 0] holds exactly when the returns are all equal; the
    float64 deviation NumPy computes for equal returns can be a
    rounding residue instead of 0, and then the guard is passed. *)
Definition sharpe_ratio (r : BacktestResult) : option R :=
  if (len (trades r) <? 2)%nat then Some 0
  else
    returns <- map_m OptionsModel.pnl_pct (trades r) ;;
    let avg_ret := np_mean returns in
    let std_ret := np_std returns in
    if Reqb std_ret 0 then Some 0
    else
      (* Annualize: ~252 trading days *)
      q <- py_div avg_ret std_ret ;;
      Some (q * sqrt 252).

Definition avg_winner (r : BacktestResult) : option R :=
  match winners r with
  | [] => Some 0
  | _ :: _ =>
      py_div (Py.sum (map OptionsModel.total_pnl (winners r)))
        (INR (len (winners r)))
  end.

Definition avg_loser (r : BacktestResult) : option R :=
  match losers r with
  | [] => Some 0
  | _ :: _ =>
      py_div (Py.sum (map OptionsModel.total_pnl (losers r)))
        (INR (len (losers r)))
  end.

(** A float that may be [float("inf")]. *)
Inductive ext_float :=
| Finite (x : R)
| Infinity.

Definition profit_factor (r : BacktestResult) : option ext_float :=
  let gross_profit := Py.sum (map OptionsModel.total_pnl (winners r)) in
  let gross_loss := Rabs (Py.sum (map OptionsModel.total_pnl (losers r))) in
  if Reqb gross_loss 0 then
    Some (if Rgtb gross_profit 0 then Infinity else Finite 0)
  else
    q <- py_div gross_profit gross_loss ;;
    Some (Finite q).

Definition avg_duration_minutes (r : BacktestResult) : R :=
  match trades r with
  | [] => 0
  | _ :: _ => np_mean (map OptionsModel.duration_minutes (trades r))
  end.

(** A Python dict as an association list in insertion order:
    [k in d], [d[k]] and [d[k] = v]. *)
Section Dict.
Context {Key V : Type} (eqb : Key -> Key -> bool).

Fixpoint dict_get (k : Key) (d : list (Key * V)) : option V :=
  match d with
  | [] => None
  | (k', v) :: d' => if eqb k k' then Some v else dict_get k d'
  end.

Fixpoint dict_set (k : Key) (v : V) (d : list (Key * V)) : list (Key * V) :=
  match d with
  | [] => [(k, v)]
  | (k', v') :: d' =>
      if eqb k k' then (k', v) :: d' else (k', v') :: dict_set k v d'
  end.

End Dict.

(** The per-pattern dictionary of [pattern_breakdown] while the trades
    are counted, and once the rates are added. *)
Record PatternTally := {
  tally_trades : list OptionsModel.OptionTrade;
  tally_pnl : R;
  tally_wins : nat;
  tally_count : nat
}.

Record PatternStats := {
  stats_trades : list OptionsModel.OptionTrade;
  stats_pnl : R;
  stats_wins : nat;
  stats_count : nat;
  stats_win_rate : R;
  stats_avg_pnl : R
}.

Definition count_pattern (patterns : list (string * PatternTally))
    (t : OptionsModel.OptionTrade) : list (string * PatternTally) :=
  let key := OptionsModel.pattern t in
  let patterns :=
    match dict_get String.eqb key patterns with
    | None =>
        dict_set String.eqb key
          {| tally_trades := []; tally_pnl := 0;
             tally_wins := 0; tally_count := 0 |} patterns
    | Some _ => patterns
    end in
  match dict_get String.eqb key patterns with
  | None => patterns
  | Some p =>
      dict_set String.eqb key
        {| tally_trades := tally_trades p ++ [t];
           tally_pnl := tally_pnl p + OptionsModel.total_pnl t;
           tally_wins :=
             if Rgtb (OptionsModel.total_pnl t) 0
             then (tally_wins p + 1)%nat else tally_wins p;
           tally_count := (tally_count p + 1)%nat |}
        patterns
  end.

Definition pattern_rates (p : PatternTally) : PatternStats :=
  {| stats_trades := tally_trades p;
     stats_pnl := tally_pnl p;
     stats_wins := tally_wins p;
     stats_count := tally_count p;
     stats_win_rate :=
       if (0 <? tally_count p)%nat
       then INR (tally_wins p) / INR (tally_count p) * 100 else 0;
     stats_avg_pnl :=
       if (0 <? tally_count p)%nat
       then tally_pnl p / INR (tally_count p) else 0 |}.

(** [sorted(items, key=lambda x: x[1]["pnl"], reverse=True)]: a stable
    sort, largest P&L first. *)
Fixpoint insert_by_pnl (x : string * PatternStats)
    (l : list (string * PatternStats)) : list (string * PatternStats) :=
  match l with
  | [] => [x]
  | y :: l' =>
      if Rgeb (stats_pnl (snd x)) (stats_pnl (snd y)) then x :: l
      else y :: insert_by_pnl x l'
  end.

Definition pattern_breakdown (r : BacktestResult)
    : list (string * PatternStats) :=
  let patterns := fold_left count_pattern (trades r) [] in
  let patterns := map (fun kp => (fst kp, pattern_rates (snd kp))) patterns in
  fold_right insert_by_pnl [] patterns.

(** The per-hour dictionary of [hour_breakdown]. *)
Record HourTally := {
  hour_pnl : R;
  hour_wins : nat;
  hour_count : nat
}.

Record HourStats := {
  hstats_pnl : R;
  hstats_wins : nat;
  hstats_count : nat;
  hstats_win_rate : R
}.

(** [t.entry_time.hour] *)
Definition entry_hour (t : OptionsModel.OptionTrade) : Z :=
  (time_of (OptionsModel.entry_time t) / 60)%Z.

Definition count_hour (breakdown : list (Z * HourTally))
    (t : OptionsModel.OptionTrade) : list (Z * HourTally) :=
  let hour := entry_hour t in
  let breakdown :=
    match dict_get Z.eqb hour breakdown with
    | None =>
        dict_set Z.eqb hour
          {| hour_pnl := 0; hour_wins := 0; hour_count := 0 |} breakdown
    | Some _ => breakdown
    end in
  match dict_get Z.eqb hour breakdown with
  | None => breakdown
  | Some h =>
      dict_set Z.eqb hour
        {| hour_pnl := hour_pnl h + OptionsModel.total_pnl t;
           hour_wins :=
             if Rgtb (OptionsModel.total_pnl t) 0
             then (hour_wins h + 1)%nat else hour_wins h;
           hour_count := (hour_count h + 1)%nat |}
        breakdown
  end.

Definition hour_rates (h : HourTally) : HourStats :=
  {| hstats_pnl := hour_pnl h;
     hstats_wins := hour_wins h;
     hstats_count := hour_count h;
     hstats_win_rate :=
       if (0 <? hour_count h)%nat
       then INR (hour_wins h) / INR (hour_count h) * 100 else 0 |}.

(** [sorted(breakdown.items())]: by hour, the keys being distinct. *)
Fixpoint insert_by_hour (x : Z * HourStats) (l : list (Z * HourStats))
    : list (Z * HourStats) :=
  match l with
  | [] => [x]
  | y :: l' =>
      if (fst x <=? fst y)%Z then x :: l else y :: insert_by_hour x l'
  end.

Definition hour_breakdown (r : BacktestResult) : list (Z * HourStats) :=
  let breakdown := fold_left count_hour (trades r) [] in
  let breakdown := map (fun kh => (fst kh, hour_rates (snd kh))) breakdown in
  fold_right insert_by_hour [] breakdown.

(** The dictionary [_find_exit] returns. *)
Record ExitResult := {
  exit_time : Timestamp;
  exit_price : R;
  exit_premium : R;
  exit_reason : string
}.

Section Backtester.

(** [self.config] *)
Variable cfg : Config.AgentConfig.

Variable detect_double_bottom : list R -> nat -> bool.
Variable detect_double_top : list R -> nat -> bool.
Variable find_support_resistance :
  list R -> list R -> list R -> Z -> list R * list R.

(** The loop of [_find_exit] over the forward bars: [Some None] when
    no bar triggers the stop or the target. *)
Fixpoint exit_scan (market_close : Timestamp)
    (opt_type : OptionsModel.OptionType) (strike iv : R)
    (stop_premium target_premium : R)
    (forward : list Patterns.Row) : option (option ExitResult) :=
  match forward with
  | [] => Some None
  | bar :: rest =>
      let bar_time := Patterns.index bar in
      let bar_price := Patterns.close bar in
      let minutes_left := Rmax (minutes_between market_close bar_time) 0.1 in
      let T := minutes_left / 60 / (252 * 6.5) in
      (* Recalculate premium with new underlying price and time decay *)
      current_premium <-
        OptionsModel.black_scholes_price bar_price strike T
          (Config.risk_free_rate cfg) iv opt_type ;;
      (* Check stop loss *)
      if Rleb current_premium stop_premium then
        Some (Some {| exit_time := bar_time; exit_price := bar_price;
                      exit_premium := stop_premium;
                      exit_reason := "stop_loss" |})
      (* Check profit target *)
      else if Rgeb current_premium target_premium then
        Some (Some {| exit_time := bar_time; exit_price := bar_price;
                      exit_premium := target_premium;
                      exit_reason := "profit_target" |})
      else
        exit_scan market_close opt_type strike iv
          stop_premium target_premium rest
  end.

Definition _find_exit (signal : Patterns.Signal) (df : list Patterns.Row)
    (opt_type : OptionsModel.OptionType) (strike iv entry_premium : R)
    (initial_minutes_to_close : R) : option ExitResult :=
  let stop_pct := Config.max_loss_per_trade_pct cfg / 100 in
  let target_pct := Config.profit_target_pct cfg / 100 in
  let stop_premium := entry_premium * (1 - stop_pct) in
  let target_premium := entry_premium * (1 + target_pct) in
  (* Get forward bars from signal *)
  let forward :=
    filter (fun b => (Patterns.timestamp signal <? Patterns.index b)%Z) df in
  (* Only look at same day *)
  let signal_date := date_of (Patterns.timestamp signal) in
  let forward :=
    filter (fun b => (date_of (Patterns.index b) =? signal_date)%Z) forward in
  let market_close := combine signal_date 16 0 in
  found <- exit_scan market_close opt_type strike iv
             stop_premium target_premium forward ;;
  match found with
  | Some e => Some e
  | None =>
      (* Expired - calculate final premium *)
      match forward with
      | _ :: _ =>
          let final_bar := Patterns.iloc_last forward in
          let final_price := Patterns.close final_bar in
          (* At expiration, option is worth intrinsic value *)
          let final_premium :=
            match opt_type with
            | OptionsModel.CALL => Rmax (final_price - strike) 0
            | OptionsModel.PUT => Rmax (strike - final_price) 0
            end in
          Some {| exit_time := Patterns.index final_bar;
                  exit_price := final_price;
                  exit_premium := final_premium;
                  exit_reason := "expiration" |}
      | [] =>
          (* No forward data - assume loss *)
          Some {| exit_time := Patterns.timestamp signal;
                  exit_price := Patterns.entry_price signal;
                  exit_premium := 0;
                  exit_reason := "no_data" |}
      end
  end.

(** The [# Position sizing] block of [_simulate_trades]; [None] is
    its [continue].  The premium is at least 0.05 where the block
    runs, so its divisions are real divisions. *)
Definition position_sizing (capital entry_premium : R) : option Z :=
  let position_value := capital * Config.position_size_pct cfg / 100 in
  let contracts :=
    Z.max (py_int (position_value / (entry_premium * 100))) 1 in
  let cost := IZR contracts * entry_premium * 100 in
  if Rgtb cost capital then
    let contracts := Z.max (py_int (capital / (entry_premium * 100))) 1 in
    if (contracts =? 0)%Z then None else Some contracts
  else Some contracts.

(** The loop of [_simulate_trades], with its three local variables
    as state; the running [capital] is returned beside the trades. *)
Fixpoint simulate_loop (signals : list Patterns.Signal)
    (df : list Patterns.Row) (trades : list OptionsModel.OptionTrade)
    (capital : R) (active_trade_date : option Z)
    : option (list OptionsModel.OptionTrade * R) :=
  match signals with
  | [] => Some (trades, capital)
  | signal :: rest =>
      let trade_date := date_of (Patterns.timestamp signal) in
      (* Skip if we already have a trade today *)
      if match active_trade_date with
         | Some d => (d =? trade_date)%Z
         | None => false
         end
      then simulate_loop rest df trades capital active_trade_date
      else
        (* Determine option type *)
        let opt_type :=
          match Patterns.direction signal with
          | Patterns.LONG => OptionsModel.CALL
          | Patterns.SHORT => OptionsModel.PUT
          end in
        (* Select ATM strike *)
        let strike :=
          IZR (OptionsModel.select_strike
                 (Patterns.entry_price signal) opt_type "ATM") in
        (* Calculate time to close *)
        let market_close :=
          combine (date_of (Patterns.timestamp signal)) 16 0 in
        let minutes_to_close :=
          Rmax (minutes_between market_close (Patterns.timestamp signal)) 1 in
        (* Estimate IV and premium *)
        let iv :=
          OptionsModel.estimate_iv_from_time minutes_to_close
            (Config.default_iv cfg) in
        let T := minutes_to_close / 60 / (252 * 6.5) in
        entry_premium <-
          OptionsModel.black_scholes_price (Patterns.entry_price signal)
            strike T (Config.risk_free_rate cfg) iv opt_type ;;
        if Rltb entry_premium 0.05 then
          (* Skip too cheap options *)
          simulate_loop rest df trades capital active_trade_date
        else
          match position_sizing capital entry_premium with
          | None => simulate_loop rest df trades capital active_trade_date
          | Some contracts =>
              (* Simulate exit using forward bars *)
              exit_result <-
                _find_exit signal df opt_type strike iv entry_premium
                  minutes_to_close ;;
              let trade := {|
                OptionsModel.entry_time := Patterns.timestamp signal;
                OptionsModel.exit_time := Some (exit_time exit_result);
                OptionsModel.option_type := opt_type;
                OptionsModel.strike := strike;
                OptionsModel.entry_underlying := Patterns.entry_price signal;
                OptionsModel.exit_underlying := Some (exit_price exit_result);
                OptionsModel.entry_premium := entry_premium;
                OptionsModel.exit_premium := Some (exit_premium exit_result);
                OptionsModel.contracts := contracts;
                OptionsModel.pattern := Patterns.pattern signal;
                OptionsModel.direction :=
                  Patterns.direction_value (Patterns.direction signal);
                OptionsModel.iv := iv
              |} in
              let trades := trades ++ [trade] in
              let capital := capital + OptionsModel.total_pnl trade in
              (* Apply slippage and commissions *)
              let capital :=
                capital
                - IZR contracts * Config.commission_per_contract cfg * 2 in
              let capital :=
                capital
                - Rabs (OptionsModel.total_pnl trade)
                  * Config.slippage_pct cfg / 100 in
              if Rleb capital 0 then Some (trades, capital)
              else simulate_loop rest df trades capital (Some trade_date)
          end
  end.

Definition _simulate_trades (signals : list Patterns.Signal)
    (df : list Patterns.Row) : option (list OptionsModel.OptionTrade) :=
  r <- simulate_loop signals df [] (Config.initial_capital cfg) None ;;
  Some (fst r).

(** [run], from the detection context on: the data retrieval that
    builds the frame is outside the core. *)
Definition run (ctx : Patterns.Ctx) : option BacktestResult :=
  (* Detect all patterns *)
  let signals :=
    Patterns.scan cfg detect_double_bottom detect_double_top
      find_support_resistance ctx in
  (* Filter by confidence *)
  let signals :=
    filter (fun s => Rgeb (Patterns.confidence s)
                          (Config.min_pattern_confidence cfg)) signals in
  (* Simulate trades *)
  trades <- _simulate_trades signals (Patterns.df ctx) ;;
  (* Calculate final capital *)
  let final_capital :=
    Config.initial_capital cfg
    + Py.sum (map OptionsModel.total_pnl trades) in
  Some {| trades := trades;
          initial_capital := Config.initial_capital cfg;
          final_capital := final_capital;
          config := cfg |}.

End Backtester.

End Backtest.

(** ** alerts.py *)

Module Alerts.
Import Py.

(** Manages alerts with cooldowns and filtering. *)
Record AlertManager := {
  cooldown_seconds : Z;
  min_confidence : R;
  webhook_url : option string;
  sound_enabled : bool;
  _last_alerts : list (string * Timestamp)
}.

(** [AlertManager.__init__]; [environ] is the value of the
    environment variable SPY_AGENT_WEBHOOK_URL, used when no webhook
    (or an empty one) is given. *)
Definition init (cooldown_seconds : Z) (min_confidence : R)
    (webhook_url : option string) (sound_enabled : bool)
    (environ : option string) : AlertManager :=
  {| cooldown_seconds := cooldown_seconds;
     min_confidence := min_confidence;
     webhook_url :=
       match webhook_url with
       | Some url => if String.eqb url "" then environ else Some url
       | None => environ
       end;
     sound_enabled := sound_enabled;
     _last_alerts := [] |}.

(** [f"{signal.pattern}_{signal.direction.value}"] *)
Definition alert_key (signal : Patterns.Signal) : string :=
  (Patterns.pattern signal ++ "_"
   ++ Patterns.direction_value (Patterns.direction signal))%string.

(** Check if we should fire an alert for this signal.  The time
    elapsed is in seconds, timestamps being in minutes. *)
Definition should_alert (self : AlertManager) (signal : Patterns.Signal)
    : bool :=
  if Rltb (Patterns.confidence signal) (min_confidence self) then false
  else
    let key := alert_key signal in
    let now := Patterns.timestamp signal in
    match Backtest.dict_get String.eqb key (_last_alerts self) with
    | Some last =>
        let elapsed := (60 * (now - last))%Z in
        if (elapsed <? cooldown_seconds self)%Z then false else true
    | None => true
    end.

Section Alert.

(** [self._format_alert], the text of an alert. *)
Variable _format_alert : Patterns.Signal -> string.

(** Fire alert for a signal: the manager afterwards and the formatted
    alert string.  Sending the webhook and ringing the bell leave the
    manager as it is. *)
Definition alert (self : AlertManager) (signal : Patterns.Signal)
    : AlertManager * string :=
  if negb (should_alert self signal) then (self, ""%string)
  else
    let key := alert_key signal in
    let now := Patterns.timestamp signal in
    let self :=
      {| cooldown_seconds := cooldown_seconds self;
         min_confidence := min_confidence self;
         webhook_url := webhook_url self;
         sound_enabled := sound_enabled self;
         _last_alerts :=
           Backtest.dict_set String.eqb key now (_last_alerts self) |} in
    let alert_text := _format_alert signal in
    (self, alert_text).

End Alert.

(** [s * n] on a string: [n] copies, none when [n] is not positive. *)
Fixpoint str_repeat (s : string) (n : nat) : string :=
  match n with
  | O => ""%string
  | S n' => (s ++ str_repeat s n')%string
  end.

(** Create a text-based confidence bar. *)
Definition _confidence_bar (confidence : R) : string :=
  let filled := py_int (confidence * 10) in
  ("[" ++ str_repeat "#" (Z.to_nat filled)
   ++ str_repeat "-" (Z.to_nat (10 - filled)) ++ "]")%string.

End Alerts.

(** * Vocabulary of the properties *)

(** The confidence of a signal is a number of the unit interval. *)
Definition confidence_in_unit_interval (s : Patterns.Signal) : Prop :=
  0 <= Patterns.confidence s <= 1.

(** The risk:reward of a signal is computed without a division by
    zero: it is |target - entry| / |entry - stop| when entry and stop
    differ and 0 when they coincide.  So it is not negative, and it is
    0 exactly when entry equals stop or target equals entry. *)
Definition risk_reward_well_defined (s : Patterns.Signal) : Prop :=
  exists v, Patterns.risk_reward s = Some v
            /\ 0 <= v
            /\ (Patterns.entry_price s = Patterns.stop_price s -> v = 0)
            /\ (Patterns.entry_price s <> Patterns.stop_price s ->
                v = Rabs (Patterns.target_price s - Patterns.entry_price s)
                    / Rabs (Patterns.entry_price s - Patterns.stop_price s))
            /\ (v = 0 <-> Patterns.entry_price s = Patterns.stop_price s
                          \/ Patterns.target_price s = Patterns.entry_price s).

Definition well_formed (s : Patterns.Signal) : Prop :=
  confidence_in_unit_interval s /\ risk_reward_well_defined s.

(** The trading day of a signal, and "at most one signal per day". *)
Definition signal_date (s : Patterns.Signal) : Z :=
  date_of (Patterns.timestamp s).

Definition one_signal_per_day (signals : list Patterns.Signal) : Prop :=
  NoDup (map signal_date signals).

(** What a detector call contributes to a scan. *)
Definition returned (o : Patterns.outcome) : list Patterns.Signal :=
  match o with
  | Patterns.Returns pattern_signals => pattern_signals
  | Patterns.Raises => []
  end.

(** The signals of the detectors of a table that are enabled and did
    not raise, in table order. *)
Definition combined_signals (enabled : list string)
    (table : list (string * Patterns.detector)) (ctx : Patterns.Ctx)
    : list Patterns.Signal :=
  flat_map
    (fun nd : string * Patterns.detector =>
       if existsb (String.eqb (fst nd)) enabled
       then returned (snd nd ctx) else [])
    table.

(** The calendar date on which a trade was entered. *)
Definition entry_date (t : OptionsModel.OptionTrade) : Z :=
  date_of (OptionsModel.entry_time t).

(** A signal stream in chronological order, as [scan] produces it. *)
Definition chronological (signals : list Patterns.Signal) : Prop :=
  Sorted (fun a b => (Patterns.timestamp a <= Patterns.timestamp b)%Z) signals.

(** Capital after a trade, from the capital before it: plus the trade's
    P&L, minus the round-trip commission, minus the slippage cost. *)
Definition settle (cfg : Config.AgentConfig) (capital : R)
    (t : OptionsModel.OptionTrade) : R :=
  capital + OptionsModel.total_pnl t
  - IZR (OptionsModel.contracts t) * Config.commission_per_contract cfg * 2
  - Rabs (OptionsModel.total_pnl t) * Config.slippage_pct cfg / 100.

(** The running capital after the last trade of a sequence. *)
Definition running_capital (cfg : Config.AgentConfig)
    (trades : list OptionsModel.OptionTrade) : R :=
  fold_left (settle cfg) trades (Config.initial_capital cfg).

(** What a trade costs beyond its P&L. *)
Definition trade_costs (cfg : Config.AgentConfig)
    (t : OptionsModel.OptionTrade) : R :=
  IZR (OptionsModel.contracts t) * Config.commission_per_contract cfg * 2
  + Rabs (OptionsModel.total_pnl t) * Config.slippage_pct cfg / 100.

(** An exponential majorant of the Gaussian integrand, [exp(1/2 - t)],
    through its antiderivative: it bounds the integral in [norm_cdf]. *)
Definition tail (t : R) : R := - exp (1 / 2 - t).

Lemma tail_derivable : derivable tail.
Proof. unfold tail. intro x. reg. Qed.

Lemma tail_derive (t : R) :
  derive_pt tail t (tail_derivable t) = exp (1 / 2 - t).
Proof. unfold tail. reg. Qed.

Lemma tail_continuity : continuity (derive tail tail_derivable).
Proof.
  intro t.
  apply (continuity_pt_locally_ext (fun u => exp (1 / 2 - u)) _ 1 t);
    [lra | |].
  - intros u _. unfold derive. now rewrite tail_derive.
  - apply derivable_continuous_pt. reg.
Qed.

Definition tail_C1 : C1_fun := @mkC1 tail tail_derivable tail_continuity.

(** The two arguments of the distribution function in
    [black_scholes_price], and the price before the floor of 0.01, as
    functions of the time to expiry. *)
Definition bs_d1 (S K r sigma T : R) : R :=
  (ln (S / K) + (r + 0.5 * sigma ^ 2) * T) / (sigma * sqrt T).

Definition bs_d2 (S K r sigma T : R) : R :=
  bs_d1 S K r sigma T - sigma * sqrt T.

Definition bs_value (S K r sigma : R) (option_type : OptionsModel.OptionType)
    (T : R) : R :=
  match option_type with
  | OptionsModel.CALL =>
      S * OptionsModel.norm_cdf (bs_d1 S K r sigma T)
      - K * exp (- r * T) * OptionsModel.norm_cdf (bs_d2 S K r sigma T)
  | OptionsModel.PUT =>
      K * exp (- r * T) * OptionsModel.norm_cdf (- bs_d2 S K r sigma T)
      - S * OptionsModel.norm_cdf (- bs_d1 S K r sigma T)
  end.

(** One Greek of [calculate_greeks] as a number ([0] where it raises). *)
Definition greek (f : OptionsModel.Greeks -> R) (S K T r sigma : R)
    (option_type : OptionsModel.OptionType) : R :=
  match OptionsModel.calculate_greeks S K T r sigma option_type with
  | Some g => f g
  | None => 0
  end.

(** The price [black_scholes_price] returns, as a number ([0] where it
    raises). *)
Definition quoted_price (S K T r sigma : R)
    (option_type : OptionsModel.OptionType) : R :=
  match OptionsModel.black_scholes_price S K T r sigma option_type with
  | Some p => p
  | None => 0
  end.

(** The equity after each trade, from the equity [e] before them. *)
Fixpoint running_equity (e : R) (ts : list OptionsModel.OptionTrade) : list R :=
  match ts with
  | [] => []
  | t :: ts' =>
      (e + OptionsModel.total_pnl t)
      :: running_equity (e + OptionsModel.total_pnl t) ts'
  end.

(** [picked] is the second list with some of its elements left out. *)
Inductive subsequence {A : Type} : list A -> list A -> Prop :=
| subsequence_nil : subsequence [] []
| subsequence_skip (x : A) (picked l : list A) :
    subsequence picked l -> subsequence picked (x :: l)
| subsequence_take (x : A) (picked l : list A) :
    subsequence picked l -> subsequence (x :: picked) (x :: l).

(** What the simulator copies from a signal into the trade it opens on
    it, and how it sizes the trade. *)
Definition opened_on (s : Patterns.Signal) (t : OptionsModel.OptionTrade)
    : Prop :=
  OptionsModel.entry_time t = Patterns.timestamp s
  /\ OptionsModel.entry_underlying t = Patterns.entry_price s
  /\ OptionsModel.pattern t = Patterns.pattern s
  /\ OptionsModel.direction t = Patterns.direction_value (Patterns.direction s)
  /\ OptionsModel.option_type t
     = match Patterns.direction s with
       | Patterns.LONG => OptionsModel.CALL
       | Patterns.SHORT => OptionsModel.PUT
       end
  /\ OptionsModel.strike t = IZR (Py.py_round (Patterns.entry_price s))
  /\ 0.05 <= OptionsModel.entry_premium t
  /\ (1 <= OptionsModel.contracts t)%Z.

(** How the simulator closes a trade: on the day of entry, not before
    the entry, at the stop premium, at the target premium, at the
    intrinsic value of the day's last bar, or at 0 when no bar follows. *)
Definition closed_same_day (cfg : Config.AgentConfig)
    (t : OptionsModel.OptionTrade) : Prop :=
  exists e u x,
    OptionsModel.exit_time t = Some e
    /\ OptionsModel.exit_underlying t = Some u
    /\ OptionsModel.exit_premium t = Some x
    /\ (OptionsModel.entry_time t <= e)%Z
    /\ date_of e = date_of (OptionsModel.entry_time t)
    /\ (x = OptionsModel.entry_premium t
            * (1 - Config.max_loss_per_trade_pct cfg / 100)
        \/ x = OptionsModel.entry_premium t
               * (1 + Config.profit_target_pct cfg / 100)
        \/ x = OptionsModel.intrinsic u (OptionsModel.strike t)
                 (OptionsModel.option_type t)
        \/ (x = 0 /\ e = OptionsModel.entry_time t)).

(** The bars of the frame that follow a trade's entry on the day of the
    entry, in frame order. *)
Definition later_bars (df : list Patterns.Row) (t : OptionsModel.OptionTrade)
    : list Patterns.Row :=
  filter (fun b => (OptionsModel.entry_time t <? Patterns.index b)%Z
                   && (date_of (Patterns.index b)
                       =? date_of (OptionsModel.entry_time t))%Z) df.

(** The premium of a trade's contract priced again at a bar: at the
    bar's close, with the time left to 16:00 of the entry day (at least
    0.1 minute), at the trade's volatility. *)
Definition repriced (cfg : Config.AgentConfig) (t : OptionsModel.OptionTrade)
    (bar : Patterns.Row) : option R :=
  let market_close := combine (date_of (OptionsModel.entry_time t)) 16 0 in
  let minutes_left :=
    Rmax (minutes_between market_close (Patterns.index bar)) 0.1 in
  OptionsModel.black_scholes_price (Patterns.close bar) (OptionsModel.strike t)
    (minutes_left / 60 / (252 * 6.5)) (Config.risk_free_rate cfg)
    (OptionsModel.iv t) (OptionsModel.option_type t).

Definition stop_premium (cfg : Config.AgentConfig)
    (t : OptionsModel.OptionTrade) : R :=
  OptionsModel.entry_premium t * (1 - Config.max_loss_per_trade_pct cfg / 100).

Definition target_premium (cfg : Config.AgentConfig)
    (t : OptionsModel.OptionTrade) : R :=
  OptionsModel.entry_premium t * (1 + Config.profit_target_pct cfg / 100).

(** A bar at which the trade is kept: the premium priced again lies
    strictly between the stop and the target. *)
Definition kept_at (cfg : Config.AgentConfig) (t : OptionsModel.OptionTrade)
    (bar : Patterns.Row) : Prop :=
  exists p, repriced cfg t bar = Some p
            /\ stop_premium cfg t < p < target_premium cfg t.

(** Where on the frame a trade is closed: at the first later bar of the
    day at which the premium priced again is at or under the stop (the
    exit is at the stop premium) or, failing that, at or over the
    target (at the target premium); when every later bar keeps the
    trade, at the last of them, at the intrinsic value of its close;
    and when there is no later bar, at the entry time and price, at a
    premium of 0. *)
Definition closed_on_frame (cfg : Config.AgentConfig)
    (df : list Patterns.Row) (t : OptionsModel.OptionTrade) : Prop :=
  exists e u x,
    OptionsModel.exit_time t = Some e
    /\ OptionsModel.exit_underlying t = Some u
    /\ OptionsModel.exit_premium t = Some x
    /\ ((exists earlier bar later p,
           later_bars df t = earlier ++ bar :: later
           /\ Forall (kept_at cfg t) earlier
           /\ repriced cfg t bar = Some p
           /\ e = Patterns.index bar
           /\ u = Patterns.close bar
           /\ ((p <= stop_premium cfg t /\ x = stop_premium cfg t)
               \/ (stop_premium cfg t < p /\ target_premium cfg t <= p
                   /\ x = target_premium cfg t)))
        \/ (later_bars df t <> []
            /\ Forall (kept_at cfg t) (later_bars df t)
            /\ e = Patterns.index (last (later_bars df t) Patterns.row0)
            /\ u = Patterns.close (last (later_bars df t) Patterns.row0)
            /\ x = OptionsModel.intrinsic u (OptionsModel.strike t)
                     (OptionsModel.option_type t))
        \/ (later_bars df t = []
            /\ e = OptionsModel.entry_time t
            /\ u = OptionsModel.entry_underlying t
            /\ x = 0)).

(** The patterns whose detector builds LONG signals only, and those
    whose detector builds SHORT signals only; the other four
    (Bollinger squeeze, volume spike, midday reversal, power hour)
    signal in the direction of the move. *)
Definition long_patterns : list string :=
  [ "opening_range_breakout"; "vwap_rejection_long"; "vwap_crossover_long";
    "macd_bullish_cross"; "rsi_oversold_bounce"; "ema_bullish_cross";
    "mean_reversion_long"; "gap_fill_long"; "previous_day_high_break";
    "double_bottom"; "support_bounce" ]%string.

Definition short_patterns : list string :=
  [ "opening_range_breakdown"; "vwap_rejection_short"; "vwap_crossover_short";
    "macd_bearish_cross"; "rsi_overbought_fade"; "ema_bearish_cross";
    "mean_reversion_short"; "gap_fill_short"; "previous_day_low_break";
    "double_top"; "resistance_rejection" ]%string.

(** A signal named [name] whose direction agrees with its name. *)
Definition named (name : string) (s : Patterns.Signal) : Prop :=
  Patterns.pattern s = name
  /\ (In name long_patterns -> Patterns.direction s = Patterns.LONG)
  /\ (In name short_patterns -> Patterns.direction s = Patterns.SHORT).

(** A peak of a series: a value above its two neighbours on each side;
    a trough: a value below them. *)
Definition is_peak (recent : list R) (i : nat) : Prop :=
  (2 <= i < Py.len recent - 2)%nat
  /\ Indicators.at_ recent (i - 1) < Indicators.at_ recent i
  /\ Indicators.at_ recent (i + 1) < Indicators.at_ recent i
  /\ Indicators.at_ recent (i - 2) < Indicators.at_ recent i
  /\ Indicators.at_ recent (i + 2) < Indicators.at_ recent i.

Definition is_trough (recent : list R) (i : nat) : Prop :=
  (2 <= i < Py.len recent - 2)%nat
  /\ Indicators.at_ recent i < Indicators.at_ recent (i - 1)
  /\ Indicators.at_ recent i < Indicators.at_ recent (i + 1)
  /\ Indicators.at_ recent i < Indicators.at_ recent (i - 2)
  /\ Indicators.at_ recent i < Indicators.at_ recent (i + 2).

(** The signals of a stream for which [alert] fires, the manager
    being updated from one signal to the next. *)
Fixpoint fired_alerts (format : Patterns.Signal -> string)
    (am : Alerts.AlertManager) (signals : list Patterns.Signal)
    : list Patterns.Signal :=
  match signals with
  | [] => []
  | s :: rest =>
      let fired := fired_alerts format (fst (Alerts.alert format am s)) rest in
      if Alerts.should_alert am s then s :: fired else fired
  end.

(** The manager after [alert] was called on each signal of a stream. *)
Definition manager_after (format : Patterns.Signal -> string)
    (am : Alerts.AlertManager) (signals : list Patterns.Signal)
    : Alerts.AlertManager :=
  fold_left (fun am s => fst (Alerts.alert format am s)) signals am.

Definition same_direction (a b : Patterns.Direction) : bool :=
  match a, b with
  | Patterns.LONG, Patterns.LONG | Patterns.SHORT, Patterns.SHORT => true
  | _, _ => false
  end.

(** The signals of one pattern and direction. *)
Definition alerts_of (p : string) (d : Patterns.Direction)
    (l : list Patterns.Signal) : list Patterns.Signal :=
  filter (fun s => String.eqb (Patterns.pattern s) p
                   && same_direction (Patterns.direction s) d) l.

(** The second alert comes at least [cooldown] seconds after the first. *)
Definition spaced (cooldown : Z) (a b : Patterns.Signal) : Prop :=
  (cooldown <= 60 * (Patterns.timestamp b - Patterns.timestamp a))%Z.

(** A signal stamped on a bar of the frame and entered at its close. *)
Definition stamped (rows : list Patterns.Row) (s : Patterns.Signal) : Prop :=
  exists row,
    In row rows
    /\ Patterns.timestamp s = Patterns.index row
    /\ Patterns.entry_price s = Patterns.close row.

(** A part of the frame: a selection of its rows. *)
Definition subframe (part rows : list Patterns.Row) : Prop :=
  forall r, In r part -> In r rows.

(** The equity after the first [i] trades of a result, the highest
    equity up to there, and the decline from that peak in percent. *)
Definition equity_after (r : Backtest.BacktestResult) (i : nat) : R :=
  Backtest.initial_capital r
  + Py.sum (map OptionsModel.total_pnl (firstn i (Backtest.trades r))).

Definition running_peak (r : Backtest.BacktestResult) (i : nat) : R :=
  fold_left Rmax (map (equity_after r) (seq 1 i)) (equity_after r 0).

Definition decline (r : Backtest.BacktestResult) (i : nat) : R :=
  (equity_after r i - running_peak r i) / running_peak r i * 100.

(** The signals of one trading day, and the bars of a day after its
    opening range. *)
Definition signals_on (date : Z) (signals : list Patterns.Signal)
    : list Patterns.Signal :=
  filter (fun s => (signal_date s =? date)%Z) signals.

Definition after_opening_range (cfg : Config.AgentConfig)
    (rows : list Patterns.Row) (date : Z) : list Patterns.Row :=
  let day_bars := Patterns.on_date date rows in
  filter (fun r => (Patterns.index (Patterns.iloc day_bars 0)
                    + Config.orb_minutes cfg <? Patterns.index r)%Z)
    day_bars.

(** A close that crosses a level: from at or under it to above it, or
    from at or above it to under it. *)
Definition crosses_above (level prev cur : R) : bool :=
  Py.Rleb prev level && Py.Rgtb cur level.

Definition crosses_below (level prev cur : R) : bool :=
  Py.Rgeb prev level && Py.Rltb cur level.

(** The timestamp of the first candidate position that qualifies, if
    there is one, and the timestamps of all that qualify. *)
Definition first_crossing (bars : list Patterns.Row) (qualifies : nat -> bool)
    (candidates : list nat) : list Timestamp :=
  match find qualifies candidates with
  | Some i => [Patterns.index (Patterns.iloc bars i)]
  | None => []
  end.

Definition every_crossing (bars : list Patterns.Row) (qualifies : nat -> bool)
    (candidates : list nat) : list Timestamp :=
  map (fun i => Patterns.index (Patterns.iloc bars i))
    (filter qualifies candidates).

(** The gap between a day's open and the previous close, for a day of
    at least three bars of a frame that has the previous close. *)
Definition opening_gap (ctx : Patterns.Ctx) (group : list Patterns.Row)
    : option R :=
  if Patterns.has_prev_close ctx && (3 <=? Py.len group)%nat then
    match Patterns.prev_close (Patterns.iloc group 0) with
    | Some prev_close =>
        Some (Patterns.open (Patterns.iloc group 0) - prev_close)
    | None => None
    end
  else None.

(** A close above, or below, the close of the bar before. *)
Definition rising_close (bars : list Patterns.Row) (i : nat) : bool :=
  Py.Rgtb (Patterns.close (Patterns.iloc bars i))
    (Patterns.close (Patterns.iloc bars (i - 1))).

Definition falling_close (bars : list Patterns.Row) (i : nat) : bool :=
  Py.Rltb (Patterns.close (Patterns.iloc bars i))
    (Patterns.close (Patterns.iloc bars (i - 1))).

(** A close that breaks the previous day's high, or low, of its bar. *)
Definition breaks_prev_high (rows : list Patterns.Row) (i : nat) : bool :=
  match Patterns.prev_high (Patterns.iloc rows i) with
  | Some ph =>
      crosses_above ph (Patterns.close (Patterns.iloc rows (i - 1)))
        (Patterns.close (Patterns.iloc rows i))
  | None => false
  end.

Definition breaks_prev_low (rows : list Patterns.Row) (i : nat) : bool :=
  match Patterns.prev_low (Patterns.iloc rows i) with
  | Some pl =>
      crosses_below pl (Patterns.close (Patterns.iloc rows (i - 1)))
        (Patterns.close (Patterns.iloc rows i))
  | None => false
  end.

(** The kernel [exp (- x^2 (1 + t^2) / 2) / (1 + t^2)], whose integral
    in [t] over [0, 1] measures what the integral of the normal density
    up to [x] lacks of its limit. *)
Definition gauss_kernel (x t : R) : R :=
  exp (- (x * x) * (1 + t * t) / 2) / (1 + t * t).

(** Its derivative in [x]. *)
Definition gauss_kernel_dx (x t : R) : R :=
  - x * exp (- (x * x) * (1 + t * t) / 2).

Lemma continuous_integrable (f : R -> R) :
  continuity f -> forall a b, Riemann_integrable f a b.
Proof.
  intros Hc a b. destruct (Rle_dec a b) as [H | H].
  - apply continuity_implies_RiemannInt; [exact H | intros x _; apply Hc].
  - apply RiemannInt_P1, continuity_implies_RiemannInt;
      [lra | intros x _; apply Hc].
Qed.

Lemma gauss_kernel_continuity (x : R) : continuity (gauss_kernel x).
Proof.
  unfold gauss_kernel. apply derivable_continuous. intro t. reg. nra.
Qed.

(** The integral of the kernel over [0, 1], and the integral of the
    density from 0. *)
Definition gauss_kernel_integral (x : R) : R :=
  RiemannInt
    (continuous_integrable (gauss_kernel x) (gauss_kernel_continuity x) 0 1).

Definition gauss_integral (x : R) : R := RiemannInt (OptionsModel.gauss_integrable 0 x).
(** * Example inputs *)

(** A bar whose prices all equal [c], with the three previous-day
    levels set to [level] and every indicator still warming up. *)
Definition bar (t : Timestamp) (c : R) (level : option R) : Patterns.Row :=
  {| Patterns.index := t; Patterns.open := c; Patterns.high := c;
     Patterns.low := c; Patterns.close := c; Patterns.volume := 0;
     Patterns.prev_high := level; Patterns.prev_low := level;
     Patterns.prev_close := level; Patterns.vwap := None;
     Patterns.rsi := None; Patterns.macd_line := None;
     Patterns.macd_signal := None; Patterns.adx := None;
     Patterns.bb_upper := None; Patterns.bb_mid := None;
     Patterns.bb_lower := None; Patterns.bb_bw := None;
     Patterns.ema_fast := None; Patterns.ema_slow := None;
     Patterns.vol_sma := None; Patterns.zscore := None;
     Patterns.atr := None |}.

(** One trading day (day 0, bars at 9:30, 9:35, ...) on which the close
    swings around yesterday's level of 100. *)
Definition whipsaw_day : Patterns.Ctx :=
  {| Patterns.df :=
       [ bar 570%Z 99 (Some 100); bar 575%Z 101 (Some 100);
         bar 580%Z 99 (Some 100); bar 585%Z 101 (Some 100);
         bar 590%Z 99 (Some 100) ];
     Patterns.vwap_given := false;
     Patterns.has_prev_high := true;
     Patterns.has_prev_low := true;
     Patterns.has_prev_close := true |}.

(** A day (day 0 of the epoch) on which the close breaks yesterday's
    high of 449.50 at 14:00, two hours before the close. *)
Definition breakout_day : Patterns.Ctx :=
  {| Patterns.df := [ bar 835%Z 449 (Some 449.5); bar 840%Z 450 (Some 449.5) ];
     Patterns.vwap_given := false;
     Patterns.has_prev_high := true;
     Patterns.has_prev_low := true;
     Patterns.has_prev_close := true |}.

(** The signal of a break of the previous day's high at 14:00 of day
    [d], at 450, as [_detect_prev_high_break] builds it. *)
Definition breakout_signal (d : Z) : Patterns.Signal :=
  {| Patterns.timestamp := (d * 1440 + 840)%Z;
     Patterns.pattern := "previous_day_high_break";
     Patterns.direction := Patterns.LONG;
     Patterns.confidence := 0.65;
     Patterns.entry_price := 450;
     Patterns.stop_price := 449.5 - 1 * 0.3;
     Patterns.target_price := 450 + 1;
     Patterns.description :=
       "Prev Day High Break: broke above previous day high";
     Patterns.metadata := [] |}.

(** The premium the simulator is quoted for [breakout_signal]: a call
    struck at 450 with the underlying at 450, two hours before the
    close, at the default rate and 1.5 times the default volatility. *)
Definition atm_premium : R :=
  match OptionsModel.black_scholes_price 450 450 (120 / 60 / (252 * 6.5))
          0.05 (0.15 * 1.5) OptionsModel.CALL with
  | Some p => p
  | None => 0
  end.

(** The trade of [n] contracts opened on [breakout_signal d] at premium
    [p] when no later bar of the day exists: it is closed at once, at a
    zero premium. *)
Definition breakout_trade (d : Z) (p : R) (n : Z) : OptionsModel.OptionTrade :=
  {| OptionsModel.entry_time := (d * 1440 + 840)%Z;
     OptionsModel.exit_time := Some (d * 1440 + 840)%Z;
     OptionsModel.option_type := OptionsModel.CALL;
     OptionsModel.strike := 450;
     OptionsModel.entry_underlying := 450;
     OptionsModel.exit_underlying := Some 450;
     OptionsModel.entry_premium := p;
     OptionsModel.exit_premium := Some 0;
     OptionsModel.contracts := n;
     OptionsModel.pattern := "previous_day_high_break";
     OptionsModel.direction := "LONG";
     OptionsModel.iv := 0.15 * 1.5 |}.

(** The default configuration with an account of 100. *)
Definition small_account : Config.AgentConfig :=
  {| Config.orb_minutes := 15;
     Config.orb_breakout_buffer := 0.10;
     Config.vwap_rejection_threshold := 0.15;
     Config.rsi_overbought := 70;
     Config.rsi_oversold := 30;
     Config.adx_trend_threshold := 25;
     Config.bb_squeeze_threshold := 0.5;
     Config.volume_spike_multiplier := 2;
     Config.mean_rev_zscore_threshold := 2;
     Config.sr_lookback_days := 20;
     Config.sr_proximity_pct := 0.1;
     Config.risk_free_rate := 0.05;
     Config.default_iv := 0.15;
     Config.initial_capital := 100;
     Config.position_size_pct := 5;
     Config.max_loss_per_trade_pct := 50;
     Config.profit_target_pct := 100;
     Config.slippage_pct := 1;
     Config.commission_per_contract := 0.65;
     Config.min_pattern_confidence := 0.6;
     Config.enabled_patterns := Config.enabled_patterns Config.default |}.

(** Two trading days, each with the bars of [breakout_day]. *)
Definition two_days : list Patterns.Row :=
  [ bar 835%Z 449 (Some 449.5); bar 840%Z 450 (Some 449.5);
    bar 2275%Z 449 (Some 449.5); bar 2280%Z 450 (Some 449.5) ].

(** A day (day 0) that opens a dollar under yesterday's close of 450
    and fills the gap with the close of its third bar. *)
Definition filled_gap_day : Patterns.Ctx :=
  {| Patterns.df :=
       [ bar 570%Z 449 (Some 450); bar 575%Z 449 (Some 450);
         bar 580%Z 450 (Some 450) ];
     Patterns.vwap_given := false;
     Patterns.has_prev_high := true;
     Patterns.has_prev_low := true;
     Patterns.has_prev_close := true |}.

(** * Properties *)

Import Py.

Ltac rdec :=
  unfold Rgtb, Rgeb, Rltb, Rleb, Reqb in *;
  repeat match goal with
  | |- context [Rlt_dec ?a ?b] => destruct (Rlt_dec a b)
  | |- context [Rle_dec ?a ?b] => destruct (Rle_dec a b)
  | |- context [Req_dec_T ?a ?b] => destruct (Req_dec_T a b)
  | H : context [Rlt_dec ?a ?b] |- _ => destruct (Rlt_dec a b)
  | H : context [Rle_dec ?a ?b] |- _ => destruct (Rle_dec a b)
  | H : context [Req_dec_T ?a ?b] |- _ => destruct (Req_dec_T a b)
  end.

(** ** Options pricing model *)

Section Pricing.
Import OptionsModel.

Lemma intrinsic_nonneg S K ot : 0 <= intrinsic S K ot.
Proof. destruct ot; apply Rmax_r. Qed.

Lemma black_scholes_price_at_expiry S K T r sigma ot :
  T <= 0 -> black_scholes_price S K T r sigma ot = Some (intrinsic S K ot).
Proof.
  intros HT. unfold black_scholes_price, intrinsic.
  destruct (Rle_dec T 0) as [_ | Hn]; [now destruct ot | contradiction].
Qed.

Lemma black_scholes_price_floor S K T r sigma ot p :
  0 < T -> black_scholes_price S K T r sigma ot = Some p -> 0.01 <= p.
Proof.
  intros HT. unfold black_scholes_price.
  destruct (Rle_dec T 0) as [Hle | _]; [lra |].
  destruct (py_div S K) as [q |]; [simpl | discriminate].
  destruct (math_log q) as [l |]; [simpl | discriminate].
  destruct (py_div _ _) as [d1 |]; [simpl | discriminate].
  intros [= <-]. apply Rmax_r.
Qed.

(** The pricer returns on the inputs the formula is defined for. *)
Lemma black_scholes_price_defined S K T r sigma ot :
  0 < T -> 0 < S -> 0 < K -> sigma <> 0 ->
  exists p, black_scholes_price S K T r sigma ot = Some p.
Proof.
  intros HT HS HK Hs. unfold black_scholes_price.
  destruct (Rle_dec T 0) as [Hle | _]; [lra |].
  unfold py_div at 1. destruct (Req_dec_T K 0) as [-> | _]; [lra | simpl].
  unfold math_log. destruct (Rlt_dec 0 (S / K)) as [_ | Hq].
  - simpl. unfold py_div.
    destruct (Req_dec_T (sigma * sqrt T) 0) as [E | _].
    + apply Rmult_integral in E as [E | E]; [contradiction |].
      pose proof (sqrt_lt_R0 T HT). lra.
    + simpl. eauto.
  - exfalso. apply Hq. now apply Rdiv_lt_0_compat.
Qed.

End Pricing.

(** C6.  When [T <= 0] the pricer returns exactly the intrinsic value,
    [max(S-K,0)] for a call and [max(K-S,0)] for a put (so [S=450],
    [K=445] gives 5 for the call and 0 for the put); when [T > 0] every
    price it returns is at least 0.01, and it does return one whenever
    [S], [K] are positive and [sigma] is not zero. *)
Theorem black_scholes_price_intrinsic_and_floor :
  forall S K T r sigma ot,
    (T <= 0 ->
     OptionsModel.black_scholes_price S K T r sigma ot
     = Some (match ot with
             | OptionsModel.CALL => Rmax (S - K) 0
             | OptionsModel.PUT => Rmax (K - S) 0
             end))
    /\ (0 < T ->
        forall p, OptionsModel.black_scholes_price S K T r sigma ot = Some p ->
                  0.01 <= p)
    /\ (0 < T -> 0 < S -> 0 < K -> sigma <> 0 ->
        exists p, OptionsModel.black_scholes_price S K T r sigma ot = Some p
                  /\ 0.01 <= p)
    /\ OptionsModel.black_scholes_price 450 445 0 r sigma OptionsModel.CALL
       = Some 5
    /\ OptionsModel.black_scholes_price 450 445 0 r sigma OptionsModel.PUT
       = Some 0.
Proof.
  intros S K T r sigma ot. repeat split.
  - intros HT. rewrite black_scholes_price_at_expiry by assumption.
    now destruct ot.
  - intros HT p. now apply black_scholes_price_floor.
  - intros HT HS HK Hs.
    destruct (black_scholes_price_defined S K T r sigma ot HT HS HK Hs) as [p Hp].
    exists p. split; [assumption |].
    exact (black_scholes_price_floor S K T r sigma ot p HT Hp).
  - rewrite black_scholes_price_at_expiry by lra. simpl.
    f_equal. unfold Rmax. destruct (Rle_dec _ _); lra.
  - rewrite black_scholes_price_at_expiry by lra. simpl.
    f_equal. unfold Rmax. destruct (Rle_dec _ _); lra.
Qed.

(** ** Result aggregator *)

Section Aggregator.
Import Backtest.

Lemma equity_curve_head (ts : list OptionsModel.OptionTrade) :
  forall x acc,
    exists rest,
      fold_left
        (fun equity t => equity ++ [last equity 0 + OptionsModel.total_pnl t])
        ts (x :: acc) = x :: rest.
Proof.
  induction ts as [| t ts IH]; intros x acc; simpl.
  - now exists acc.
  - apply IH.
Qed.

Lemma np_min_le_head (a : R) (l : list (option R)) (d : R) :
  np_min (Some a :: l) = Some d -> d <= a.
Proof.
  destruct l as [| y l]; simpl.
  - intros [= ->]. lra.
  - destruct (match l with [] => y | _ :: _ => _ end) as [b |]; simpl.
    + intros [= <-]. apply Rmin_l.
    + discriminate.
Qed.

Lemma np_min_head_some (x : option R) (l : list (option R)) (d : R) :
  np_min (x :: l) = Some d -> exists a, x = Some a.
Proof.
  destruct x as [a |]; [eauto |].
  destruct l; simpl; discriminate.
Qed.

(** The drawdown of the first point of the curve against itself. *)
Lemma first_drawdown (x a : R) :
  (q <- np_div (x - x) x ;; Some (q * 100)) = Some a -> a = 0.
Proof.
  unfold np_div. destruct (Req_dec_T x 0); simpl; [discriminate |].
  intros [= <-]. unfold Rdiv. replace (x - x) with 0 by ring. ring.
Qed.

Lemma max_drawdown_nonpos (r : BacktestResult) (d : R) :
  max_drawdown r = Some d -> d <= 0.
Proof.
  unfold max_drawdown, equity_curve.
  destruct (trades r) as [| t ts] eqn:E.
  - intros [= <-]. lra.
  - destruct (equity_curve_head (t :: ts) (initial_capital r) []) as [rest ->].
    simpl. intros H.
    destruct (np_min_head_some _ _ _ H) as [a Ha].
    rewrite Ha in H. apply np_min_le_head in H.
    apply first_drawdown in Ha. lra.
Qed.

(** With a running peak that stays positive, every drawdown is a
    finite non-positive number. *)
Lemma drawdowns_from_positive (l : list R) :
  forall m, 0 < m ->
    exists ds, drawdowns l (maximum_accumulate_from m l) = map Some ds
               /\ Forall (fun d => d <= 0) ds.
Proof.
  induction l as [| x l IH]; intros m Hm; simpl.
  - exists []. split; [reflexivity | constructor].
  - assert (Hp : 0 < Rmax m x)
      by (apply Rlt_le_trans with m; [assumption | apply Rmax_l]).
    destruct (IH (Rmax m x) Hp) as (ds & -> & Hds).
    unfold np_div. destruct (Req_dec_T (Rmax m x) 0) as [E | _]; [lra |].
    simpl. exists ((x - Rmax m x) / Rmax m x * 100 :: ds).
    split; [reflexivity |]. constructor; [| assumption].
    pose proof (Rmax_r m x) as Hx.
    assert (0 < / Rmax m x) by now apply Rinv_0_lt_compat.
    unfold Rdiv. nra.
Qed.

Lemma np_min_finite (d : R) (ds : list R) :
  exists v, np_min (map Some (d :: ds)) = Some v.
Proof.
  revert d. induction ds as [| e ds IH]; intros d.
  - simpl. eauto.
  - destruct (IH e) as [v Hv].
    exists (Rmin d v).
    change (np_min (map Some (d :: e :: ds)))
      with (a <- Some d ;; b <- np_min (map Some (e :: ds)) ;; Some (Rmin a b)).
    rewrite Hv. reflexivity.
Qed.

Lemma max_drawdown_finite (r : BacktestResult) :
  0 < initial_capital r -> exists d, max_drawdown r = Some d.
Proof.
  intros Hc. unfold max_drawdown, equity_curve.
  destruct (trades r) as [| t ts] eqn:E; [eauto |].
  destruct (equity_curve_head (t :: ts) (initial_capital r) []) as [rest ->].
  simpl.
  destruct (drawdowns_from_positive rest (initial_capital r) Hc) as (ds & -> & _).
  unfold np_div. destruct (Req_dec_T (initial_capital r) 0) as [E0 | _]; [lra |].
  simpl bind.
  apply (np_min_finite ((initial_capital r - initial_capital r)
                        / initial_capital r * 100) ds).
Qed.

End Aggregator.

(** C9.  For a result whose trade list is empty, [win_rate],
    [total_pnl], [max_drawdown] and [sharpe_ratio] are all 0: each is
    returned by its guard, before any division, so none raises. *)
Theorem empty_result_statistics_are_zero :
  forall (initial final : R) (cfg : Config.AgentConfig),
    let r := {| Backtest.trades := [];
                Backtest.initial_capital := initial;
                Backtest.final_capital := final;
                Backtest.config := cfg |} in
    Backtest.win_rate r = Some 0
    /\ Backtest.total_pnl r = 0
    /\ Backtest.max_drawdown r = Some 0
    /\ Backtest.sharpe_ratio r = Some 0.
Proof.
  intros initial final cfg r. repeat split.
Qed.

(** ** Pattern detection engine *)

Section Signals.
Import Patterns.

Lemma risk_reward_safe (s : Signal) : risk_reward_well_defined s.
Proof.
  unfold risk_reward_well_defined, risk_reward, py_div.
  set (risk := Rabs (entry_price s - stop_price s)).
  set (reward := Rabs (target_price s - entry_price s)).
  assert (Hrw : 0 <= reward) by apply Rabs_pos.
  assert (Hrisk : risk = 0 <-> entry_price s = stop_price s).
  { unfold risk. split; intros H.
    - destruct (Req_dec_T (entry_price s - stop_price s) 0) as [E | E];
        [lra |]. apply Rabs_no_R0 in E. contradiction.
    - rewrite H, Rminus_diag. apply Rabs_R0. }
  assert (Hreward : reward = 0 <-> target_price s = entry_price s).
  { unfold reward. split; intros H.
    - destruct (Req_dec_T (target_price s - entry_price s) 0) as [E | E];
        [lra |]. apply Rabs_no_R0 in E. contradiction.
    - rewrite H, Rminus_diag. apply Rabs_R0. }
  unfold Rgtb, Rltb. destruct (Rlt_dec 0 risk) as [Hr | Hr].
  - destruct (Req_dec_T risk 0) as [E | _]; [lra |].
    assert (Hi : 0 < / risk) by now apply Rinv_0_lt_compat.
    assert (Hne : entry_price s <> stop_price s)
      by (intros E; apply Hrisk in E; lra).
    exists (reward / risk). split; [reflexivity |].
    split; [apply Rmult_le_pos; lra |].
    split; [intros E; contradiction |].
    split; [intros _; reflexivity |].
    split.
    + intros H0. right. apply Hreward.
      unfold Rdiv in H0. apply Rmult_integral in H0 as [H0 | H0]; lra.
    + intros [E | E]; [contradiction |].
      apply Hreward in E. rewrite E. unfold Rdiv. ring.
  - assert (H0 : risk = 0) by (pose proof (Rabs_pos (entry_price s - stop_price s)); unfold risk in *; lra).
    apply Hrisk in H0.
    exists 0. split; [reflexivity |]. split; [lra |].
    split; [intros _; reflexivity |].
    split; [intros E; contradiction |].
    split; [intros _; now left | intros _; reflexivity].
Qed.

Lemma each_signal_Forall {A : Type} (P : Signal -> Prop)
    (body : A -> option Signal) (l : list A) :
  (forall i s, body i = Some s -> P s) -> Forall P (each_signal body l).
Proof.
  intros Hb. unfold each_signal. induction l as [| i l IH]; simpl.
  - constructor.
  - apply Forall_app. split; [| assumption].
    destruct (body i) as [s |] eqn:E; [| constructor].
    constructor; [now apply (Hb i) | constructor].
Qed.

Lemma first_signal_Forall {A : Type} (P : Signal -> Prop)
    (body : A -> option Signal) (l : list A) :
  (forall i s, body i = Some s -> P s) -> Forall P (first_signal body l).
Proof.
  intros Hb. induction l as [| i l IH]; simpl.
  - constructor.
  - destruct (body i) as [s |] eqn:E; [| assumption].
    constructor; [now apply (Hb i) | constructor].
Qed.

Lemma flat_map_Forall {A : Type} (P : Signal -> Prop)
    (f : A -> list Signal) (l : list A) :
  (forall x, Forall P (f x)) -> Forall P (flat_map f l).
Proof.
  intros Hf. induction l as [| x l IH]; simpl.
  - constructor.
  - apply Forall_app. now split.
Qed.

Variable config : Config.AgentConfig.

Lemma orb_confidence_bounds rows or_high or_low idx :
  0.5 <= _orb_confidence config rows or_high or_low idx <= 0.9.
Proof.
  unfold _orb_confidence.
  repeat match goal with
  | |- context [match ?x with _ => _ end] => destruct x
  end;
  unfold Rmin; destruct (Rle_dec _ _); lra.
Qed.

Variable detect_double_bottom : list R -> nat -> bool.
Variable detect_double_top : list R -> nat -> bool.
Variable find_support_resistance :
  list R -> list R -> list R -> Z -> list R * list R.

(** Peels the loops of a detector off a goal [Forall P (detector ctx)]
    down to the signals it builds. *)
Ltac peel_loops :=
  repeat first
    [ apply Forall_nil
    | apply each_signal_Forall; intros
    | apply first_signal_Forall; intros
    | apply flat_map_Forall; intros
    | match goal with
      | |- Forall _ (match ?x with _ => _ end) => destruct x
      | |- Forall _ [_] => constructor
      end ].

(** Finds the signal a loop body built. *)
Ltac built_signal H :=
  cbv beta zeta in H;
  repeat match type of H with
  | context [match ?x with _ => _ end] => destruct x
  end;
  try discriminate H;
  injection H as <-.

Ltac unit_confidence :=
  unfold confidence_in_unit_interval; cbn [confidence];
  repeat match goal with
  | |- context [if ?c then _ else _] => destruct c
  end;
  try lra;
  match goal with
  | |- context [_orb_confidence ?c ?r ?h ?l ?i] =>
      pose proof (orb_confidence_bounds r h l i); lra
  end.

Ltac detector_confidence :=
  peel_loops;
  try lazymatch goal with
  | H : _ = Some _ |- _ => built_signal H
  end;
  unit_confidence.

Lemma orb_long_confidence :
  forall ctx, Forall confidence_in_unit_interval (_detect_orb_long config ctx).
Proof. intros ctx. unfold _detect_orb_long. detector_confidence. Qed.

Lemma orb_short_confidence :
  forall ctx, Forall confidence_in_unit_interval (_detect_orb_short config ctx).
Proof. intros ctx. unfold _detect_orb_short. detector_confidence. Qed.

Lemma vwap_rejection_long_confidence :
  forall ctx, Forall confidence_in_unit_interval (_detect_vwap_rejection_long config ctx).
Proof. intros ctx. unfold _detect_vwap_rejection_long. detector_confidence. Qed.

Lemma vwap_rejection_short_confidence :
  forall ctx, Forall confidence_in_unit_interval (_detect_vwap_rejection_short config ctx).
Proof. intros ctx. unfold _detect_vwap_rejection_short. detector_confidence. Qed.

Lemma vwap_cross_long_confidence :
  forall ctx, Forall confidence_in_unit_interval (_detect_vwap_cross_long ctx).
Proof. intros ctx. unfold _detect_vwap_cross_long. detector_confidence. Qed.

Lemma vwap_cross_short_confidence :
  forall ctx, Forall confidence_in_unit_interval (_detect_vwap_cross_short ctx).
Proof. intros ctx. unfold _detect_vwap_cross_short. detector_confidence. Qed.

Lemma macd_bull_confidence :
  forall ctx, Forall confidence_in_unit_interval (_detect_macd_bull config ctx).
Proof. intros ctx. unfold _detect_macd_bull. detector_confidence. Qed.

Lemma macd_bear_confidence :
  forall ctx, Forall confidence_in_unit_interval (_detect_macd_bear config ctx).
Proof. intros ctx. unfold _detect_macd_bear. detector_confidence. Qed.

Lemma rsi_oversold_confidence :
  forall ctx, Forall confidence_in_unit_interval (_detect_rsi_oversold config ctx).
Proof. intros ctx. unfold _detect_rsi_oversold. detector_confidence. Qed.

Lemma rsi_overbought_confidence :
  forall ctx, Forall confidence_in_unit_interval (_detect_rsi_overbought config ctx).
Proof. intros ctx. unfold _detect_rsi_overbought. detector_confidence. Qed.

Lemma ema_bull_cross_confidence :
  forall ctx, Forall confidence_in_unit_interval (_detect_ema_bull_cross ctx).
Proof. intros ctx. unfold _detect_ema_bull_cross. detector_confidence. Qed.

Lemma ema_bear_cross_confidence :
  forall ctx, Forall confidence_in_unit_interval (_detect_ema_bear_cross ctx).
Proof. intros ctx. unfold _detect_ema_bear_cross. detector_confidence. Qed.

Lemma volume_spike_confidence :
  forall ctx, Forall confidence_in_unit_interval (_detect_volume_spike config ctx).
Proof. intros ctx. unfold _detect_volume_spike. detector_confidence. Qed.

Lemma mean_rev_long_confidence :
  forall ctx, Forall confidence_in_unit_interval (_detect_mean_rev_long config ctx).
Proof. intros ctx. unfold _detect_mean_rev_long. detector_confidence. Qed.

Lemma mean_rev_short_confidence :
  forall ctx, Forall confidence_in_unit_interval (_detect_mean_rev_short config ctx).
Proof. intros ctx. unfold _detect_mean_rev_short. detector_confidence. Qed.

Lemma gap_fill_long_confidence :
  forall ctx, Forall confidence_in_unit_interval (_detect_gap_fill_long ctx).
Proof. intros ctx. unfold _detect_gap_fill_long. detector_confidence. Qed.

Lemma gap_fill_short_confidence :
  forall ctx, Forall confidence_in_unit_interval (_detect_gap_fill_short ctx).
Proof. intros ctx. unfold _detect_gap_fill_short. detector_confidence. Qed.

Lemma prev_high_break_confidence :
  forall ctx, Forall confidence_in_unit_interval (_detect_prev_high_break ctx).
Proof. intros ctx. unfold _detect_prev_high_break. detector_confidence. Qed.

Lemma prev_low_break_confidence :
  forall ctx, Forall confidence_in_unit_interval (_detect_prev_low_break ctx).
Proof. intros ctx. unfold _detect_prev_low_break. detector_confidence. Qed.

Lemma midday_reversal_confidence :
  forall ctx, Forall confidence_in_unit_interval (_detect_midday_reversal ctx).
Proof. intros ctx. unfold _detect_midday_reversal. detector_confidence. Qed.

Lemma power_hour_confidence :
  forall ctx, Forall confidence_in_unit_interval (_detect_power_hour ctx).
Proof. intros ctx. unfold _detect_power_hour. detector_confidence. Qed.

Lemma double_bottom_confidence :
  forall ctx, Forall confidence_in_unit_interval (_detect_double_bottom detect_double_bottom ctx).
Proof. intros ctx. unfold _detect_double_bottom. detector_confidence. Qed.

Lemma double_top_confidence :
  forall ctx, Forall confidence_in_unit_interval (_detect_double_top detect_double_top ctx).
Proof. intros ctx. unfold _detect_double_top. detector_confidence. Qed.

Lemma support_bounce_confidence :
  forall ctx, Forall confidence_in_unit_interval (_detect_support_bounce config find_support_resistance ctx).
Proof. intros ctx. unfold _detect_support_bounce. detector_confidence. Qed.

Lemma resistance_rejection_confidence :
  forall ctx, Forall confidence_in_unit_interval (_detect_resistance_rejection config find_support_resistance ctx).
Proof. intros ctx. unfold _detect_resistance_rejection. detector_confidence. Qed.

Lemma fold_left_invariant {S A : Type} (I : S -> Prop) (f : S -> A -> S)
    (l : list A) :
  forall s0, I s0 -> (forall s x, I s -> I (f s x)) -> I (fold_left f l s0).
Proof.
  induction l as [| x l IH]; intros s0 H0 Hstep; simpl.
  - assumption.
  - apply IH; [now apply Hstep | assumption].
Qed.

Lemma bb_squeeze_confidence :
  forall ctx, Forall confidence_in_unit_interval (_detect_bb_squeeze config ctx).
Proof.
  intros ctx. unfold _detect_bb_squeeze.
  apply (fold_left_invariant
           (fun st : bool * list Signal =>
              Forall confidence_in_unit_interval (snd st))).
  - constructor.
  - intros [in_squeeze signals] i Hst. cbn [snd] in Hst.
    repeat match goal with
    | |- context [match ?x with _ => _ end] => destruct x
    end;
    cbn [snd]; try assumption;
    apply Forall_app; (split; [assumption |]);
    (constructor; [unit_confidence | constructor]).
Qed.

End Signals.

Create HintDb confidence.

#[local] Hint Resolve
  orb_long_confidence orb_short_confidence
  vwap_rejection_long_confidence vwap_rejection_short_confidence
  vwap_cross_long_confidence vwap_cross_short_confidence
  macd_bull_confidence macd_bear_confidence
  rsi_oversold_confidence rsi_overbought_confidence
  ema_bull_cross_confidence ema_bear_cross_confidence
  bb_squeeze_confidence volume_spike_confidence
  mean_rev_long_confidence mean_rev_short_confidence
  gap_fill_long_confidence gap_fill_short_confidence
  prev_high_break_confidence prev_low_break_confidence
  midday_reversal_confidence power_hour_confidence
  double_bottom_confidence double_top_confidence
  support_bounce_confidence resistance_rejection_confidence : confidence.

Section Scan.
Import Patterns.

Lemma well_formed_of_confidence (l : list Signal) :
  Forall confidence_in_unit_interval l -> Forall well_formed l.
Proof.
  apply Forall_impl. intros s Hs. split; [assumption | apply risk_reward_safe].
Qed.

(** The loop of [scan] concatenates, in table order, what the enabled
    detectors returned. *)
Lemma run_detectors_spec (enabled : list string)
    (dets : list (string * detector)) (ctx : Ctx) :
  forall signals,
    run_detectors enabled dets ctx signals
    = signals ++ combined_signals enabled dets ctx.
Proof.
  unfold combined_signals.
  induction dets as [| [name detect] dets IH]; intros signals; simpl.
  - now rewrite app_nil_r.
  - destruct (existsb (String.eqb name) enabled).
    + destruct (detect ctx) as [ps |]; simpl; rewrite IH.
      * now rewrite app_assoc.
      * reflexivity.
    + rewrite IH. reflexivity.
Qed.

Lemma insert_by_timestamp_perm (s : Signal) (l : list Signal) :
  Permutation (insert_by_timestamp s l) (s :: l).
Proof.
  induction l as [| x l IH]; simpl.
  - reflexivity.
  - destruct (timestamp s <=? timestamp x)%Z.
    + reflexivity.
    + rewrite IH. apply perm_swap.
Qed.

Lemma sort_by_timestamp_perm (l : list Signal) :
  Permutation (sort_by_timestamp l) l.
Proof.
  induction l as [| s l IH]; simpl.
  - constructor.
  - rewrite insert_by_timestamp_perm. now constructor.
Qed.


Lemma combined_signals_Forall (P : Signal -> Prop) (enabled : list string)
    (table : list (string * detector)) (ctx : Ctx) :
  Forall (fun nd : string * detector => Forall P (returned (snd nd ctx))) table ->
  Forall P (combined_signals enabled table ctx).
Proof.
  intros H. unfold combined_signals.
  induction H as [| nd table Hnd _ IH]; simpl.
  - constructor.
  - apply Forall_app. split; [| assumption].
    destruct (existsb _ _); [assumption | constructor].
Qed.

Lemma scan_table_Forall (P : Signal -> Prop) (enabled : list string)
    (table : list (string * detector)) (ctx : Ctx) :
  Forall (fun nd : string * detector => Forall P (returned (snd nd ctx))) table ->
  Forall P (scan_table enabled table ctx).
Proof.
  intros H. unfold scan_table.
  eapply Permutation_Forall.
  - symmetry. apply sort_by_timestamp_perm.
  - rewrite run_detectors_spec. simpl. now apply combined_signals_Forall.
Qed.

Lemma detectors_well_formed cfg ddb ddt fsr (ctx : Ctx) :
  Forall (fun nd : string * detector => Forall well_formed (returned (snd nd ctx)))
    (detectors cfg ddb ddt fsr).
Proof.
  unfold detectors. cbn [map fst snd].
  repeat constructor; apply well_formed_of_confidence;
    cbn [returned snd]; auto with confidence.
Qed.

End Scan.

(** C7, amended.  Every signal that a detector of the table returns,
    and so every signal of a scan, has its confidence in [0,1]; and the
    risk:reward of any signal is computed without dividing by zero: it
    is |target - entry| / |entry - stop| when entry and stop differ and
    0 when they coincide, so it is not negative, and it is 0 exactly
    when entry equals stop or target equals entry. *)
Theorem signals_have_unit_confidence_and_safe_risk_reward :
  forall cfg ddb ddt fsr (ctx : Patterns.Ctx),
    Forall
      (fun nd : string * Patterns.detector =>
         Forall well_formed (returned (snd nd ctx)))
      (Patterns.detectors cfg ddb ddt fsr)
    /\ Forall well_formed (Patterns.scan cfg ddb ddt fsr ctx)
    /\ (forall s : Patterns.Signal, risk_reward_well_defined s).
Proof.
  intros cfg ddb ddt fsr ctx. split; [| split].
  - apply detectors_well_formed.
  - apply scan_table_Forall, detectors_well_formed.
  - apply risk_reward_safe.
Qed.


(** ** Range-break detectors: signals per trading day *)

Section OnePerDay.
Import Patterns.

Lemma Rleb_true a b : a <= b -> Rleb a b = true.
Proof. intros H. unfold Rleb. destruct (Rle_dec a b); [reflexivity | lra]. Qed.

Lemma Rleb_false a b : b < a -> Rleb a b = false.
Proof. intros H. unfold Rleb. destruct (Rle_dec a b); [lra | reflexivity]. Qed.

Lemma Rltb_true a b : a < b -> Rltb a b = true.
Proof. intros H. unfold Rltb. destruct (Rlt_dec a b); [reflexivity | lra]. Qed.

Lemma Rltb_false a b : b <= a -> Rltb a b = false.
Proof. intros H. unfold Rltb. destruct (Rlt_dec a b); [lra | reflexivity]. Qed.

(** [insert_date] keeps a strictly increasing list strictly increasing. *)
Lemma insert_date_In d x l : In x (insert_date d l) -> x = d \/ In x l.
Proof.
  induction l as [| y l IH]; simpl.
  - intros [<- | []]. now left.
  - destruct (d <? y)%Z.
    + intros [<- | H]; [now left | now right].
    + destruct (d =? y)%Z.
      * intros H. now right.
      * intros [<- | H]; [right; now left |].
        destruct (IH H) as [-> | H']; [now left | right; now right].
Qed.

Lemma insert_date_sorted d l :
  StronglySorted Z.lt l -> StronglySorted Z.lt (insert_date d l).
Proof.
  induction l as [| y l IH]; intros Hs; simpl.
  - repeat constructor.
  - inversion Hs as [| ? ? Hl Hy]; subst.
    destruct (d <? y)%Z eqn:Hlt.
    + apply Z.ltb_lt in Hlt. constructor; [assumption |].
      constructor; [assumption |].
      eapply Forall_impl; [| exact Hy]. intros z Hz. cbn beta in Hz. lia.
    + destruct (d =? y)%Z eqn:Heq; [assumption |].
      apply Z.ltb_ge in Hlt. apply Z.eqb_neq in Heq.
      constructor; [now apply IH |].
      apply Forall_forall. intros z Hz.
      apply insert_date_In in Hz as [-> | Hz]; [lia |].
      rewrite Forall_forall in Hy. now apply Hy.
Qed.

Lemma strictly_sorted_NoDup (l : list Z) : StronglySorted Z.lt l -> NoDup l.
Proof.
  induction 1 as [| x l _ IH Hx]; constructor; [| assumption].
  intros Hin. rewrite Forall_forall in Hx. specialize (Hx x Hin). lia.
Qed.

Lemma unique_dates_NoDup (rows : list Row) : NoDup (unique_dates rows).
Proof.
  apply strictly_sorted_NoDup. unfold unique_dates.
  induction (map (fun r => date_of (index r)) rows) as [| d l IH]; simpl.
  - constructor.
  - now apply insert_date_sorted.
Qed.

Lemma groupby_date_keys (rows : list Row) :
  NoDup (map fst (groupby_date rows)).
Proof.
  unfold groupby_date. rewrite map_map. cbn [fst]. rewrite map_id.
  apply unique_dates_NoDup.
Qed.

Lemma groupby_date_group (rows : list Row) d group :
  In (d, group) (groupby_date rows) -> group = on_date d rows.
Proof.
  unfold groupby_date. rewrite in_map_iff. intros (d' & [= <- <-] & _).
  reflexivity.
Qed.

Lemma on_date_date d rows r : In r (on_date d rows) -> date_of (index r) = d.
Proof.
  unfold on_date. rewrite filter_In. intros [_ H]. now apply Z.eqb_eq.
Qed.

(** A loop over keyed entries that yields at most one item per entry,
    carrying the entry's key, yields no key twice. *)
Lemma flat_map_keyed_NoDup {A B : Type} (ka : A -> Z) (kb : B -> Z)
    (f : A -> list B) (l : list A) :
  NoDup (map ka l) ->
  (forall a, In a l -> (List.length (f a) <= 1)%nat) ->
  (forall a b, In a l -> In b (f a) -> kb b = ka a) ->
  NoDup (map kb (flat_map f l)).
Proof.
  induction l as [| a l IH]; intros Hnd Hlen Hkey; simpl.
  - constructor.
  - inversion Hnd as [| ? ? Hnotin Hnd']; subst.
    assert (IH' : NoDup (map kb (flat_map f l))).
    { apply IH; [assumption | |]; intros; [apply Hlen | eapply Hkey];
        try (right; eassumption); eassumption. }
    assert (Hrest : forall k, In k (map kb (flat_map f l)) -> In k (map ka l)).
    { intros k Hk. apply in_map_iff in Hk as (b & <- & Hb).
      apply in_flat_map in Hb as (a' & Ha' & Hb).
      rewrite (Hkey a' b (or_intror Ha') Hb). now apply in_map. }
    rewrite map_app.
    pose proof (Hlen a (or_introl eq_refl)) as Hla.
    pose proof (fun b => Hkey a b (or_introl eq_refl)) as Hka.
    destruct (f a) as [| b [| b' fa]]; simpl in *.
    + assumption.
    + constructor; [| assumption].
      intros Hin. apply Hnotin.
      rewrite <- (Hka b (or_introl eq_refl)).
      now apply Hrest.
    + lia.
Qed.

Lemma first_signal_length {A : Type} (body : A -> option Signal) (l : list A) :
  (List.length (first_signal body l) <= 1)%nat.
Proof.
  induction l as [| i l IH]; simpl; [lia |].
  destruct (body i); simpl; lia.
Qed.

Lemma first_signal_In {A : Type} (body : A -> option Signal) (l : list A) s :
  In s (first_signal body l) -> exists i, In i l /\ body i = Some s.
Proof.
  induction l as [| i l IH]; simpl; [intros [] |].
  destruct (body i) as [s' |] eqn:E.
  - intros [<- | []]. exists i. split; [now left | assumption].
  - intros H. destruct (IH H) as (j & Hj & Hb).
    exists j. split; [now right | assumption].
Qed.

(** The signal of a breaking loop is the one of the first position
    where the body yields one. *)
Lemma first_signal_first {A : Type} (body : A -> option Signal) (l : list A) s :
  first_signal body l = [s] <->
  exists l1 i l2,
    l = l1 ++ i :: l2 /\ Forall (fun j => body j = None) l1 /\ body i = Some s.
Proof.
  split.
  - induction l as [| i l IH]; simpl; [discriminate |].
    destruct (body i) as [s' |] eqn:E.
    + intros [= <-]. exists [], i, l. repeat split; [constructor | assumption].
    + intros H. destruct (IH H) as (l1 & j & l2 & -> & Hnone & Hj).
      exists (i :: l1), j, l2. repeat split; [now constructor | assumption].
  - intros (l1 & i & l2 & -> & Hnone & Hi).
    induction Hnone as [| j l1 Hj _ IH]; simpl.
    + now rewrite Hi.
    + now rewrite Hj.
Qed.

Lemma range_In a b i : In i (range a b) -> (a <= i < b)%nat.
Proof. unfold range. rewrite in_seq. lia. Qed.

Lemma iloc_In rows i : (i < len rows)%nat -> In (iloc rows i) rows.
Proof. intros H. unfold iloc. now apply nth_In. Qed.

Variable config : Config.AgentConfig.

Lemma opening_range_keys (rows : list Row) :
  NoDup (map fst (_get_opening_range config rows)).
Proof.
  unfold _get_opening_range.
  apply (flat_map_keyed_NoDup fst fst); [apply groupby_date_keys | |].
  - intros [date group] _. destruct (0 <? _)%nat; simpl; lia.
  - intros [date group] b _. destruct (0 <? _)%nat; simpl; [| intros []].
    intros [<- | []]. reflexivity.
Qed.

(** A row found at a position of the bars after the opening range of a
    day is a row of that day. *)
Lemma post_or_date (rows : list Row) (date cutoff : Z) (i : nat) :
  let post_or := filter (fun r => (cutoff <? index r)%Z) (on_date date rows) in
  In i (range 1 (len post_or)) ->
  date_of (index (iloc post_or i)) = date.
Proof.
  intros post_or Hi. apply range_In in Hi.
  apply (on_date_date date rows).
  assert (Hin : In (iloc post_or i) post_or) by (apply iloc_In; lia).
  apply filter_In in Hin. tauto.
Qed.

Lemma orb_long_one_per_day (ctx : Ctx) :
  one_signal_per_day (_detect_orb_long config ctx).
Proof.
  unfold one_signal_per_day, _detect_orb_long.
  apply (flat_map_keyed_NoDup fst signal_date); [apply opening_range_keys | |].
  - intros [date [or_high or_low]] _. apply first_signal_length.
  - intros [date [or_high or_low]] s _ Hs.
    apply first_signal_In in Hs as (i & Hi & Hb).
    cbv beta zeta in Hb.
    destruct (_ && _); [| discriminate]. injection Hb as <-.
    unfold signal_date. cbn [timestamp fst].
    now apply post_or_date.
Qed.

Lemma orb_short_one_per_day (ctx : Ctx) :
  one_signal_per_day (_detect_orb_short config ctx).
Proof.
  unfold one_signal_per_day, _detect_orb_short.
  apply (flat_map_keyed_NoDup fst signal_date); [apply opening_range_keys | |].
  - intros [date [or_high or_low]] _. apply first_signal_length.
  - intros [date [or_high or_low]] s _ Hs.
    apply first_signal_In in Hs as (i & Hi & Hb).
    cbv beta zeta in Hb.
    destruct (_ && _); [| discriminate]. injection Hb as <-.
    unfold signal_date. cbn [timestamp fst].
    now apply post_or_date.
Qed.

Lemma group_position_date (rows : list Row) (date : Z) (group : list Row)
    (i a b : nat) :
  In (date, group) (groupby_date rows) ->
  In i (range a (Nat.min (len group) b)) ->
  date_of (index (iloc group i)) = date.
Proof.
  intros Hg Hi. apply range_In in Hi.
  apply groupby_date_group in Hg. subst group.
  apply (on_date_date date rows). apply iloc_In. lia.
Qed.

Lemma gap_fill_long_one_per_day (ctx : Ctx) :
  one_signal_per_day (_detect_gap_fill_long ctx).
Proof.
  unfold one_signal_per_day, _detect_gap_fill_long.
  destruct (negb (has_prev_close ctx)); [constructor |].
  apply (flat_map_keyed_NoDup fst signal_date); [apply groupby_date_keys | |].
  - intros [date group] _.
    repeat match goal with
    | |- context [match ?x with _ => _ end] => destruct x
    end; try (simpl; lia); apply first_signal_length.
  - intros [date group] s Hg Hs.
    repeat match type of Hs with
    | context [match ?x with _ => _ end] => destruct x
    end; try contradiction.
    apply first_signal_In in Hs as (i & Hi & Hb).
    cbv beta zeta in Hb.
    destruct (Rgtb _ _); [| discriminate]. injection Hb as <-.
    unfold signal_date. cbn [timestamp fst].
    eapply group_position_date; eassumption.
Qed.

Lemma gap_fill_short_one_per_day (ctx : Ctx) :
  one_signal_per_day (_detect_gap_fill_short ctx).
Proof.
  unfold one_signal_per_day, _detect_gap_fill_short.
  destruct (negb (has_prev_close ctx)); [constructor |].
  apply (flat_map_keyed_NoDup fst signal_date); [apply groupby_date_keys | |].
  - intros [date group] _.
    repeat match goal with
    | |- context [match ?x with _ => _ end] => destruct x
    end; try (simpl; lia); apply first_signal_length.
  - intros [date group] s Hg Hs.
    repeat match type of Hs with
    | context [match ?x with _ => _ end] => destruct x
    end; try contradiction.
    apply first_signal_In in Hs as (i & Hi & Hb).
    cbv beta zeta in Hb.
    destruct (Rltb _ _); [| discriminate]. injection Hb as <-.
    unfold signal_date. cbn [timestamp fst].
    eapply group_position_date; eassumption.
Qed.

End OnePerDay.

Ltac decide_reals :=
  unfold Rgtb, Rgeb;
  repeat match goal with
  | |- context [Rleb ?a ?b] =>
      first [ rewrite (Rleb_true a b) by lra | rewrite (Rleb_false a b) by lra ]
  | |- context [Rltb ?a ?b] =>
      first [ rewrite (Rltb_true a b) by lra | rewrite (Rltb_false a b) by lra ]
  end.

(** On [whipsaw_day] the previous-day high is crossed upward at 9:35 and
    again at 9:45, the previous-day low downward at 9:40 and at 9:50. *)
Lemma prev_high_break_on_whipsaw_day :
  map Patterns.timestamp (Patterns._detect_prev_high_break whipsaw_day)
  = [575; 585]%Z.
Proof.
  unfold Patterns._detect_prev_high_break, whipsaw_day, Patterns.each_signal,
    Patterns.range, len.
  cbn -[IZR Rleb Rgtb]. decide_reals. reflexivity.
Qed.

Lemma prev_low_break_on_whipsaw_day :
  map Patterns.timestamp (Patterns._detect_prev_low_break whipsaw_day)
  = [580; 590]%Z.
Proof.
  unfold Patterns._detect_prev_low_break, whipsaw_day, Patterns.each_signal,
    Patterns.range, len.
  cbn -[IZR Rltb Rgeb]. decide_reals. reflexivity.
Qed.

(** C2, as stated, fails: the previous-day high break and the
    previous-day low break detectors each emit two signals on the single
    trading day of [whipsaw_day]. *)
Lemma prev_day_breaks_repeat_within_a_day :
  ~ one_signal_per_day (Patterns._detect_prev_high_break whipsaw_day)
  /\ ~ one_signal_per_day (Patterns._detect_prev_low_break whipsaw_day).
Proof.
  unfold one_signal_per_day, signal_date.
  split; intros H;
    rewrite <- (map_map Patterns.timestamp date_of) in H;
    [ rewrite prev_high_break_on_whipsaw_day in H
    | rewrite prev_low_break_on_whipsaw_day in H ];
    cbn in H; inversion H as [| ? ? Hnotin _]; apply Hnotin; now left.
Qed.

(** ** Trade simulator *)

Section Simulator.
Import Backtest.

Variable cfg : Config.AgentConfig.

Lemma position_sizing_at_least_one (capital entry_premium : R) :
  exists n, position_sizing cfg capital entry_premium = Some n /\ (1 <= n)%Z.
Proof.
  unfold position_sizing.
  destruct (Rgtb _ _).
  - destruct (Z.max _ 1 =? 0)%Z eqn:E.
    + apply Z.eqb_eq in E. lia.
    + eexists. split; [reflexivity | lia].
  - eexists. split; [reflexivity | lia].
Qed.

(** One turn of the loop of [_simulate_trades]: the signal is skipped,
    or a trade entered at the signal's timestamp is appended and the
    capital settled, after which the loop stops if the capital is gone. *)
Lemma simulate_loop_step signal rest df trades capital active res :
  simulate_loop cfg (signal :: rest) df trades capital active = Some res ->
  simulate_loop cfg rest df trades capital active = Some res
  \/ exists trade,
       OptionsModel.entry_time trade = Patterns.timestamp signal
       /\ active <> Some (date_of (Patterns.timestamp signal))
       /\ (1 <= OptionsModel.contracts trade)%Z
       /\ ((settle cfg capital trade <= 0
            /\ res = (trades ++ [trade], settle cfg capital trade))
           \/ (0 < settle cfg capital trade
               /\ simulate_loop cfg rest df (trades ++ [trade])
                    (settle cfg capital trade)
                    (Some (date_of (Patterns.timestamp signal))) = Some res)).
Proof.
  cbn [simulate_loop].
  destruct (match active with Some d => _ | None => false end) eqn:Eact;
    [now left |].
  destruct (OptionsModel.black_scholes_price _ _ _ _ _ _) as [entry_premium |];
    [cbn [bind] | discriminate].
  destruct (Rltb entry_premium 0.05); [now left |].
  destruct (position_sizing_at_least_one capital entry_premium)
    as (n & -> & Hn).
  destruct (_find_exit _ _ _ _ _ _ _ _) as [exit_result |];
    [cbn [bind] | discriminate].
  match goal with
  | |- context [trades ++ [?t]] => set (trade := t)
  end.
  intros H. right. exists trade. repeat split; try assumption.
  - intros ->. rewrite Z.eqb_refl in Eact. discriminate.
  - match type of H with
    | (if Rleb ?c 0 then _ else _) = _ =>
        change c with (settle cfg capital trade) in H
    end.
    unfold Rleb in H. destruct (Rle_dec _ 0) as [Hle | Hgt].
    + left. split; [assumption |]. now injection H as <-.
    + right. split; [lra | assumption].
Qed.

(** The running capital the loop returns is the settlement, trade after
    trade, of the trades it appended, each of at least one contract. *)
Lemma simulate_loop_capital signals df :
  forall trades capital active trades' cap,
    simulate_loop cfg signals df trades capital active = Some (trades', cap) ->
    exists new,
      trades' = trades ++ new
      /\ cap = fold_left (settle cfg) new capital
      /\ Forall (fun t => (1 <= OptionsModel.contracts t)%Z) new.
Proof.
  induction signals as [| signal rest IH]; intros trades capital active trades' cap H.
  - cbn in H. injection H as <- <-. exists [].
    rewrite app_nil_r. repeat split. constructor.
  - apply simulate_loop_step in H
      as [H | (trade & _ & _ & Hn & [[_ H] | [_ H]])].
    + now apply IH in H.
    + injection H as -> ->. exists [trade]. repeat split.
      now constructor.
    + apply IH in H as (new & -> & -> & Hnew).
      exists (trade :: new). rewrite <- app_assoc. repeat split.
      now constructor.
Qed.

(** On a chronological stream the loop enters its trades on strictly
    increasing dates, all later than the date it holds as active. *)
Lemma simulate_loop_dates signals df :
  forall trades capital active trades' cap,
    StronglySorted
      (fun a b => (Patterns.timestamp a <= Patterns.timestamp b)%Z) signals ->
    (forall d, active = Some d ->
               Forall (fun s => (d <= date_of (Patterns.timestamp s))%Z) signals) ->
    simulate_loop cfg signals df trades capital active = Some (trades', cap) ->
    exists new,
      trades' = trades ++ new
      /\ StronglySorted Z.lt (map entry_date new)
      /\ (forall d, active = Some d -> Forall (fun t => (d < entry_date t)%Z) new).
Proof.
  induction signals as [| signal rest IH];
    intros trades capital active trades' cap Hs Hact H.
  - cbn in H. injection H as <- <-. exists [].
    rewrite app_nil_r. repeat split; constructor.
  - inversion Hs as [| ? ? Hs' Hle]; subst.
    assert (Hdates :
      Forall (fun s => (date_of (Patterns.timestamp signal)
                        <= date_of (Patterns.timestamp s))%Z) rest).
    { eapply Forall_impl; [| exact Hle]. intros s Hsl. cbn beta in Hsl.
      unfold date_of. now apply Z.div_le_mono. }
    apply simulate_loop_step in H
      as [H | (trade & He & Hne & _ & [[_ H] | [_ H]])].
    + apply (IH _ _ _ _ _ Hs') in H; [assumption |].
      intros d Hd. specialize (Hact d Hd). now inversion Hact.
    + injection H as -> _. exists [trade]. repeat split.
      * repeat constructor.
      * intros d Hd. constructor; [| constructor].
        specialize (Hact d Hd). inversion Hact as [| ? ? Hsig _]; subst.
        unfold entry_date. rewrite He.
        assert (d <> date_of (Patterns.timestamp signal)) by congruence. lia.
    + apply (IH _ _ _ _ _ Hs') in H as (new & -> & Hsorted & Hlater).
      * exists (trade :: new). rewrite <- app_assoc. repeat split.
        -- cbn [map]. constructor; [assumption |].
           specialize (Hlater _ eq_refl). rewrite Forall_map.
           eapply Forall_impl; [| exact Hlater]. intros t Ht. cbn beta in Ht.
           unfold entry_date at 1. now rewrite He.
        -- intros d Hd. specialize (Hact d Hd).
           inversion Hact as [| ? ? Hsig _]; subst.
           assert (Hlt : (d < entry_date trade)%Z).
           { unfold entry_date. rewrite He.
             assert (d <> date_of (Patterns.timestamp signal)) by congruence.
             lia. }
           constructor; [assumption |].
           specialize (Hlater _ eq_refl).
           eapply Forall_impl; [| exact Hlater]. intros t Ht. cbn beta in Ht.
           unfold entry_date in Hlt at 1. rewrite He in Hlt.
           unfold entry_date in *. lia.
      * intros d [= <-]. assumption.
Qed.

Lemma fold_left_Rplus (l : list R) (a : R) :
  fold_left Rplus l a = a + Py.sum l.
Proof.
  unfold Py.sum. revert a. induction l as [| x l IH]; intros a; simpl.
  - ring.
  - rewrite IH, (IH (0 + x)). ring.
Qed.

Lemma sum_cons (x : R) (l : list R) : Py.sum (x :: l) = x + Py.sum l.
Proof.
  unfold Py.sum at 1. cbn [fold_left]. rewrite fold_left_Rplus. ring.
Qed.

(** Settling a sequence of trades takes, from the sum of their P&L,
    the sum of their costs. *)
Lemma settle_all (trades : list OptionsModel.OptionTrade) :
  forall capital,
    fold_left (settle cfg) trades capital
    = capital + Py.sum (map OptionsModel.total_pnl trades)
      - Py.sum (map (trade_costs cfg) trades).
Proof.
  induction trades as [| t trades IH]; intros capital; cbn [fold_left map].
  - unfold Py.sum. simpl. ring.
  - rewrite IH, !sum_cons. unfold settle, trade_costs. ring.
Qed.

Lemma costs_positive (trades : list OptionsModel.OptionTrade) :
  0 < Config.commission_per_contract cfg ->
  0 <= Config.slippage_pct cfg ->
  Forall (fun t => (1 <= OptionsModel.contracts t)%Z) trades ->
  trades <> [] ->
  0 < Py.sum (map (trade_costs cfg) trades).
Proof.
  intros Hc Hs Hn Hne.
  assert (Hall : Forall (fun t => 0 < trade_costs cfg t) trades).
  { eapply Forall_impl; [| exact Hn]. intros t Ht. cbn beta in Ht.
    unfold trade_costs. apply IZR_le in Ht.
    pose proof (Rabs_pos (OptionsModel.total_pnl t)). nra. }
  clear Hn. destruct Hall as [| t trades Ht Hall]; [contradiction |].
  cbn [map]. rewrite sum_cons.
  assert (0 <= Py.sum (map (trade_costs cfg) trades)).
  { clear -Hall. induction Hall as [| u l Hu _ IH]; cbn [map].
    - unfold Py.sum. simpl. lra.
    - rewrite sum_cons. lra. }
  lra.
Qed.

End Simulator.

(** ** The standard normal distribution function *)

Section NormalDistribution.
Import OptionsModel.

Lemma exp_le x y : x <= y -> exp x <= exp y.
Proof.
  intros [H | ->]; [left; now apply exp_increasing | right; reflexivity].
Qed.

Lemma gauss_pos t : 0 < gauss t.
Proof. apply exp_pos. Qed.

Lemma gauss_le_1 t : gauss t <= 1.
Proof.
  unfold gauss. rewrite <- exp_0. apply exp_le. nra.
Qed.

Lemma gauss_decreasing a b : 0 <= a <= b -> gauss b <= gauss a.
Proof. intros H. unfold gauss. apply exp_le. nra. Qed.

Lemma gauss_integral_bounds a b (pr : Riemann_integrable gauss a b) :
  0 <= a <= b ->
  gauss b * (b - a) <= RiemannInt pr <= gauss a * (b - a).
Proof.
  intros H. apply RiemannInt_const_bound; [lra |].
  intros x Hx. split; apply gauss_decreasing; lra.
Qed.

Lemma sqrt_lower a x : 0 <= a -> a * a <= x -> a <= sqrt x.
Proof.
  intros Ha H. rewrite <- (sqrt_square a Ha). now apply sqrt_le_1_alt.
Qed.

Lemma sqrt_upper a x : 0 <= a -> x <= a * a -> sqrt x <= a.
Proof.
  intros Ha H. rewrite <- (sqrt_square a Ha). now apply sqrt_le_1_alt.
Qed.

Lemma norm_constant_bounds : 0.35 <= / sqrt (2 * PI) <= 0.41.
Proof.
  pose proof PI2_3_2 as Hlo. pose proof PI_4 as Hhi.
  assert (H1 : 2.44 <= sqrt (2 * PI)) by (apply sqrt_lower; lra).
  assert (H2 : sqrt (2 * PI) <= 2.85) by (apply sqrt_upper; lra).
  split.
  - apply Rle_trans with (/ 2.85); [lra |].
    apply Rinv_le_contravar; lra.
  - apply Rle_trans with (/ 2.44); [| lra].
    apply Rinv_le_contravar; lra.
Qed.

Lemma norm_cdf_nonneg_arg x :
  0 <= x -> 1 / 2 <= norm_cdf x <= 1 / 2 + / sqrt (2 * PI) * x.
Proof.
  intros Hx. unfold norm_cdf.
  pose proof (gauss_integral_bounds 0 x (gauss_integrable 0 x) (conj (Rle_refl 0) Hx)) as [Hl Hu].
  pose proof norm_constant_bounds as [Hc _].
  pose proof (gauss_pos x) as Hg. pose proof (gauss_le_1 0) as Hg0.
  assert (H0 : 0 <= RiemannInt (gauss_integrable 0 x)).
  { apply Rle_trans with (2 := Hl). apply Rmult_le_pos; lra. }
  assert (H1 : RiemannInt (gauss_integrable 0 x) <= x).
  { apply Rle_trans with (1 := Hu). nra. }
  split.
  - assert (0 <= / sqrt (2 * PI) * RiemannInt (gauss_integrable 0 x))
      by (apply Rmult_le_pos; lra).
    lra.
  - apply Rplus_le_compat_l, Rmult_le_compat_l; lra.
Qed.

Lemma norm_cdf_increment a b :
  0 <= a <= b ->
  / sqrt (2 * PI) * (gauss b * (b - a)) <= norm_cdf b - norm_cdf a.
Proof.
  intros H. unfold norm_cdf.
  pose proof (RiemannInt_P26 (gauss_integrable 0 a) (gauss_integrable a b)
                (gauss_integrable 0 b)) as Hch.
  pose proof (gauss_integral_bounds a b (gauss_integrable a b) H) as [Hl _].
  pose proof norm_constant_bounds as [Hc _].
  rewrite <- Hch.
  apply Rle_trans
    with (/ sqrt (2 * PI) * RiemannInt (gauss_integrable a b)).
  - apply Rmult_le_compat_l; lra.
  - lra.
Qed.

Lemma gauss_le_tail t : gauss t <= exp (1 / 2 - t).
Proof.
  unfold gauss. apply exp_le.
  pose proof (Rle_0_sqr (t - 1)) as H. unfold Rsqr in H. lra.
Qed.

Lemma gauss_integral_crude x :
  0 <= x -> RiemannInt (gauss_integrable 0 x) <= exp (1 / 2).
Proof.
  intros Hx.
  pose proof (RiemannInt_P33 tail_C1 (RiemannInt_P32 tail_C1 0 x) Hx) as Hftc.
  apply Rle_trans with (RiemannInt (RiemannInt_P32 tail_C1 0 x)).
  - apply RiemannInt_P19; [assumption |].
    intros t _. simpl. unfold derive. rewrite tail_derive. apply gauss_le_tail.
  - rewrite Hftc. simpl. unfold tail.
    replace (1 / 2 - 0) with (1 / 2) by lra.
    pose proof (exp_pos (1 / 2 - x)). lra.
Qed.

Lemma exp_half_le : exp (1 / 2) <= 1.74.
Proof.
  assert (H : exp (1 / 2) * exp (1 / 2) <= 3).
  { rewrite <- exp_plus. replace (1 / 2 + 1 / 2) with 1 by lra. apply exp_le_3. }
  pose proof (exp_pos (1 / 2)). nra.
Qed.

Lemma norm_cdf_crude x : 0 <= x -> norm_cdf x <= 1.22.
Proof.
  intros Hx. unfold norm_cdf.
  pose proof (gauss_integral_crude x Hx) as H.
  pose proof exp_half_le as He.
  pose proof norm_constant_bounds as [Hc0 Hc1].
  assert (Hi : 0 <= RiemannInt (gauss_integrable 0 x)).
  { pose proof (gauss_integral_bounds 0 x (gauss_integrable 0 x)
                  (conj (Rle_refl 0) Hx)) as [Hl _].
    apply Rle_trans with (2 := Hl). pose proof (gauss_pos x).
    apply Rmult_le_pos; lra. }
  nra.
Qed.

End NormalDistribution.

(** ** Pricing at concrete inputs *)

Section PricingExamples.
Import OptionsModel.

Lemma sqrt_9 : sqrt 9 = 3.
Proof. replace 9 with (3 * 3) by lra. apply sqrt_square. lra. Qed.

Lemma exp_neg_le (x : R) : 0 <= x -> exp (- x) <= / (1 + x).
Proof.
  intros Hx. rewrite exp_Ropp.
  apply Rinv_le_contravar; [lra | apply exp_ineq1_le].
Qed.

Lemma ln_hundredth : ln (1 / 100) < - (63 / 100).
Proof.
  rewrite <- (ln_exp (- (63 / 100))).
  apply ln_increasing; [lra |].
  rewrite exp_Ropp.
  assert (H : exp (63 / 100) <= 3).
  { apply Rle_trans with (exp 1); [apply exp_le; lra | apply exp_le_3]. }
  pose proof (exp_pos (63 / 100)) as Hp.
  apply Rlt_le_trans with (/ 3); [lra |].
  now apply Rinv_le_contravar.
Qed.

(** A put far in the money, nine years from expiry, is worth less than
    its intrinsic value of 99. *)
Lemma deep_put_nine_years :
  exists p, black_scholes_price 1 100 9 0.05 0.2 PUT = Some p /\ p < 99.
Proof.
  unfold black_scholes_price.
  destruct (Rle_dec 9 0) as [H | _]; [lra |].
  unfold py_div at 1. destruct (Req_dec_T 100 0) as [H | _]; [lra |].
  cbn [bind]. unfold math_log.
  destruct (Rlt_dec 0 (1 / 100)) as [_ | H]; [| lra].
  cbn [bind]. rewrite sqrt_9. unfold py_div.
  destruct (Req_dec_T (0.2 * 3) 0) as [H | _]; [lra |].
  cbn [bind]. eexists. split; [reflexivity |].
  set (d1 := (ln (1 / 100) + (0.05 + 0.5 * 0.2 ^ 2) * 9) / (0.2 * 3)).
  assert (Hd1 : 0 <= - d1).
  { unfold d1. pose proof ln_hundredth. lra. }
  assert (Hd2 : 0 <= - (d1 - 0.2 * 3)) by lra.
  pose proof (norm_cdf_crude _ Hd2) as Hu.
  pose proof (norm_cdf_nonneg_arg _ Hd2) as [Hl2 _].
  pose proof (norm_cdf_nonneg_arg _ Hd1) as [Hl1 _].
  assert (He : exp (- (0.05) * 9) <= 0.69).
  { replace (- (0.05) * 9) with (- (45 / 100)) by lra.
    apply Rle_trans with (/ (1 + 45 / 100)); [apply exp_neg_le; lra |].
    replace (/ (1 + 45 / 100)) with (100 / 145) by field. lra. }
  pose proof (exp_pos (- (0.05) * 9)) as Hp.
  apply Rmax_lub_lt; [| lra].
  assert (100 * exp (- (0.05) * 9) * norm_cdf (- (d1 - 0.2 * 3)) <= 100 * 0.69 * 1.22).
  { apply Rmult_le_compat; lra. }
  lra.
Qed.

End PricingExamples.

Section AtmCall.
Import OptionsModel.

Lemma ratio_sqrt (k v s : R) :
  v <> 0 -> s <> 0 -> (0 + k * (s * s)) / (v * s) = k / v * s.
Proof. intros Hv Hs. field. now split. Qed.

(** The premium quoted two hours before the close (volatility
    0.15 * 1.5) for a call struck at the money at 450. *)
Lemma atm_call_two_hours :
  exists p,
    black_scholes_price 450 450 (120 / 60 / (252 * 6.5)) 0.05 (0.15 * 1.5) CALL
    = Some p
    /\ 1 < p < 3.
Proof.
  unfold black_scholes_price.
  set (T := 120 / 60 / (252 * 6.5)).
  assert (HT : T = 2 / 1638) by (unfold T; lra).
  assert (HT0 : 0 < T) by lra.
  destruct (Rle_dec T 0) as [H | _]; [lra |].
  unfold py_div at 1. destruct (Req_dec_T 450 0) as [H | _]; [lra |].
  cbn [bind]. unfold math_log.
  replace (450 / 450) with 1 by lra.
  destruct (Rlt_dec 0 1) as [_ | H]; [| lra].
  cbn [bind]. rewrite ln_1.
  set (s := sqrt T).
  assert (Hs2 : s * s = T) by (apply sqrt_sqrt; lra).
  assert (Hs_lo : 0.0349 <= s) by (apply sqrt_lower; lra).
  assert (Hs_hi : s <= 0.035) by (apply sqrt_upper; lra).
  unfold py_div. destruct (Req_dec_T (0.15 * 1.5 * s) 0) as [H | _]; [lra |].
  cbn [bind]. eexists. split; [reflexivity |].
  set (d1 := (0 + (0.05 + 0.5 * (0.15 * 1.5) ^ 2) * T) / (0.15 * 1.5 * s)).
  assert (Hd1 : d1 = 0.0753125 / 0.225 * s).
  { unfold d1. rewrite <- Hs2, ratio_sqrt by lra. lra. }
  set (d2 := d1 - 0.15 * 1.5 * s).
  assert (Hd1_lo : 0 <= d1) by (rewrite Hd1; lra).
  assert (Hd1_hi : d1 <= 0.0118) by (rewrite Hd1; lra).
  assert (Hd2_lo : 0 <= d2) by (unfold d2; rewrite Hd1; lra).
  assert (Hd21 : d1 - d2 = 0.225 * s) by (unfold d2; lra).
  pose proof norm_constant_bounds as [Hc_lo Hc_hi].
  pose proof (norm_cdf_nonneg_arg d1 Hd1_lo) as [_ Hphi1_hi].
  pose proof (norm_cdf_nonneg_arg d2 Hd2_lo) as [Hphi2_lo _].
  assert (Hd2_hi : d2 <= d1) by lra.
  pose proof (norm_cdf_increment d2 d1 (conj Hd2_lo Hd2_hi)) as Hinc.
  assert (Hg : 0.9999 <= gauss d1).
  { unfold gauss. pose proof (exp_ineq1_le (- (d1 * d1) / 2)). nra. }
  assert (He_hi : exp (- (0.05) * T) <= 1).
  { rewrite <- exp_0. apply exp_le. lra. }
  assert (He_lo : 1 - 0.05 * T <= exp (- (0.05) * T)).
  { pose proof (exp_ineq1_le (- (0.05) * T)). lra. }
  assert (Hinc' : 0.35 * (0.9999 * (0.225 * 0.0349)) <= norm_cdf d1 - norm_cdf d2).
  { apply Rle_trans with (2 := Hinc). rewrite Hd21.
    apply Rmult_le_compat; try lra.
    apply Rmult_le_compat; lra. }
  assert (Hdisc : exp (- (0.05) * T) * norm_cdf d2 <= norm_cdf d2).
  { nra. }
  assert (Hdisc' : (1 - 0.05 * T) * (1 / 2) <= exp (- (0.05) * T) * norm_cdf d2).
  { apply Rmult_le_compat; lra. }
  assert (Hphi1 : norm_cdf d1 <= 1 / 2 + 0.41 * 0.0118).
  { apply Rle_trans with (1 := Hphi1_hi).
    apply Rplus_le_compat_l. apply Rmult_le_compat; lra. }
  split.
  - apply Rlt_le_trans with
      (450 * norm_cdf d1 - 450 * exp (- (0.05) * T) * norm_cdf d2);
      [| apply Rmax_l].
    nra.
  - apply Rmax_lub_lt; [| lra]. nra.
Qed.

Lemma atm_premium_quoted :
  black_scholes_price 450 450 (120 / 60 / (252 * 6.5)) 0.05 (0.15 * 1.5) CALL
  = Some atm_premium
  /\ 1 < atm_premium < 3.
Proof.
  unfold atm_premium. destruct atm_call_two_hours as (p & -> & Hp). now split.
Qed.

End AtmCall.

(** ** The simulator on a break of the previous day's high *)

Section BreakoutTrade.
Import Backtest.

Lemma breakout_signal_date (d : Z) :
  date_of (Patterns.timestamp (breakout_signal d)) = d.
Proof.
  unfold date_of, breakout_signal. cbn [Patterns.timestamp].
  rewrite Z.div_add_l by lia. cbn. lia.
Qed.

Lemma py_round_integer (n : Z) : py_round (IZR n) = n.
Proof.
  unfold py_round. rewrite ZfloorZ.
  destruct (Rlt_dec _ _) as [_ | H]; [reflexivity | lra].
Qed.

Lemma py_int_floor (x : R) (n : Z) :
  0 <= x -> IZR n <= x < IZR n + 1 -> py_int x = n.
Proof.
  intros Hx Hn. unfold py_int.
  destruct (Rle_dec 0 x) as [_ | H]; [now apply Zfloor_eq | contradiction].
Qed.

(** Sizing under the default configuration with ample capital: whole
    contracts worth at most 5% of the capital. *)
Lemma default_sizing (capital p : R) :
  6000 <= capital -> 1 < p < 3 ->
  exists n,
    position_sizing Config.default capital p = Some n
    /\ (1 <= n)%Z
    /\ IZR n * p * 100 <= capital * 0.05.
Proof.
  intros Hc Hp. unfold position_sizing. cbn [Config.position_size_pct Config.default].
  set (x := capital * 5 / 100 / (p * 100)).
  assert (Hx : 1 <= x).
  { unfold x. apply Rmult_le_reg_r with (p * 100); [lra |].
    unfold Rdiv at 1. rewrite Rmult_assoc, Rinv_l by lra. lra. }
  assert (Hxp : x * (p * 100) = capital * 5 / 100).
  { unfold x. unfold Rdiv at 1. rewrite Rmult_assoc, Rinv_l by lra. lra. }
  assert (Hfl : (1 <= py_int x)%Z).
  { unfold py_int. destruct (Rle_dec 0 x) as [_ | H]; [| lra].
    apply Zfloor_lub. exact Hx. }
  assert (Hle : IZR (py_int x) <= x).
  { unfold py_int. destruct (Rle_dec 0 x) as [_ | H]; [| lra].
    apply Zfloor_bound. }
  rewrite Z.max_l by assumption.
  assert (Hcost : IZR (py_int x) * p * 100 <= capital * 0.05).
  { apply Rle_trans with (x * (p * 100)); [| lra].
    rewrite Rmult_assoc. apply Rmult_le_compat_r; lra. }
  unfold Rgtb. rewrite Rltb_false by lra.
  exists (py_int x). repeat split; assumption.
Qed.

Lemma breakout_minutes (d : Z) :
  minutes_between (combine (date_of (Patterns.timestamp (breakout_signal d))) 16 0)
    (Patterns.timestamp (breakout_signal d)) = 120.
Proof.
  rewrite breakout_signal_date. unfold minutes_between, combine, breakout_signal.
  cbn [Patterns.timestamp]. apply f_equal. lia.
Qed.

Lemma iv_two_hours (base_iv : R) :
  OptionsModel.estimate_iv_from_time 120 base_iv = base_iv * 1.5.
Proof.
  unfold OptionsModel.estimate_iv_from_time, Rgtb.
  rewrite (Rltb_false 5) by lra. rewrite (Rltb_false 3) by lra.
  rewrite (Rltb_true 1) by lra. reflexivity.
Qed.

(** One turn of the loop on a breakout signal with no later bar that
    day, for a configuration with the default rate and volatility: the
    premium quoted is [atm_premium], the position is sized, and the
    trade is closed at once at a zero premium. *)
Lemma breakout_step (cfg : Config.AgentConfig) (d : Z) rest df trades capital active :
  Config.risk_free_rate cfg = 0.05 ->
  Config.default_iv cfg = 0.15 ->
  filter (fun b => (date_of (Patterns.index b) =? d)%Z)
    (filter (fun b => (Patterns.timestamp (breakout_signal d)
                       <? Patterns.index b)%Z) df) = [] ->
  active <> Some d ->
  simulate_loop cfg (breakout_signal d :: rest) df trades capital active
  = match position_sizing cfg capital atm_premium with
    | None => simulate_loop cfg rest df trades capital active
    | Some n =>
        let t := breakout_trade d atm_premium n in
        if Rleb (settle cfg capital t) 0
        then Some (trades ++ [t], settle cfg capital t)
        else simulate_loop cfg rest df (trades ++ [t])
               (settle cfg capital t) (Some d)
    end.
Proof.
  intros Hr Hiv Hfwd Hact.
  cbn [simulate_loop].
  rewrite breakout_minutes, breakout_signal_date.
  assert (Eact : match active with
                 | Some d0 => (d0 =? d)%Z
                 | None => false
                 end = false).
  { destruct active as [d0 |]; [| reflexivity].
    apply Z.eqb_neq. congruence. }
  rewrite Eact.
  cbn [Patterns.direction Patterns.entry_price breakout_signal].
  unfold OptionsModel.select_strike. cbn [String.eqb Ascii.eqb Bool.eqb].
  rewrite (py_round_integer 450).
  replace (Rmax 120 1) with 120 by (unfold Rmax; destruct (Rle_dec 120 1); lra).
  rewrite iv_two_hours, Hr, Hiv.
  destruct atm_premium_quoted as [-> Hp].
  cbn [bind]. rewrite Rltb_false by lra.
  destruct (position_sizing cfg capital atm_premium) as [n |]; [| reflexivity].
  unfold _find_exit. rewrite breakout_signal_date, Hfwd.
  cbn [exit_scan bind exit_time exit_price exit_premium
       Patterns.timestamp Patterns.entry_price Patterns.pattern
       Patterns.direction_value].
  reflexivity.
Qed.

Lemma breakout_trade_pnl (d : Z) (p : R) (n : Z) :
  OptionsModel.total_pnl (breakout_trade d p n) = - (100 * p * IZR n).
Proof.
  unfold OptionsModel.total_pnl, OptionsModel.pnl_per_contract, breakout_trade.
  cbn [OptionsModel.exit_premium OptionsModel.entry_premium
       OptionsModel.contracts]. ring.
Qed.

(** With the default configuration and ample capital the breakout is
    traded, the capital loses at most 6%, and the loop goes on. *)
Lemma breakout_is_traded (d : Z) rest df trades capital active :
  filter (fun b => (date_of (Patterns.index b) =? d)%Z)
    (filter (fun b => (Patterns.timestamp (breakout_signal d)
                       <? Patterns.index b)%Z) df) = [] ->
  active <> Some d ->
  6000 <= capital ->
  exists n,
    (1 <= n)%Z
    /\ 0.94 * capital
       <= settle Config.default capital (breakout_trade d atm_premium n)
       < capital
    /\ simulate_loop Config.default (breakout_signal d :: rest) df trades
         capital active
       = simulate_loop Config.default rest df
           (trades ++ [breakout_trade d atm_premium n])
           (settle Config.default capital (breakout_trade d atm_premium n))
           (Some d).
Proof.
  intros Hfwd Hact Hcap.
  rewrite breakout_step by (reflexivity || assumption).
  destruct atm_premium_quoted as [_ Hp].
  destruct (default_sizing capital atm_premium Hcap Hp) as (n & -> & Hn & Hcost).
  cbv zeta.
  assert (Hn' : 1 <= IZR n) by (now apply IZR_le in Hn).
  assert (Hsettle :
    settle Config.default capital (breakout_trade d atm_premium n)
    = capital - 100 * atm_premium * IZR n - IZR n * 0.65 * 2
      - 100 * atm_premium * IZR n * 1 / 100).
  { unfold settle. rewrite breakout_trade_pnl, Rabs_Ropp, Rabs_pos_eq by nra.
    cbn [OptionsModel.contracts breakout_trade Config.commission_per_contract
         Config.slippage_pct Config.default]. lra. }
  assert (Hpn : IZR n <= atm_premium * IZR n) by nra.
  exists n. split; [exact Hn |]. split.
  - rewrite Hsettle. nra.
  - rewrite Rleb_false by (rewrite Hsettle; nra). reflexivity.
Qed.

End BreakoutTrade.

(** ** The scan of a day with one break of the previous day's high *)

Section ScanExample.
Import Patterns.
Variable ddb : list R -> nat -> bool.
Variable ddt : list R -> nat -> bool.
Variable fsr : list R -> list R -> list R -> Z -> list R * list R.

Ltac on_breakout_day d :=
  unfold d, breakout_day, each_signal, range, len, _get_opening_range,
    groupby_date, unique_dates, on_date;
  cbn -[IZR Rleb Rltb Rgtb Rgeb Reqb];
  decide_reals;
  try reflexivity.

Lemma detect_orb_long_quiet : _detect_orb_long Config.default breakout_day = [].
Proof. on_breakout_day _detect_orb_long. Qed.

Lemma detect_orb_short_quiet : _detect_orb_short Config.default breakout_day = [].
Proof. on_breakout_day _detect_orb_short. Qed.

Lemma detect_vwap_rejection_long_quiet : _detect_vwap_rejection_long Config.default breakout_day = [].
Proof. on_breakout_day _detect_vwap_rejection_long. Qed.

Lemma detect_vwap_rejection_short_quiet : _detect_vwap_rejection_short Config.default breakout_day = [].
Proof. on_breakout_day _detect_vwap_rejection_short. Qed.

Lemma detect_vwap_cross_long_quiet : _detect_vwap_cross_long breakout_day = [].
Proof. on_breakout_day _detect_vwap_cross_long. Qed.

Lemma detect_vwap_cross_short_quiet : _detect_vwap_cross_short breakout_day = [].
Proof. on_breakout_day _detect_vwap_cross_short. Qed.

Lemma detect_macd_bull_quiet : _detect_macd_bull Config.default breakout_day = [].
Proof. on_breakout_day _detect_macd_bull. Qed.

Lemma detect_macd_bear_quiet : _detect_macd_bear Config.default breakout_day = [].
Proof. on_breakout_day _detect_macd_bear. Qed.

Lemma detect_rsi_oversold_quiet : _detect_rsi_oversold Config.default breakout_day = [].
Proof. on_breakout_day _detect_rsi_oversold. Qed.

Lemma detect_rsi_overbought_quiet : _detect_rsi_overbought Config.default breakout_day = [].
Proof. on_breakout_day _detect_rsi_overbought. Qed.

Lemma detect_ema_bull_cross_quiet : _detect_ema_bull_cross breakout_day = [].
Proof. on_breakout_day _detect_ema_bull_cross. Qed.

Lemma detect_ema_bear_cross_quiet : _detect_ema_bear_cross breakout_day = [].
Proof. on_breakout_day _detect_ema_bear_cross. Qed.

Lemma detect_bb_squeeze_quiet : _detect_bb_squeeze Config.default breakout_day = [].
Proof. on_breakout_day _detect_bb_squeeze. Qed.

Lemma detect_volume_spike_quiet : _detect_volume_spike Config.default breakout_day = [].
Proof. on_breakout_day _detect_volume_spike. Qed.

Lemma detect_mean_rev_long_quiet : _detect_mean_rev_long Config.default breakout_day = [].
Proof. on_breakout_day _detect_mean_rev_long. Qed.

Lemma detect_mean_rev_short_quiet : _detect_mean_rev_short Config.default breakout_day = [].
Proof. on_breakout_day _detect_mean_rev_short. Qed.

Lemma detect_gap_fill_long_quiet : _detect_gap_fill_long breakout_day = [].
Proof. on_breakout_day _detect_gap_fill_long. Qed.

Lemma detect_gap_fill_short_quiet : _detect_gap_fill_short breakout_day = [].
Proof. on_breakout_day _detect_gap_fill_short. Qed.

Lemma detect_prev_low_break_quiet : _detect_prev_low_break breakout_day = [].
Proof. on_breakout_day _detect_prev_low_break. Qed.

Lemma detect_midday_reversal_quiet : _detect_midday_reversal breakout_day = [].
Proof. on_breakout_day _detect_midday_reversal. Qed.

Lemma detect_power_hour_quiet : _detect_power_hour breakout_day = [].
Proof. on_breakout_day _detect_power_hour. Qed.

Lemma detect_double_bottom_quiet : _detect_double_bottom ddb breakout_day = [].
Proof. on_breakout_day _detect_double_bottom. Qed.

Lemma detect_double_top_quiet : _detect_double_top ddt breakout_day = [].
Proof. on_breakout_day _detect_double_top. Qed.

Lemma detect_support_bounce_quiet : _detect_support_bounce Config.default fsr breakout_day = [].
Proof.
  unfold _detect_support_bounce.
  destruct (fsr _ _ _ _) as [supports resistances].
  now destruct supports.
Qed.

Lemma detect_resistance_rejection_quiet : _detect_resistance_rejection Config.default fsr breakout_day = [].
Proof.
  unfold _detect_resistance_rejection.
  destruct (fsr _ _ _ _) as [supports resistances].
  now destruct resistances.
Qed.

Lemma detect_prev_high_break_fires :
  _detect_prev_high_break breakout_day = [breakout_signal 0].
Proof. on_breakout_day _detect_prev_high_break. Qed.

(** With every pattern enabled, as by default, the loop of [scan]
    concatenates the signals of the 26 detectors in table order. *)
Lemma combined_signals_default (ctx : Ctx) :
  combined_signals (Config.enabled_patterns Config.default)
    (detectors Config.default ddb ddt fsr) ctx
  = _detect_orb_long Config.default ctx
    ++ _detect_orb_short Config.default ctx
    ++ _detect_vwap_rejection_long Config.default ctx
    ++ _detect_vwap_rejection_short Config.default ctx
    ++ _detect_vwap_cross_long ctx
    ++ _detect_vwap_cross_short ctx
    ++ _detect_macd_bull Config.default ctx
    ++ _detect_macd_bear Config.default ctx
    ++ _detect_rsi_oversold Config.default ctx
    ++ _detect_rsi_overbought Config.default ctx
    ++ _detect_ema_bull_cross ctx
    ++ _detect_ema_bear_cross ctx
    ++ _detect_bb_squeeze Config.default ctx
    ++ _detect_volume_spike Config.default ctx
    ++ _detect_mean_rev_long Config.default ctx
    ++ _detect_mean_rev_short Config.default ctx
    ++ _detect_gap_fill_long ctx
    ++ _detect_gap_fill_short ctx
    ++ _detect_prev_high_break ctx
    ++ _detect_prev_low_break ctx
    ++ _detect_midday_reversal ctx
    ++ _detect_power_hour ctx
    ++ _detect_double_bottom ddb ctx
    ++ _detect_double_top ddt ctx
    ++ _detect_support_bounce Config.default fsr ctx
    ++ _detect_resistance_rejection Config.default fsr ctx
    ++ [].
Proof. reflexivity. Qed.

(** The scan of [breakout_day] under the default configuration: the
    break of the previous day's high at 14:00 and nothing else. *)
Lemma scan_breakout_day :
  scan Config.default ddb ddt fsr breakout_day = [breakout_signal 0].
Proof.
  unfold scan, scan_table. rewrite run_detectors_spec.
  rewrite combined_signals_default.
  rewrite detect_orb_long_quiet, detect_orb_short_quiet,
    detect_vwap_rejection_long_quiet, detect_vwap_rejection_short_quiet,
    detect_vwap_cross_long_quiet, detect_vwap_cross_short_quiet,
    detect_macd_bull_quiet, detect_macd_bear_quiet,
    detect_rsi_oversold_quiet, detect_rsi_overbought_quiet,
    detect_ema_bull_cross_quiet, detect_ema_bear_cross_quiet,
    detect_bb_squeeze_quiet, detect_volume_spike_quiet,
    detect_mean_rev_long_quiet, detect_mean_rev_short_quiet,
    detect_gap_fill_long_quiet, detect_gap_fill_short_quiet,
    detect_prev_high_break_fires, detect_prev_low_break_quiet,
    detect_midday_reversal_quiet, detect_power_hour_quiet,
    detect_double_bottom_quiet, detect_double_top_quiet,
    detect_support_bounce_quiet, detect_resistance_rejection_quiet.
  reflexivity.
Qed.

(** A table whose first detector raises: the scan is that of the
    detector that follows it. *)
Lemma scan_table_with_a_raising_detector :
  scan_table ["broken"; "previous_day_high_break"]%string
    [ ("broken"%string, fun _ => Raises);
      ("previous_day_high_break"%string,
       fun ctx => Returns (_detect_prev_high_break ctx)) ]
    breakout_day
  = [breakout_signal 0].
Proof.
  unfold scan_table. rewrite run_detectors_spec. unfold combined_signals.
  cbn -[_detect_prev_high_break breakout_day sort_by_timestamp].
  rewrite detect_prev_high_break_fires. reflexivity.
Qed.

End ScanExample.

(** ** Runs of the simulator *)

Section Runs.
Import Backtest.

(** The capital [_simulate_trades] holds when it returns is the running
    capital of the trades it returns. *)
Lemma simulated_capital_is_running_capital cfg signals df trades cap :
  simulate_loop cfg signals df [] (Config.initial_capital cfg) None
  = Some (trades, cap) ->
  cap = running_capital cfg trades
  /\ Forall (fun t => (1 <= OptionsModel.contracts t)%Z) trades.
Proof.
  intros H. apply simulate_loop_capital in H as (new & -> & -> & Hn).
  now split.
Qed.

(** Settling at least one trade under a positive commission leaves less
    than the initial capital plus the sum of the P&L. *)
Lemma running_capital_below_gross cfg (trs : list OptionsModel.OptionTrade) :
  0 < Config.commission_per_contract cfg ->
  0 <= Config.slippage_pct cfg ->
  Forall (fun t => (1 <= OptionsModel.contracts t)%Z) trs ->
  trs <> [] ->
  running_capital cfg trs
  < Config.initial_capital cfg + Py.sum (map OptionsModel.total_pnl trs).
Proof.
  intros Hc Hs Hn Hne. unfold running_capital. rewrite settle_all.
  pose proof (costs_positive cfg trs Hc Hs Hn Hne). lra.
Qed.

(** What a run that returns is made of. *)
Lemma run_inversion cfg ddb ddt fsr ctx res :
  run cfg ddb ddt fsr ctx = Some res ->
  exists signals cap,
    simulate_loop cfg signals (Patterns.df ctx) []
      (Config.initial_capital cfg) None = Some (trades res, cap)
    /\ initial_capital res = Config.initial_capital cfg
    /\ final_capital res
       = Config.initial_capital cfg
         + Py.sum (map OptionsModel.total_pnl (trades res)).
Proof.
  unfold run, _simulate_trades.
  match goal with
  | |- context [simulate_loop cfg ?sg _ _ _ _] => generalize sg
  end.
  intros signals.
  destruct (simulate_loop cfg signals (Patterns.df ctx) []
              (Config.initial_capital cfg) None) as [[trs cap] |] eqn:Hsim;
    [| discriminate].
  intros [= <-]. exists signals, cap. repeat split. exact Hsim.
Qed.

Lemma no_bar_after_breakout_0 :
  filter (fun b => (date_of (Patterns.index b) =? 0)%Z)
    (filter (fun b => (Patterns.timestamp (breakout_signal 0)
                       <? Patterns.index b)%Z) (Patterns.df breakout_day)) = [].
Proof. reflexivity. Qed.

(** The run over [breakout_day] under the default configuration trades
    the breakout once. *)
Lemma run_breakout_day ddb ddt fsr :
  exists n,
    (1 <= n)%Z
    /\ run Config.default ddb ddt fsr breakout_day
       = Some {| trades := [breakout_trade 0 atm_premium n];
                 initial_capital := 10000;
                 final_capital :=
                   10000
                   + Py.sum (map OptionsModel.total_pnl
                               [breakout_trade 0 atm_premium n]);
                 config := Config.default |}.
Proof.
  destruct (breakout_is_traded 0 [] (Patterns.df breakout_day) [] 10000 None)
    as (n & Hn & _ & Hstep);
    [exact no_bar_after_breakout_0 | discriminate | lra |].
  exists n. split; [exact Hn |].
  unfold run, _simulate_trades. rewrite scan_breakout_day.
  cbn [filter Patterns.confidence breakout_signal Config.min_pattern_confidence
       Config.initial_capital Config.default].
  unfold Rgeb. rewrite Rleb_true by lra.
  rewrite Hstep. reflexivity.
Qed.

End Runs.

(** C1.  The claim fails on [breakout_day] under the default
    configuration: the run executes one trade, and the final capital it
    records, the initial capital plus the trade's P&L, is more than the
    running capital after that trade, which also pays the round-trip
    commission and the slippage. *)
Theorem final_capital_ignores_commission_and_slippage :
  forall ddb ddt fsr,
    exists res,
      Backtest.run Config.default ddb ddt fsr breakout_day = Some res
      /\ Backtest.trades res <> []
      /\ Backtest.final_capital res
         = Backtest.initial_capital res
           + Py.sum (map OptionsModel.total_pnl (Backtest.trades res))
      /\ running_capital Config.default (Backtest.trades res)
         < Backtest.final_capital res.
Proof.
  intros ddb ddt fsr.
  destruct (run_breakout_day ddb ddt fsr) as (n & Hn & Hrun).
  eexists. split; [exact Hrun |].
  cbn [Backtest.trades Backtest.final_capital Backtest.initial_capital].
  split; [discriminate |]. split; [reflexivity |].
  apply (running_capital_below_gross Config.default).
  - cbn [Config.commission_per_contract Config.default]. lra.
  - cbn [Config.slippage_pct Config.default]. lra.
  - constructor; [exact Hn | constructor].
  - discriminate.
Qed.

(** ** Position sizing *)

Section Sizing.
Import Backtest.

Lemma small_account_sizing :
  position_sizing small_account 100 atm_premium = Some 1%Z.
Proof.
  destruct atm_premium_quoted as [_ Hp].
  unfold position_sizing.
  cbn [Config.position_size_pct small_account].
  assert (H1 : py_int (100 * 5 / 100 / (atm_premium * 100)) = 0%Z).
  { apply py_int_floor.
    - apply Rmult_le_pos; [lra |]. apply Rlt_le, Rinv_0_lt_compat. lra.
    - split.
      + apply Rmult_le_pos; [lra |]. apply Rlt_le, Rinv_0_lt_compat. lra.
      + apply Rmult_lt_reg_r with (atm_premium * 100); [lra |].
        unfold Rdiv at 1. rewrite Rmult_assoc, Rinv_l by lra. lra. }
  assert (H2 : py_int (100 / (atm_premium * 100)) = 0%Z).
  { apply py_int_floor.
    - apply Rmult_le_pos; [lra |]. apply Rlt_le, Rinv_0_lt_compat. lra.
    - split.
      + apply Rmult_le_pos; [lra |]. apply Rlt_le, Rinv_0_lt_compat. lra.
      + apply Rmult_lt_reg_r with (atm_premium * 100); [lra |].
        unfold Rdiv. rewrite Rmult_assoc, Rinv_l by lra. lra. }
  rewrite H1, H2. cbn [Z.max Z.compare Z.eqb].
  unfold Rgtb. rewrite Rltb_true by lra. reflexivity.
Qed.

Lemma no_bar_after_breakout_0_two_days :
  filter (fun b => (date_of (Patterns.index b) =? 0)%Z)
    (filter (fun b => (Patterns.timestamp (breakout_signal 0)
                       <? Patterns.index b)%Z) two_days) = [].
Proof. reflexivity. Qed.

Lemma no_bar_after_breakout_1_two_days :
  filter (fun b => (date_of (Patterns.index b) =? 1)%Z)
    (filter (fun b => (Patterns.timestamp (breakout_signal 1)
                       <? Patterns.index b)%Z) two_days) = [].
Proof. reflexivity. Qed.

End Sizing.

(** C3.  The claim fails with an account of 100 on the breakout of
    [breakout_day]: the premium is more than 1, so not even one
    contract is affordable, and the simulator still opens a trade of
    one contract where the claim has the signal rejected.  A position is
    never rejected at all: the sizing block always yields at least one
    contract. *)
Theorem unaffordable_position_is_opened :
  Backtest._simulate_trades small_account [breakout_signal 0]
    (Patterns.df breakout_day)
  = Some [breakout_trade 0 atm_premium 1]
  /\ Config.initial_capital small_account < IZR 1 * atm_premium * 100
  /\ (forall cfg capital entry_premium,
        exists n, Backtest.position_sizing cfg capital entry_premium = Some n
                  /\ (1 <= n)%Z).
Proof.
  destruct atm_premium_quoted as [_ Hp].
  split; [| split].
  - unfold Backtest._simulate_trades.
    rewrite breakout_step;
      [| reflexivity | reflexivity | exact no_bar_after_breakout_0
       | discriminate].
    cbn [Config.initial_capital small_account].
    rewrite small_account_sizing. cbv zeta.
    destruct (Rleb _ 0); reflexivity.
  - cbn [Config.initial_capital small_account]. lra.
  - apply position_sizing_at_least_one.
Qed.

(** ** One trade per calendar day *)

Section OneTradePerDay.
Import Backtest.

Lemma chronological_strongly_sorted (signals : list Patterns.Signal) :
  chronological signals ->
  StronglySorted
    (fun a b => (Patterns.timestamp a <= Patterns.timestamp b)%Z) signals.
Proof.
  apply Sorted_StronglySorted. intros a b c Hab Hbc. lia.
Qed.

Lemma simulate_trades_dates cfg signals df trades :
  chronological signals ->
  _simulate_trades cfg signals df = Some trades ->
  StronglySorted Z.lt (map entry_date trades).
Proof.
  intros Hs H. unfold _simulate_trades in H.
  destruct (simulate_loop cfg signals df [] (Config.initial_capital cfg) None)
    as [[trs cap] |] eqn:Hsim; [| discriminate].
  cbn [bind fst] in H. injection H as <-.
  apply simulate_loop_dates in Hsim as (new & -> & Hsorted & _).
  - exact Hsorted.
  - now apply chronological_strongly_sorted.
  - discriminate.
Qed.

(** The streams that [run] hands to the simulator are chronological:
    [scan] sorts by timestamp and the confidence filter keeps the order. *)
Lemma insert_by_timestamp_chronological s (l : list Patterns.Signal) :
  chronological l -> chronological (Patterns.insert_by_timestamp s l).
Proof.
  unfold chronological. induction l as [| x l IH]; intros Hl; cbn.
  - repeat constructor.
  - destruct (Patterns.timestamp s <=? Patterns.timestamp x)%Z eqn:E.
    + constructor; [exact Hl |]. constructor. lia.
    + inversion Hl as [| ? ? Hl' Hhd]; subst.
      constructor; [now apply IH |].
      destruct l as [| y l']; cbn.
      * constructor. lia.
      * destruct (Patterns.timestamp s <=? Patterns.timestamp y)%Z;
          constructor; [lia | now inversion Hhd].
Qed.

Lemma sort_by_timestamp_chronological (l : list Patterns.Signal) :
  chronological (Patterns.sort_by_timestamp l).
Proof.
  unfold Patterns.sort_by_timestamp. induction l as [| s l IH]; cbn.
  - constructor.
  - now apply insert_by_timestamp_chronological.
Qed.

Lemma filter_chronological (f : Patterns.Signal -> bool) l :
  chronological l -> chronological (filter f l).
Proof.
  intros Hl. apply chronological_strongly_sorted in Hl.
  apply StronglySorted_Sorted.
  induction Hl as [| x l Hl IH Hx]; cbn; [constructor |].
  destruct (f x); [| exact IH].
  constructor; [exact IH |].
  apply Forall_forall. intros y Hy. apply filter_In in Hy as [Hy _].
  now apply (proj1 (Forall_forall _ _) Hx).
Qed.

(** So the trades of a run never share an entry date. *)
Lemma run_trades_each_day_once cfg ddb ddt fsr ctx res :
  run cfg ddb ddt fsr ctx = Some res ->
  NoDup (map entry_date (trades res)).
Proof.
  unfold run.
  set (signals := filter _ _).
  assert (Hs : chronological signals).
  { apply filter_chronological. unfold Patterns.scan, Patterns.scan_table.
    apply sort_by_timestamp_chronological. }
  clearbody signals.
  destruct (_simulate_trades cfg signals (Patterns.df ctx)) as [trs |] eqn:Hsim;
    [| discriminate].
  cbn [bind]. intros [= <-]. cbn [trades].
  apply strictly_sorted_NoDup.
  now apply (simulate_trades_dates cfg signals (Patterns.df ctx)).
Qed.

(** Two breakouts of day 0 and one of day 1, in chronological order:
    the second is skipped. *)
Lemma chronological_breakouts_traded :
  exists n1 n2,
    _simulate_trades Config.default
      [breakout_signal 0; breakout_signal 0; breakout_signal 1] two_days
    = Some [ breakout_trade 0 atm_premium n1;
             breakout_trade 1 atm_premium n2 ].
Proof.
  unfold _simulate_trades.
  cbn [Config.initial_capital Config.default].
  destruct (breakout_is_traded 0 [breakout_signal 0; breakout_signal 1]
              two_days [] 10000 None)
    as (n1 & _ & [Hc1 _] & ->);
    [exact no_bar_after_breakout_0_two_days | discriminate | lra |].
  set (c1 := settle Config.default 10000 (breakout_trade 0 atm_premium n1)) in *.
  assert (Hskip :
    forall rest trs,
      simulate_loop Config.default (breakout_signal 0 :: rest) two_days
        trs c1 (Some 0%Z)
      = simulate_loop Config.default rest two_days trs c1 (Some 0%Z)).
  { intros rest trs. cbn [simulate_loop]. rewrite breakout_signal_date.
    reflexivity. }
  rewrite Hskip.
  destruct (breakout_is_traded 1 [] two_days
              ([] ++ [breakout_trade 0 atm_premium n1]) c1 (Some 0%Z))
    as (n2 & _ & _ & ->);
    [exact no_bar_after_breakout_1_two_days | discriminate | lra |].
  exists n1, n2. reflexivity.
Qed.

End OneTradePerDay.

(** C5.  No two trades of the simulator are entered on the same
    calendar date: not in the result of any run, whose signal stream is
    the scan's, sorted by timestamp, and not for any signal stream in
    chronological order; a further signal of a day that has a trade is
    skipped. *)
Theorem simulator_trades_each_day_once :
  forall cfg : Config.AgentConfig,
    (forall ddb ddt fsr (ctx : Patterns.Ctx) res,
        Backtest.run cfg ddb ddt fsr ctx = Some res ->
        NoDup (map entry_date (Backtest.trades res)))
    /\ (forall (signals : list Patterns.Signal) (df : list Patterns.Row) trades,
          chronological signals ->
          Backtest._simulate_trades cfg signals df = Some trades ->
          NoDup (map entry_date trades)).
Proof.
  intros cfg. split.
  - intros ddb ddt fsr ctx res. apply run_trades_each_day_once.
  - intros signals df trades Hs H.
    apply strictly_sorted_NoDup.
    now apply (simulate_trades_dates cfg signals df).
Qed.

Lemma simulator_trades_each_day_once_witness :
  exists trades,
    chronological [breakout_signal 0; breakout_signal 0; breakout_signal 1]
    /\ Backtest._simulate_trades Config.default
         [breakout_signal 0; breakout_signal 0; breakout_signal 1] two_days
       = Some trades
    /\ Py.len trades = 2%nat
    /\ NoDup (map entry_date trades).
Proof.
  destruct chronological_breakouts_traded as (n1 & n2 & H).
  assert (Hs : chronological
                 [breakout_signal 0; breakout_signal 0; breakout_signal 1]).
  { unfold chronological.
    repeat constructor; cbn [Patterns.timestamp breakout_signal]; lia. }
  eexists. split; [exact Hs |]. split; [exact H |]. split; [reflexivity |].
  exact (proj2 (simulator_trades_each_day_once Config.default) _ two_days _ Hs H).
Defined.

(** ** Time value *)

Section TimeValue.
Import OptionsModel.

(** Before expiry the pricer returns the formula's value, floored. *)
Lemma black_scholes_price_value S K T r sigma ot :
  0 < T -> 0 < S -> 0 < K -> sigma <> 0 ->
  black_scholes_price S K T r sigma ot
  = Some (Rmax (bs_value S K r sigma ot T) 0.01).
Proof.
  intros HT HS HK Hs. unfold black_scholes_price.
  destruct (Rle_dec T 0) as [Hle | _]; [lra |].
  unfold py_div at 1. destruct (Req_dec_T K 0) as [-> | _]; [lra |].
  cbn [bind]. unfold math_log.
  destruct (Rlt_dec 0 (S / K)) as [_ | Hq].
  - cbn [bind]. unfold py_div.
    destruct (Req_dec_T (sigma * sqrt T) 0) as [E | _].
    + apply Rmult_integral in E as [E | E]; [contradiction |].
      pose proof (sqrt_lt_R0 T HT). lra.
    + cbn [bind]. now destruct ot.
  - exfalso. apply Hq. now apply Rdiv_lt_0_compat.
Qed.

(** The distribution function is differentiable; its derivative is the
    normal density. *)
Lemma norm_cdf_derivable_pt_lim (x : R) :
  derivable_pt_lim norm_cdf x (/ sqrt (2 * PI) * gauss x).
Proof.
  set (a := Rmin x 0 - 1). set (b := Rmax x 0 + 1).
  pose proof (Rmin_l x 0) as Hm1. pose proof (Rmin_r x 0) as Hm2.
  pose proof (Rmax_l x 0) as HM1. pose proof (Rmax_r x 0) as HM2.
  assert (Hab : a <= b) by (unfold a, b; lra).
  assert (C0 : forall t, a <= t <= b -> continuity_pt gauss t)
    by (intros t _; apply gauss_continuity).
  assert (Hx : a <= x <= b) by (unfold a, b; lra).
  pose proof (@RiemannInt_P28 gauss a b x Hab C0 Hx) as Hprim.
  set (c := / sqrt (2 * PI)).
  set (I0 := RiemannInt (gauss_integrable 0 a)).
  apply (derivable_pt_lim_locally_ext
           (fun z => 1 / 2 + c * (I0 + primitive Hab (FTC_P1 Hab C0) z))
           norm_cdf x a b).
  - unfold a, b; lra.
  - intros z Hz. unfold norm_cdf, primitive.
    destruct (Rle_dec a z) as [Haz | Haz]; [| lra].
    destruct (Rle_dec z b) as [Hzb | Hzb]; [| lra].
    unfold I0.
    now rewrite (RiemannInt_P26 (gauss_integrable 0 a)
                   (FTC_P1 Hab C0 Haz Hzb) (gauss_integrable 0 z)).
  - replace (c * gauss x) with (0 + c * (0 + gauss x)) by ring.
    apply (derivable_pt_lim_plus (fct_cte (1 / 2))
             (mult_real_fct c (fct_cte I0 + primitive Hab (FTC_P1 Hab C0))%F));
      [apply derivable_pt_lim_const |].
    apply derivable_pt_lim_scal.
    apply derivable_pt_lim_plus; [apply derivable_pt_lim_const | exact Hprim].
Qed.

Lemma gauss_even (x : R) : gauss (- x) = gauss x.
Proof. unfold gauss. f_equal. field. Qed.

End TimeValue.

(** C4, as stated, fails: with S = 1, K = 100, r = 0.05 and sigma = 0.2
    a put is worth 99 at expiry and less than 99 nine years before it. *)
Lemma deep_put_loses_value_with_time :
  exists p0 p9,
    OptionsModel.black_scholes_price 1 100 0 0.05 0.2 OptionsModel.PUT = Some p0
    /\ OptionsModel.black_scholes_price 1 100 9 0.05 0.2 OptionsModel.PUT = Some p9
    /\ 0 <= 9
    /\ p9 < p0.
Proof.
  destruct deep_put_nine_years as (p9 & H9 & Hlt).
  exists 99, p9. repeat split; [| exact H9 | lra | exact Hlt].
  rewrite black_scholes_price_at_expiry by lra. cbn [OptionsModel.intrinsic].
  f_equal. unfold Rmax. destruct (Rle_dec _ _); lra.
Qed.

(** ** Strikes, volatility curve and time to expiry *)

Section StrikesAndTime.
Import OptionsModel.

Lemma py_round_nearest (x : R) : Rabs (IZR (py_round x) - x) <= 1 / 2.
Proof.
  unfold py_round. pose proof (Zfloor_bound x) as [Hl Hu].
  destruct (Rlt_dec _ _); [apply Rabs_le; lra |].
  destruct (Rlt_dec _ _); [rewrite plus_IZR; apply Rabs_le; lra |].
  destruct (Z.even _); [| rewrite plus_IZR]; apply Rabs_le; lra.
Qed.

Lemma py_round_tie_even (n : Z) : Z.even (py_round (IZR n + 1 / 2)) = true.
Proof.
  unfold py_round.
  assert (Hf : Zfloor (IZR n + 1 / 2) = n) by (apply Zfloor_eq; lra).
  rewrite Hf.
  destruct (Rlt_dec _ _) as [H | _]; [lra |].
  destruct (Rlt_dec _ _) as [H | _]; [lra |].
  destruct (Z.even n) eqn:E; [exact E |].
  now rewrite Z.even_add, E.
Qed.

Lemma select_strike_other p ot (m : string) :
  m <> "ATM"%string -> m <> "OTM1"%string -> m <> "OTM2"%string ->
  m <> "ITM1"%string ->
  select_strike p ot m = py_round p.
Proof.
  intros H1 H2 H3 H4. unfold select_strike.
  apply String.eqb_neq in H1, H2, H3, H4. now rewrite H1, H2, H3, H4.
Qed.

Lemma estimate_iv_from_time_cases (m b : R) :
  (m / 60 <= 1 /\ estimate_iv_from_time m b = b * 1.2)
  \/ (1 < m / 60 <= 3 /\ estimate_iv_from_time m b = b * 1.5)
  \/ (3 < m / 60 <= 5 /\ estimate_iv_from_time m b = b * 2.0)
  \/ (5 < m / 60 /\ estimate_iv_from_time m b = b * 2.5).
Proof.
  unfold estimate_iv_from_time, Rgtb, Rltb.
  destruct (Rlt_dec 5 (m / 60)); [right; right; right; split; [lra | reflexivity] |].
  destruct (Rlt_dec 3 (m / 60)); [right; right; left; split; [lra | reflexivity] |].
  destruct (Rlt_dec 1 (m / 60)); [right; left; split; [lra | reflexivity] |].
  left. split; [lra | reflexivity].
Qed.

Lemma black_scholes_price_none S K T r sigma ot :
  black_scholes_price S K T r sigma ot = None
  <-> 0 < T /\ (K = 0 \/ S / K <= 0 \/ sigma = 0).
Proof.
  unfold black_scholes_price.
  destruct (Rle_dec T 0) as [HT | HT].
  { split; [discriminate | lra]. }
  apply Rnot_le_lt in HT. pose proof (sqrt_lt_R0 T HT) as Hq.
  unfold py_div at 1. destruct (Req_dec_T K 0) as [HK | HK].
  { cbn [bind]. split; [intros _; split; [exact HT | now left] | reflexivity]. }
  cbn [bind]. unfold math_log.
  destruct (Rlt_dec 0 (S / K)) as [Hl | Hl].
  - cbn [bind]. unfold py_div.
    destruct (Req_dec_T (sigma * sqrt T) 0) as [E | E]; cbn [bind].
    + split; [intros _ | reflexivity]. split; [exact HT |].
      right; right. apply Rmult_integral in E as [E | E]; [exact E | lra].
    + split; [discriminate |]. intros [_ [H | [H | H]]]; [contradiction | lra |].
      subst sigma. exfalso. apply E. ring.
  - cbn [bind]. split; [intros _ | reflexivity]. split; [exact HT |].
    right; left. lra.
Qed.

Lemma calculate_greeks_none S K T r sigma ot :
  calculate_greeks S K T r sigma ot = None
  <-> 0 < T /\ (K = 0 \/ S / K <= 0 \/ sigma = 0).
Proof.
  unfold calculate_greeks.
  destruct (Rle_dec T 0) as [HT | HT].
  { split; [discriminate | lra]. }
  apply Rnot_le_lt in HT. pose proof (sqrt_lt_R0 T HT) as Hq.
  unfold py_div at 1. destruct (Req_dec_T K 0) as [HK | HK].
  { cbn [bind]. split; [intros _; split; [exact HT | now left] | reflexivity]. }
  cbn [bind]. unfold math_log.
  destruct (Rlt_dec 0 (S / K)) as [Hl | Hl].
  - cbn [bind]. unfold py_div at 1.
    destruct (Req_dec_T (sigma * sqrt T) 0) as [E | E]; cbn [bind].
    + split; [intros _ | reflexivity]. split; [exact HT |].
      right; right. apply Rmult_integral in E as [E | E]; [exact E | lra].
    + assert (HS : S <> 0).
      { intros ->. unfold Rdiv in Hl. rewrite Rmult_0_l in Hl. lra. }
      unfold py_div.
      destruct (Req_dec_T (S * sigma * sqrt T) 0) as [E' | _].
      { exfalso. rewrite Rmult_assoc in E'.
        apply Rmult_integral in E' as [E' | E']; contradiction. }
      cbn [bind].
      destruct (Req_dec_T (2 * sqrt T) 0) as [E' | _]; [lra |].
      cbn [bind].
      split; [now destruct ot |].
      intros [_ [H | [H | H]]]; [contradiction | lra |].
      subst sigma. exfalso. apply E. ring.
  - cbn [bind]. split; [intros _ | reflexivity]. split; [exact HT |].
    right; left. lra.
Qed.

End StrikesAndTime.

(** X1.  The at-the-money strike is the whole dollar nearest to the
    underlying price, a price half-way between two dollars going to the
    even one; the OTM1, OTM2 and ITM1 strikes lie 1, 2 and 1 dollars
    from it, out of the money or in the money according to the option
    type; any other moneyness gives the at-the-money strike. *)
Theorem select_strike_is_nearest_dollar :
  forall (p : R) (ot : OptionsModel.OptionType),
    let atm := OptionsModel.select_strike p ot "ATM" in
    Rabs (IZR atm - p) <= 1 / 2
    /\ (forall n : Z,
          Z.even (OptionsModel.select_strike (IZR n + 1 / 2) ot "ATM") = true)
    /\ OptionsModel.select_strike p ot "OTM1"
       = match ot with
         | OptionsModel.CALL => (atm + 1)%Z
         | OptionsModel.PUT => (atm - 1)%Z
         end
    /\ OptionsModel.select_strike p ot "OTM2"
       = match ot with
         | OptionsModel.CALL => (atm + 2)%Z
         | OptionsModel.PUT => (atm - 2)%Z
         end
    /\ OptionsModel.select_strike p ot "ITM1"
       = match ot with
         | OptionsModel.CALL => (atm - 1)%Z
         | OptionsModel.PUT => (atm + 1)%Z
         end
    /\ (forall m : string,
          m <> "ATM"%string -> m <> "OTM1"%string -> m <> "OTM2"%string ->
          m <> "ITM1"%string ->
          OptionsModel.select_strike p ot m = atm).
Proof.
  intros p ot atm. subst atm.
  repeat split.
  - apply py_round_nearest.
  - intros n. apply py_round_tie_even.
  - intros m H1 H2 H3 H4. now apply select_strike_other.
Qed.

(** X2.  For a base volatility that is not negative, the intraday
    volatility estimate lies between 1.2 and 2.5 times the base and
    never decreases as the time to the close grows. *)
Theorem estimate_iv_from_time_is_monotone :
  forall base_iv m1 m2 : R,
    0 <= base_iv -> m1 <= m2 ->
    base_iv * 1.2 <= OptionsModel.estimate_iv_from_time m1 base_iv
    /\ OptionsModel.estimate_iv_from_time m1 base_iv
       <= OptionsModel.estimate_iv_from_time m2 base_iv
    /\ OptionsModel.estimate_iv_from_time m2 base_iv <= base_iv * 2.5.
Proof.
  intros b m1 m2 Hb Hm.
  destruct (estimate_iv_from_time_cases m1 b)
    as [[H1 ->] | [[H1 ->] | [[H1 ->] | [H1 ->]]]];
    destruct (estimate_iv_from_time_cases m2 b)
      as [[H2 ->] | [[H2 ->] | [[H2 ->] | [H2 ->]]]];
    repeat split; lra.
Qed.

Lemma estimate_iv_from_time_is_monotone_witness :
  0.15 * 1.2 <= OptionsModel.estimate_iv_from_time 30 0.15
  /\ OptionsModel.estimate_iv_from_time 30 0.15
     <= OptionsModel.estimate_iv_from_time 390 0.15
  /\ OptionsModel.estimate_iv_from_time 390 0.15 <= 0.15 * 2.5.
Proof.
  apply (estimate_iv_from_time_is_monotone 0.15 30 390); lra.
Defined.

(** X3.  The time to expiry in trading years is never negative and is 0
    from the close on; before the close it is the time at which
    [estimate_0dte_premium] prices an option with the same number of
    minutes left, and within a session of 6.5 hours it is at most one
    trading day, 1/252. *)
Theorem time_to_expiry_years_agrees_with_premium_estimate :
  forall now close : Timestamp,
    0 <= OptionsModel.time_to_expiry_years now close
    /\ ((close <= now)%Z -> OptionsModel.time_to_expiry_years now close = 0)
    /\ ((now <= close)%Z ->
        forall S K iv r ot,
          OptionsModel.estimate_0dte_premium S K (minutes_between close now)
            iv r ot
          = OptionsModel.black_scholes_price S K
              (OptionsModel.time_to_expiry_years now close) r iv ot)
    /\ ((now <= close <= now + 390)%Z ->
        OptionsModel.time_to_expiry_years now close <= 1 / 252).
Proof.
  intros now close.
  unfold OptionsModel.time_to_expiry_years, OptionsModel.estimate_0dte_premium,
    minutes_between.
  set (m := IZR (close - now)).
  assert (Hm : (now <= close)%Z -> 0 <= m)
    by (intros H; apply IZR_le; lia).
  repeat split.
  - pose proof (Rmax_r (m * 60) 0). lra.
  - intros H. assert (m <= 0) by (apply IZR_le; lia).
    rewrite Rmax_right by lra. lra.
  - intros H S K iv r ot. specialize (Hm H).
    rewrite Rmax_left by lra. f_equal. lra.
  - intros [H1 H2]. specialize (Hm H1).
    assert (m <= 390) by (apply IZR_le; lia).
    rewrite Rmax_left by lra. lra.
Qed.

(** X4.  The pricer and the Greeks fail on the same inputs: never at or
    after expiry, and before expiry exactly when the strike is 0, the
    ratio S/K is not positive (the logarithm is undefined) or the
    volatility is 0. *)
Theorem pricer_and_greeks_fail_on_the_same_inputs :
  forall S K T r sigma ot,
    (OptionsModel.black_scholes_price S K T r sigma ot = None
     <-> 0 < T /\ (K = 0 \/ S / K <= 0 \/ sigma = 0))
    /\ (OptionsModel.calculate_greeks S K T r sigma ot = None
        <-> 0 < T /\ (K = 0 \/ S / K <= 0 \/ sigma = 0)).
Proof.
  intros S K T r sigma ot. split.
  - apply black_scholes_price_none.
  - apply calculate_greeks_none.
Qed.

(** ** The Greeks and the pricing formula *)

Section GreeksAndPrice.
Import OptionsModel.

(** The distribution function is symmetric about 0. *)
Lemma norm_cdf_0 : norm_cdf 0 = 1 / 2.
Proof. unfold norm_cdf. rewrite RiemannInt_P9. ring. Qed.

Lemma norm_cdf_symmetry (x : R) : norm_cdf (- x) = 1 - norm_cdf x.
Proof.
  set (h := (norm_cdf + comp norm_cdf (- id))%F).
  assert (Hd : forall c, derivable_pt_lim h c ((fun _ => 0) c)).
  { intros c.
    replace 0 with (/ sqrt (2 * PI) * gauss c
                    + / sqrt (2 * PI) * gauss (- c) * - 1)
      by (rewrite gauss_even; ring).
    apply derivable_pt_lim_plus; [apply norm_cdf_derivable_pt_lim |].
    apply (derivable_pt_lim_comp (- id)%F norm_cdf c (- 1)).
    - apply derivable_pt_lim_opp, derivable_pt_lim_id.
    - apply (norm_cdf_derivable_pt_lim (- c)). }
  assert (H0 : h 0 = 1).
  { unfold h, plus_fct, comp, opp_fct, id. rewrite Ropp_0, norm_cdf_0. lra. }
  assert (Hx : h x = 1).
  { destruct (Rtotal_order 0 x) as [Hlt | [<- | Hgt]]; [| exact H0 |].
    - destruct (MVT_cor2 h (fun _ => 0) 0 x Hlt (fun c _ => Hd c))
        as (c & Hc & _). lra.
    - destruct (MVT_cor2 h (fun _ => 0) x 0 Hgt (fun c _ => Hd c))
        as (c & Hc & _). lra. }
  unfold h, plus_fct, comp, opp_fct, id in Hx. lra.
Qed.

Variables K r sigma : R.
Hypothesis HK : 0 < K.
Hypothesis Hsigma : 0 < sigma.

(** [S * density(d1) = K * exp(-r T) * density(d2)]. *)
Lemma gauss_d1_d2_discounted (S T : R) :
  0 < S -> 0 < T ->
  S * gauss (bs_d1 S K r sigma T)
  = K * exp (- r * T) * gauss (bs_d2 S K r sigma T).
Proof.
  intros HS HT.
  assert (Hq : sqrt T * sqrt T = T) by (apply sqrt_sqrt; lra).
  pose proof (sqrt_lt_R0 T HT) as Hq0.
  unfold bs_d2, bs_d1, gauss.
  set (L := ln (S / K)). set (q := sqrt T) in *. clearbody q. subst T.
  replace 0.5 with (/ 2) by lra.
  set (d1 := (L + (r + / 2 * sigma ^ 2) * (q * q)) / (sigma * q)).
  replace (- ((d1 - sigma * q) * (d1 - sigma * q)) / 2)
    with (- (d1 * d1) / 2 + (L + r * (q * q))) by (unfold d1; field; lra).
  rewrite !exp_plus. unfold L. rewrite exp_ln by now apply Rdiv_lt_0_compat.
  assert (He : exp (- r * (q * q)) * exp (r * (q * q)) = 1).
  { rewrite <- exp_plus. replace (- r * (q * q) + r * (q * q)) with 0 by ring.
    apply exp_0. }
  set (E1 := exp (- r * (q * q))) in *. set (E2 := exp (r * (q * q))) in *.
  set (G := exp (- (d1 * d1) / 2)).
  transitivity (E1 * E2 * (S * G)); [rewrite He; ring | field; lra].
Qed.

(** What [calculate_greeks] returns before expiry. *)
Lemma calculate_greeks_value (S T : R) ot :
  0 < S -> 0 < T ->
  let d1 := bs_d1 S K r sigma T in
  let d2 := bs_d2 S K r sigma T in
  calculate_greeks S K T r sigma ot
  = Some {| delta := match ot with
                     | CALL => norm_cdf d1
                     | PUT => norm_cdf d1 - 1
                     end;
            gamma := norm_pdf d1 / (S * sigma * sqrt T);
            theta :=
              match ot with
              | CALL => (- (S * norm_pdf d1 * sigma) / (2 * sqrt T)
                         - r * K * exp (- r * T) * norm_cdf d2) / 365
              | PUT => (- (S * norm_pdf d1 * sigma) / (2 * sqrt T)
                        + r * K * exp (- r * T) * norm_cdf (- d2)) / 365
              end;
            vega := S * norm_pdf d1 * sqrt T / 100 |}.
Proof.
  intros HS HT d1 d2. subst d1 d2. unfold calculate_greeks, bs_d2, bs_d1.
  pose proof (sqrt_lt_R0 T HT) as Hq.
  destruct (Rle_dec T 0) as [H | _]; [lra |].
  unfold py_div at 1. destruct (Req_dec_T K 0) as [H | _]; [lra |].
  cbn [bind]. unfold math_log.
  destruct (Rlt_dec 0 (S / K)) as [_ | H];
    [| exfalso; apply H; now apply Rdiv_lt_0_compat].
  cbn [bind]. unfold py_div.
  destruct (Req_dec_T (sigma * sqrt T) 0) as [E | _].
  { apply Rmult_integral in E as [E | E]; lra. }
  cbn [bind].
  destruct (Req_dec_T (S * sigma * sqrt T) 0) as [E | _].
  { rewrite Rmult_assoc in E. apply Rmult_integral in E as [E | E]; [lra |].
    apply Rmult_integral in E as [E | E]; lra. }
  cbn [bind].
  destruct (Req_dec_T (2 * sqrt T) 0) as [E | _]; [lra |].
  cbn [bind]. now destruct ot.
Qed.

(** *** In the underlying price *)

Lemma bs_d_derivable_in_price (S T : R) :
  0 < S -> 0 < T ->
  derivable_pt_lim (fun s => bs_d1 s K r sigma T) S (/ (S * (sigma * sqrt T)))
  /\ derivable_pt_lim (fun s => bs_d2 s K r sigma T) S
       (/ (S * (sigma * sqrt T))).
Proof.
  intros HS HT. pose proof (sqrt_lt_R0 T HT) as Hq.
  assert (Hl : derivable_pt_lim (comp ln (id * fct_cte (/ K))%F) S
                 (/ (S * / K) * (1 * / K + S * 0))).
  { apply (derivable_pt_lim_comp (id * fct_cte (/ K))%F ln S).
    - exact (derivable_pt_lim_mult id (fct_cte (/ K)) S 1 0
               (derivable_pt_lim_id S) (derivable_pt_lim_const (/ K) S)).
    - apply (derivable_pt_lim_ln (S * / K)).
      apply Rmult_lt_0_compat; [lra | now apply Rinv_0_lt_compat]. }
  assert (Hn : fct_cte (sigma * sqrt T) S <> 0).
  { unfold fct_cte. apply Rgt_not_eq, Rmult_lt_0_compat; lra. }
  pose proof (derivable_pt_lim_div _ _ S _ _
                (derivable_pt_lim_plus _ _ S _ _ Hl
                   (derivable_pt_lim_const ((r + 0.5 * sigma ^ 2) * T) S))
                (derivable_pt_lim_const (sigma * sqrt T) S) Hn) as Hd1.
  match type of Hd1 with
  | derivable_pt_lim _ _ ?l =>
      replace l with (/ (S * (sigma * sqrt T))) in Hd1
        by (unfold fct_cte, plus_fct, comp, mult_fct, id, Rsqr; field;
            repeat split; lra)
  end.
  split; [exact Hd1 |].
  replace (/ (S * (sigma * sqrt T))) with (/ (S * (sigma * sqrt T)) - 0)
    by ring.
  exact (derivable_pt_lim_minus _ _ S _ _ Hd1
           (derivable_pt_lim_const (sigma * sqrt T) S)).
Qed.

Lemma bs_value_derivable_in_price ot (S T : R) :
  0 < S -> 0 < T ->
  derivable_pt_lim (fun s => bs_value s K r sigma ot T) S
    (match ot with
     | CALL => norm_cdf (bs_d1 S K r sigma T)
     | PUT => norm_cdf (bs_d1 S K r sigma T) - 1
     end).
Proof.
  intros HS HT.
  destruct (bs_d_derivable_in_price S T HS HT) as [Hd1 Hd2].
  pose proof (gauss_d1_d2_discounted S T HS HT) as Hid.
  set (d1 := fun s => bs_d1 s K r sigma T) in *.
  set (d2 := fun s => bs_d2 s K r sigma T) in *.
  set (c := / sqrt (2 * PI)). set (D := / (S * (sigma * sqrt T))) in *.
  set (Kd := K * exp (- r * T)) in *.
  change (bs_d1 S K r sigma T) with (d1 S) in *.
  change (bs_d2 S K r sigma T) with (d2 S) in *.
  assert (Hz : S * gauss (d1 S) - Kd * gauss (d2 S) = 0).
  { rewrite Hid. ring. }
  destruct ot.
  - pose proof (derivable_pt_lim_comp d1 norm_cdf S _ _ Hd1
                  (norm_cdf_derivable_pt_lim (d1 S))) as Hc1.
    pose proof (derivable_pt_lim_comp d2 norm_cdf S _ _ Hd2
                  (norm_cdf_derivable_pt_lim (d2 S))) as Hc2.
    pose proof (derivable_pt_lim_minus _ _ _ _ _
                  (derivable_pt_lim_mult _ _ _ _ _
                     (derivable_pt_lim_id S) Hc1)
                  (derivable_pt_lim_scal _ Kd _ _ Hc2)) as H.
    match type of H with
    | derivable_pt_lim _ _ ?l =>
        replace (norm_cdf (d1 S)) with l; [exact H |]
    end.
    unfold comp, id. fold c.
    match goal with
    | |- ?E = ?t =>
        replace E
          with (t + c * D * (S * gauss (d1 S) - Kd * gauss (d2 S))) by ring
    end.
    rewrite Hz. ring.
  - pose proof (derivable_pt_lim_comp (- d1)%F norm_cdf S _ _
                  (derivable_pt_lim_opp _ _ _ Hd1)
                  (norm_cdf_derivable_pt_lim (- d1 S))) as Hc1.
    pose proof (derivable_pt_lim_comp (- d2)%F norm_cdf S _ _
                  (derivable_pt_lim_opp _ _ _ Hd2)
                  (norm_cdf_derivable_pt_lim (- d2 S))) as Hc2.
    pose proof (derivable_pt_lim_minus _ _ _ _ _
                  (derivable_pt_lim_scal _ Kd _ _ Hc2)
                  (derivable_pt_lim_mult _ _ _ _ _
                     (derivable_pt_lim_id S) Hc1)) as H.
    match type of H with
    | derivable_pt_lim _ _ ?l =>
        replace (norm_cdf (d1 S) - 1) with l; [exact H |]
    end.
    unfold comp, opp_fct, id. fold c.
    rewrite !gauss_even, norm_cdf_symmetry.
    match goal with
    | |- ?E = ?t =>
        replace E
          with (t + c * D * (S * gauss (d1 S) - Kd * gauss (d2 S))) by ring
    end.
    rewrite Hz. ring.
Qed.

Lemma greek_delta_value ot (S T : R) :
  0 < S -> 0 < T ->
  greek delta S K T r sigma ot
  = match ot with
    | CALL => norm_cdf (bs_d1 S K r sigma T)
    | PUT => norm_cdf (bs_d1 S K r sigma T) - 1
    end.
Proof.
  intros HS HT. unfold greek. now rewrite calculate_greeks_value.
Qed.

Lemma greek_delta_derivable ot (S T : R) :
  0 < S -> 0 < T ->
  derivable_pt_lim (fun s => greek delta s K T r sigma ot) S
    (greek gamma S K T r sigma ot).
Proof.
  intros HS HT.
  destruct (bs_d_derivable_in_price S T HS HT) as [Hd1 _].
  pose proof (sqrt_lt_R0 T HT) as Hq.
  apply (derivable_pt_lim_locally_ext
           (fun s => match ot with
                     | CALL => norm_cdf (bs_d1 s K r sigma T)
                     | PUT => norm_cdf (bs_d1 s K r sigma T) - 1
                     end)
           _ S (S / 2) (S + 1)); [lra | |].
  { intros s Hs. symmetry. apply greek_delta_value; lra. }
  unfold greek. rewrite calculate_greeks_value by assumption.
  cbn [gamma]. unfold norm_pdf.
  pose proof (derivable_pt_lim_comp _ norm_cdf S _ _ Hd1
                (norm_cdf_derivable_pt_lim (bs_d1 S K r sigma T))) as Hc.
  assert (Hs2 : sqrt (2 * PI) <> 0).
  { pose proof norm_constant_bounds as [Hn _].
    intros E. rewrite E, Rinv_0 in Hn. lra. }
  replace (gauss (bs_d1 S K r sigma T) / sqrt (2 * PI) / (S * sigma * sqrt T))
    with (/ sqrt (2 * PI) * gauss (bs_d1 S K r sigma T)
          * / (S * (sigma * sqrt T)))
    by (field; repeat split; lra).
  destruct ot; [exact Hc |].
  replace (/ sqrt (2 * PI) * gauss (bs_d1 S K r sigma T)
           * / (S * (sigma * sqrt T)))
    with (/ sqrt (2 * PI) * gauss (bs_d1 S K r sigma T)
          * / (S * (sigma * sqrt T)) - 0) by ring.
  exact (derivable_pt_lim_minus _ _ S _ _ Hc (derivable_pt_lim_const 1 S)).
Qed.

End GreeksAndPrice.

Section GreeksInTimeAndVolatility.
Import OptionsModel.

Variables S K r : R.
Hypothesis HS : 0 < S.
Hypothesis HK : 0 < K.

(** *** In the time to expiry *)

Lemma bs_d_derivable_in_time (sigma T : R) :
  0 < sigma -> 0 < T ->
  exists D1,
    derivable_pt_lim (bs_d1 S K r sigma) T D1
    /\ derivable_pt_lim (bs_d2 S K r sigma) T (D1 - sigma * / (2 * sqrt T)).
Proof.
  intros Hsigma HT.
  set (a := r + 0.5 * sigma ^ 2).
  assert (H1 : derivable_pt_lim (fct_cte (ln (S / K)) + mult_real_fct a id)%F
                 T (0 + a * 1)).
  { apply derivable_pt_lim_plus; [apply derivable_pt_lim_const |].
    apply derivable_pt_lim_scal, derivable_pt_lim_id. }
  assert (H2 : derivable_pt_lim (mult_real_fct sigma sqrt) T
                 (sigma * / (2 * sqrt T))).
  { apply derivable_pt_lim_scal. now apply derivable_pt_lim_sqrt. }
  assert (Hnz : mult_real_fct sigma sqrt T <> 0).
  { unfold mult_real_fct. pose proof (sqrt_lt_R0 T HT).
    apply Rgt_not_eq, Rmult_lt_0_compat; lra. }
  pose proof (derivable_pt_lim_div _ _ _ _ _ H1 H2 Hnz) as Hd1.
  eexists. split; [exact Hd1 |].
  exact (derivable_pt_lim_minus _ _ _ _ _ Hd1 H2).
Qed.

Lemma bs_value_derivable_in_time ot (sigma T : R) :
  0 < sigma -> 0 < T ->
  derivable_pt_lim (bs_value S K r sigma ot) T
    (S * (/ sqrt (2 * PI) * gauss (bs_d1 S K r sigma T))
       * (sigma * / (2 * sqrt T))
     + match ot with
       | CALL => r * (K * exp (- r * T)) * norm_cdf (bs_d2 S K r sigma T)
       | PUT => - (r * (K * exp (- r * T))
                   * norm_cdf (- bs_d2 S K r sigma T))
       end).
Proof.
  intros Hsigma HT.
  destruct (bs_d_derivable_in_time sigma T Hsigma HT) as (D1 & Hd1 & Hd2).
  pose proof (gauss_d1_d2_discounted K r sigma HK Hsigma S T HS HT) as Hid.
  set (d1 := bs_d1 S K r sigma) in *. set (d2 := bs_d2 S K r sigma) in *.
  set (c := / sqrt (2 * PI)). set (e := sigma * / (2 * sqrt T)) in *.
  set (Ef := comp exp (mult_real_fct (- r) id)).
  assert (HE : derivable_pt_lim Ef T (exp (- r * T) * (- r * 1))).
  { apply (derivable_pt_lim_comp (mult_real_fct (- r) id) exp T).
    - apply derivable_pt_lim_scal, derivable_pt_lim_id.
    - apply (derivable_pt_lim_exp (- r * T)). }
  pose proof (derivable_pt_lim_scal _ K _ _ HE) as HKE.
  assert (Hz : S * gauss (d1 T) - K * exp (- r * T) * gauss (d2 T) = 0).
  { rewrite Hid. ring. }
  destruct ot.
  - pose proof (derivable_pt_lim_comp d1 norm_cdf T _ _ Hd1
                  (norm_cdf_derivable_pt_lim (d1 T))) as Hc1.
    pose proof (derivable_pt_lim_comp d2 norm_cdf T _ _ Hd2
                  (norm_cdf_derivable_pt_lim (d2 T))) as Hc2.
    pose proof (derivable_pt_lim_minus _ _ _ _ _
                  (derivable_pt_lim_scal _ S _ _ Hc1)
                  (derivable_pt_lim_mult _ _ _ _ _ HKE Hc2)) as H.
    match type of H with
    | derivable_pt_lim _ _ ?l =>
        match goal with
        | |- derivable_pt_lim _ _ ?t => replace t with l; [exact H |]
        end
    end.
    unfold Ef, comp, mult_real_fct, id. fold c.
    match goal with
    | |- ?E = ?t =>
        replace E
          with (t + c * (D1 - e)
                    * (S * gauss (d1 T) - K * exp (- r * T) * gauss (d2 T)))
          by ring
    end.
    rewrite Hz. ring.
  - pose proof (derivable_pt_lim_comp (- d1)%F norm_cdf T _ _
                  (derivable_pt_lim_opp _ _ _ Hd1)
                  (norm_cdf_derivable_pt_lim (- d1 T))) as Hc1.
    pose proof (derivable_pt_lim_comp (- d2)%F norm_cdf T _ _
                  (derivable_pt_lim_opp _ _ _ Hd2)
                  (norm_cdf_derivable_pt_lim (- d2 T))) as Hc2.
    pose proof (derivable_pt_lim_minus _ _ _ _ _
                  (derivable_pt_lim_mult _ _ _ _ _ HKE Hc2)
                  (derivable_pt_lim_scal _ S _ _ Hc1)) as H.
    match type of H with
    | derivable_pt_lim _ _ ?l =>
        match goal with
        | |- derivable_pt_lim _ _ ?t => replace t with l; [exact H |]
        end
    end.
    unfold Ef, comp, opp_fct, mult_real_fct, id. fold c.
    rewrite !gauss_even.
    match goal with
    | |- ?E = ?t =>
        replace E
          with (t + c * (D1 - e)
                    * (S * gauss (d1 T) - K * exp (- r * T) * gauss (d2 T)))
          by ring
    end.
    rewrite Hz. ring.
Qed.

(** *** In the volatility *)

Lemma bs_d_derivable_in_volatility (sigma T : R) :
  0 < sigma -> 0 < T ->
  exists V1,
    derivable_pt_lim (fun v => bs_d1 S K r v T) sigma V1
    /\ derivable_pt_lim (fun v => bs_d2 S K r v T) sigma (V1 - sqrt T).
Proof.
  intros Hsigma HT. pose proof (sqrt_lt_R0 T HT) as Hq.
  assert (Hp : derivable_pt_lim (fun v => v ^ 2) sigma (INR 2 * sigma ^ 1))
    by apply (derivable_pt_lim_pow sigma 2).
  assert (H1 : derivable_pt_lim
                 (fct_cte (ln (S / K))
                  + (fct_cte r + mult_real_fct 0.5 (fun v => v ^ 2))
                    * fct_cte T)%F
                 sigma
                 (0 + ((0 + 0.5 * (INR 2 * sigma ^ 1)) * fct_cte T sigma
                       + (fct_cte r + mult_real_fct 0.5 (fun v => v ^ 2))%F
                           sigma * 0))).
  { apply derivable_pt_lim_plus; [apply derivable_pt_lim_const |].
    apply derivable_pt_lim_mult; [| apply derivable_pt_lim_const].
    apply derivable_pt_lim_plus; [apply derivable_pt_lim_const |].
    apply derivable_pt_lim_scal. exact Hp. }
  assert (H2 : derivable_pt_lim (id * fct_cte (sqrt T))%F sigma (sqrt T)).
  { replace (sqrt T) with (1 * fct_cte (sqrt T) sigma + id sigma * 0) at 2
      by (unfold fct_cte, id; ring).
    apply derivable_pt_lim_mult;
      [apply derivable_pt_lim_id | apply derivable_pt_lim_const]. }
  assert (Hnz : (id * fct_cte (sqrt T))%F sigma <> 0).
  { unfold mult_fct, id, fct_cte. apply Rgt_not_eq, Rmult_lt_0_compat; lra. }
  pose proof (derivable_pt_lim_div _ _ _ _ _ H1 H2 Hnz) as Hd1.
  eexists. split; [exact Hd1 |].
  exact (derivable_pt_lim_minus _ _ _ _ _ Hd1 H2).
Qed.

Lemma bs_value_derivable_in_volatility ot (sigma T : R) :
  0 < sigma -> 0 < T ->
  derivable_pt_lim (fun v => bs_value S K r v ot T) sigma
    (S * (/ sqrt (2 * PI) * gauss (bs_d1 S K r sigma T)) * sqrt T).
Proof.
  intros Hsigma HT.
  destruct (bs_d_derivable_in_volatility sigma T Hsigma HT)
    as (V1 & Hd1 & Hd2).
  pose proof (gauss_d1_d2_discounted K r sigma HK Hsigma S T HS HT) as Hid.
  set (d1 := fun v => bs_d1 S K r v T) in *.
  set (d2 := fun v => bs_d2 S K r v T) in *.
  change (bs_d1 S K r sigma T) with (d1 sigma) in *.
  change (bs_d2 S K r sigma T) with (d2 sigma) in *.
  set (c := / sqrt (2 * PI)). set (Kd := K * exp (- r * T)) in *.
  assert (Hz : S * gauss (d1 sigma) - Kd * gauss (d2 sigma) = 0).
  { rewrite Hid. ring. }
  destruct ot.
  - pose proof (derivable_pt_lim_comp d1 norm_cdf sigma _ _ Hd1
                  (norm_cdf_derivable_pt_lim (d1 sigma))) as Hc1.
    pose proof (derivable_pt_lim_comp d2 norm_cdf sigma _ _ Hd2
                  (norm_cdf_derivable_pt_lim (d2 sigma))) as Hc2.
    pose proof (derivable_pt_lim_minus _ _ _ _ _
                  (derivable_pt_lim_scal _ S _ _ Hc1)
                  (derivable_pt_lim_scal _ Kd _ _ Hc2)) as H.
    match type of H with
    | derivable_pt_lim _ _ ?l =>
        match goal with
        | |- derivable_pt_lim _ _ ?t => replace t with l; [exact H |]
        end
    end.
    fold c.
    match goal with
    | |- ?E = ?t =>
        replace E
          with (t + c * (V1 - sqrt T)
                    * (S * gauss (d1 sigma) - Kd * gauss (d2 sigma)))
          by ring
    end.
    rewrite Hz. ring.
  - pose proof (derivable_pt_lim_comp (- d1)%F norm_cdf sigma _ _
                  (derivable_pt_lim_opp _ _ _ Hd1)
                  (norm_cdf_derivable_pt_lim (- d1 sigma))) as Hc1.
    pose proof (derivable_pt_lim_comp (- d2)%F norm_cdf sigma _ _
                  (derivable_pt_lim_opp _ _ _ Hd2)
                  (norm_cdf_derivable_pt_lim (- d2 sigma))) as Hc2.
    pose proof (derivable_pt_lim_minus _ _ _ _ _
                  (derivable_pt_lim_scal _ Kd _ _ Hc2)
                  (derivable_pt_lim_scal _ S _ _ Hc1)) as H.
    match type of H with
    | derivable_pt_lim _ _ ?l =>
        match goal with
        | |- derivable_pt_lim _ _ ?t => replace t with l; [exact H |]
        end
    end.
    fold c. rewrite !gauss_even.
    match goal with
    | |- ?E = ?t =>
        replace E
          with (t + c * (V1 - sqrt T)
                    * (S * gauss (d1 sigma) - Kd * gauss (d2 sigma)))
          by ring
    end.
    rewrite Hz. ring.
Qed.

End GreeksInTimeAndVolatility.

Section QuotedPrice.
Import OptionsModel.

(** A price the pricer returns before expiry is the formula's value,
    floored at 0.01. *)
Lemma black_scholes_price_some S K T r sigma ot p :
  0 < T ->
  black_scholes_price S K T r sigma ot = Some p ->
  p = Rmax (bs_value S K r sigma ot T) 0.01.
Proof.
  intros HT. unfold black_scholes_price, bs_value, bs_d2, bs_d1.
  destruct (Rle_dec T 0) as [H | _]; [lra |].
  unfold py_div at 1. destruct (Req_dec_T K 0) as [_ | _]; [discriminate |].
  cbn [bind]. unfold math_log.
  destruct (Rlt_dec 0 (S / K)) as [_ | _]; [| discriminate].
  cbn [bind]. unfold py_div.
  destruct (Req_dec_T (sigma * sqrt T) 0) as [_ | _]; [discriminate |].
  cbn [bind]. intros [= <-]. now destruct ot.
Qed.

Lemma quoted_price_value S K T r sigma ot :
  0 < S -> 0 < K -> 0 < sigma -> 0 < T ->
  quoted_price S K T r sigma ot = Rmax (bs_value S K r sigma ot T) 0.01.
Proof.
  intros HS HK Hs HT. unfold quoted_price.
  now rewrite black_scholes_price_value by (assumption || lra).
Qed.

(** Where a differentiable function is above the floor, flooring it
    does not change its derivative. *)
Lemma derivable_pt_lim_above_floor (f : R -> R) (x l : R) :
  derivable_pt_lim f x l -> 0.01 < f x ->
  derivable_pt_lim (fun y => Rmax (f y) 0.01) x l.
Proof.
  intros Hd Hx.
  assert (Hc : continuity_pt f x).
  { apply derivable_continuous_pt. exists l. exact Hd. }
  destruct (Hc (f x - 0.01)) as (alp & Halp & Hclose); [lra |].
  apply (derivable_pt_lim_locally_ext f _ x (x - alp) (x + alp));
    [lra | | exact Hd].
  intros z Hz. rewrite Rmax_left; [reflexivity |].
  destruct (Req_dec_T x z) as [<- | Hneq]; [lra |].
  specialize (Hclose z).
  unfold D_x, no_cond, dist in Hclose. cbn in Hclose. unfold Rdist in Hclose.
  assert (Hd' : Rabs (f z - f x) < f x - 0.01).
  { apply Hclose. split; [split; [exact I | exact Hneq] |].
    apply Rabs_def1; lra. }
  apply Rabs_def2 in Hd'. lra.
Qed.

(** A function that agrees with [f] on the positive reals has the
    derivatives of [f] there. *)
Lemma derivable_pt_lim_on_positive (f g : R -> R) (x l : R) :
  0 < x -> (forall y, 0 < y -> g y = f y) ->
  derivable_pt_lim f x l -> derivable_pt_lim g x l.
Proof.
  intros Hx Hfg Hd.
  apply (derivable_pt_lim_locally_ext f g x (x / 2) (x + 1)); [lra | | exact Hd].
  intros z Hz. symmetry. apply Hfg. lra.
Qed.

Lemma above_floor S K T r sigma ot :
  0 < S -> 0 < K -> 0 < sigma -> 0 < T ->
  0.01 < quoted_price S K T r sigma ot ->
  0.01 < bs_value S K r sigma ot T.
Proof.
  intros HS HK Hs HT. rewrite quoted_price_value by assumption.
  unfold Rmax. destruct (Rle_dec _ _); lra.
Qed.

Lemma sqrt_2PI_neq_0 : sqrt (2 * PI) <> 0.
Proof.
  pose proof norm_constant_bounds as [Hn _].
  intros E. rewrite E, Rinv_0 in Hn. lra.
Qed.

Lemma quoted_price_derivable_in_price S K T r sigma ot :
  0 < S -> 0 < K -> 0 < sigma -> 0 < T ->
  0.01 < quoted_price S K T r sigma ot ->
  derivable_pt_lim (fun s => quoted_price s K T r sigma ot) S
    (greek delta S K T r sigma ot).
Proof.
  intros HS HK Hs HT Hp.
  apply (derivable_pt_lim_on_positive
           (fun s => Rmax (bs_value s K r sigma ot T) 0.01)); [exact HS | |].
  { intros s Hs0. now apply quoted_price_value. }
  apply (derivable_pt_lim_above_floor (fun s => bs_value s K r sigma ot T));
    [| now apply above_floor].
  rewrite greek_delta_value by assumption.
  now apply bs_value_derivable_in_price.
Qed.

Lemma quoted_price_derivable_in_time S K T r sigma ot :
  0 < S -> 0 < K -> 0 < sigma -> 0 < T ->
  0.01 < quoted_price S K T r sigma ot ->
  derivable_pt_lim (fun t => quoted_price S K t r sigma ot) T
    (- 365 * greek theta S K T r sigma ot).
Proof.
  intros HS HK Hs HT Hp.
  apply (derivable_pt_lim_on_positive
           (fun t => Rmax (bs_value S K r sigma ot t) 0.01)); [exact HT | |].
  { intros t Ht. now apply quoted_price_value. }
  apply (derivable_pt_lim_above_floor (bs_value S K r sigma ot));
    [| now apply above_floor].
  pose proof (bs_value_derivable_in_time S K r HS HK ot sigma T Hs HT) as H.
  match type of H with
  | derivable_pt_lim _ _ ?l =>
      replace (- 365 * greek theta S K T r sigma ot) with l; [exact H |]
  end.
  unfold greek. rewrite calculate_greeks_value by assumption.
  cbn [theta]. unfold norm_pdf.
  pose proof (sqrt_lt_R0 T HT). pose proof sqrt_2PI_neq_0.
  destruct ot; field; split; lra.
Qed.

Lemma quoted_price_derivable_in_volatility S K T r sigma ot :
  0 < S -> 0 < K -> 0 < sigma -> 0 < T ->
  0.01 < quoted_price S K T r sigma ot ->
  derivable_pt_lim (fun v => quoted_price S K T r v ot) sigma
    (100 * greek vega S K T r sigma ot).
Proof.
  intros HS HK Hs HT Hp.
  apply (derivable_pt_lim_on_positive
           (fun v => Rmax (bs_value S K r v ot T) 0.01)); [exact Hs | |].
  { intros v Hv. now apply quoted_price_value. }
  apply (derivable_pt_lim_above_floor (fun v => bs_value S K r v ot T));
    [| now apply above_floor].
  pose proof (bs_value_derivable_in_volatility S K r HS HK ot sigma T Hs HT)
    as H.
  match type of H with
  | derivable_pt_lim _ _ ?l =>
      replace (100 * greek vega S K T r sigma ot) with l; [exact H |]
  end.
  unfold greek. rewrite calculate_greeks_value by assumption.
  cbn [vega]. unfold norm_pdf.
  pose proof sqrt_2PI_neq_0. field. lra.
Qed.

Lemma atm_premium_above_floor :
  0.01 < quoted_price 450 450 (120 / 60 / (252 * 6.5)) 0.05 (0.15 * 1.5) CALL.
Proof.
  change (quoted_price 450 450 (120 / 60 / (252 * 6.5)) 0.05 (0.15 * 1.5) CALL)
    with atm_premium.
  destruct atm_premium_quoted as [_ H]. lra.
Qed.

(** The formula's values for a call and a put differ by the forward. *)
Lemma bs_value_parity S K r sigma T :
  bs_value S K r sigma CALL T - bs_value S K r sigma PUT T
  = S - K * exp (- r * T).
Proof.
  unfold bs_value. rewrite !norm_cdf_symmetry. ring.
Qed.

(** The put the simulator would be quoted beside [atm_premium]. *)
Lemma atm_put_two_hours :
  exists pp,
    black_scholes_price 450 450 (120 / 60 / (252 * 6.5)) 0.05 (0.15 * 1.5) PUT
    = Some pp
    /\ 0.01 < pp.
Proof.
  set (T := 120 / 60 / (252 * 6.5)).
  assert (HT : 0 < T) by (unfold T; lra).
  destruct atm_premium_quoted as [Hc Hb]. fold T in Hc.
  apply black_scholes_price_some in Hc; [| exact HT].
  assert (Hv : bs_value 450 450 0.05 (0.15 * 1.5) CALL T = atm_premium).
  { revert Hc. unfold Rmax. destruct (Rle_dec _ _); lra. }
  pose proof (bs_value_parity 450 450 0.05 (0.15 * 1.5) T) as Hpar.
  pose proof (exp_ineq1_le (- (0.05) * T)) as He.
  eexists. split.
  - apply black_scholes_price_value; lra.
  - apply Rlt_le_trans with (2 := Rmax_l _ _).
    assert (HTu : T <= 0.002) by (unfold T; lra).
    nra.
Qed.

End QuotedPrice.

(** X5.  Where the price is above its floor of 0.01 (S, K, sigma and T
    positive), the delta that [calculate_greeks] returns is the
    derivative of the price of [black_scholes_price] in the underlying
    price, and its gamma is the derivative of that delta. *)
Theorem delta_and_gamma_are_the_derivatives_in_price :
  forall S K T r sigma ot,
    0 < S -> 0 < K -> 0 < sigma -> 0 < T ->
    0.01 < quoted_price S K T r sigma ot ->
    derivable_pt_lim (fun s => quoted_price s K T r sigma ot) S
      (greek OptionsModel.delta S K T r sigma ot)
    /\ derivable_pt_lim (fun s => greek OptionsModel.delta s K T r sigma ot) S
         (greek OptionsModel.gamma S K T r sigma ot).
Proof.
  intros S K T r sigma ot HS HK Hs HT Hp. split.
  - now apply quoted_price_derivable_in_price.
  - now apply greek_delta_derivable.
Qed.

Lemma delta_and_gamma_are_the_derivatives_in_price_witness :
  derivable_pt_lim
    (fun s => quoted_price s 450 (120 / 60 / (252 * 6.5)) 0.05 (0.15 * 1.5)
                OptionsModel.CALL)
    450
    (greek OptionsModel.delta 450 450 (120 / 60 / (252 * 6.5)) 0.05
       (0.15 * 1.5) OptionsModel.CALL)
  /\ derivable_pt_lim
       (fun s => greek OptionsModel.delta s 450 (120 / 60 / (252 * 6.5)) 0.05
                   (0.15 * 1.5) OptionsModel.CALL)
       450
       (greek OptionsModel.gamma 450 450 (120 / 60 / (252 * 6.5)) 0.05
          (0.15 * 1.5) OptionsModel.CALL).
Proof.
  apply (delta_and_gamma_are_the_derivatives_in_price
           450 450 (120 / 60 / (252 * 6.5)) 0.05 (0.15 * 1.5)
           OptionsModel.CALL);
    try lra.
  exact atm_premium_above_floor.
Defined.

(** X6.  Where the price is above its floor, the theta that
    [calculate_greeks] returns is the decay of the price per calendar
    day: minus the derivative of the price in the time to expiry,
    divided by 365. *)
Theorem theta_is_the_daily_time_decay :
  forall S K T r sigma ot,
    0 < S -> 0 < K -> 0 < sigma -> 0 < T ->
    0.01 < quoted_price S K T r sigma ot ->
    derivable_pt_lim (fun t => quoted_price S K t r sigma ot) T
      (- 365 * greek OptionsModel.theta S K T r sigma ot).
Proof.
  intros S K T r sigma ot HS HK Hs HT Hp.
  now apply quoted_price_derivable_in_time.
Qed.

Lemma theta_is_the_daily_time_decay_witness :
  derivable_pt_lim
    (fun t => quoted_price 450 450 t 0.05 (0.15 * 1.5) OptionsModel.CALL)
    (120 / 60 / (252 * 6.5))
    (- 365 * greek OptionsModel.theta 450 450 (120 / 60 / (252 * 6.5)) 0.05
               (0.15 * 1.5) OptionsModel.CALL).
Proof.
  apply (theta_is_the_daily_time_decay
           450 450 (120 / 60 / (252 * 6.5)) 0.05 (0.15 * 1.5)
           OptionsModel.CALL);
    try lra.
  exact atm_premium_above_floor.
Defined.

(** X7.  Where the price is above its floor, the vega that
    [calculate_greeks] returns is the change of the price per 1% of
    volatility: the derivative of the price in sigma, divided by 100. *)
Theorem vega_is_the_derivative_in_volatility :
  forall S K T r sigma ot,
    0 < S -> 0 < K -> 0 < sigma -> 0 < T ->
    0.01 < quoted_price S K T r sigma ot ->
    derivable_pt_lim (fun v => quoted_price S K T r v ot) sigma
      (100 * greek OptionsModel.vega S K T r sigma ot).
Proof.
  intros S K T r sigma ot HS HK Hs HT Hp.
  now apply quoted_price_derivable_in_volatility.
Qed.

Lemma vega_is_the_derivative_in_volatility_witness :
  derivable_pt_lim
    (fun v => quoted_price 450 450 (120 / 60 / (252 * 6.5)) 0.05 v
                OptionsModel.CALL)
    (0.15 * 1.5)
    (100 * greek OptionsModel.vega 450 450 (120 / 60 / (252 * 6.5)) 0.05
             (0.15 * 1.5) OptionsModel.CALL).
Proof.
  apply (vega_is_the_derivative_in_volatility
           450 450 (120 / 60 / (252 * 6.5)) 0.05 (0.15 * 1.5)
           OptionsModel.CALL);
    try lra.
  exact atm_premium_above_floor.
Defined.

(** X8.  Put-call parity: before expiry, a call and a put on the same
    inputs whose prices are both above the floor of 0.01 differ by
    S - K * exp(-r * T). *)
Theorem put_call_parity_above_the_floor :
  forall S K T r sigma pc pp,
    0 < T ->
    OptionsModel.black_scholes_price S K T r sigma OptionsModel.CALL = Some pc ->
    OptionsModel.black_scholes_price S K T r sigma OptionsModel.PUT = Some pp ->
    0.01 < pc -> 0.01 < pp ->
    pc - pp = S - K * exp (- r * T).
Proof.
  intros S K T r sigma pc pp HT Hc Hp Hfc Hfp.
  apply black_scholes_price_some in Hc; [| exact HT].
  apply black_scholes_price_some in Hp; [| exact HT].
  rewrite <- (bs_value_parity S K r sigma T).
  subst pc pp. revert Hfc Hfp. unfold Rmax.
  destruct (Rle_dec _ _); destruct (Rle_dec _ _); lra.
Qed.

Lemma put_call_parity_above_the_floor_witness :
  exists pp,
    OptionsModel.black_scholes_price 450 450 (120 / 60 / (252 * 6.5)) 0.05
      (0.15 * 1.5) OptionsModel.PUT = Some pp
    /\ atm_premium - pp = 450 - 450 * exp (- (0.05) * (120 / 60 / (252 * 6.5))).
Proof.
  destruct atm_put_two_hours as (pp & Hp & Hfp).
  destruct atm_premium_quoted as [Hc Hb].
  exists pp. split; [exact Hp |].
  apply (put_call_parity_above_the_floor
           450 450 (120 / 60 / (252 * 6.5)) 0.05 (0.15 * 1.5) atm_premium pp);
    [lra | exact Hc | exact Hp | lra | exact Hfp].
Defined.

(** ** Trade and result statistics *)

Section TradeStatistics.
Import OptionsModel.

Lemma pnl_pct_returns (t : OptionTrade) : exists p, pnl_pct t = Some p.
Proof.
  unfold pnl_pct. destruct (Rle_dec (entry_premium t) 0) as [H | H]; [eauto |].
  unfold py_div. destruct (Req_dec_T (entry_premium t) 0) as [E | _]; [lra |].
  cbn [bind]. eauto.
Qed.

Lemma pnl_pct_closed (t : OptionTrade) (x : R) :
  exit_premium t = Some x -> 0 < entry_premium t ->
  pnl_pct t = Some (pnl_per_contract t / entry_premium t).
Proof.
  intros Hx He. unfold pnl_pct, pnl_per_contract. rewrite Hx.
  destruct (Rle_dec (entry_premium t) 0) as [H | _]; [lra |].
  unfold py_div. destruct (Req_dec_T (entry_premium t) 0) as [E | _]; [lra |].
  cbn [bind]. f_equal. field. lra.
Qed.

End TradeStatistics.

(** X9.  The percentage return of a trade never raises.  For a closed
    trade bought at a positive premium it is the P&L per contract
    divided by the entry premium, it is at least -100 when the exit
    premium is not negative, and with a positive number of contracts
    the trade's total P&L is positive exactly when it exits above its
    entry premium.  A trade still open has a total P&L of 0 while its
    percentage return is -100. *)
Theorem pnl_pct_agrees_with_pnl_per_contract :
  forall t : OptionsModel.OptionTrade,
    (exists p, OptionsModel.pnl_pct t = Some p)
    /\ (OptionsModel.entry_premium t <= 0 -> OptionsModel.pnl_pct t = Some 0)
    /\ (forall x,
          OptionsModel.exit_premium t = Some x ->
          0 < OptionsModel.entry_premium t ->
          OptionsModel.pnl_pct t
          = Some (OptionsModel.pnl_per_contract t / OptionsModel.entry_premium t)
          /\ (0 <= x ->
              - 100 <= OptionsModel.pnl_per_contract t
                       / OptionsModel.entry_premium t)
          /\ ((0 < OptionsModel.contracts t)%Z ->
              (0 < OptionsModel.total_pnl t
               <-> OptionsModel.entry_premium t < x)))
    /\ (OptionsModel.exit_premium t = None ->
        OptionsModel.total_pnl t = 0
        /\ (0 < OptionsModel.entry_premium t ->
            OptionsModel.pnl_pct t = Some (- 100))).
Proof.
  intros t. split; [apply pnl_pct_returns |]. split; [| split].
  - intros H. unfold OptionsModel.pnl_pct.
    destruct (Rle_dec _ 0); [reflexivity | lra].
  - intros x Hx He. split; [now apply (pnl_pct_closed t x) |].
    unfold OptionsModel.total_pnl, OptionsModel.pnl_per_contract.
    rewrite Hx. split.
    + intros H0. apply Rmult_le_reg_r with (OptionsModel.entry_premium t);
        [exact He |].
      unfold Rdiv. rewrite Rmult_assoc, Rinv_l by lra. nra.
    + intros Hc. apply IZR_lt in Hc.
      split; intros H; nra.
  - intros Hx. unfold OptionsModel.total_pnl, OptionsModel.pnl_per_contract,
      OptionsModel.pnl_pct.
    rewrite Hx. split; [ring |]. intros He.
    destruct (Rle_dec _ 0) as [H | _]; [lra |].
    unfold py_div.
    destruct (Req_dec_T (OptionsModel.entry_premium t) 0) as [E | _]; [lra |].
    cbn [bind]. f_equal. field. lra.
Qed.

Section ResultStatistics.
Import Backtest.

Lemma Rgtb_negb_Rleb (x : R) : Rgtb x 0 = negb (Rleb x 0).
Proof.
  unfold Rgtb, Rltb, Rleb.
  destruct (Rlt_dec 0 x), (Rle_dec x 0); try reflexivity; lra.
Qed.

Lemma winners_losers_length (l : list OptionsModel.OptionTrade) :
  (len (filter (fun t => Rgtb (OptionsModel.total_pnl t) 0) l)
   + len (filter (fun t => Rleb (OptionsModel.total_pnl t) 0) l)
   = len l)%nat.
Proof.
  unfold len. induction l as [| t l IH]; [reflexivity |].
  cbn [filter]. rewrite Rgtb_negb_Rleb.
  destruct (Rleb _ 0); simpl; lia.
Qed.

Lemma winners_losers_sum (l : list OptionsModel.OptionTrade) :
  Py.sum (map OptionsModel.total_pnl l)
  = Py.sum (map OptionsModel.total_pnl
              (filter (fun t => Rgtb (OptionsModel.total_pnl t) 0) l))
    + Py.sum (map OptionsModel.total_pnl
                (filter (fun t => Rleb (OptionsModel.total_pnl t) 0) l)).
Proof.
  induction l as [| t l IH]; [unfold Py.sum; simpl; ring |].
  cbn [filter map]. rewrite Rgtb_negb_Rleb.
  destruct (Rleb _ 0); cbn [negb map]; rewrite !sum_cons, IH; ring.
Qed.

Lemma sum_of_positive (f : OptionsModel.OptionTrade -> R)
    (l : list OptionsModel.OptionTrade) :
  Forall (fun t => 0 < f t) l ->
  0 <= Py.sum (map f l) /\ (l <> [] -> 0 < Py.sum (map f l)).
Proof.
  induction 1 as [| t l Ht Hl [IH1 IH2]].
  - unfold Py.sum. simpl. split; [lra | congruence].
  - cbn [map]. rewrite sum_cons. split; [lra | intros _; lra].
Qed.

Lemma sum_of_nonpositive (f : OptionsModel.OptionTrade -> R)
    (l : list OptionsModel.OptionTrade) :
  Forall (fun t => f t <= 0) l -> Py.sum (map f l) <= 0.
Proof.
  induction 1 as [| t l Ht Hl IH].
  - unfold Py.sum. simpl. lra.
  - cbn [map]. rewrite sum_cons. lra.
Qed.

Lemma winners_positive (r : BacktestResult) :
  Forall (fun t => 0 < OptionsModel.total_pnl t) (winners r).
Proof.
  apply Forall_forall. intros t Ht. apply filter_In in Ht as [_ Ht].
  unfold Rgtb, Rltb in Ht. now destruct (Rlt_dec 0 _).
Qed.

Lemma losers_nonpositive (r : BacktestResult) :
  Forall (fun t => OptionsModel.total_pnl t <= 0) (losers r).
Proof.
  apply Forall_forall. intros t Ht. apply filter_In in Ht as [_ Ht].
  unfold Rleb in Ht. now destruct (Rle_dec _ 0).
Qed.

Lemma INR_len_pos {A : Type} (x : A) (l : list A) : 0 < INR (len (x :: l)).
Proof. unfold len. apply lt_0_INR. cbn. lia. Qed.

Lemma win_rate_value (r : BacktestResult) :
  exists w,
    win_rate r = Some w
    /\ 0 <= w <= 100
    /\ w * INR (total_trades r) = 100 * INR (len (winners r)).
Proof.
  unfold win_rate, total_trades.
  pose proof (winners_losers_length (trades r)) as Hlen.
  fold (winners r) in Hlen. fold (losers r) in Hlen.
  destruct (trades r) as [| t l] eqn:E.
  - cbn. exists 0. split; [reflexivity |].
    assert (Hw : winners r = []) by (unfold winners; now rewrite E).
    rewrite Hw. cbn. split; lra.
  - pose proof (INR_len_pos t l) as Hpos.
    replace (len (t :: l) =? 0)%nat with false by reflexivity.
    unfold py_div. destruct (Req_dec_T _ 0) as [E0 | _]; [lra |].
    cbn [bind]. eexists. split; [reflexivity |].
    assert (Hle : INR (len (winners r)) <= INR (len (t :: l)))
      by (apply le_INR; lia).
    pose proof (pos_INR (len (winners r))) as Hw0.
    assert (Hi : 0 < / INR (len (t :: l))) by now apply Rinv_0_lt_compat.
    split; [| field; lra].
    split.
    + apply Rmult_le_pos; [| lra]. apply Rmult_le_pos; lra.
    + apply Rmult_le_reg_r with (INR (len (t :: l))); [exact Hpos |].
      unfold Rdiv. replace (INR (len (winners r)) * / INR (len (t :: l)) * 100
                            * INR (len (t :: l)))
        with (INR (len (winners r)) * 100) by (field; lra).
      lra.
Qed.

End ResultStatistics.

(** X10.  Winners and losers split the trades of a result: every trade
    is a winner (P&L above 0) or a loser (P&L at most 0) and never both,
    their numbers add up to the number of trades and their P&L to the
    total P&L.  The win rate never raises, lies between 0 and 100 and
    is the share of the winners. *)
Theorem winners_and_losers_split_the_trades :
  forall r : Backtest.BacktestResult,
    (Py.len (Backtest.winners r) + Py.len (Backtest.losers r)
     = Backtest.total_trades r)%nat
    /\ (forall t, In t (Backtest.winners r)
                  <-> In t (Backtest.trades r) /\ 0 < OptionsModel.total_pnl t)
    /\ (forall t, In t (Backtest.losers r)
                  <-> In t (Backtest.trades r) /\ OptionsModel.total_pnl t <= 0)
    /\ Backtest.total_pnl r
       = Py.sum (map OptionsModel.total_pnl (Backtest.winners r))
         + Py.sum (map OptionsModel.total_pnl (Backtest.losers r))
    /\ (exists w,
          Backtest.win_rate r = Some w
          /\ 0 <= w <= 100
          /\ w * INR (Backtest.total_trades r)
             = 100 * INR (Py.len (Backtest.winners r))).
Proof.
  intros r. split; [| split; [| split; [| split]]].
  - apply winners_losers_length.
  - intros t. unfold Backtest.winners. rewrite filter_In.
    unfold Rgtb, Rltb. destruct (Rlt_dec 0 _); intuition (lra || congruence).
  - intros t. unfold Backtest.losers. rewrite filter_In.
    unfold Rleb. destruct (Rle_dec _ 0); intuition (lra || congruence).
  - apply winners_losers_sum.
  - apply win_rate_value.
Qed.

Section Averages.
Import Backtest.

Lemma avg_winner_value (r : BacktestResult) :
  exists a,
    avg_winner r = Some a
    /\ a * INR (len (winners r))
       = Py.sum (map OptionsModel.total_pnl (winners r))
    /\ 0 <= a
    /\ (winners r <> [] -> 0 < a)
    /\ (winners r = [] -> a = 0).
Proof.
  unfold avg_winner.
  pose proof (sum_of_positive OptionsModel.total_pnl _ (winners_positive r))
    as [Hs0 Hs1].
  destruct (winners r) as [| t l] eqn:E.
  - exists 0. cbn. unfold Py.sum. cbn. repeat split; try lra. congruence.
  - pose proof (INR_len_pos t l) as Hpos.
    unfold py_div. destruct (Req_dec_T _ 0) as [E0 | _]; [lra |].
    eexists. split; [reflexivity |].
    assert (Hi : 0 < / INR (len (t :: l))) by now apply Rinv_0_lt_compat.
    assert (Hp : 0 < Py.sum (map OptionsModel.total_pnl (t :: l)))
      by (apply Hs1; discriminate).
    split; [field; lra |].
    split; [unfold Rdiv; nra |].
    split; [intros _; unfold Rdiv; nra | discriminate].
Qed.

Lemma avg_loser_value (r : BacktestResult) :
  exists b,
    avg_loser r = Some b
    /\ b * INR (len (losers r))
       = Py.sum (map OptionsModel.total_pnl (losers r))
    /\ b <= 0
    /\ (losers r = [] -> b = 0).
Proof.
  unfold avg_loser.
  pose proof (sum_of_nonpositive OptionsModel.total_pnl _ (losers_nonpositive r))
    as Hs.
  destruct (losers r) as [| t l] eqn:E.
  - exists 0. cbn. unfold Py.sum. cbn. repeat split; lra.
  - pose proof (INR_len_pos t l) as Hpos.
    unfold py_div. destruct (Req_dec_T _ 0) as [E0 | _]; [lra |].
    eexists. split; [reflexivity |].
    assert (Hi : 0 < / INR (len (t :: l))) by now apply Rinv_0_lt_compat.
    split; [field; lra |]. split; [unfold Rdiv; nra | discriminate].
Qed.

Lemma avg_pnl_value (r : BacktestResult) :
  exists m,
    avg_pnl r = Some m /\ m * INR (total_trades r) = total_pnl r
    /\ (trades r = [] -> m = 0).
Proof.
  unfold avg_pnl, total_trades, total_pnl.
  destruct (trades r) as [| t l] eqn:E.
  - exists 0. cbn. unfold Py.sum. cbn.
    split; [reflexivity |]. split; [ring | reflexivity].
  - pose proof (INR_len_pos t l) as Hpos.
    replace (len (t :: l) =? 0)%nat with false by reflexivity.
    unfold py_div. destruct (Req_dec_T _ 0) as [E0 | _]; [lra |].
    eexists. split; [reflexivity |]. split; [field; lra | discriminate].
Qed.

(** X12.  The profit factor never raises and is never negative.  It is
    infinite exactly when the losers' P&L is 0 and the winners' is
    positive, and 0 when both are 0; otherwise it is the winners' P&L
    over the size of the losers' P&L, and it is above 1 exactly when
    the total P&L is positive. *)
Theorem profit_factor_compares_gains_with_losses :
  forall r : Backtest.BacktestResult,
    let gross_profit :=
      Py.sum (map OptionsModel.total_pnl (Backtest.winners r)) in
    let losses := Py.sum (map OptionsModel.total_pnl (Backtest.losers r)) in
    exists pf,
      Backtest.profit_factor r = Some pf
      /\ match pf with
         | Backtest.Infinity => losses = 0 /\ 0 < gross_profit
         | Backtest.Finite q =>
             0 <= q
             /\ (losses = 0 -> q = 0 /\ Backtest.winners r = [])
             /\ (losses <> 0 ->
                 q * - losses = gross_profit
                 /\ (1 < q <-> 0 < Backtest.total_pnl r))
         end.
Proof.
  intros r gross_profit losses. unfold profit_factor.
  fold gross_profit. fold losses.
  pose proof (sum_of_positive OptionsModel.total_pnl _ (winners_positive r))
    as [Hs0 Hs1]. fold gross_profit in Hs0, Hs1.
  pose proof (sum_of_nonpositive OptionsModel.total_pnl _ (losers_nonpositive r))
    as Hl. fold losses in Hl.
  assert (Hpnl : total_pnl r = gross_profit + losses)
    by apply winners_losers_sum.
  rewrite (Rabs_left1 losses Hl).
  unfold Reqb. destruct (Req_dec_T (- losses) 0) as [E | E].
  - unfold Rgtb, Rltb. destruct (Rlt_dec 0 gross_profit) as [Hg | Hg].
    + exists Infinity. split; [reflexivity |]. split; lra.
    + exists (Finite 0). split; [reflexivity |].
      split; [lra |]. split; [| intros H; lra].
      intros _. split; [reflexivity |].
      destruct (winners r) as [| t l]; [reflexivity |].
      exfalso. apply Hg, Hs1. discriminate.
  - unfold py_div. destruct (Req_dec_T (- losses) 0) as [E' | _];
      [contradiction |].
    cbn [bind]. eexists. split; [reflexivity |].
    assert (Hneg : 0 < - losses) by lra.
    assert (Hi : 0 < / - losses) by now apply Rinv_0_lt_compat.
    split; [unfold Rdiv; nra |].
    split; [intros H; lra |].
    intros _. split; [field; lra |].
    rewrite Hpnl. split; intros H.
    + apply Rmult_lt_compat_r with (r := - losses) in H; [| exact Hneg].
      unfold Rdiv in H. rewrite Rmult_assoc, Rinv_l in H by lra. lra.
    + apply Rmult_lt_reg_r with (- losses); [exact Hneg |].
      unfold Rdiv. rewrite Rmult_assoc, Rinv_l by lra. lra.
Qed.

End Averages.

(** X11.  The averages never raise.  The average winner is 0 when
    there is no winner and positive otherwise; the average loser is 0
    when there is no loser and never positive; the average P&L is 0
    when there is no trade.  The average winner times the number of
    winners is the winners' P&L, likewise for the losers, the average
    P&L times the number of trades is the total P&L, and winners and
    losers, weighted by their averages, give the total P&L. *)
Theorem averages_weigh_back_to_the_totals :
  forall r : Backtest.BacktestResult,
    exists a b m,
      Backtest.avg_winner r = Some a
      /\ Backtest.avg_loser r = Some b
      /\ Backtest.avg_pnl r = Some m
      /\ 0 <= a
      /\ (Backtest.winners r = [] -> a = 0)
      /\ (Backtest.winners r <> [] -> 0 < a)
      /\ (Backtest.losers r = [] -> b = 0)
      /\ b <= 0
      /\ (Backtest.trades r = [] -> m = 0)
      /\ a * INR (Py.len (Backtest.winners r))
         = Py.sum (map OptionsModel.total_pnl (Backtest.winners r))
      /\ b * INR (Py.len (Backtest.losers r))
         = Py.sum (map OptionsModel.total_pnl (Backtest.losers r))
      /\ m * INR (Backtest.total_trades r) = Backtest.total_pnl r
      /\ a * INR (Py.len (Backtest.winners r))
         + b * INR (Py.len (Backtest.losers r))
         = Backtest.total_pnl r.
Proof.
  intros r.
  destruct (avg_winner_value r) as (a & Ha & Hsa & Ha0 & Ha1 & Ha2).
  destruct (avg_loser_value r) as (b & Hb & Hsb & Hb0 & Hb1).
  destruct (avg_pnl_value r) as (m & Hm & Hsm & Hm0).
  exists a, b, m.
  split; [exact Ha |]. split; [exact Hb |]. split; [exact Hm |].
  split; [exact Ha0 |].
  split; [exact Ha2 |]. split; [exact Ha1 |]. split; [exact Hb1 |].
  split; [exact Hb0 |]. split; [exact Hm0 |]. split; [exact Hsa |].
  split; [exact Hsb |]. split; [exact Hsm |].
  rewrite Hsa, Hsb. symmetry. apply winners_losers_sum.
Qed.


Section Drawdown.
Import Backtest.

Lemma equity_curve_running (ts : list OptionsModel.OptionTrade) :
  forall acc e,
    fold_left
      (fun equity t => equity ++ [last equity 0 + OptionsModel.total_pnl t])
      ts (acc ++ [e])
    = acc ++ e :: running_equity e ts.
Proof.
  induction ts as [| t ts IH]; intros acc e; cbn [fold_left running_equity].
  - reflexivity.
  - rewrite last_last.
    rewrite (IH (acc ++ [e]) (e + OptionsModel.total_pnl t)).
    now rewrite <- app_assoc.
Qed.

(** From an equity at its peak: all the drawdowns that follow are 0
    exactly when no trade loses. *)
Lemma drawdowns_zero_iff (ts : list OptionsModel.OptionTrade) :
  forall e, 0 < e ->
    exists ds,
      drawdowns (running_equity e ts)
        (maximum_accumulate_from e (running_equity e ts))
      = map Some ds
      /\ Forall (fun d => d <= 0) ds
      /\ (Forall (fun d => d = 0) ds
          <-> Forall (fun t => 0 <= OptionsModel.total_pnl t) ts).
Proof.
  induction ts as [| t ts IH]; intros e He.
  - exists []. cbn. repeat split; constructor.
  - cbn [running_equity maximum_accumulate_from drawdowns].
    set (x := e + OptionsModel.total_pnl t).
    destruct (Rle_dec 0 (OptionsModel.total_pnl t)) as [Hp | Hp].
    + assert (Hx : 0 < x) by (unfold x; lra).
      rewrite (Rmax_right e x) by (unfold x; lra).
      destruct (IH x Hx) as (ds & -> & Hle & Hiff).
      unfold np_div. destruct (Req_dec_T x 0) as [E | _]; [lra |].
      cbn [bind]. exists ((x - x) / x * 100 :: ds).
      assert (H0 : (x - x) / x * 100 = 0) by (field; lra).
      split; [reflexivity |]. split; [constructor; [lra | exact Hle] |].
      split; intros H.
      * constructor; [exact Hp |]. apply Hiff. now inversion H.
      * constructor; [exact H0 |]. apply Hiff. now inversion H.
    + assert (Hm : Rmax e x = e) by (apply Rmax_left; unfold x; lra).
      rewrite Hm.
      destruct (drawdowns_from_positive (running_equity x ts) e He)
        as (ds & -> & Hle).
      unfold np_div. destruct (Req_dec_T e 0) as [E | _]; [lra |].
      cbn [bind]. exists ((x - e) / e * 100 :: ds).
      assert (Hi : 0 < / e) by now apply Rinv_0_lt_compat.
      assert (Hneg : (x - e) / e * 100 < 0) by (unfold x, Rdiv; nra).
      split; [reflexivity |]. split; [constructor; [lra | exact Hle] |].
      split; intros H; inversion H; subst; lra.
Qed.

Lemma np_min_spec (ds : list R) :
  forall v, np_min (map Some ds) = Some v ->
            In v ds /\ Forall (fun d => v <= d) ds.
Proof.
  induction ds as [| d ds IH]; intros v; [discriminate |].
  destruct ds as [| d' ds'].
  - cbn. intros [= <-]. split; [now left | repeat constructor; lra].
  - destruct (np_min_finite d' ds') as [w Hw].
    change (np_min (map Some (d :: d' :: ds')))
      with (a <- Some d ;; b <- np_min (map Some (d' :: ds')) ;;
            Some (Rmin a b)).
    rewrite Hw. cbn [bind]. intros [= <-].
    destruct (IH w Hw) as [Hin Hall].
    unfold Rmin. destruct (Rle_dec d w) as [Hdw | Hdw].
    + split; [now left |]. constructor; [lra |].
      apply Forall_impl with (2 := Hall). intros y Hy. lra.
    + split; [now right |]. constructor; [lra | exact Hall].
Qed.

Lemma np_min_zero_iff (ds : list R) :
  ds <> [] -> Forall (fun d => d <= 0) ds ->
  (np_min (map Some ds) = Some 0 <-> Forall (fun d => d = 0) ds).
Proof.
  intros Hne Hle. split.
  - intros H. apply np_min_spec in H as [_ Hall].
    apply Forall_forall. intros d Hd.
    pose proof (proj1 (Forall_forall _ _) Hall d Hd).
    pose proof (proj1 (Forall_forall _ _) Hle d Hd). lra.
  - intros H0. destruct ds as [| d ds]; [congruence |].
    destruct (np_min_finite d ds) as [v Hv]. rewrite Hv.
    apply np_min_spec in Hv as [Hin _].
    f_equal. exact (proj1 (Forall_forall _ _) H0 v Hin).
Qed.

(** X13.  With a positive initial capital, the maximum drawdown is 0
    exactly when no trade has a negative P&L: the first losing trade
    puts the equity under its running peak. *)
Theorem max_drawdown_is_zero_exactly_without_losses :
  forall r : Backtest.BacktestResult,
    0 < Backtest.initial_capital r ->
    (Backtest.max_drawdown r = Some 0
     <-> Forall (fun t => 0 <= OptionsModel.total_pnl t) (Backtest.trades r)).
Proof.
  intros r Hc. unfold max_drawdown, equity_curve.
  destruct (trades r) as [| t ts] eqn:E.
  - split; [constructor | reflexivity].
  - pose proof (equity_curve_running (t :: ts) [] (initial_capital r)) as Heq.
    cbn [app] in Heq. rewrite Heq. clear Heq.
    cbn [maximum_accumulate drawdowns].
    destruct (drawdowns_zero_iff (t :: ts) _ Hc) as (ds & -> & Hle & Hiff).
    unfold np_div.
    destruct (Req_dec_T (initial_capital r) 0) as [E0 | _]; [lra |].
    cbn [bind].
    set (d0 := (initial_capital r - initial_capital r)
               / initial_capital r * 100).
    assert (H0 : d0 = 0) by (unfold d0; field; lra).
    change (Some d0 :: map Some ds) with (map Some (d0 :: ds)).
    rewrite np_min_zero_iff;
      [| discriminate | constructor; [lra | exact Hle]].
    rewrite <- Hiff. split; intros H.
    + now inversion H.
    + now constructor.
Qed.

End Drawdown.


Lemma max_drawdown_is_zero_exactly_without_losses_witness :
  Backtest.max_drawdown
    {| Backtest.trades := [breakout_trade 0 atm_premium 1];
       Backtest.initial_capital := 10000;
       Backtest.final_capital := 10000;
       Backtest.config := Config.default |} = Some 0
  <-> Forall (fun t => 0 <= OptionsModel.total_pnl t)
        [breakout_trade 0 atm_premium 1].
Proof.
  apply (max_drawdown_is_zero_exactly_without_losses
           {| Backtest.trades := [breakout_trade 0 atm_premium 1];
              Backtest.initial_capital := 10000;
              Backtest.final_capital := 10000;
              Backtest.config := Config.default |}).
  cbn [Backtest.initial_capital]. lra.
Defined.

Section Sharpe.
Import Backtest.



End Sharpe.


(** ** Breakdowns of a result by pattern and by hour *)

Section Dictionaries.
Import Backtest.
Context {Key V : Type} (eqb : Key -> Key -> bool).
Hypothesis eqb_spec : forall a b, eqb a b = true <-> a = b.

Lemma eqb_refl_true (k : Key) : eqb k k = true.
Proof. now apply eqb_spec. Qed.

Lemma eqb_neq_false (a b : Key) : a <> b -> eqb a b = false.
Proof.
  intros H. destruct (eqb a b) eqn:E; [| reflexivity].
  apply eqb_spec in E. contradiction.
Qed.

Lemma dict_get_set_same (k : Key) (v : V) (d : list (Key * V)) :
  dict_get eqb k (dict_set eqb k v d) = Some v.
Proof.
  induction d as [| [k' v'] d IH]; cbn.
  - now rewrite eqb_refl_true.
  - destruct (eqb k k') eqn:E; cbn; rewrite E; [reflexivity | exact IH].
Qed.

Lemma dict_get_set_other (k k' : Key) (v : V) (d : list (Key * V)) :
  k <> k' -> dict_get eqb k' (dict_set eqb k v d) = dict_get eqb k' d.
Proof.
  intros Hne. induction d as [| [k0 v0] d IH]; cbn.
  - rewrite eqb_neq_false; [reflexivity | congruence].
  - destruct (eqb k k0) eqn:E; cbn.
    + apply eqb_spec in E. subst k0.
      rewrite eqb_neq_false; [reflexivity | congruence].
    + destruct (eqb k' k0); [reflexivity | exact IH].
Qed.

Lemma dict_get_In (k : Key) (v : V) (d : list (Key * V)) :
  dict_get eqb k d = Some v -> In (k, v) d.
Proof.
  induction d as [| [k' v'] d IH]; cbn; [discriminate |].
  destruct (eqb k k') eqn:E.
  - apply eqb_spec in E. subst k'. intros [= ->]. now left.
  - intros H. right. now apply IH.
Qed.

Lemma In_dict_get (k : Key) (v : V) (d : list (Key * V)) :
  NoDup (map fst d) -> In (k, v) d -> dict_get eqb k d = Some v.
Proof.
  induction d as [| [k' v'] d IH]; cbn; [intros _ [] |].
  intros Hnd [[= -> ->] | Hin].
  - now rewrite eqb_refl_true.
  - inversion Hnd as [| ? ? Hnotin Hnd']; subst.
    destruct (eqb k k') eqn:E.
    + apply eqb_spec in E. subst k'. exfalso. apply Hnotin.
      apply in_map_iff. now exists (k, v).
    + now apply IH.
Qed.

Lemma dict_get_None_keys (k : Key) (d : list (Key * V)) :
  dict_get eqb k d = None <-> ~ In k (map fst d).
Proof.
  induction d as [| [k' v'] d IH]; cbn.
  - split; [intros _ [] | reflexivity].
  - destruct (eqb k k') eqn:E.
    + apply eqb_spec in E. subst k'. split; [discriminate |].
      intros H. exfalso. apply H. now left.
    + rewrite IH. split.
      * intros H [-> | Hin]; [| contradiction].
        rewrite eqb_refl_true in E. discriminate.
      * intros H Hin. apply H. now right.
Qed.

Lemma dict_set_keys (k : Key) (v : V) (d : list (Key * V)) :
  map fst (dict_set eqb k v d)
  = match dict_get eqb k d with
    | Some _ => map fst d
    | None => map fst d ++ [k]
    end.
Proof.
  induction d as [| [k' v'] d IH]; cbn; [reflexivity |].
  destruct (eqb k k') eqn:E; cbn; [reflexivity |].
  rewrite IH. now destruct (dict_get eqb k d).
Qed.

Lemma dict_set_NoDup (k : Key) (v : V) (d : list (Key * V)) :
  NoDup (map fst d) -> NoDup (map fst (dict_set eqb k v d)).
Proof.
  intros Hnd. rewrite dict_set_keys.
  destruct (dict_get eqb k d) eqn:E; [exact Hnd |].
  apply dict_get_None_keys in E.
  apply NoDup_app; [exact Hnd | repeat constructor; intros [] |].
  intros x Hx [<- | []]. contradiction.
Qed.

(** The sum of a measure over a dict, when one entry is set. *)
Lemma dict_set_sum (f : V -> R) (k : Key) (v : V) (d : list (Key * V)) :
  Py.sum (map (fun kv => f (snd kv)) (dict_set eqb k v d))
  + match dict_get eqb k d with Some p => f p | None => 0 end
  = Py.sum (map (fun kv => f (snd kv)) d) + f v.
Proof.
  induction d as [| [k' v'] d IH]; cbn [dict_set dict_get map snd].
  - rewrite sum_cons. unfold Py.sum. cbn. ring.
  - destruct (eqb k k') eqn:E; cbn [map snd]; rewrite !sum_cons.
    + ring.
    + lra.
Qed.

(** A loop that files each trade under its key, creating the entry on
    first sight. *)
Variable key : OptionsModel.OptionTrade -> Key.
Variable init : V.
Variable upd : V -> OptionsModel.OptionTrade -> V.
Variable step : list (Key * V) -> OptionsModel.OptionTrade -> list (Key * V).
Hypothesis Hstep :
  forall d t,
    step d t
    = let d1 :=
        match dict_get eqb (key t) d with
        | None => dict_set eqb (key t) init d
        | Some _ => d
        end in
      match dict_get eqb (key t) d1 with
      | None => d1
      | Some p => dict_set eqb (key t) (upd p t) d1
      end.

Lemma step_get (d : list (Key * V)) (t : OptionsModel.OptionTrade) (k : Key) :
  dict_get eqb k (step d t)
  = if eqb (key t) k
    then Some (upd (match dict_get eqb k d with Some p => p | None => init end) t)
    else dict_get eqb k d.
Proof.
  rewrite Hstep. cbv zeta.
  destruct (eqb (key t) k) eqn:E.
  - apply eqb_spec in E. subst k.
    destruct (dict_get eqb (key t) d) as [p |] eqn:Eg.
    + rewrite Eg. apply dict_get_set_same.
    + rewrite dict_get_set_same. apply dict_get_set_same.
  - assert (Hne : key t <> k).
    { intros Hk. subst k. rewrite eqb_refl_true in E. discriminate. }
    destruct (dict_get eqb (key t) d) as [p |] eqn:Eg.
    + rewrite Eg. now apply dict_get_set_other.
    + rewrite dict_get_set_same.
      rewrite !dict_get_set_other by assumption. reflexivity.
Qed.

Lemma step_NoDup (d : list (Key * V)) (t : OptionsModel.OptionTrade) :
  NoDup (map fst d) -> NoDup (map fst (step d t)).
Proof.
  intros Hnd. rewrite Hstep. cbv zeta.
  destruct (dict_get eqb (key t) d) as [p |] eqn:Eg.
  - rewrite Eg. now apply dict_set_NoDup.
  - rewrite dict_get_set_same. now apply dict_set_NoDup, dict_set_NoDup.
Qed.

Lemma step_sum (f : V -> R) (g : OptionsModel.OptionTrade -> R)
    (d : list (Key * V)) (t : OptionsModel.OptionTrade) :
  f init = 0 -> (forall p t, f (upd p t) = f p + g t) ->
  Py.sum (map (fun kv => f (snd kv)) (step d t))
  = Py.sum (map (fun kv => f (snd kv)) d) + g t.
Proof.
  intros Hinit Hupd. rewrite Hstep. cbv zeta.
  destruct (dict_get eqb (key t) d) as [p |] eqn:Eg.
  - rewrite Eg.
    pose proof (dict_set_sum f (key t) (upd p t) d) as H.
    rewrite Eg, Hupd in H. lra.
  - rewrite dict_get_set_same.
    pose proof (dict_set_sum f (key t) init d) as H1.
    pose proof (dict_set_sum f (key t) (upd init t)
                  (dict_set eqb (key t) init d)) as H2.
    rewrite Eg in H1. rewrite dict_get_set_same, Hupd in H2. lra.
Qed.

Lemma fold_left_snoc {A B : Type} (f : A -> B -> A) (l : list B) (x : B) (a : A) :
  fold_left f (l ++ [x]) a = f (fold_left f l a) x.
Proof. now rewrite fold_left_app. Qed.

Lemma filter_snoc {A : Type} (f : A -> bool) (l : list A) (x : A) :
  filter f (l ++ [x]) = filter f l ++ (if f x then [x] else []).
Proof. rewrite filter_app. cbn. now destruct (f x). Qed.

Lemma fold_step_get (ts : list OptionsModel.OptionTrade) (k : Key) :
  dict_get eqb k (fold_left step ts [])
  = match filter (fun t => eqb (key t) k) ts with
    | [] => None
    | _ :: _ =>
        Some (fold_left upd (filter (fun t => eqb (key t) k) ts) init)
    end.
Proof.
  induction ts as [| t ts IH] using rev_ind; [reflexivity |].
  rewrite fold_left_snoc, step_get, filter_snoc, IH.
  destruct (eqb (key t) k) eqn:E.
  - destruct (filter (fun t0 => eqb (key t0) k) ts) as [| t0 l].
    + reflexivity.
    + rewrite fold_left_snoc. reflexivity.
  - now rewrite app_nil_r.
Qed.

Lemma fold_step_NoDup (ts : list OptionsModel.OptionTrade) :
  NoDup (map fst (fold_left step ts [])).
Proof.
  induction ts as [| t ts IH] using rev_ind; [constructor |].
  rewrite fold_left_snoc. now apply step_NoDup.
Qed.

Lemma fold_step_sum (f : V -> R) (g : OptionsModel.OptionTrade -> R)
    (ts : list OptionsModel.OptionTrade) :
  f init = 0 -> (forall p t, f (upd p t) = f p + g t) ->
  Py.sum (map (fun kv => f (snd kv)) (fold_left step ts []))
  = Py.sum (map g ts).
Proof.
  intros Hinit Hupd.
  induction ts as [| t ts IH] using rev_ind; [reflexivity |].
  rewrite fold_left_snoc, (step_sum f g) by assumption.
  rewrite IH, map_app. unfold Py.sum. rewrite fold_left_app. reflexivity.
Qed.

(** The entries of the dict: one per key that occurs, holding what the
    loop made of the trades with that key. *)
Lemma fold_step_In (ts : list OptionsModel.OptionTrade) (k : Key) (v : V) :
  In (k, v) (fold_left step ts [])
  <-> filter (fun t => eqb (key t) k) ts <> []
      /\ v = fold_left upd (filter (fun t => eqb (key t) k) ts) init.
Proof.
  split.
  - intros Hin. apply In_dict_get in Hin; [| apply fold_step_NoDup].
    rewrite fold_step_get in Hin.
    destruct (filter _ ts) as [| t l]; [discriminate |].
    injection Hin as <-. split; [discriminate | reflexivity].
  - intros [Hne ->]. apply dict_get_In. rewrite fold_step_get.
    destruct (filter _ ts) as [| t l]; [congruence | reflexivity].
Qed.

End Dictionaries.

Section Breakdowns.
Import Backtest.

Lemma sum_permutation (l l' : list R) :
  Permutation l l' -> Py.sum l = Py.sum l'.
Proof.
  induction 1 as [| x l l' _ IH | x y l | l l' l'' _ IH1 _ IH2].
  - reflexivity.
  - now rewrite !sum_cons, IH.
  - rewrite !sum_cons. ring.
  - now rewrite IH1.
Qed.

Lemma sum_of_ones {A : Type} (l : list A) :
  Py.sum (map (fun _ => 1) l) = INR (len l).
Proof.
  induction l as [| x l IH]; [reflexivity |].
  cbn [map]. rewrite sum_cons, IH.
  change (len (x :: l)) with (S (len l)). rewrite S_INR. ring.
Qed.

Lemma rate_bounds (w c : nat) :
  (w <= c)%nat -> (1 <= c)%nat ->
  INR w / INR c * 100 * INR c = 100 * INR w
  /\ 0 <= INR w / INR c * 100 <= 100.
Proof.
  intros Hwc Hc.
  assert (Hc0 : 0 < INR c) by (apply lt_0_INR; lia).
  assert (Hw0 : 0 <= INR w) by apply pos_INR.
  assert (Hle : INR w <= INR c) by now apply le_INR.
  assert (Hi : 0 < / INR c) by now apply Rinv_0_lt_compat.
  split; [field; lra |].
  assert (Hq : INR w / INR c <= 1).
  { apply Rmult_le_reg_r with (INR c); [exact Hc0 |].
    unfold Rdiv. rewrite Rmult_assoc, Rinv_l by lra. lra. }
  assert (Hq0 : 0 <= INR w / INR c) by (unfold Rdiv; nra).
  lra.
Qed.

Lemma filter_length_le {A : Type} (f : A -> bool) (l : list A) :
  (len (filter f l) <= len l)%nat.
Proof.
  unfold len. induction l as [| x l IH]; [apply Nat.le_refl |].
  cbn [filter]. destruct (f x); simpl; lia.
Qed.

Lemma filter_nonempty {A : Type} (f : A -> bool) (l : list A) :
  filter f l <> [] <-> exists x, In x l /\ f x = true.
Proof.
  split.
  - destruct (filter f l) as [| x l'] eqn:E; [congruence |].
    intros _. exists x. apply filter_In. rewrite E. now left.
  - intros (x & Hx & Hf) E.
    assert (Hin : In x (filter f l)) by now apply filter_In.
    now rewrite E in Hin.
Qed.

(** *** By pattern *)

Lemma insert_by_pnl_perm x l : Permutation (insert_by_pnl x l) (x :: l).
Proof.
  induction l as [| y l IH]; cbn; [reflexivity |].
  destruct (Rgeb _ _); [reflexivity |].
  rewrite IH. apply perm_swap.
Qed.

Lemma sort_by_pnl_perm l : Permutation (fold_right insert_by_pnl [] l) l.
Proof.
  induction l as [| x l IH]; cbn; [reflexivity |].
  rewrite insert_by_pnl_perm. now constructor.
Qed.

Lemma insert_by_pnl_sorted x l :
  StronglySorted (fun a b => stats_pnl (snd b) <= stats_pnl (snd a)) l ->
  StronglySorted (fun a b => stats_pnl (snd b) <= stats_pnl (snd a))
    (insert_by_pnl x l).
Proof.
  induction 1 as [| y l Hl IH Hy]; cbn.
  - repeat constructor.
  - unfold Rgeb, Rleb. destruct (Rle_dec _ _) as [Hle | Hgt].
    + constructor; [now constructor |].
      constructor; [exact Hle |].
      apply Forall_impl with (2 := Hy). intros z Hz. lra.
    + constructor; [exact IH |].
      apply Forall_forall. intros z Hz.
      apply (Permutation_in _ (insert_by_pnl_perm x l)) in Hz.
      destruct Hz as [<- | Hz]; [lra |].
      exact (proj1 (Forall_forall _ _) Hy z Hz).
Qed.

Lemma sort_by_pnl_sorted l :
  StronglySorted (fun a b => stats_pnl (snd b) <= stats_pnl (snd a))
    (fold_right insert_by_pnl [] l).
Proof.
  induction l as [| x l IH]; cbn; [constructor |].
  now apply insert_by_pnl_sorted.
Qed.

Lemma pattern_tally (l : list OptionsModel.OptionTrade) :
  let p :=
    fold_left
      (fun p t =>
         {| tally_trades := tally_trades p ++ [t];
            tally_pnl := tally_pnl p + OptionsModel.total_pnl t;
            tally_wins :=
              if Rgtb (OptionsModel.total_pnl t) 0
              then (tally_wins p + 1)%nat else tally_wins p;
            tally_count := (tally_count p + 1)%nat |})
      l
      {| tally_trades := []; tally_pnl := 0;
         tally_wins := 0; tally_count := 0 |} in
  tally_trades p = l
  /\ tally_count p = len l
  /\ tally_wins p
     = len (filter (fun t => Rgtb (OptionsModel.total_pnl t) 0) l)
  /\ tally_pnl p = Py.sum (map OptionsModel.total_pnl l).
Proof.
  induction l as [| t l IH] using rev_ind.
  - cbn. repeat split.
  - cbv zeta in *. rewrite fold_left_snoc.
    destruct IH as (H1 & H2 & H3 & H4).
    cbn [tally_trades tally_count tally_wins tally_pnl].
    rewrite H1, H2, H3, H4. repeat split.
    + unfold len. rewrite length_app. simpl. lia.
    + rewrite filter_snoc. unfold len.
      destruct (Rgtb _ 0); rewrite length_app; simpl; lia.
    + rewrite map_app. unfold Py.sum. now rewrite fold_left_app.
Qed.

Lemma pattern_breakdown_entry (r : BacktestResult) k s :
  In (k, s) (pattern_breakdown r) ->
  let ts := filter (fun t => String.eqb (OptionsModel.pattern t) k) (trades r) in
  ts <> []
  /\ stats_trades s = ts
  /\ stats_count s = len ts
  /\ stats_wins s
     = len (filter (fun t => Rgtb (OptionsModel.total_pnl t) 0) ts)
  /\ stats_pnl s = Py.sum (map OptionsModel.total_pnl ts)
  /\ stats_win_rate s
     = (if (0 <? stats_count s)%nat
        then INR (stats_wins s) / INR (stats_count s) * 100 else 0)
  /\ stats_avg_pnl s
     = (if (0 <? stats_count s)%nat
        then stats_pnl s / INR (stats_count s) else 0).
Proof.
  intros Hin ts. unfold pattern_breakdown in Hin.
  apply (Permutation_in _ (sort_by_pnl_perm _)) in Hin.
  apply in_map_iff in Hin as ([k' p] & [= -> <-] & Hin).
  apply (fold_step_In String.eqb String.eqb_eq OptionsModel.pattern
           _ _ count_pattern (fun d t => eq_refl)) in Hin as [Hne ->].
  fold ts in Hne |- *.
  destruct (pattern_tally ts) as (H1 & H2 & H3 & H4).
  cbn [pattern_rates stats_trades stats_count stats_wins stats_pnl
       stats_win_rate stats_avg_pnl].
  repeat split; assumption || reflexivity.
Qed.

(** *** By hour *)

Lemma insert_by_hour_perm x l : Permutation (insert_by_hour x l) (x :: l).
Proof.
  induction l as [| y l IH]; cbn; [reflexivity |].
  destruct (_ <=? _)%Z; [reflexivity |].
  rewrite IH. apply perm_swap.
Qed.

Lemma sort_by_hour_perm l : Permutation (fold_right insert_by_hour [] l) l.
Proof.
  induction l as [| x l IH]; cbn; [reflexivity |].
  rewrite insert_by_hour_perm. now constructor.
Qed.

Lemma insert_by_hour_sorted x l :
  StronglySorted (fun a b => (fst a <= fst b)%Z) l ->
  StronglySorted (fun a b => (fst a <= fst b)%Z) (insert_by_hour x l).
Proof.
  induction 1 as [| y l Hl IH Hy]; cbn.
  - repeat constructor.
  - destruct (fst x <=? fst y)%Z eqn:E.
    + apply Z.leb_le in E. constructor; [now constructor |].
      constructor; [exact E |].
      apply Forall_impl with (2 := Hy). intros z Hz. lia.
    + apply Z.leb_gt in E. constructor; [exact IH |].
      apply Forall_forall. intros z Hz.
      apply (Permutation_in _ (insert_by_hour_perm x l)) in Hz.
      destruct Hz as [<- | Hz]; [lia |].
      exact (proj1 (Forall_forall _ _) Hy z Hz).
Qed.

Lemma sort_by_hour_sorted l :
  StronglySorted (fun a b => (fst a <= fst b)%Z)
    (fold_right insert_by_hour [] l).
Proof.
  induction l as [| x l IH]; cbn; [constructor |].
  now apply insert_by_hour_sorted.
Qed.

Lemma sorted_NoDup_strict (l : list Z) :
  StronglySorted Z.le l -> NoDup l -> StronglySorted Z.lt l.
Proof.
  induction 1 as [| x l Hl IH Hx]; intros Hnd; [constructor |].
  inversion Hnd as [| ? ? Hnotin Hnd']; subst.
  constructor; [now apply IH |].
  apply Forall_forall. intros y Hy.
  pose proof (proj1 (Forall_forall _ _) Hx y Hy).
  assert (x <> y) by (intros ->; contradiction). lia.
Qed.

Lemma hour_tally (l : list OptionsModel.OptionTrade) :
  let h :=
    fold_left
      (fun h t =>
         {| hour_pnl := hour_pnl h + OptionsModel.total_pnl t;
            hour_wins :=
              if Rgtb (OptionsModel.total_pnl t) 0
              then (hour_wins h + 1)%nat else hour_wins h;
            hour_count := (hour_count h + 1)%nat |})
      l {| hour_pnl := 0; hour_wins := 0; hour_count := 0 |} in
  hour_count h = len l
  /\ hour_wins h
     = len (filter (fun t => Rgtb (OptionsModel.total_pnl t) 0) l)
  /\ hour_pnl h = Py.sum (map OptionsModel.total_pnl l).
Proof.
  induction l as [| t l IH] using rev_ind.
  - cbn. repeat split.
  - cbv zeta in *. rewrite fold_left_snoc.
    destruct IH as (H2 & H3 & H4).
    cbn [hour_count hour_wins hour_pnl].
    rewrite H2, H3, H4. repeat split.
    + unfold len. rewrite length_app. simpl. lia.
    + rewrite filter_snoc. unfold len.
      destruct (Rgtb _ 0); rewrite length_app; simpl; lia.
    + rewrite map_app. unfold Py.sum. now rewrite fold_left_app.
Qed.

Lemma hour_breakdown_entry (r : BacktestResult) k s :
  In (k, s) (hour_breakdown r) ->
  let ts := filter (fun t => (entry_hour t =? k)%Z) (trades r) in
  ts <> []
  /\ hstats_count s = len ts
  /\ hstats_wins s
     = len (filter (fun t => Rgtb (OptionsModel.total_pnl t) 0) ts)
  /\ hstats_pnl s = Py.sum (map OptionsModel.total_pnl ts)
  /\ hstats_win_rate s
     = (if (0 <? hstats_count s)%nat
        then INR (hstats_wins s) / INR (hstats_count s) * 100 else 0).
Proof.
  intros Hin ts. unfold hour_breakdown in Hin.
  apply (Permutation_in _ (sort_by_hour_perm _)) in Hin.
  apply in_map_iff in Hin as ([k' h] & [= -> <-] & Hin).
  apply (fold_step_In Z.eqb Z.eqb_eq entry_hour
           _ _ count_hour (fun d t => eq_refl)) in Hin as [Hne ->].
  fold ts in Hne |- *.
  destruct (hour_tally ts) as (H2 & H3 & H4).
  cbn [hour_rates hstats_count hstats_wins hstats_pnl hstats_win_rate].
  repeat split; assumption || reflexivity.
Qed.

Lemma entry_hour_range (t : OptionsModel.OptionTrade) :
  (0 <= entry_hour t <= 23)%Z.
Proof.
  unfold entry_hour, time_of.
  pose proof (Z.mod_pos_bound (OptionsModel.entry_time t) 1440 ltac:(lia)) as H.
  split.
  - apply Z.div_pos; lia.
  - apply Z.lt_succ_r. apply Z.div_lt_upper_bound; lia.
Qed.

End Breakdowns.

Section BreakdownTotals.
Import Backtest.

Lemma pattern_breakdown_keys (r : BacktestResult) :
  Permutation (map fst (pattern_breakdown r))
    (map fst (fold_left count_pattern (trades r) [])).
Proof.
  unfold pattern_breakdown.
  rewrite (Permutation_map fst (sort_by_pnl_perm _)).
  rewrite map_map. cbn [fst]. reflexivity.
Qed.

Lemma pattern_breakdown_key_iff (r : BacktestResult) (k : string) :
  In k (map fst (pattern_breakdown r))
  <-> exists t, In t (trades r) /\ OptionsModel.pattern t = k.
Proof.
  split.
  - intros Hin. apply in_map_iff in Hin as ([k' s] & Hk & Hin).
    cbn in Hk. subst k'.
    apply pattern_breakdown_entry in Hin as (Hne & _).
    apply filter_nonempty in Hne as (t & Ht & Hp).
    exists t. split; [exact Ht | now apply String.eqb_eq].
  - intros (t & Ht & Hp).
    apply (Permutation_in _ (Permutation_sym (pattern_breakdown_keys r))).
    assert (Hne : filter (fun t0 => String.eqb (OptionsModel.pattern t0) k)
                    (trades r) <> []).
    { apply filter_nonempty. exists t. split; [exact Ht |].
      now apply String.eqb_eq. }
    pose proof (fold_step_get String.eqb String.eqb_eq OptionsModel.pattern
                  _ _ count_pattern (fun d t => eq_refl) (trades r) k) as Hg.
    destruct (filter _ (trades r)) as [| t0 l]; [congruence |].
    apply (dict_get_In String.eqb String.eqb_eq) in Hg.
    apply in_map_iff. eexists. split; [| exact Hg]. reflexivity.
Qed.

Lemma pattern_breakdown_sums (r : BacktestResult) :
  Py.sum (map (fun x => INR (stats_count (snd x))) (pattern_breakdown r))
  = INR (total_trades r)
  /\ Py.sum (map (fun x => stats_pnl (snd x)) (pattern_breakdown r))
     = total_pnl r.
Proof.
  unfold pattern_breakdown, total_trades, total_pnl. split.
  - rewrite (sum_permutation _ _
               (Permutation_map _ (sort_by_pnl_perm _))).
    rewrite map_map. cbn [snd pattern_rates stats_count].
    rewrite (fold_step_sum String.eqb String.eqb_eq OptionsModel.pattern
               _ _ count_pattern (fun d t => eq_refl)
               (fun p => INR (tally_count p)) (fun _ => 1)).
    + apply sum_of_ones.
    + reflexivity.
    + intros p t. cbn [tally_count]. rewrite Nat.add_1_r. apply S_INR.
  - rewrite (sum_permutation _ _
               (Permutation_map _ (sort_by_pnl_perm _))).
    rewrite map_map. cbn [snd pattern_rates stats_pnl].
    rewrite (fold_step_sum String.eqb String.eqb_eq OptionsModel.pattern
               _ _ count_pattern (fun d t => eq_refl)
               tally_pnl OptionsModel.total_pnl); reflexivity.
Qed.

Lemma hour_breakdown_keys (r : BacktestResult) :
  Permutation (map fst (hour_breakdown r))
    (map fst (fold_left count_hour (trades r) [])).
Proof.
  unfold hour_breakdown.
  rewrite (Permutation_map fst (sort_by_hour_perm _)).
  rewrite map_map. cbn [fst]. reflexivity.
Qed.

Lemma hour_breakdown_key_iff (r : BacktestResult) (k : Z) :
  In k (map fst (hour_breakdown r))
  <-> exists t, In t (trades r) /\ entry_hour t = k.
Proof.
  split.
  - intros Hin. apply in_map_iff in Hin as ([k' s] & Hk & Hin).
    cbn in Hk. subst k'.
    apply hour_breakdown_entry in Hin as (Hne & _).
    apply filter_nonempty in Hne as (t & Ht & Hp).
    exists t. split; [exact Ht | now apply Z.eqb_eq].
  - intros (t & Ht & Hp).
    apply (Permutation_in _ (Permutation_sym (hour_breakdown_keys r))).
    assert (Hne : filter (fun t0 => (entry_hour t0 =? k)%Z) (trades r) <> []).
    { apply filter_nonempty. exists t. split; [exact Ht |].
      now apply Z.eqb_eq. }
    pose proof (fold_step_get Z.eqb Z.eqb_eq entry_hour
                  _ _ count_hour (fun d t => eq_refl) (trades r) k) as Hg.
    destruct (filter _ (trades r)) as [| t0 l]; [congruence |].
    apply (dict_get_In Z.eqb Z.eqb_eq) in Hg.
    apply in_map_iff. eexists. split; [| exact Hg]. reflexivity.
Qed.

Lemma hour_breakdown_sums (r : BacktestResult) :
  Py.sum (map (fun x => INR (hstats_count (snd x))) (hour_breakdown r))
  = INR (total_trades r)
  /\ Py.sum (map (fun x => hstats_pnl (snd x)) (hour_breakdown r))
     = total_pnl r.
Proof.
  unfold hour_breakdown, total_trades, total_pnl. split.
  - rewrite (sum_permutation _ _
               (Permutation_map _ (sort_by_hour_perm _))).
    rewrite map_map. cbn [snd hour_rates hstats_count].
    rewrite (fold_step_sum Z.eqb Z.eqb_eq entry_hour
               _ _ count_hour (fun d t => eq_refl)
               (fun h => INR (hour_count h)) (fun _ => 1)).
    + apply sum_of_ones.
    + reflexivity.
    + intros p t. cbn [hour_count]. rewrite Nat.add_1_r. apply S_INR.
  - rewrite (sum_permutation _ _
               (Permutation_map _ (sort_by_hour_perm _))).
    rewrite map_map. cbn [snd hour_rates hstats_pnl].
    rewrite (fold_step_sum Z.eqb Z.eqb_eq entry_hour
               _ _ count_hour (fun d t => eq_refl)
               hour_pnl OptionsModel.total_pnl); reflexivity.
Qed.

Lemma hour_breakdown_sorted (r : BacktestResult) :
  StronglySorted Z.lt (map fst (hour_breakdown r)).
Proof.
  apply sorted_NoDup_strict.
  - unfold hour_breakdown.
    generalize (map (fun kh => (fst kh, hour_rates (snd kh)))
                  (fold_left count_hour (trades r) [])).
    intros l. pose proof (sort_by_hour_sorted l) as H.
    induction H as [| x l' Hl IH Hx]; cbn; constructor; [exact IH |].
    apply Forall_forall. intros y Hy. apply in_map_iff in Hy as (z & <- & Hz).
    exact (proj1 (Forall_forall _ _) Hx z Hz).
  - apply (Permutation_NoDup (Permutation_sym (hour_breakdown_keys r))).
    apply (fold_step_NoDup Z.eqb Z.eqb_eq entry_hour
             _ _ count_hour (fun d t => eq_refl)).
Qed.

End BreakdownTotals.

(** X15.  The breakdown by pattern has one entry for each pattern that
    occurs among the trades and no other.  The entry of a pattern holds
    exactly the trades of that pattern, in order, their number (at
    least 1), the number of winners among them, their P&L, the win
    rate in percent (between 0 and 100) and the average P&L.  The
    entries are in order of P&L, largest first, and their counts and
    P&L add up to the number of trades and the total P&L. *)
Theorem pattern_breakdown_accounts_for_every_trade :
  forall r : Backtest.BacktestResult,
    let b := Backtest.pattern_breakdown r in
    NoDup (map fst b)
    /\ (forall k, In k (map fst b)
                  <-> exists t, In t (Backtest.trades r)
                                /\ OptionsModel.pattern t = k)
    /\ (forall k s,
          In (k, s) b ->
          Backtest.stats_trades s
          = filter (fun t => String.eqb (OptionsModel.pattern t) k)
              (Backtest.trades r)
          /\ Backtest.stats_count s = Py.len (Backtest.stats_trades s)
          /\ (1 <= Backtest.stats_count s)%nat
          /\ Backtest.stats_wins s
             = Py.len (filter (fun t => Rgtb (OptionsModel.total_pnl t) 0)
                         (Backtest.stats_trades s))
          /\ Backtest.stats_pnl s
             = Py.sum (map OptionsModel.total_pnl (Backtest.stats_trades s))
          /\ Backtest.stats_win_rate s * INR (Backtest.stats_count s)
             = 100 * INR (Backtest.stats_wins s)
          /\ 0 <= Backtest.stats_win_rate s <= 100
          /\ Backtest.stats_avg_pnl s * INR (Backtest.stats_count s)
             = Backtest.stats_pnl s)
    /\ StronglySorted
         (fun x y => Backtest.stats_pnl (snd y) <= Backtest.stats_pnl (snd x)) b
    /\ Py.sum (map (fun x => INR (Backtest.stats_count (snd x))) b)
       = INR (Backtest.total_trades r)
    /\ Py.sum (map (fun x => Backtest.stats_pnl (snd x)) b)
       = Backtest.total_pnl r.
Proof.
  intros r b. subst b.
  split; [| split; [| split; [| split]]].
  - apply (Permutation_NoDup (Permutation_sym (pattern_breakdown_keys r))).
    apply (fold_step_NoDup String.eqb String.eqb_eq OptionsModel.pattern
             _ _ Backtest.count_pattern (fun d t => eq_refl)).
  - apply pattern_breakdown_key_iff.
  - intros k s Hin.
    destruct (pattern_breakdown_entry r k s Hin)
      as (Hne & Ht & Hc & Hw & Hp & Hwr & Hav).
    rewrite Ht.
    assert (Hc1 : (1 <= Backtest.stats_count s)%nat).
    { rewrite Hc. destruct (filter _ (Backtest.trades r)); [congruence |].
      unfold len. simpl. lia. }
    assert (Hwc : (Backtest.stats_wins s <= Backtest.stats_count s)%nat).
    { rewrite Hw, Hc. apply filter_length_le. }
    assert (Hpos : (0 <? Backtest.stats_count s)%nat = true)
      by (apply Nat.ltb_lt; lia).
    rewrite Hpos in Hwr, Hav.
    destruct (rate_bounds _ _ Hwc Hc1) as [Hr1 Hr2].
    repeat split; try assumption.
    + now rewrite Hwr.
    + rewrite Hwr. apply Hr2.
    + rewrite Hwr. apply Hr2.
    + rewrite Hav. field. apply not_0_INR. lia.
  - apply sort_by_pnl_sorted.
  - apply pattern_breakdown_sums.
Qed.

(** X16.  The breakdown by hour has one entry for each hour of the day
    (0 to 23) at which a trade was entered and no other, in increasing
    order of the hour.  The entry of an hour holds the number of trades
    entered in that hour (at least 1), the number of winners among
    them, their P&L and the win rate in percent (between 0 and 100);
    the counts and P&L add up to the number of trades and the total
    P&L. *)
Theorem hour_breakdown_accounts_for_every_trade :
  forall r : Backtest.BacktestResult,
    let b := Backtest.hour_breakdown r in
    StronglySorted Z.lt (map fst b)
    /\ (forall k, In k (map fst b)
                  <-> exists t, In t (Backtest.trades r)
                                /\ Backtest.entry_hour t = k)
    /\ (forall k, In k (map fst b) -> (0 <= k <= 23)%Z)
    /\ (forall k s,
          In (k, s) b ->
          let ts := filter (fun t => (Backtest.entry_hour t =? k)%Z)
                      (Backtest.trades r) in
          Backtest.hstats_count s = Py.len ts
          /\ (1 <= Backtest.hstats_count s)%nat
          /\ Backtest.hstats_wins s
             = Py.len (filter (fun t => Rgtb (OptionsModel.total_pnl t) 0) ts)
          /\ Backtest.hstats_pnl s = Py.sum (map OptionsModel.total_pnl ts)
          /\ Backtest.hstats_win_rate s * INR (Backtest.hstats_count s)
             = 100 * INR (Backtest.hstats_wins s)
          /\ 0 <= Backtest.hstats_win_rate s <= 100)
    /\ Py.sum (map (fun x => INR (Backtest.hstats_count (snd x))) b)
       = INR (Backtest.total_trades r)
    /\ Py.sum (map (fun x => Backtest.hstats_pnl (snd x)) b)
       = Backtest.total_pnl r.
Proof.
  intros r b. subst b.
  split; [| split; [| split; [| split]]].
  - apply hour_breakdown_sorted.
  - apply hour_breakdown_key_iff.
  - intros k Hk. apply hour_breakdown_key_iff in Hk as (t & _ & <-).
    apply entry_hour_range.
  - intros k s Hin ts.
    destruct (hour_breakdown_entry r k s Hin) as (Hne & Hc & Hw & Hp & Hwr).
    fold ts in Hne, Hc, Hw, Hp.
    assert (Hc1 : (1 <= Backtest.hstats_count s)%nat).
    { rewrite Hc. destruct ts; [congruence |]. unfold len. simpl. lia. }
    assert (Hwc : (Backtest.hstats_wins s <= Backtest.hstats_count s)%nat).
    { rewrite Hw, Hc. apply filter_length_le. }
    assert (Hpos : (0 <? Backtest.hstats_count s)%nat = true)
      by (apply Nat.ltb_lt; lia).
    rewrite Hpos in Hwr.
    destruct (rate_bounds _ _ Hwc Hc1) as [Hr1 Hr2].
    repeat split; try assumption.
    + now rewrite Hwr.
    + rewrite Hwr. apply Hr2.
    + rewrite Hwr. apply Hr2.
  - apply hour_breakdown_sums.
Qed.

(** ** The trades of the simulator *)

Section SimulatedTrades.
Import Backtest.

Variable cfg : Config.AgentConfig.

Lemma exit_scan_spec market_close ot strike iv stop target forward e :
  exit_scan cfg market_close ot strike iv stop target forward = Some (Some e) ->
  (exists bar, In bar forward
               /\ exit_time e = Patterns.index bar
               /\ exit_price e = Patterns.close bar)
  /\ (exit_premium e = stop \/ exit_premium e = target).
Proof.
  induction forward as [| bar rest IH]; cbn [exit_scan]; [discriminate |].
  destruct (OptionsModel.black_scholes_price _ _ _ _ _ _) as [p |];
    [cbn [bind] | discriminate].
  destruct (Rleb p stop).
  { intros [= <-]. cbn. split; [exists bar; repeat split; now left | now left]. }
  destruct (Rgeb p target).
  { intros [= <-]. cbn. split; [exists bar; repeat split; now left | now right]. }
  intros H. destruct (IH H) as [(b & Hb & Hi & Hc) Hp].
  split; [exists b; repeat split; [now right | assumption | assumption] | exact Hp].
Qed.

Lemma last_In {A : Type} (x : A) (l : list A) (d : A) : In (last (x :: l) d) (x :: l).
Proof.
  revert x. induction l as [| y l IH]; intros x; [now left |].
  right. apply (IH y).
Qed.

Lemma find_exit_spec signal df ot strike iv ep m e :
  _find_exit cfg signal df ot strike iv ep m = Some e ->
  (Patterns.timestamp signal <= exit_time e)%Z
  /\ date_of (exit_time e) = date_of (Patterns.timestamp signal)
  /\ (exit_premium e = ep * (1 - Config.max_loss_per_trade_pct cfg / 100)
      \/ exit_premium e = ep * (1 + Config.profit_target_pct cfg / 100)
      \/ exit_premium e = OptionsModel.intrinsic (exit_price e) strike ot
      \/ (exit_premium e = 0 /\ exit_time e = Patterns.timestamp signal)).
Proof.
  unfold _find_exit.
  set (forward :=
         filter (fun b => (date_of (Patterns.index b)
                           =? date_of (Patterns.timestamp signal))%Z)
           (filter (fun b => (Patterns.timestamp signal <? Patterns.index b)%Z)
              df)).
  assert (Hfwd : forall b, In b forward ->
            (Patterns.timestamp signal <= Patterns.index b)%Z
            /\ date_of (Patterns.index b) = date_of (Patterns.timestamp signal)).
  { intros b Hb. unfold forward in Hb.
    apply filter_In in Hb as [Hb Hd]. apply filter_In in Hb as [_ Hlt].
    apply Z.eqb_eq in Hd. apply Z.ltb_lt in Hlt. split; [lia | exact Hd]. }
  destruct (exit_scan _ _ _ _ _ _ _ forward) as [[found |] |] eqn:Escan;
    cbn [bind]; [| | discriminate].
  - intros [= <-]. apply exit_scan_spec in Escan as [(b & Hb & -> & _) Hp].
    destruct (Hfwd b Hb) as [H1 H2].
    split; [exact H1 |]. split; [exact H2 |].
    destruct Hp as [-> | ->]; [now left | right; now left].
  - destruct forward as [| b0 fwd] eqn:Ef.
    + intros [= <-]. cbn. split; [lia |]. split; [reflexivity |].
      right; right; right. now split.
    + intros [= <-]. cbn [exit_time exit_price exit_premium].
      destruct (Hfwd (Patterns.iloc_last (b0 :: fwd))) as [H1 H2].
      { unfold Patterns.iloc_last. apply last_In. }
      split; [exact H1 |]. split; [exact H2 |].
      right; right; left. unfold OptionsModel.intrinsic. reflexivity.
Qed.

Lemma filter_filter_andb {A : Type} (f g : A -> bool) (l : list A) :
  filter g (filter f l) = filter (fun x => f x && g x) l.
Proof.
  induction l as [| x l IH]; cbn; [reflexivity |].
  destruct (f x); cbn; [destruct (g x); now rewrite IH | exact IH].
Qed.

(** The loop of [_find_exit] stops at the first bar whose premium,
    priced again, is at or under the stop or at or over the target. *)
Lemma exit_scan_frame market_close ot strike iv stop target forward :
  let reprice := fun b =>
    OptionsModel.black_scholes_price (Patterns.close b) strike
      (Rmax (minutes_between market_close (Patterns.index b)) 0.1
       / 60 / (252 * 6.5))
      (Config.risk_free_rate cfg) iv ot in
  let kept := fun b => exists q, reprice b = Some q /\ stop < q < target in
  match exit_scan cfg market_close ot strike iv stop target forward with
  | Some (Some e) =>
      exists earlier bar later p,
        forward = earlier ++ bar :: later
        /\ Forall kept earlier
        /\ reprice bar = Some p
        /\ exit_time e = Patterns.index bar
        /\ exit_price e = Patterns.close bar
        /\ ((p <= stop /\ exit_premium e = stop)
            \/ (stop < p /\ target <= p /\ exit_premium e = target))
  | Some None => Forall kept forward
  | None => True
  end.
Proof.
  intros reprice kept.
  induction forward as [| bar rest IH]; cbn [exit_scan]; [constructor |].
  fold (reprice bar).
  destruct (reprice bar) as [p |] eqn:Ep; [cbn [bind] | exact I].
  unfold Rleb, Rgeb, Rleb.
  destruct (Rle_dec p stop) as [Hs | Hs].
  { exists [], bar, rest, p. cbn.
    repeat split; try reflexivity; [constructor | exact Ep | now left]. }
  destruct (Rle_dec target p) as [Ht | Ht].
  { exists [], bar, rest, p. cbn.
    repeat split; try reflexivity; [constructor | exact Ep |].
    right. repeat split; [lra | exact Ht]. }
  assert (Hk : kept bar) by (exists p; split; [exact Ep | lra]).
  destruct (exit_scan cfg market_close ot strike iv stop target rest)
    as [[e |] |]; [| now constructor | exact I].
  destruct IH as (earlier & b & later & q & -> & Hearlier & Hq & Hrest).
  exists (bar :: earlier), b, later, q.
  split; [reflexivity |]. split; [now constructor |]. split; [exact Hq |].
  exact Hrest.
Qed.

Lemma find_exit_frame signal df ot strike iv ep m e :
  _find_exit cfg signal df ot strike iv ep m = Some e ->
  let stop := ep * (1 - Config.max_loss_per_trade_pct cfg / 100) in
  let target := ep * (1 + Config.profit_target_pct cfg / 100) in
  let forward :=
    filter (fun b => (Patterns.timestamp signal <? Patterns.index b)%Z
                     && (date_of (Patterns.index b)
                         =? date_of (Patterns.timestamp signal))%Z) df in
  let reprice := fun b =>
    OptionsModel.black_scholes_price (Patterns.close b) strike
      (Rmax (minutes_between
               (combine (date_of (Patterns.timestamp signal)) 16 0)
               (Patterns.index b)) 0.1
       / 60 / (252 * 6.5))
      (Config.risk_free_rate cfg) iv ot in
  let kept := fun b => exists q, reprice b = Some q /\ stop < q < target in
  (exists earlier bar later p,
      forward = earlier ++ bar :: later
      /\ Forall kept earlier
      /\ reprice bar = Some p
      /\ exit_time e = Patterns.index bar
      /\ exit_price e = Patterns.close bar
      /\ ((p <= stop /\ exit_premium e = stop)
          \/ (stop < p /\ target <= p /\ exit_premium e = target)))
  \/ (forward <> []
      /\ Forall kept forward
      /\ exit_time e = Patterns.index (last forward Patterns.row0)
      /\ exit_price e = Patterns.close (last forward Patterns.row0)
      /\ exit_premium e = OptionsModel.intrinsic (exit_price e) strike ot)
  \/ (forward = []
      /\ exit_time e = Patterns.timestamp signal
      /\ exit_price e = Patterns.entry_price signal
      /\ exit_premium e = 0).
Proof.
  intros H stop target forward reprice kept.
  unfold _find_exit in H. rewrite filter_filter_andb in H.
  fold forward in H. fold stop in H. fold target in H.
  pose proof (exit_scan_frame
                (combine (date_of (Patterns.timestamp signal)) 16 0)
                ot strike iv stop target forward) as Hscan.
  cbv zeta in Hscan. fold reprice in Hscan.
  destruct (exit_scan _ _ _ _ _ _ _ forward) as [[found |] |];
    cbn [bind] in H; [| | discriminate].
  - injection H as <-. left. exact Hscan.
  - destruct forward as [| b0 fwd] eqn:Ef.
    + injection H as <-. right; right. cbn. now repeat split.
    + injection H as <-. right; left.
      cbn [exit_time exit_price exit_premium].
      split; [discriminate |]. split; [exact Hscan |].
      split; [reflexivity |]. split; [reflexivity |].
      unfold OptionsModel.intrinsic, Patterns.iloc_last. reflexivity.
Qed.

(** One turn of the loop, with the trade it opens. *)
Lemma simulate_loop_turn signal rest df trades capital active res :
  simulate_loop cfg (signal :: rest) df trades capital active = Some res ->
  simulate_loop cfg rest df trades capital active = Some res
  \/ exists trade,
       opened_on signal trade
       /\ (closed_same_day cfg trade /\ closed_on_frame cfg df trade)
       /\ ((settle cfg capital trade <= 0
            /\ res = (trades ++ [trade], settle cfg capital trade))
           \/ (0 < settle cfg capital trade
               /\ simulate_loop cfg rest df (trades ++ [trade])
                    (settle cfg capital trade)
                    (Some (date_of (Patterns.timestamp signal))) = Some res)).
Proof.
  cbn [simulate_loop].
  destruct (match active with Some d => _ | None => false end);
    [now left |].
  destruct (OptionsModel.black_scholes_price _ _ _ _ _ _) as [entry_premium |];
    [cbn [bind] | discriminate].
  unfold Rltb at 1.
  destruct (Rlt_dec entry_premium 0.05) as [Hcheap | Hprem]; [now left |].
  destruct (position_sizing_at_least_one cfg capital entry_premium)
    as (n & -> & Hn).
  destruct (_find_exit _ _ _ _ _ _ _ _) as [exit_result |] eqn:Eexit;
    [cbn [bind] | discriminate].
  pose proof (find_exit_frame _ _ _ _ _ _ _ _ Eexit) as Hframe.
  apply find_exit_spec in Eexit as (Hafter & Hday & Hprice).
  match goal with
  | |- context [trades ++ [?t]] => set (trade := t)
  end.
  intros H. right. exists trade. split; [| split; [split |]].
  - unfold opened_on, trade.
    cbn [OptionsModel.entry_time OptionsModel.entry_underlying
         OptionsModel.pattern OptionsModel.direction OptionsModel.option_type
         OptionsModel.strike OptionsModel.entry_premium
         OptionsModel.contracts].
    split; [reflexivity |]. split; [reflexivity |]. split; [reflexivity |].
    split; [reflexivity |]. split; [reflexivity |]. split; [reflexivity |].
    split; [lra | exact Hn].
  - unfold closed_same_day, trade.
    cbn [OptionsModel.entry_time OptionsModel.exit_time
         OptionsModel.exit_underlying OptionsModel.exit_premium
         OptionsModel.entry_premium OptionsModel.strike
         OptionsModel.option_type].
    exists (exit_time exit_result), (exit_price exit_result),
      (exit_premium exit_result).
    split; [reflexivity |]. split; [reflexivity |]. split; [reflexivity |].
    split; [exact Hafter |]. split; [exact Hday |]. exact Hprice.
  - unfold closed_on_frame, later_bars, kept_at, repriced, stop_premium,
      target_premium, trade.
    cbn [OptionsModel.entry_time OptionsModel.exit_time
         OptionsModel.exit_underlying OptionsModel.exit_premium
         OptionsModel.entry_premium OptionsModel.strike
         OptionsModel.option_type OptionsModel.iv
         OptionsModel.entry_underlying].
    exists (exit_time exit_result), (exit_price exit_result),
      (exit_premium exit_result).
    split; [reflexivity |]. split; [reflexivity |]. split; [reflexivity |].
    exact Hframe.
  - match type of H with
    | (if Rleb ?c 0 then _ else _) = _ =>
        change c with (settle cfg capital trade) in H
    end.
    unfold Rleb in H. destruct (Rle_dec _ 0) as [Hle | Hgt].
    + left. split; [assumption |]. now injection H as <-.
    + right. split; [lra | assumption].
Qed.

Lemma simulate_loop_trades signals df :
  forall trades capital active res,
    simulate_loop cfg signals df trades capital active = Some res ->
    exists picked new,
      fst res = trades ++ new
      /\ subsequence picked signals
      /\ Forall2 opened_on picked new
      /\ Forall (fun t => closed_same_day cfg t /\ closed_on_frame cfg df t)
           new.
Proof.
  induction signals as [| signal rest IH]; intros trades capital active res H.
  - cbn in H. injection H as <-. exists [], []. cbn.
    rewrite app_nil_r. repeat split; constructor.
  - apply simulate_loop_turn in H
      as [H | (trade & Ho & Hc & [[_ ->] | [_ H]])].
    + apply IH in H as (picked & new & Hres & Hsub & Hop & Hcl).
      exists picked, new. repeat split; try assumption.
      now apply subsequence_skip.
    + exists [signal], [trade]. cbn [fst]. repeat split.
      * apply subsequence_take. clear.
        induction rest as [| s rest IH];
          [apply subsequence_nil | now apply subsequence_skip].
      * apply Forall2_cons; [exact Ho | apply Forall2_nil].
      * apply Forall_cons; [exact Hc | apply Forall_nil].
    + apply IH in H as (picked & new & Hres & Hsub & Hop & Hcl).
      exists (signal :: picked), (trade :: new).
      rewrite Hres, <- app_assoc. repeat split.
      * now apply subsequence_take.
      * now apply Forall2_cons.
      * now apply Forall_cons.
Qed.

(** The loop stops as soon as the capital is gone: every trade but the
    last leaves a positive capital. *)
Lemma simulate_loop_solvent signals df :
  forall trades capital active res,
    simulate_loop cfg signals df trades capital active = Some res ->
    exists new,
      fst res = trades ++ new
      /\ forall pre t post,
           new = pre ++ t :: post -> post <> [] ->
           0 < fold_left (settle cfg) (pre ++ [t]) capital.
Proof.
  induction signals as [| signal rest IH]; intros trades capital active res H.
  - cbn in H. injection H as <-. exists []. cbn.
    rewrite app_nil_r. split; [reflexivity |].
    intros pre t post E. now destruct pre.
  - apply simulate_loop_turn in H
      as [H | (trade & _ & _ & [[_ ->] | [Hpos H]])].
    + now apply IH in H.
    + exists [trade]. split; [reflexivity |].
      intros pre t post E Hne. destruct pre as [| ? [| ? ?]]; cbn in E.
      * injection E as _ <-. congruence.
      * discriminate.
      * discriminate.
    + apply IH in H as (new & Hres & Hsolv).
      exists (trade :: new). rewrite Hres, <- app_assoc.
      split; [reflexivity |].
      intros pre t post E Hne. destruct pre as [| t0 pre'].
      * cbn in E. injection E as <- _. cbn. exact Hpos.
      * cbn in E. injection E as <- E. cbn [app fold_left].
        now apply (Hsolv pre' t post).
Qed.

End SimulatedTrades.

Section SimulatorResults.
Import Backtest.

Lemma simulate_trades_inversion cfg signals df trades :
  _simulate_trades cfg signals df = Some trades ->
  exists cap,
    simulate_loop cfg signals df [] (Config.initial_capital cfg) None
    = Some (trades, cap).
Proof.
  unfold _simulate_trades.
  destruct (simulate_loop cfg signals df [] (Config.initial_capital cfg) None)
    as [[trs cap] |]; [| discriminate].
  cbn [bind fst]. intros [= <-]. now exists cap.
Qed.

Lemma closed_trade_duration cfg (t : OptionsModel.OptionTrade) :
  closed_same_day cfg t -> 0 <= OptionsModel.duration_minutes t.
Proof.
  intros (e & u & x & He & _ & _ & Hle & _).
  unfold OptionsModel.duration_minutes, minutes_between. rewrite He.
  apply IZR_le. lia.
Qed.

Lemma closed_trade_loss cfg (t : OptionsModel.OptionTrade) :
  Config.max_loss_per_trade_pct cfg <= 100 ->
  - 100 <= Config.profit_target_pct cfg ->
  0.05 <= OptionsModel.entry_premium t ->
  (1 <= OptionsModel.contracts t)%Z ->
  closed_same_day cfg t ->
  - (OptionsModel.entry_premium t * 100 * IZR (OptionsModel.contracts t))
  <= OptionsModel.total_pnl t.
Proof.
  intros Hml Htp Hep Hn (e & u & x & _ & _ & Hx & _ & _ & Hcase).
  unfold OptionsModel.total_pnl, OptionsModel.pnl_per_contract. rewrite Hx.
  apply IZR_le in Hn.
  assert (H0 : 0 <= x).
  { destruct Hcase as [-> | [-> | [-> | [-> _]]]].
    - apply Rmult_le_pos; lra.
    - apply Rmult_le_pos; lra.
    - apply intrinsic_nonneg.
    - lra. }
  nra.
Qed.

Lemma subsequence_trans {A : Type} (l1 l2 l3 : list A) :
  subsequence l1 l2 -> subsequence l2 l3 -> subsequence l1 l3.
Proof.
  intros H12 H23. revert l1 H12.
  induction H23 as [| x l2 l3 H23 IH | x l2 l3 H23 IH]; intros l1 H12.
  - exact H12.
  - apply subsequence_skip. now apply IH.
  - inversion H12 as [| y p l Hp | y p l Hp]; subst.
    + apply subsequence_skip. now apply IH.
    + apply subsequence_take. now apply IH.
Qed.

Lemma filter_subsequence {A : Type} (f : A -> bool) (l : list A) :
  subsequence (filter f l) l.
Proof.
  induction l as [| x l IH]; cbn; [apply subsequence_nil |].
  destruct (f x); [now apply subsequence_take | now apply subsequence_skip].
Qed.

Lemma subsequence_Forall {A : Type} (P : A -> Prop) (l1 l2 : list A) :
  subsequence l1 l2 -> Forall P l2 -> Forall P l1.
Proof.
  induction 1 as [| x p l Hp IH | x p l Hp IH]; intros H.
  - constructor.
  - inversion H; subst. now apply IH.
  - inversion H; subst. constructor; [assumption | now apply IH].
Qed.

Lemma subsequence_length {A : Type} (l1 l2 : list A) :
  subsequence l1 l2 -> (len l1 <= len l2)%nat.
Proof.
  unfold len. induction 1; simpl; lia.
Qed.

End SimulatorResults.

(** X17.  The trades the simulator returns are opened on signals of the
    stream, in the order of the stream, at most one per signal: each
    trade copies its signal's timestamp, price, pattern and direction,
    is a call for a LONG signal and a put for a SHORT one, is struck at
    the whole dollar nearest to the signal's price, is bought at a
    premium of at least 0.05 and holds at least one contract. *)
Theorem trades_are_opened_on_signals_in_order :
  forall cfg (signals : list Patterns.Signal) (df : list Patterns.Row) trades,
    Backtest._simulate_trades cfg signals df = Some trades ->
    exists picked,
      subsequence picked signals
      /\ Forall2 opened_on picked trades
      /\ (Py.len trades <= Py.len signals)%nat.
Proof.
  intros cfg signals df trades H.
  apply simulate_trades_inversion in H as [cap H].
  apply simulate_loop_trades in H as (picked & new & Hres & Hsub & Hop & _).
  cbn in Hres. subst new. exists picked.
  split; [exact Hsub |]. split; [exact Hop |].
  apply Forall2_length in Hop. apply subsequence_length in Hsub.
  unfold len in *. lia.
Qed.

Lemma trades_are_opened_on_signals_in_order_witness :
  exists n1 n2 picked,
    subsequence picked
      [breakout_signal 0; breakout_signal 0; breakout_signal 1]
    /\ Forall2 opened_on picked
         [breakout_trade 0 atm_premium n1; breakout_trade 1 atm_premium n2]
    /\ (Py.len [breakout_trade 0 atm_premium n1;
                breakout_trade 1 atm_premium n2]
        <= Py.len [breakout_signal 0; breakout_signal 0; breakout_signal 1])%nat.
Proof.
  destruct chronological_breakouts_traded as (n1 & n2 & H).
  exists n1, n2.
  exact (trades_are_opened_on_signals_in_order Config.default _ two_days _ H).
Defined.

(** X18.  Every trade the simulator returns is closed on the day it was
    opened and not before its entry, so its duration is not negative.
    It is closed at the first bar of the frame after the entry, on the
    entry day, at which the premium priced again is at or under the
    stop premium (the exit premium is the stop premium) or else at or
    over the target premium (the target premium); when no such bar
    stops it, at the day's last later bar, at the intrinsic value of
    that bar's close; and when the frame has no later bar of the day,
    at the entry time, at a premium of 0.  With a stop of at most 100%
    and a target of at least -100%, no trade loses more than the
    premium paid for it. *)
Theorem trades_are_closed_on_their_entry_day :
  forall cfg (signals : list Patterns.Signal) (df : list Patterns.Row) trades,
    Backtest._simulate_trades cfg signals df = Some trades ->
    Forall (fun t => closed_same_day cfg t
                     /\ closed_on_frame cfg df t
                     /\ 0 <= OptionsModel.duration_minutes t) trades
    /\ (Config.max_loss_per_trade_pct cfg <= 100 ->
        - 100 <= Config.profit_target_pct cfg ->
        Forall (fun t =>
                  - (OptionsModel.entry_premium t * 100
                     * IZR (OptionsModel.contracts t))
                  <= OptionsModel.total_pnl t) trades).
Proof.
  intros cfg signals df trades H.
  apply simulate_trades_inversion in H as [cap H].
  apply simulate_loop_trades in H as (picked & new & Hres & _ & Hop & Hcl).
  cbn in Hres. subst new. split.
  - apply Forall_impl with (2 := Hcl). intros t [Ht Hf].
    split; [exact Ht |]. split; [exact Hf |].
    now apply (closed_trade_duration cfg).
  - intros Hml Htp.
    induction Hop as [| s t picked trades Hst Hrest IH]; [constructor |].
    inversion Hcl as [| ? ? [Ht _] Hcl']; subst.
    constructor; [| now apply IH].
    destruct Hst as (_ & _ & _ & _ & _ & _ & Hep & Hn).
    now apply (closed_trade_loss cfg).
Qed.

Lemma trades_are_closed_on_their_entry_day_witness :
  exists n1 n2,
    Forall (fun t => closed_same_day Config.default t
                     /\ closed_on_frame Config.default two_days t
                     /\ 0 <= OptionsModel.duration_minutes t)
      [breakout_trade 0 atm_premium n1; breakout_trade 1 atm_premium n2]
    /\ (Config.max_loss_per_trade_pct Config.default <= 100 ->
        - 100 <= Config.profit_target_pct Config.default ->
        Forall (fun t =>
                  - (OptionsModel.entry_premium t * 100
                     * IZR (OptionsModel.contracts t))
                  <= OptionsModel.total_pnl t)
          [breakout_trade 0 atm_premium n1; breakout_trade 1 atm_premium n2]).
Proof.
  destruct chronological_breakouts_traded as (n1 & n2 & H).
  exists n1, n2.
  exact (trades_are_closed_on_their_entry_day Config.default _ two_days _ H).
Defined.

(** X19.  The simulator opens no trade once its capital is gone: after
    every trade but the last one returned, the running capital (P&L
    added, commission and slippage paid) is positive. *)
Theorem simulator_stops_when_the_capital_is_gone :
  forall cfg (signals : list Patterns.Signal) (df : list Patterns.Row) trades,
    Backtest._simulate_trades cfg signals df = Some trades ->
    forall pre t post,
      trades = pre ++ t :: post -> post <> [] ->
      0 < running_capital cfg (pre ++ [t]).
Proof.
  intros cfg signals df trades H pre t post E Hne.
  apply simulate_trades_inversion in H as [cap H].
  apply simulate_loop_solvent in H as (new & Hres & Hsolv).
  cbn in Hres. subst new. unfold running_capital.
  now apply (Hsolv pre t post).
Qed.

Lemma simulator_stops_when_the_capital_is_gone_witness :
  exists n1,
    0 < running_capital Config.default ([] ++ [breakout_trade 0 atm_premium n1]).
Proof.
  destruct chronological_breakouts_traded as (n1 & n2 & H).
  exists n1.
  apply (simulator_stops_when_the_capital_is_gone Config.default _ two_days _ H
           [] (breakout_trade 0 atm_premium n1)
           [breakout_trade 1 atm_premium n2]);
    [reflexivity | discriminate].
Defined.

(** X20.  Every result that [run] returns carries the backtester's
    configuration and initial capital, a final capital equal to the
    initial capital plus the total P&L of its trades, at most one trade
    per calendar day, and trades opened, in order, on signals of the
    scan whose confidence is at least the configured minimum. *)
Theorem run_trades_the_confident_signals_once_a_day :
  forall cfg ddb ddt fsr (ctx : Patterns.Ctx) res,
    Backtest.run cfg ddb ddt fsr ctx = Some res ->
    Backtest.config res = cfg
    /\ Backtest.initial_capital res = Config.initial_capital cfg
    /\ Backtest.final_capital res
       = Backtest.initial_capital res + Backtest.total_pnl res
    /\ NoDup (map entry_date (Backtest.trades res))
    /\ exists picked,
         subsequence picked (Patterns.scan cfg ddb ddt fsr ctx)
         /\ Forall (fun s => Config.min_pattern_confidence cfg
                             <= Patterns.confidence s) picked
         /\ Forall2 opened_on picked (Backtest.trades res).
Proof.
  intros cfg ddb ddt fsr ctx res H.
  pose proof (run_trades_each_day_once cfg ddb ddt fsr ctx res H) as Hday.
  revert H. unfold Backtest.run.
  generalize (Patterns.scan cfg ddb ddt fsr ctx). intros scanned.
  set (signals :=
         filter (fun s => Rgeb (Patterns.confidence s)
                               (Config.min_pattern_confidence cfg)) scanned).
  assert (Hconf : Forall (fun s => Config.min_pattern_confidence cfg
                                   <= Patterns.confidence s) signals).
  { apply Forall_forall. intros s Hs. apply filter_In in Hs as [_ Hs].
    unfold Rgeb, Rleb in Hs. now destruct (Rle_dec _ _). }
  assert (Hsub : subsequence signals scanned) by apply filter_subsequence.
  clearbody signals.
  destruct (Backtest._simulate_trades cfg signals (Patterns.df ctx))
    as [trs |] eqn:Hsim; [| discriminate].
  cbn [bind]. intros [= <-].
  cbn [Backtest.config Backtest.initial_capital Backtest.final_capital
       Backtest.trades] in Hday |- *.
  split; [reflexivity |]. split; [reflexivity |]. split; [reflexivity |].
  split; [exact Hday |].
  apply simulate_trades_inversion in Hsim as [cap Hsim].
  apply simulate_loop_trades in Hsim as (picked & new & Hres & Hp & Hop & _).
  cbn [fst app] in Hres. subst new. exists picked.
  split; [now apply (subsequence_trans _ signals) |].
  split; [now apply (subsequence_Forall _ _ signals) | exact Hop].
Qed.

Lemma run_trades_the_confident_signals_once_a_day_witness :
  exists res,
    Backtest.config res = Config.default
    /\ Backtest.initial_capital res = Config.initial_capital Config.default
    /\ Backtest.final_capital res
       = Backtest.initial_capital res + Backtest.total_pnl res
    /\ NoDup (map entry_date (Backtest.trades res))
    /\ exists picked,
         subsequence picked
           (Patterns.scan Config.default
              (fun _ _ => false) (fun _ _ => false) (fun _ _ _ _ => ([], []))
              breakout_day)
         /\ Forall (fun s => Config.min_pattern_confidence Config.default
                             <= Patterns.confidence s) picked
         /\ Forall2 opened_on picked (Backtest.trades res).
Proof.
  destruct (run_breakout_day
              (fun _ _ => false) (fun _ _ => false) (fun _ _ _ _ => ([], [])))
    as (n & _ & H).
  eexists.
  exact (run_trades_the_confident_signals_once_a_day Config.default
           _ _ _ breakout_day _ H).
Defined.

(** ** Names and directions of the signals *)

Section SignalNames.
Import Patterns.

Variable config : Config.AgentConfig.
Variable detect_double_bottom : list R -> nat -> bool.
Variable detect_double_top : list R -> nat -> bool.
Variable find_support_resistance :
  list R -> list R -> list R -> Z -> list R * list R.

Ltac peel_detector :=
  repeat first
    [ apply Forall_nil
    | apply each_signal_Forall; intros
    | apply first_signal_Forall; intros
    | apply flat_map_Forall; intros
    | match goal with
      | |- Forall _ (match ?x with _ => _ end) => destruct x
      | |- Forall _ [_] => constructor
      end ].

Ltac signal_built H :=
  cbv beta zeta in H;
  repeat match type of H with
  | context [match ?x with _ => _ end] => destruct x
  end;
  try discriminate H;
  injection H as <-.

Ltac is_named :=
  unfold named; cbn [pattern direction];
  split; [reflexivity |];
  split; intros Hin; try reflexivity;
  exfalso; cbn in Hin;
  repeat match type of Hin with
  | _ \/ _ => destruct Hin as [Hin | Hin]
  end;
  (discriminate Hin || exact Hin).

Ltac detector_named :=
  peel_detector;
  try lazymatch goal with
  | H : _ = Some _ |- _ => signal_built H
  end;
  is_named.

Lemma orb_long_named ctx :
  Forall (named "opening_range_breakout") (_detect_orb_long config ctx).
Proof. unfold _detect_orb_long. detector_named. Qed.

Lemma orb_short_named ctx :
  Forall (named "opening_range_breakdown") (_detect_orb_short config ctx).
Proof. unfold _detect_orb_short. detector_named. Qed.

Lemma vwap_rejection_long_named ctx :
  Forall (named "vwap_rejection_long") (_detect_vwap_rejection_long config ctx).
Proof. unfold _detect_vwap_rejection_long. detector_named. Qed.

Lemma vwap_rejection_short_named ctx :
  Forall (named "vwap_rejection_short")
    (_detect_vwap_rejection_short config ctx).
Proof. unfold _detect_vwap_rejection_short. detector_named. Qed.

Lemma vwap_cross_long_named ctx :
  Forall (named "vwap_crossover_long") (_detect_vwap_cross_long ctx).
Proof. unfold _detect_vwap_cross_long. detector_named. Qed.

Lemma vwap_cross_short_named ctx :
  Forall (named "vwap_crossover_short") (_detect_vwap_cross_short ctx).
Proof. unfold _detect_vwap_cross_short. detector_named. Qed.

Lemma macd_bull_named ctx :
  Forall (named "macd_bullish_cross") (_detect_macd_bull config ctx).
Proof. unfold _detect_macd_bull. detector_named. Qed.

Lemma macd_bear_named ctx :
  Forall (named "macd_bearish_cross") (_detect_macd_bear config ctx).
Proof. unfold _detect_macd_bear. detector_named. Qed.

Lemma rsi_oversold_named ctx :
  Forall (named "rsi_oversold_bounce") (_detect_rsi_oversold config ctx).
Proof. unfold _detect_rsi_oversold. detector_named. Qed.

Lemma rsi_overbought_named ctx :
  Forall (named "rsi_overbought_fade") (_detect_rsi_overbought config ctx).
Proof. unfold _detect_rsi_overbought. detector_named. Qed.

Lemma ema_bull_cross_named ctx :
  Forall (named "ema_bullish_cross") (_detect_ema_bull_cross ctx).
Proof. unfold _detect_ema_bull_cross. detector_named. Qed.

Lemma ema_bear_cross_named ctx :
  Forall (named "ema_bearish_cross") (_detect_ema_bear_cross ctx).
Proof. unfold _detect_ema_bear_cross. detector_named. Qed.

Lemma bb_squeeze_named ctx :
  Forall (named "bollinger_squeeze_breakout") (_detect_bb_squeeze config ctx).
Proof.
  unfold _detect_bb_squeeze.
  apply (fold_left_invariant
           (fun st : bool * list Signal =>
              Forall (named "bollinger_squeeze_breakout") (snd st))).
  - constructor.
  - intros [in_squeeze signals] i Hst. cbn [snd] in Hst.
    repeat match goal with
    | |- context [match ?x with _ => _ end] => destruct x
    end;
    cbn [snd]; try assumption;
    apply Forall_app; (split; [assumption |]);
    (constructor; [is_named | constructor]).
Qed.

Lemma volume_spike_named ctx :
  Forall (named "volume_spike_continuation") (_detect_volume_spike config ctx).
Proof. unfold _detect_volume_spike. detector_named. Qed.

Lemma mean_rev_long_named ctx :
  Forall (named "mean_reversion_long") (_detect_mean_rev_long config ctx).
Proof. unfold _detect_mean_rev_long. detector_named. Qed.

Lemma mean_rev_short_named ctx :
  Forall (named "mean_reversion_short") (_detect_mean_rev_short config ctx).
Proof. unfold _detect_mean_rev_short. detector_named. Qed.

Lemma gap_fill_long_named ctx :
  Forall (named "gap_fill_long") (_detect_gap_fill_long ctx).
Proof. unfold _detect_gap_fill_long. detector_named. Qed.

Lemma gap_fill_short_named ctx :
  Forall (named "gap_fill_short") (_detect_gap_fill_short ctx).
Proof. unfold _detect_gap_fill_short. detector_named. Qed.

Lemma prev_high_break_named ctx :
  Forall (named "previous_day_high_break") (_detect_prev_high_break ctx).
Proof. unfold _detect_prev_high_break. detector_named. Qed.

Lemma prev_low_break_named ctx :
  Forall (named "previous_day_low_break") (_detect_prev_low_break ctx).
Proof. unfold _detect_prev_low_break. detector_named. Qed.

Lemma midday_reversal_named ctx :
  Forall (named "midday_reversal") (_detect_midday_reversal ctx).
Proof. unfold _detect_midday_reversal. detector_named. Qed.

Lemma power_hour_named ctx :
  Forall (named "power_hour_momentum") (_detect_power_hour ctx).
Proof. unfold _detect_power_hour. detector_named. Qed.

Lemma double_bottom_named ctx :
  Forall (named "double_bottom")
    (_detect_double_bottom detect_double_bottom ctx).
Proof. unfold _detect_double_bottom. detector_named. Qed.

Lemma double_top_named ctx :
  Forall (named "double_top") (_detect_double_top detect_double_top ctx).
Proof. unfold _detect_double_top. detector_named. Qed.

Lemma support_bounce_named ctx :
  Forall (named "support_bounce")
    (_detect_support_bounce config find_support_resistance ctx).
Proof. unfold _detect_support_bounce. detector_named. Qed.

Lemma resistance_rejection_named ctx :
  Forall (named "resistance_rejection")
    (_detect_resistance_rejection config find_support_resistance ctx).
Proof. unfold _detect_resistance_rejection. detector_named. Qed.

End SignalNames.

Section ScanNames.
Import Patterns.

Lemma combined_signals_enabled (Q : string -> Signal -> Prop)
    (enabled : list string) (table : list (string * detector)) (ctx : Ctx) :
  Forall (fun nd : string * detector =>
            Forall (Q (fst nd)) (returned (snd nd ctx))) table ->
  Forall (fun s => exists name, In name enabled /\ Q name s)
    (combined_signals enabled table ctx).
Proof.
  intros H. unfold combined_signals.
  induction H as [| nd table Hnd _ IH]; cbn [flat_map]; [constructor |].
  apply Forall_app. split; [| exact IH].
  destruct (existsb (String.eqb (fst nd)) enabled) eqn:E; [| constructor].
  apply existsb_exists in E as (name & Hin & Heq).
  apply String.eqb_eq in Heq. subst name.
  apply Forall_impl with (2 := Hnd). intros s Hs. now exists (fst nd).
Qed.

Lemma detectors_named cfg ddb ddt fsr (ctx : Ctx) :
  Forall (fun nd : string * detector =>
            Forall (named (fst nd)) (returned (snd nd ctx)))
    (detectors cfg ddb ddt fsr).
Proof.
  unfold detectors. cbn [map fst snd returned].
  repeat apply Forall_cons; try apply Forall_nil.
  - apply orb_long_named.
  - apply orb_short_named.
  - apply vwap_rejection_long_named.
  - apply vwap_rejection_short_named.
  - apply vwap_cross_long_named.
  - apply vwap_cross_short_named.
  - apply macd_bull_named.
  - apply macd_bear_named.
  - apply rsi_oversold_named.
  - apply rsi_overbought_named.
  - apply ema_bull_cross_named.
  - apply ema_bear_cross_named.
  - apply bb_squeeze_named.
  - apply volume_spike_named.
  - apply mean_rev_long_named.
  - apply mean_rev_short_named.
  - apply gap_fill_long_named.
  - apply gap_fill_short_named.
  - apply prev_high_break_named.
  - apply prev_low_break_named.
  - apply midday_reversal_named.
  - apply power_hour_named.
  - apply double_bottom_named.
  - apply double_top_named.
  - apply support_bounce_named.
  - apply resistance_rejection_named.
Qed.

End ScanNames.

(** X21.  Every signal is named after the detector that built it, so a
    scan returns only signals of enabled patterns; the eleven bullish
    patterns give LONG signals only and the eleven bearish patterns
    SHORT signals only. *)
Theorem scan_returns_signals_of_enabled_patterns :
  forall cfg ddb ddt fsr (ctx : Patterns.Ctx),
    Forall (fun nd : string * Patterns.detector =>
              Forall (named (fst nd)) (returned (snd nd ctx)))
      (Patterns.detectors cfg ddb ddt fsr)
    /\ Forall (fun s =>
                 In (Patterns.pattern s) (Config.enabled_patterns cfg)
                 /\ (In (Patterns.pattern s) long_patterns ->
                     Patterns.direction s = Patterns.LONG)
                 /\ (In (Patterns.pattern s) short_patterns ->
                     Patterns.direction s = Patterns.SHORT))
         (Patterns.scan cfg ddb ddt fsr ctx).
Proof.
  intros cfg ddb ddt fsr ctx.
  pose proof (detectors_named cfg ddb ddt fsr ctx) as Hd.
  split; [exact Hd |].
  unfold Patterns.scan, Patterns.scan_table.
  eapply Permutation_Forall.
  - symmetry. apply sort_by_timestamp_perm.
  - rewrite run_detectors_spec. cbn [app].
    apply (combined_signals_enabled named (Config.enabled_patterns cfg)) in Hd.
    apply Forall_impl with (2 := Hd).
    intros s (name & Hin & Hp & Hl & Hs). rewrite Hp.
    split; [exact Hin |]. split; assumption.
Qed.
(** ** Signals are stamped on bars of the frame *)

Section SignalBars.
Import Patterns.

Variable config : Config.AgentConfig.
Variable detect_double_bottom : list R -> nat -> bool.
Variable detect_double_top : list R -> nat -> bool.
Variable find_support_resistance :
  list R -> list R -> list R -> Z -> list R * list R.

Lemma each_signal_Forall_In {A : Type} (P : Signal -> Prop)
    (body : A -> option Signal) (l : list A) :
  (forall i s, In i l -> body i = Some s -> P s) ->
  Forall P (each_signal body l).
Proof.
  intros Hb. unfold each_signal. induction l as [| i l IH]; simpl.
  - constructor.
  - apply Forall_app. split.
    + destruct (body i) as [s |] eqn:E; [| constructor].
      constructor; [apply (Hb i); [now left | exact E] | constructor].
    + apply IH. intros j s Hj. apply Hb. now right.
Qed.

Lemma first_signal_Forall_In {A : Type} (P : Signal -> Prop)
    (body : A -> option Signal) (l : list A) :
  (forall i s, In i l -> body i = Some s -> P s) ->
  Forall P (first_signal body l).
Proof.
  intros Hb. induction l as [| i l IH]; simpl.
  - constructor.
  - destruct (body i) as [s |] eqn:E.
    + constructor; [apply (Hb i); [now left | exact E] | constructor].
    + apply IH. intros j s Hj. apply Hb. now right.
Qed.

Lemma flat_map_Forall_In {A : Type} (P : Signal -> Prop)
    (f : A -> list Signal) (l : list A) :
  (forall x, In x l -> Forall P (f x)) -> Forall P (flat_map f l).
Proof.
  intros Hf. induction l as [| x l IH]; simpl.
  - constructor.
  - apply Forall_app. split; [apply Hf; now left |].
    apply IH. intros y Hy. apply Hf. now right.
Qed.

Lemma subframe_refl rows : subframe rows rows.
Proof. intros r H. exact H. Qed.

Lemma subframe_filter f part rows :
  subframe part rows -> subframe (filter f part) rows.
Proof. intros H r Hr. apply filter_In in Hr as [Hr _]. now apply H. Qed.

Lemma subframe_on_date d part rows :
  subframe part rows -> subframe (on_date d part) rows.
Proof. apply subframe_filter. Qed.

Lemma iloc_subframe part rows i :
  subframe part rows -> (i < len part)%nat -> In (iloc part i) rows.
Proof. intros H Hi. apply H. now apply iloc_In. Qed.

Lemma iloc_last_subframe part rows :
  subframe part rows -> (0 < len part)%nat -> In (iloc_last part) rows.
Proof.
  intros H Hl. apply H. unfold iloc_last.
  destruct part as [| x l]; [cbn in Hl; lia | apply last_In].
Qed.

Ltac peel_frame :=
  repeat first
    [ apply Forall_nil
    | apply each_signal_Forall_In; intros
    | apply first_signal_Forall_In; intros
    | apply flat_map_Forall_In; intros
    | match goal with
      | |- Forall _ (match ?x with _ => _ end) =>
          first [ is_var x; destruct x | destruct x eqn:? ]
      | |- Forall _ [_] => constructor
      end ].

Ltac built_on H :=
  cbv beta zeta in H;
  repeat match type of H with
  | context [match ?x with _ => _ end] => destruct x eqn:?
  end;
  try discriminate H;
  injection H as <-.

Ltac part_of_frame :=
  repeat match goal with
  | H : In (_, _) (groupby_date _) |- _ => apply groupby_date_group in H; subst
  end;
  repeat first
    [ apply subframe_refl | apply subframe_filter | apply subframe_on_date ].

Ltac in_range :=
  repeat match goal with
  | H : In _ (range _ _) |- _ => apply range_In in H
  | H : (_ <? _)%nat = false |- _ => apply Nat.ltb_ge in H
  end;
  unfold len in *; lia.

Ltac on_a_bar :=
  unfold stamped; cbn [timestamp entry_price];
  refine (ex_intro _ _ (conj _ (conj eq_refl eq_refl)));
  first [ apply iloc_subframe; [part_of_frame | in_range]
        | apply iloc_last_subframe; [part_of_frame | in_range] ].

Ltac detector_stamped :=
  peel_frame;
  try lazymatch goal with
  | H : _ = Some _ |- _ => built_on H
  end;
  on_a_bar.

Lemma orb_long_stamped ctx :
  Forall (stamped (df ctx)) (_detect_orb_long config ctx).
Proof. unfold _detect_orb_long. detector_stamped. Qed.

Lemma orb_short_stamped ctx :
  Forall (stamped (df ctx)) (_detect_orb_short config ctx).
Proof. unfold _detect_orb_short. detector_stamped. Qed.

Lemma vwap_rejection_long_stamped ctx :
  Forall (stamped (df ctx)) (_detect_vwap_rejection_long config ctx).
Proof. unfold _detect_vwap_rejection_long. detector_stamped. Qed.

Lemma vwap_rejection_short_stamped ctx :
  Forall (stamped (df ctx)) (_detect_vwap_rejection_short config ctx).
Proof. unfold _detect_vwap_rejection_short. detector_stamped. Qed.

Lemma vwap_cross_long_stamped ctx :
  Forall (stamped (df ctx)) (_detect_vwap_cross_long ctx).
Proof. unfold _detect_vwap_cross_long. detector_stamped. Qed.

Lemma vwap_cross_short_stamped ctx :
  Forall (stamped (df ctx)) (_detect_vwap_cross_short ctx).
Proof. unfold _detect_vwap_cross_short. detector_stamped. Qed.

Lemma macd_bull_stamped ctx :
  Forall (stamped (df ctx)) (_detect_macd_bull config ctx).
Proof. unfold _detect_macd_bull. detector_stamped. Qed.

Lemma macd_bear_stamped ctx :
  Forall (stamped (df ctx)) (_detect_macd_bear config ctx).
Proof. unfold _detect_macd_bear. detector_stamped. Qed.

Lemma rsi_oversold_stamped ctx :
  Forall (stamped (df ctx)) (_detect_rsi_oversold config ctx).
Proof. unfold _detect_rsi_oversold. detector_stamped. Qed.

Lemma rsi_overbought_stamped ctx :
  Forall (stamped (df ctx)) (_detect_rsi_overbought config ctx).
Proof. unfold _detect_rsi_overbought. detector_stamped. Qed.

Lemma ema_bull_cross_stamped ctx :
  Forall (stamped (df ctx)) (_detect_ema_bull_cross ctx).
Proof. unfold _detect_ema_bull_cross. detector_stamped. Qed.

Lemma ema_bear_cross_stamped ctx :
  Forall (stamped (df ctx)) (_detect_ema_bear_cross ctx).
Proof. unfold _detect_ema_bear_cross. detector_stamped. Qed.

Lemma volume_spike_stamped ctx :
  Forall (stamped (df ctx)) (_detect_volume_spike config ctx).
Proof. unfold _detect_volume_spike. detector_stamped. Qed.

Lemma mean_rev_long_stamped ctx :
  Forall (stamped (df ctx)) (_detect_mean_rev_long config ctx).
Proof. unfold _detect_mean_rev_long. detector_stamped. Qed.

Lemma mean_rev_short_stamped ctx :
  Forall (stamped (df ctx)) (_detect_mean_rev_short config ctx).
Proof. unfold _detect_mean_rev_short. detector_stamped. Qed.

Lemma gap_fill_long_stamped ctx :
  Forall (stamped (df ctx)) (_detect_gap_fill_long ctx).
Proof. unfold _detect_gap_fill_long. detector_stamped. Qed.

Lemma gap_fill_short_stamped ctx :
  Forall (stamped (df ctx)) (_detect_gap_fill_short ctx).
Proof. unfold _detect_gap_fill_short. detector_stamped. Qed.

Lemma prev_high_break_stamped ctx :
  Forall (stamped (df ctx)) (_detect_prev_high_break ctx).
Proof. unfold _detect_prev_high_break. detector_stamped. Qed.

Lemma prev_low_break_stamped ctx :
  Forall (stamped (df ctx)) (_detect_prev_low_break ctx).
Proof. unfold _detect_prev_low_break. detector_stamped. Qed.

Lemma midday_reversal_stamped ctx :
  Forall (stamped (df ctx)) (_detect_midday_reversal ctx).
Proof. unfold _detect_midday_reversal. detector_stamped. Qed.

Lemma power_hour_stamped ctx :
  Forall (stamped (df ctx)) (_detect_power_hour ctx).
Proof. unfold _detect_power_hour. detector_stamped. Qed.

Lemma double_bottom_stamped ctx :
  Forall (stamped (df ctx)) (_detect_double_bottom detect_double_bottom ctx).
Proof. unfold _detect_double_bottom. detector_stamped. Qed.

Lemma double_top_stamped ctx :
  Forall (stamped (df ctx)) (_detect_double_top detect_double_top ctx).
Proof. unfold _detect_double_top. detector_stamped. Qed.

Lemma support_bounce_stamped ctx :
  Forall (stamped (df ctx)) (_detect_support_bounce config find_support_resistance ctx).
Proof. unfold _detect_support_bounce. detector_stamped. Qed.

Lemma resistance_rejection_stamped ctx :
  Forall (stamped (df ctx)) (_detect_resistance_rejection config find_support_resistance ctx).
Proof. unfold _detect_resistance_rejection. detector_stamped. Qed.

Lemma fold_left_invariant_In {A B : Type} (P : A -> Prop) (f : A -> B -> A)
    (l : list B) (a : A) :
  P a -> (forall st i, In i l -> P st -> P (f st i)) -> P (fold_left f l a).
Proof.
  revert a. induction l as [| x l IH]; intros a Ha Hf; [exact Ha |].
  cbn [fold_left]. apply IH.
  - apply Hf; [now left | exact Ha].
  - intros st i Hi. apply Hf. now right.
Qed.

Lemma bb_squeeze_stamped ctx :
  Forall (stamped (df ctx)) (_detect_bb_squeeze config ctx).
Proof.
  unfold _detect_bb_squeeze.
  apply (fold_left_invariant_In
           (fun st : bool * list Signal => Forall (stamped (df ctx)) (snd st))).
  - constructor.
  - intros [in_squeeze signals] i Hi Hst. cbn [snd] in Hst.
    repeat match goal with
    | |- context [match ?x with _ => _ end] => destruct x
    end;
    cbn [snd]; try assumption;
    apply Forall_app; (split; [assumption |]);
    (constructor; [on_a_bar | constructor]).
Qed.

End SignalBars.

Section ScanBars.
Import Patterns.

Lemma combined_signals_Forall_all (P : Signal -> Prop)
    (enabled : list string) (table : list (string * detector)) (ctx : Ctx) :
  Forall (fun nd : string * detector => Forall P (returned (snd nd ctx))) table ->
  Forall P (combined_signals enabled table ctx).
Proof.
  intros H.
  apply (combined_signals_enabled (fun _ => P) enabled) in H.
  apply Forall_impl with (2 := H). now intros s (_ & _ & Hs).
Qed.

Lemma detectors_stamped cfg ddb ddt fsr (ctx : Ctx) :
  Forall (fun nd : string * detector =>
            Forall (stamped (df ctx)) (returned (snd nd ctx)))
    (detectors cfg ddb ddt fsr).
Proof.
  unfold detectors. cbn [map fst snd returned].
  repeat apply Forall_cons; try apply Forall_nil.
  - apply orb_long_stamped.
  - apply orb_short_stamped.
  - apply vwap_rejection_long_stamped.
  - apply vwap_rejection_short_stamped.
  - apply vwap_cross_long_stamped.
  - apply vwap_cross_short_stamped.
  - apply macd_bull_stamped.
  - apply macd_bear_stamped.
  - apply rsi_oversold_stamped.
  - apply rsi_overbought_stamped.
  - apply ema_bull_cross_stamped.
  - apply ema_bear_cross_stamped.
  - apply bb_squeeze_stamped.
  - apply volume_spike_stamped.
  - apply mean_rev_long_stamped.
  - apply mean_rev_short_stamped.
  - apply gap_fill_long_stamped.
  - apply gap_fill_short_stamped.
  - apply prev_high_break_stamped.
  - apply prev_low_break_stamped.
  - apply midday_reversal_stamped.
  - apply power_hour_stamped.
  - apply double_bottom_stamped.
  - apply double_top_stamped.
  - apply support_bounce_stamped.
  - apply resistance_rejection_stamped.
Qed.

End ScanBars.

(** X28.  A scan returns its signals in chronological order, and every
    one of them is stamped with the index of a bar of the frame and
    entered at that bar's close, whatever the configuration and the
    indicator columns of the frame. *)
Theorem scan_signals_are_stamped_on_bars_of_the_frame :
  forall cfg ddb ddt fsr (ctx : Patterns.Ctx),
    chronological (Patterns.scan cfg ddb ddt fsr ctx)
    /\ Forall (stamped (Patterns.df ctx)) (Patterns.scan cfg ddb ddt fsr ctx).
Proof.
  intros cfg ddb ddt fsr ctx.
  unfold Patterns.scan, Patterns.scan_table.
  split; [apply sort_by_timestamp_chronological |].
  eapply Permutation_Forall.
  - symmetry. apply sort_by_timestamp_perm.
  - rewrite run_detectors_spec. cbn [app].
    apply combined_signals_Forall_all, detectors_stamped.
Qed.

(** ** Indicators: pivot points, double tops and double bottoms *)

(** X22.  For a previous day whose close lies between its low and its
    high, the pivot lies between the low and the high and the seven
    levels are in order: s3 <= s2 <= s1 <= pivot <= r1 <= r2 <= r3;
    r2 and s2 lie one day's range from the pivot. *)
Theorem pivot_points_are_in_order :
  forall high low close : R,
    low <= close <= high ->
    let p := Indicators.pivot_points high low close in
    low <= Indicators.pivot p <= high
    /\ Indicators.s3 p <= Indicators.s2 p
    /\ Indicators.s2 p <= Indicators.s1 p
    /\ Indicators.s1 p <= Indicators.pivot p
    /\ Indicators.pivot p <= Indicators.r1 p
    /\ Indicators.r1 p <= Indicators.r2 p
    /\ Indicators.r2 p <= Indicators.r3 p
    /\ Indicators.r2 p - Indicators.pivot p = high - low
    /\ Indicators.pivot p - Indicators.s2 p = high - low.
Proof.
  intros high low close [Hl Hh] p. subst p.
  unfold Indicators.pivot_points.
  cbn [Indicators.pivot Indicators.r1 Indicators.r2 Indicators.r3
       Indicators.s1 Indicators.s2 Indicators.s3].
  repeat split; lra.
Qed.

Lemma pivot_points_are_in_order_witness :
  let p := Indicators.pivot_points 451 449 450 in
  449 <= Indicators.pivot p <= 451
  /\ Indicators.s3 p <= Indicators.s2 p
  /\ Indicators.s2 p <= Indicators.s1 p
  /\ Indicators.s1 p <= Indicators.pivot p
  /\ Indicators.pivot p <= Indicators.r1 p
  /\ Indicators.r1 p <= Indicators.r2 p
  /\ Indicators.r2 p <= Indicators.r3 p
  /\ Indicators.r2 p - Indicators.pivot p = 451 - 449
  /\ Indicators.pivot p - Indicators.s2 p = 451 - 449.
Proof.
  apply (pivot_points_are_in_order 451 449 450). lra.
Defined.

Section DoubleTops.
Import Indicators.

Lemma flat_map_indexed_NoDup {B : Type} (f : nat -> list (nat * B))
    (l : list nat) :
  NoDup l ->
  (forall i, (List.length (f i) <= 1)%nat) ->
  (forall i b, In b (f i) -> fst b = i) ->
  NoDup (map fst (flat_map f l)).
Proof.
  intros Hnd Hlen Hkey. induction Hnd as [| i l Hnotin Hnd IH]; cbn.
  - constructor.
  - rewrite map_app. apply NoDup_app.
    + specialize (Hlen i). destruct (f i) as [| b [| b' l']]; cbn in *.
      * constructor.
      * repeat constructor. intros [].
      * lia.
    + exact IH.
    + intros k Hk1 Hk2.
      apply in_map_iff in Hk1 as (b & <- & Hb).
      apply in_map_iff in Hk2 as (b' & Hfst & Hb').
      apply in_flat_map in Hb' as (j & Hj & Hb').
      apply Hkey in Hb. apply Hkey in Hb'. subst. congruence.
Qed.

(** *** Tops *)

Lemma insert_descending_perm x l : Permutation (insert_descending x l) (x :: l).
Proof.
  induction l as [| y l IH]; cbn; [reflexivity |].
  destruct (Rgeb _ _); [reflexivity |].
  rewrite IH. apply perm_swap.
Qed.

Lemma sort_descending_perm l :
  Permutation (fold_right insert_descending [] l) l.
Proof.
  induction l as [| x l IH]; cbn; [reflexivity |].
  rewrite insert_descending_perm. now constructor.
Qed.

Lemma insert_descending_sorted x l :
  StronglySorted (fun a b : nat * R => snd b <= snd a) l ->
  StronglySorted (fun a b : nat * R => snd b <= snd a) (insert_descending x l).
Proof.
  induction 1 as [| y l Hl IH Hy]; cbn.
  - repeat constructor.
  - unfold Rgeb, Rleb. destruct (Rle_dec _ _) as [Hle | Hgt].
    + constructor; [now constructor |].
      constructor; [exact Hle |].
      apply Forall_impl with (2 := Hy). intros z Hz. lra.
    + constructor; [exact IH |].
      apply Forall_forall. intros z Hz.
      apply (Permutation_in _ (insert_descending_perm x l)) in Hz.
      destruct Hz as [<- | Hz]; [lra |].
      exact (proj1 (Forall_forall _ _) Hy z Hz).
Qed.

Lemma sort_descending_sorted l :
  StronglySorted (fun a b : nat * R => snd b <= snd a)
    (fold_right insert_descending [] l).
Proof.
  induction l as [| x l IH]; cbn; [constructor |].
  now apply insert_descending_sorted.
Qed.

Lemma peaks_spec (recent : list R) (i : nat) (v : R) :
  In (i, v)
    (flat_map
       (fun i =>
          if Rgtb (at_ recent i) (at_ recent (i - 1))
             && Rgtb (at_ recent i) (at_ recent (i + 1))
          then
            if Rgtb (at_ recent i) (at_ recent (i - 2))
               && Rgtb (at_ recent i) (at_ recent (i + 2))
            then [(i, at_ recent i)] else []
          else [])
       (seq 2 (len recent - 2 - 2)))
  <-> is_peak recent i /\ v = at_ recent i.
Proof.
  rewrite in_flat_map. unfold is_peak, Rgtb, Rltb. split.
  - intros (j & Hj & Hin). apply in_seq in Hj.
    destruct (Rlt_dec (at_ recent (j - 1)) (at_ recent j)) as [H1 | H1];
      [| destruct Hin].
    destruct (Rlt_dec (at_ recent (j + 1)) (at_ recent j)) as [H2 | H2];
      [| destruct Hin].
    destruct (Rlt_dec (at_ recent (j - 2)) (at_ recent j)) as [H3 | H3];
      [| destruct Hin].
    destruct (Rlt_dec (at_ recent (j + 2)) (at_ recent j)) as [H4 | H4];
      [| destruct Hin].
    destruct Hin as [[= <- <-] | []].
    repeat split; try assumption; lia.
  - intros [([Hi1 Hi2] & H1 & H2 & H3 & H4) ->]. exists i. split.
    + apply in_seq. lia.
    + destruct (Rlt_dec (at_ recent (i - 1)) (at_ recent i)); [| contradiction].
      destruct (Rlt_dec (at_ recent (i + 1)) (at_ recent i)); [| contradiction].
      destruct (Rlt_dec (at_ recent (i - 2)) (at_ recent i)); [| contradiction].
      destruct (Rlt_dec (at_ recent (i + 2)) (at_ recent i)); [| contradiction].
      now left.
Qed.

Lemma peaks_NoDup (recent : list R) :
  NoDup (map fst
    (flat_map
       (fun i =>
          if Rgtb (at_ recent i) (at_ recent (i - 1))
             && Rgtb (at_ recent i) (at_ recent (i + 1))
          then
            if Rgtb (at_ recent i) (at_ recent (i - 2))
               && Rgtb (at_ recent i) (at_ recent (i + 2))
            then [(i, at_ recent i)] else []
          else [])
       (seq 2 (len recent - 2 - 2)))).
Proof.
  apply flat_map_indexed_NoDup.
  - apply seq_NoDup.
  - intros i. destruct (_ && _); [destruct (_ && _) |]; simpl; lia.
  - intros i b. destruct (_ && _); [destruct (_ && _) |]; cbn; intros [<- | []] || intros [].
    reflexivity.
Qed.

(** The two leading entries of a list sorted by value, largest first. *)
Lemma two_highest (peaks : list (nat * R)) (p1 p2 : nat * R)
    (rest : list (nat * R)) :
  NoDup (map fst peaks) ->
  fold_right insert_descending [] peaks = p1 :: p2 :: rest ->
  In p1 peaks /\ In p2 peaks /\ fst p1 <> fst p2
  /\ (forall q, In q peaks -> snd q <= snd p1)
  /\ (forall q, In q peaks -> fst q <> fst p1 -> snd q <= snd p2).
Proof.
  intros Hnd Hs.
  pose proof (sort_descending_perm peaks) as Hperm.
  pose proof (sort_descending_sorted peaks) as Hsorted.
  rewrite Hs in Hperm, Hsorted.
  assert (Hnd' : NoDup (map fst (p1 :: p2 :: rest))).
  { apply (Permutation_NoDup (Permutation_sym (Permutation_map fst Hperm))).
    exact Hnd. }
  inversion Hsorted as [| ? ? Hs2 H1]; subst.
  inversion Hs2 as [| ? ? _ H2]; subst.
  inversion Hnd' as [| ? ? Hnot1 _]; subst.
  split; [apply (Permutation_in _ Hperm); now left |].
  split; [apply (Permutation_in _ Hperm); right; now left |].
  split; [intros E; apply Hnot1; left; now symmetry |].
  split.
  - intros q Hq. apply (Permutation_in _ (Permutation_sym Hperm)) in Hq.
    destruct Hq as [<- | Hq]; [lra |].
    exact (proj1 (Forall_forall _ _) H1 q Hq).
  - intros q Hq Hne. apply (Permutation_in _ (Permutation_sym Hperm)) in Hq.
    destruct Hq as [<- | [<- | Hq]]; [congruence | lra |].
    exact (proj1 (Forall_forall _ _) H2 q Hq).
Qed.

(** *** Bottoms *)

Lemma insert_ascending_perm x l : Permutation (insert_ascending x l) (x :: l).
Proof.
  induction l as [| y l IH]; cbn; [reflexivity |].
  destruct (Rleb _ _); [reflexivity |].
  rewrite IH. apply perm_swap.
Qed.

Lemma sort_ascending_perm l :
  Permutation (fold_right insert_ascending [] l) l.
Proof.
  induction l as [| x l IH]; cbn; [reflexivity |].
  rewrite insert_ascending_perm. now constructor.
Qed.

Lemma insert_ascending_sorted x l :
  StronglySorted (fun a b : nat * R => snd a <= snd b) l ->
  StronglySorted (fun a b : nat * R => snd a <= snd b) (insert_ascending x l).
Proof.
  induction 1 as [| y l Hl IH Hy]; cbn.
  - repeat constructor.
  - unfold Rleb. destruct (Rle_dec _ _) as [Hle | Hgt].
    + constructor; [now constructor |].
      constructor; [exact Hle |].
      apply Forall_impl with (2 := Hy). intros z Hz. lra.
    + constructor; [exact IH |].
      apply Forall_forall. intros z Hz.
      apply (Permutation_in _ (insert_ascending_perm x l)) in Hz.
      destruct Hz as [<- | Hz]; [lra |].
      exact (proj1 (Forall_forall _ _) Hy z Hz).
Qed.

Lemma sort_ascending_sorted l :
  StronglySorted (fun a b : nat * R => snd a <= snd b)
    (fold_right insert_ascending [] l).
Proof.
  induction l as [| x l IH]; cbn; [constructor |].
  now apply insert_ascending_sorted.
Qed.

Lemma troughs_spec (recent : list R) (i : nat) (v : R) :
  In (i, v)
    (flat_map
       (fun i =>
          if Rltb (at_ recent i) (at_ recent (i - 1))
             && Rltb (at_ recent i) (at_ recent (i + 1))
          then
            if Rltb (at_ recent i) (at_ recent (i - 2))
               && Rltb (at_ recent i) (at_ recent (i + 2))
            then [(i, at_ recent i)] else []
          else [])
       (seq 2 (len recent - 2 - 2)))
  <-> is_trough recent i /\ v = at_ recent i.
Proof.
  rewrite in_flat_map. unfold is_trough, Rltb. split.
  - intros (j & Hj & Hin). apply in_seq in Hj.
    destruct (Rlt_dec (at_ recent j) (at_ recent (j - 1))) as [H1 | H1];
      [| destruct Hin].
    destruct (Rlt_dec (at_ recent j) (at_ recent (j + 1))) as [H2 | H2];
      [| destruct Hin].
    destruct (Rlt_dec (at_ recent j) (at_ recent (j - 2))) as [H3 | H3];
      [| destruct Hin].
    destruct (Rlt_dec (at_ recent j) (at_ recent (j + 2))) as [H4 | H4];
      [| destruct Hin].
    destruct Hin as [[= <- <-] | []].
    repeat split; try assumption; lia.
  - intros [([Hi1 Hi2] & H1 & H2 & H3 & H4) ->]. exists i. split.
    + apply in_seq. lia.
    + destruct (Rlt_dec (at_ recent i) (at_ recent (i - 1))); [| contradiction].
      destruct (Rlt_dec (at_ recent i) (at_ recent (i + 1))); [| contradiction].
      destruct (Rlt_dec (at_ recent i) (at_ recent (i - 2))); [| contradiction].
      destruct (Rlt_dec (at_ recent i) (at_ recent (i + 2))); [| contradiction].
      now left.
Qed.

Lemma troughs_NoDup (recent : list R) :
  NoDup (map fst
    (flat_map
       (fun i =>
          if Rltb (at_ recent i) (at_ recent (i - 1))
             && Rltb (at_ recent i) (at_ recent (i + 1))
          then
            if Rltb (at_ recent i) (at_ recent (i - 2))
               && Rltb (at_ recent i) (at_ recent (i + 2))
            then [(i, at_ recent i)] else []
          else [])
       (seq 2 (len recent - 2 - 2)))).
Proof.
  apply flat_map_indexed_NoDup.
  - apply seq_NoDup.
  - intros i. destruct (_ && _); [destruct (_ && _) |]; simpl; lia.
  - intros i b. destruct (_ && _); [destruct (_ && _) |]; cbn; intros [<- | []] || intros [].
    reflexivity.
Qed.

Lemma two_lowest (troughs : list (nat * R)) (t1 t2 : nat * R)
    (rest : list (nat * R)) :
  NoDup (map fst troughs) ->
  fold_right insert_ascending [] troughs = t1 :: t2 :: rest ->
  In t1 troughs /\ In t2 troughs /\ fst t1 <> fst t2
  /\ (forall q, In q troughs -> snd t1 <= snd q)
  /\ (forall q, In q troughs -> fst q <> fst t1 -> snd t2 <= snd q).
Proof.
  intros Hnd Hs.
  pose proof (sort_ascending_perm troughs) as Hperm.
  pose proof (sort_ascending_sorted troughs) as Hsorted.
  rewrite Hs in Hperm, Hsorted.
  assert (Hnd' : NoDup (map fst (t1 :: t2 :: rest))).
  { apply (Permutation_NoDup (Permutation_sym (Permutation_map fst Hperm))).
    exact Hnd. }
  inversion Hsorted as [| ? ? Hs2 H1]; subst.
  inversion Hs2 as [| ? ? _ H2]; subst.
  inversion Hnd' as [| ? ? Hnot1 _]; subst.
  split; [apply (Permutation_in _ Hperm); now left |].
  split; [apply (Permutation_in _ Hperm); right; now left |].
  split; [intros E; apply Hnot1; left; now symmetry |].
  split.
  - intros q Hq. apply (Permutation_in _ (Permutation_sym Hperm)) in Hq.
    destruct Hq as [<- | Hq]; [lra |].
    exact (proj1 (Forall_forall _ _) H1 q Hq).
  - intros q Hq Hne. apply (Permutation_in _ (Permutation_sym Hperm)) in Hq.
    destruct Hq as [<- | [<- | Hq]]; [congruence | lra |].
    exact (proj1 (Forall_forall _ _) H2 q Hq).
Qed.

End DoubleTops.

Section DoubleTopExamples.
Import Indicators.

Lemma double_top_example :
  detect_double_top [0; 0; 5; 0; 0; 0; 0; 0; 0; 5; 0; 0] 12 0.3 = true.
Proof.
  unfold detect_double_top, tail, at_, len, distance.
  cbn -[Rgtb Rltb Rgeb Rabs IZR Rmult Rdiv Rminus].
  decide_reals.
  cbn -[Rgtb Rltb Rgeb Rleb Rabs IZR Rmult Rdiv Rminus].
  decide_reals.
  cbn -[Rgtb Rltb Rgeb Rleb Rabs IZR Rmult Rdiv Rminus].
  replace (Rabs (5 - 5)) with 0
    by (replace (5 - 5) with 0 by ring; now rewrite Rabs_R0).
  decide_reals. reflexivity.
Qed.

Lemma double_bottom_example :
  detect_double_bottom [9; 9; 5; 9; 9; 9; 9; 9; 9; 5; 9; 9] 12 0.3 = true.
Proof.
  unfold detect_double_bottom, tail, at_, len, distance.
  cbn -[Rgtb Rltb Rgeb Rabs IZR Rmult Rdiv Rminus].
  decide_reals.
  cbn -[Rgtb Rltb Rgeb Rleb Rabs IZR Rmult Rdiv Rminus].
  decide_reals.
  cbn -[Rgtb Rltb Rgeb Rleb Rabs IZR Rmult Rdiv Rminus].
  replace (Rabs (5 - 5)) with 0
    by (replace (5 - 5) with 0 by ring; now rewrite Rabs_R0).
  decide_reals. reflexivity.
Qed.

End DoubleTopExamples.

(** X23.  When [detect_double_top] answers True, the window (the last
    [lookback] values) has at least 10 values and holds two peaks, each
    above its two neighbours on either side, more than 5 positions
    apart: the highest peak and the highest of the others, whose
    heights differ by less than [tolerance_pct] percent of the
    highest. *)
Theorem double_top_has_two_separated_peaks :
  forall (high : list R) (lookback : nat) (tolerance_pct : R),
    Indicators.detect_double_top high lookback tolerance_pct = true ->
    let recent := Indicators.tail lookback high in
    (10 <= Py.len recent)%nat
    /\ exists i j,
         is_peak recent i /\ is_peak recent j
         /\ (5 < Indicators.distance i j)%nat
         /\ (forall k, is_peak recent k ->
                       Indicators.at_ recent k <= Indicators.at_ recent i)
         /\ (forall k, is_peak recent k -> k <> i ->
                       Indicators.at_ recent k <= Indicators.at_ recent j)
         /\ Rabs (Indicators.at_ recent i - Indicators.at_ recent j)
            < Indicators.at_ recent i * tolerance_pct / 100.
Proof.
  intros high lookback tol H recent.
  unfold Indicators.detect_double_top in H. fold recent in H.
  destruct (Py.len recent <? 10)%nat eqn:Elen; [discriminate |].
  apply Nat.ltb_ge in Elen. split; [exact Elen |].
  match type of H with
  | context [fold_right Indicators.insert_descending [] ?p] => set (peaks := p) in *
  end.
  destruct (Py.len peaks <? 2)%nat; [discriminate |].
  destruct (fold_right Indicators.insert_descending [] peaks)
    as [| [i vi] [| [j vj] rest]] eqn:Es; try discriminate.
  cbn [fst snd] in H. apply andb_prop in H as [Htol Hdist].
  destruct (two_highest peaks (i, vi) (j, vj) rest (peaks_NoDup recent) Es)
    as (Hi & Hj & Hne & Hmax1 & Hmax2).
  cbn [fst snd] in *.
  apply peaks_spec in Hi as [Hpi ->]. apply peaks_spec in Hj as [Hpj ->].
  exists i, j. split; [exact Hpi |]. split; [exact Hpj |].
  split; [now apply Nat.ltb_lt |].
  split; [| split].
  - intros k Hk. apply (Hmax1 (k, Indicators.at_ recent k)).
    now apply peaks_spec.
  - intros k Hk Hki. apply (Hmax2 (k, Indicators.at_ recent k)).
    + now apply peaks_spec.
    + exact Hki.
  - unfold Rltb in Htol. now destruct (Rlt_dec _ _).
Qed.

Lemma double_top_has_two_separated_peaks_witness :
  let recent :=
    Indicators.tail 12 [0; 0; 5; 0; 0; 0; 0; 0; 0; 5; 0; 0] in
  (10 <= Py.len recent)%nat
  /\ exists i j,
       is_peak recent i /\ is_peak recent j
       /\ (5 < Indicators.distance i j)%nat
       /\ (forall k, is_peak recent k ->
                     Indicators.at_ recent k <= Indicators.at_ recent i)
       /\ (forall k, is_peak recent k -> k <> i ->
                     Indicators.at_ recent k <= Indicators.at_ recent j)
       /\ Rabs (Indicators.at_ recent i - Indicators.at_ recent j)
          < Indicators.at_ recent i * 0.3 / 100.
Proof.
  exact (double_top_has_two_separated_peaks _ 12 0.3 double_top_example).
Defined.

(** X24.  When [detect_double_bottom] answers True, the window has at
    least 10 values and holds two troughs, each below its two
    neighbours on either side, more than 5 positions apart: the lowest
    trough and the lowest of the others, whose depths differ by less
    than [tolerance_pct] percent of the lowest. *)
Theorem double_bottom_has_two_separated_troughs :
  forall (low : list R) (lookback : nat) (tolerance_pct : R),
    Indicators.detect_double_bottom low lookback tolerance_pct = true ->
    let recent := Indicators.tail lookback low in
    (10 <= Py.len recent)%nat
    /\ exists i j,
         is_trough recent i /\ is_trough recent j
         /\ (5 < Indicators.distance i j)%nat
         /\ (forall k, is_trough recent k ->
                       Indicators.at_ recent i <= Indicators.at_ recent k)
         /\ (forall k, is_trough recent k -> k <> i ->
                       Indicators.at_ recent j <= Indicators.at_ recent k)
         /\ Rabs (Indicators.at_ recent i - Indicators.at_ recent j)
            < Indicators.at_ recent i * tolerance_pct / 100.
Proof.
  intros low lookback tol H recent.
  unfold Indicators.detect_double_bottom in H. fold recent in H.
  destruct (Py.len recent <? 10)%nat eqn:Elen; [discriminate |].
  apply Nat.ltb_ge in Elen. split; [exact Elen |].
  match type of H with
  | context [fold_right Indicators.insert_ascending [] ?p] => set (troughs := p) in *
  end.
  destruct (Py.len troughs <? 2)%nat; [discriminate |].
  destruct (fold_right Indicators.insert_ascending [] troughs)
    as [| [i vi] [| [j vj] rest]] eqn:Es; try discriminate.
  cbn [fst snd] in H. apply andb_prop in H as [Htol Hdist].
  destruct (two_lowest troughs (i, vi) (j, vj) rest (troughs_NoDup recent) Es)
    as (Hi & Hj & Hne & Hmin1 & Hmin2).
  cbn [fst snd] in *.
  apply troughs_spec in Hi as [Hpi ->]. apply troughs_spec in Hj as [Hpj ->].
  exists i, j. split; [exact Hpi |]. split; [exact Hpj |].
  split; [now apply Nat.ltb_lt |].
  split; [| split].
  - intros k Hk. apply (Hmin1 (k, Indicators.at_ recent k)).
    now apply troughs_spec.
  - intros k Hk Hki. apply (Hmin2 (k, Indicators.at_ recent k)).
    + now apply troughs_spec.
    + exact Hki.
  - unfold Rltb in Htol. now destruct (Rlt_dec _ _).
Qed.

Lemma double_bottom_has_two_separated_troughs_witness :
  let recent :=
    Indicators.tail 12 [9; 9; 5; 9; 9; 9; 9; 9; 9; 5; 9; 9] in
  (10 <= Py.len recent)%nat
  /\ exists i j,
       is_trough recent i /\ is_trough recent j
       /\ (5 < Indicators.distance i j)%nat
       /\ (forall k, is_trough recent k ->
                     Indicators.at_ recent i <= Indicators.at_ recent k)
       /\ (forall k, is_trough recent k -> k <> i ->
                     Indicators.at_ recent j <= Indicators.at_ recent k)
       /\ Rabs (Indicators.at_ recent i - Indicators.at_ recent j)
          < Indicators.at_ recent i * 0.3 / 100.
Proof.
  exact (double_bottom_has_two_separated_troughs _ 12 0.3 double_bottom_example).
Defined.
(** ** Rolling and exponentially weighted indicators *)

Section Series.
Import Py Indicators.

Lemma nth_map_seq {A : Type} (g : nat -> A) (d : A) (n i : nat) :
  (i < n)%nat -> nth i (map g (seq 0 n)) d = g i.
Proof.
  intros Hi.
  rewrite (nth_indep _ d (g 0%nat)) by (rewrite length_map, length_seq; exact Hi).
  rewrite map_nth, seq_nth by exact Hi. reflexivity.
Qed.

Lemma len_map_seq {A : Type} (g : nat -> A) (n : nat) :
  len (map g (seq 0 n)) = n.
Proof. unfold len. now rewrite length_map, length_seq. Qed.

Lemma zip_with_len {A B C : Type} (op : A -> B -> C) (a : list A) (b : list B) :
  len a = len b -> len (zip_with op a b) = len a.
Proof.
  unfold len, zip_with. intros H. rewrite length_map, length_combine, <- H.
  apply Nat.min_id.
Qed.

Lemma zip_with_nth {A B C : Type} (op : A -> B -> C) (a : list A) (b : list B)
    (da : A) (db : B) (dc : C) (i : nat) :
  len a = len b -> (i < len a)%nat ->
  nth i (zip_with op a b) dc = op (nth i a da) (nth i b db).
Proof.
  unfold len, zip_with. intros H Hi.
  rewrite (nth_indep _ dc (op da db))
    by (rewrite length_map, length_combine, <- H, Nat.min_id; exact Hi).
  rewrite (map_nth (fun p => op (fst p) (snd p)) (List.combine a b) (da, db)).
  now rewrite combine_nth.
Qed.

Lemma rolling_spec (f : list R -> option R) (series : list R) (period : Z)
    (out : list (option R)) :
  rolling f series period = Some out ->
  (0 <= period)%Z
  /\ len out = len series
  /\ forall i, (i < len series)%nat ->
       nth i out None
       = if (i + 1 <? Z.to_nat period)%nat then None
         else f (window series (Z.to_nat period) i).
Proof.
  unfold rolling. destruct (period <? 0)%Z eqn:E; [discriminate |].
  intros [= <-]. apply Z.ltb_ge in E. split; [exact E |].
  split; [apply len_map_seq |].
  intros i Hi. now rewrite nth_map_seq.
Qed.

Lemma Forall_firstn {A : Type} (P : A -> Prop) (n : nat) (l : list A) :
  Forall P l -> Forall P (firstn n l).
Proof.
  intros H. revert n. induction H as [| x l Hx _ IH]; intros [| n]; cbn;
    constructor; [exact Hx | apply IH].
Qed.

Lemma Forall_skipn {A : Type} (P : A -> Prop) (n : nat) (l : list A) :
  Forall P l -> Forall P (skipn n l).
Proof.
  intros H. revert n. induction H as [| x l Hx Hl IH]; intros [| n]; cbn;
    [constructor | constructor | now constructor | apply IH].
Qed.

Lemma window_Forall (P : R -> Prop) (series : list R) (n i : nat) :
  Forall P series -> Forall P (window series n i).
Proof. intros H. now apply Forall_firstn, Forall_skipn. Qed.

Lemma window_len (series : list R) (n i : nat) :
  (n <= i + 1)%nat -> (i < len series)%nat -> len (window series n i) = n.
Proof.
  unfold window, len. intros Hn Hi. rewrite length_firstn, length_skipn. lia.
Qed.

Lemma sum_bounds (lo hi : R) (w : list R) :
  Forall (fun x => lo <= x <= hi) w ->
  INR (len w) * lo <= sum w <= INR (len w) * hi.
Proof.
  induction 1 as [| x w Hx _ IH].
  - unfold sum. cbn. lra.
  - rewrite sum_cons. change (len (x :: w)) with (S (len w)).
    rewrite S_INR. lra.
Qed.

Lemma mean_bounds (lo hi m : R) (w : list R) :
  Forall (fun x => lo <= x <= hi) w -> mean w = Some m -> lo <= m <= hi.
Proof.
  intros Hw. unfold mean. destruct (len w =? 0)%nat eqn:E; [discriminate |].
  intros [= <-]. apply Nat.eqb_neq in E.
  assert (Hn : 0 < INR (len w)) by (apply lt_0_INR; lia).
  pose proof (sum_bounds lo hi w Hw) as [Hl Hh].
  split.
  - apply Rmult_le_reg_r with (INR (len w)); [exact Hn |].
    unfold Rdiv. rewrite Rmult_assoc, Rinv_l by lra. lra.
  - apply Rmult_le_reg_r with (INR (len w)); [exact Hn |].
    unfold Rdiv. rewrite Rmult_assoc, Rinv_l by lra. lra.
Qed.

Lemma std_nonneg (w : list R) (s : R) : std w = Some s -> 0 <= s.
Proof.
  unfold std. destruct (len w <=? 1)%nat; [discriminate |].
  intros [= <-]. apply sqrt_pos.
Qed.

Lemma std_defined (w : list R) : (2 <= len w)%nat -> exists s, std w = Some s.
Proof.
  intros H. unfold std. destruct (len w <=? 1)%nat eqn:E.
  - apply Nat.leb_le in E. lia.
  - eexists. reflexivity.
Qed.

Lemma mean_defined (w : list R) : (1 <= len w)%nat -> exists m, mean w = Some m.
Proof.
  intros H. unfold mean. destruct (len w =? 0)%nat eqn:E.
  - apply Nat.eqb_eq in E. lia.
  - eexists. reflexivity.
Qed.

End Series.
Section Bands.
Import Py Indicators.

Lemma bands_at (fu fl fb : option R -> option R -> option R)
    (mid sd : list (option R)) (n : nat) :
  len mid = n -> len sd = n ->
  let upper := zip_with fu mid sd in
  let lower := zip_with fl mid sd in
  let bandwidth := zip_with fb (zip_with fl_sub upper lower) mid in
  (len upper = n /\ len mid = n /\ len lower = n /\ len bandwidth = n)
  /\ forall i, (i < n)%nat ->
       nth i upper None = fu (nth i mid None) (nth i sd None)
       /\ nth i lower None = fl (nth i mid None) (nth i sd None)
       /\ nth i bandwidth None
          = fb (fl_sub (nth i upper None) (nth i lower None)) (nth i mid None).
Proof.
  intros Hm Hs upper lower bandwidth.
  assert (Hu : len upper = n).
  { unfold upper. rewrite zip_with_len; [exact Hm | now rewrite Hm, Hs]. }
  assert (Hl : len lower = n).
  { unfold lower. rewrite zip_with_len; [exact Hm | now rewrite Hm, Hs]. }
  assert (Hw : len (zip_with fl_sub upper lower) = n).
  { rewrite zip_with_len; [exact Hu | now rewrite Hu, Hl]. }
  assert (Hb : len bandwidth = n).
  { unfold bandwidth. rewrite zip_with_len; [exact Hw | now rewrite Hw, Hm]. }
  split; [now repeat split |].
  intros i Hi. split; [| split].
  - unfold upper. apply zip_with_nth; [now rewrite Hm, Hs | now rewrite Hm].
  - unfold lower. apply zip_with_nth; [now rewrite Hm, Hs | now rewrite Hm].
  - unfold bandwidth.
    rewrite (zip_with_nth fb _ mid None None None);
      [| now rewrite Hw, Hm | now rewrite Hw].
    f_equal. apply zip_with_nth; [now rewrite Hu, Hl | now rewrite Hu].
Qed.

(** The three bands at one position, from the window's mean and
    standard deviation. *)
Lemma bollinger_bands_at (close : list R) (period : Z) (std_mult : R)
    (upper middle lower bandwidth : list (option R)) :
  bollinger_bands close period std_mult
  = Some (upper, middle, lower, bandwidth) ->
  (len upper = len close /\ len middle = len close
   /\ len lower = len close /\ len bandwidth = len close)
  /\ forall i, (i < len close)%nat ->
       let w := window close (Z.to_nat period) i in
       let m := if (i + 1 <? Z.to_nat period)%nat then None else mean w in
       let s := if (i + 1 <? Z.to_nat period)%nat then None else std w in
       nth i middle None = m
       /\ nth i upper None = fl_add m (fl_mul (Some std_mult) s)
       /\ nth i lower None = fl_sub m (fl_mul (Some std_mult) s)
       /\ nth i bandwidth None
          = fl_mul (fl_div (fl_sub (nth i upper None) (nth i lower None)) m)
              (Some 100).
Proof.
  intros H. unfold bollinger_bands, sma in H.
  destruct (rolling mean close period) as [mid |] eqn:Em; [| discriminate H].
  destruct (rolling std close period) as [sd |] eqn:Es; [| discriminate H].
  apply rolling_spec in Em as (_ & Hlm & Hm).
  apply rolling_spec in Es as (_ & Hls & Hs).
  destruct (bands_at (fun m s => fl_add m (fl_mul (Some std_mult) s))
              (fun m s => fl_sub m (fl_mul (Some std_mult) s))
              (fun width m => fl_mul (fl_div width m) (Some 100))
              mid sd (len close) Hlm Hls) as [Hlen Hat].
  unfold bind in H. cbv beta iota zeta in H.
  assert (Hu : upper = zip_with (fun m s => fl_add m (fl_mul (Some std_mult) s)) mid sd)
    by congruence.
  assert (Hmid : middle = mid) by congruence.
  assert (Hl : lower = zip_with (fun m s => fl_sub m (fl_mul (Some std_mult) s)) mid sd)
    by congruence.
  assert (Hb : bandwidth
               = zip_with (fun width m => fl_mul (fl_div width m) (Some 100))
                   (zip_with fl_sub upper lower) mid) by congruence.
  clear H. subst middle. rewrite Hb. clear Hb. subst upper lower.
  split; [exact Hlen |].
  intros i Hi w m s. destruct (Hat i Hi) as (Hui & Hli & Hbi).
  rewrite (Hm i Hi) in Hui, Hli, Hbi. rewrite (Hs i Hi) in Hui, Hli.
  split; [apply Hm, Hi |]. split; [exact Hui |]. split; [exact Hli |].
  exact Hbi.
Qed.

(** The window is the last [period] values up to the position. *)
Lemma window_last (series : list R) (n i : nat) :
  (n <= i + 1)%nat -> (i < len series)%nat ->
  window series n i
  = map (fun j => nth (i + 1 - n + j) series 0) (seq 0 n).
Proof.
  intros Hn Hi.
  apply (nth_ext _ _ 0 0).
  - fold (len (window series n i)). rewrite window_len by assumption.
    now rewrite length_map, length_seq.
  - fold (len (window series n i)). rewrite window_len by assumption.
    intros j Hj. unfold window.
    rewrite nth_firstn, nth_skipn.
    replace (j <? n)%nat with true by (symmetry; now apply Nat.ltb_lt).
    now rewrite nth_map_seq.
Qed.

Lemma mean_value (w : list R) (n : Z) :
  (1 <= n)%Z -> len w = Z.to_nat n -> mean w = Some (sum w / IZR n).
Proof.
  intros Hn Hw. unfold mean. rewrite Hw.
  replace (Z.to_nat n =? 0)%nat with false
    by (symmetry; apply Nat.eqb_neq; lia).
  now rewrite INR_IZR_INZ, Z2Nat.id by lia.
Qed.

Lemma std_value (w : list R) (n : Z) :
  (2 <= n)%Z -> len w = Z.to_nat n ->
  std w
  = Some (sqrt (sum (map (fun x => (x - sum w / IZR n) ^ 2) w) / (IZR n - 1))).
Proof.
  intros Hn Hw. unfold std. rewrite Hw.
  replace (Z.to_nat n <=? 1)%nat with false
    by (symmetry; apply Nat.leb_gt; lia).
  rewrite minus_INR by lia.
  rewrite INR_IZR_INZ, Z2Nat.id by lia. reflexivity.
Qed.

Lemma std_short (w : list R) : (len w <= 1)%nat -> std w = None.
Proof.
  intros H. unfold std.
  now replace (len w <=? 1)%nat with true by (symmetry; now apply Nat.leb_le).
Qed.

End Bands.

(** X29.  The four series of [bollinger_bands] are as long as the
    closes and are NaN before position [period - 1].  From there on the
    middle band is the mean [m] of the last [period] closes, so it lies
    within any bounds of the closes; for a period of at least 2 the
    upper and lower bands are [m + std_mult * s] and [m - std_mult * s]
    with [s] the sample standard deviation of those closes (the root of
    the sum of their squared distances from [m] over [period - 1]), so
    lower <= middle <= upper when [std_mult] is not negative, and the
    bandwidth is the width of the band in percent of the middle, or
    not finite when the middle is 0.  For a period below 2 the upper
    band, the lower band and the bandwidth are NaN throughout. *)
Theorem bollinger_bands_bracket_the_moving_average :
  forall (close : list R) (period : Z) (std_mult : R)
         (upper middle lower bandwidth : list (option R)),
    Indicators.bollinger_bands close period std_mult
    = Some (upper, middle, lower, bandwidth) ->
    (Py.len upper = Py.len close /\ Py.len middle = Py.len close
     /\ Py.len lower = Py.len close /\ Py.len bandwidth = Py.len close)
    /\ forall i, (i < Py.len close)%nat ->
         let last_closes :=
           map (fun j => nth (i + 1 - Z.to_nat period + j) close 0)
             (seq 0 (Z.to_nat period)) in
         let m := Py.sum last_closes / IZR period in
         let s :=
           sqrt (Py.sum (map (fun x => (x - m) ^ 2) last_closes)
                 / (IZR period - 1)) in
         ((Z.of_nat i + 1 < period)%Z ->
          nth i upper None = None /\ nth i middle None = None
          /\ nth i lower None = None /\ nth i bandwidth None = None)
         /\ ((period < 2)%Z ->
             nth i upper None = None /\ nth i lower None = None
             /\ nth i bandwidth None = None)
         /\ ((1 <= period <= Z.of_nat i + 1)%Z ->
             nth i middle None = Some m
             /\ forall lo hi,
                  Forall (fun x => lo <= x <= hi) close -> lo <= m <= hi)
         /\ ((2 <= period <= Z.of_nat i + 1)%Z ->
             0 <= s
             /\ nth i upper None = Some (m + std_mult * s)
             /\ nth i lower None = Some (m - std_mult * s)
             /\ (0 <= std_mult -> m - std_mult * s <= m <= m + std_mult * s)
             /\ (m <> 0 ->
                 nth i bandwidth None
                 = Some ((m + std_mult * s - (m - std_mult * s)) / m * 100))
             /\ (m = 0 -> nth i bandwidth None = None)).
Proof.
  intros close period std_mult upper middle lower bandwidth H.
  apply bollinger_bands_at in H as [Hlen Hat].
  split; [exact Hlen |].
  intros i Hi last_closes m s. destruct (Hat i Hi) as (Hm & Hu & Hl & Hb).
  cbv zeta in Hm, Hu, Hl, Hb.
  destruct (i + 1 <? Z.to_nat period)%nat eqn:E.
  - apply Nat.ltb_lt in E.
    assert (Hnan : nth i upper None = None /\ nth i middle None = None
                   /\ nth i lower None = None /\ nth i bandwidth None = None).
    { rewrite Hb, Hu, Hl, Hm. cbn. now repeat split. }
    split; [intros _; exact Hnan |].
    split; [intros _; tauto |].
    split; intros; lia.
  - apply Nat.ltb_ge in E.
    assert (Hw : Py.len (Indicators.window close (Z.to_nat period) i)
                 = Z.to_nat period) by (apply window_len; [lia | exact Hi]).
    assert (Hlast : Indicators.window close (Z.to_nat period) i = last_closes)
      by (apply window_last; [lia | exact Hi]).
    rewrite Hlast in *.
    split; [intros; lia |].
    split; [| split].
    + intros Hp. rewrite (std_short last_closes) in Hu, Hl by lia.
      rewrite Hb, Hu, Hl.
      destruct (Indicators.mean last_closes); cbn; now repeat split.
    + intros [Hp1 Hpi].
      pose proof (mean_value last_closes period Hp1 Hw) as Em.
      fold m in Em. rewrite Em in Hm. split; [exact Hm |].
      intros lo hi Hc. apply (mean_bounds lo hi m last_closes); [| exact Em].
      rewrite <- Hlast. now apply window_Forall.
    + intros [Hp2 Hpi].
      pose proof (mean_value last_closes period ltac:(lia) Hw) as Em.
      pose proof (std_value last_closes period Hp2 Hw) as Es.
      fold m in Em, Es. fold s in Es.
      pose proof (std_nonneg _ _ Es) as Hs.
      rewrite Em, Es in *.
      split; [exact Hs |]. split; [exact Hu |]. split; [exact Hl |].
      split; [intros Hk; nra |].
      split; intros Hm0; rewrite Hb, Hu, Hl;
        unfold Indicators.fl_mul, Indicators.fl_div, Indicators.fl_sub,
          Indicators.fl_add, Py.bind, Py.np_div;
        destruct (Req_dec_T m 0) as [Hz | Hz];
        try contradiction; reflexivity.
Qed.

Lemma bollinger_bands_bracket_the_moving_average_witness :
  exists upper middle lower bandwidth,
    Indicators.bollinger_bands [449; 451; 450] 2 2
    = Some (upper, middle, lower, bandwidth)
    /\ Py.len middle = 3%nat
    /\ nth 0 middle None = None
    /\ nth 2 middle None = Some ((451 + 450) / 2)
    /\ nth 2 upper None = Some ((451 + 450) / 2 + 2 * sqrt (1 / 2)).
Proof.
  eexists _, _, _, _. split; [reflexivity |].
  match goal with
  | |- Py.len ?mid = _ /\ _ =>
      destruct (bollinger_bands_bracket_the_moving_average
                  [449; 451; 450] 2 2 _ mid _ _ eq_refl)
        as [(_ & Hlen & _) Hat]
  end.
  split; [exact Hlen |]. split.
  - destruct (Hat 0%nat ltac:(cbn; lia)) as [Hnan _].
    apply Hnan. lia.
  - destruct (Hat 2%nat ltac:(cbn; lia)) as (_ & _ & Hmid & Hband).
    destruct Hmid as [Hm _]; [lia |].
    destruct Hband as (_ & Hu & _); [lia |].
    assert (Hlast : map (fun j => nth (2 + 1 - Z.to_nat 2 + j) [449; 451; 450] 0)
                      (seq 0 (Z.to_nat 2)) = [451; 450]) by reflexivity.
    rewrite Hlast in Hm, Hu.
    assert (Hsum : Py.sum [451; 450] = 451 + 450)
      by (unfold Py.sum; cbn; ring).
    rewrite Hsum in Hm, Hu. split; [exact Hm |].
    rewrite Hu. do 4 f_equal.
    unfold Py.sum. cbn [map fold_left]. field.
Defined.
Section Strength.
Import Py Indicators.

Lemma diff_len (series : list R) : len (diff series) = len series.
Proof.
  destruct series as [| x later]; [reflexivity |].
  unfold diff, len, zip_with. cbn [Datatypes.length].
  rewrite length_map, length_combine. cbn [Datatypes.length]. lia.
Qed.

Lemma where_len (cond : R -> bool) (delta : list (option R)) :
  len (where_ cond delta) = len delta.
Proof. unfold where_, len. apply length_map. Qed.

Lemma gain_nonneg (delta : list (option R)) :
  Forall (fun x => 0 <= x) (where_ (fun d => Rgtb d 0) delta).
Proof.
  unfold where_. apply Forall_map, Forall_forall. intros [d |] _; [| lra].
  unfold Rgtb, Rltb. destruct (Rlt_dec 0 d); lra.
Qed.

Lemma loss_nonneg (delta : list (option R)) :
  Forall (fun x => 0 <= x) (map Ropp (where_ (fun d => Rltb d 0) delta)).
Proof.
  unfold where_. rewrite map_map. apply Forall_map, Forall_forall.
  intros [d |] _; [| lra].
  unfold Rltb. destruct (Rlt_dec d 0); lra.
Qed.

(** Closes that never fall give no loss. *)
Lemma rises_only (x : R) (later : list R) :
  Sorted Rle (x :: later) ->
  Forall (fun d => exists v, d = Some v /\ 0 <= v)
    (zip_with (fun x prev => Some (x - prev)) later (x :: later)).
Proof.
  revert x. induction later as [| y later IH]; intros x Hs.
  - constructor.
  - apply Sorted_inv in Hs as [Hs Hd]. apply HdRel_inv in Hd.
    unfold zip_with. cbn [List.combine map fst snd]. constructor.
    + exists (y - x). split; [reflexivity | lra].
    + apply IH, Hs.
Qed.

Lemma loss_zero (close : list R) :
  Sorted Rle close ->
  Forall (fun x => x = 0) (map Ropp (where_ (fun d => Rltb d 0) (diff close))).
Proof.
  intros Hs. unfold where_. rewrite map_map. apply Forall_map.
  destruct close as [| x later]; [constructor |].
  unfold diff. constructor; [lra |].
  apply Forall_impl with (2 := rises_only x later Hs).
  intros d (v & -> & Hv). unfold Rltb. destruct (Rlt_dec v 0); lra.
Qed.

Lemma weighted_nonneg (q : R) (l : list R) :
  0 <= q -> Forall (fun x => 0 <= x) l -> 0 <= weighted q l.
Proof.
  intros Hq. induction 1 as [| x l Hx _ IH]; cbn [weighted]; [lra | nra].
Qed.

Lemma weighted_zero (q : R) (l : list R) :
  Forall (fun x => x = 0) l -> weighted q l = 0.
Proof.
  induction 1 as [| x l -> _ IH]; cbn [weighted]; [reflexivity |].
  rewrite IH. ring.
Qed.

Lemma weighted_ones (q : R) (l : list R) :
  0 <= q -> l <> [] -> 1 <= weighted q (map (fun _ => 1) l).
Proof.
  intros Hq Hl. destruct l as [| x l]; [contradiction |].
  cbn [map weighted].
  assert (0 <= weighted q (map (fun _ => 1) l)).
  { apply weighted_nonneg; [exact Hq |]. apply Forall_map, Forall_forall.
    intros; lra. }
  nra.
Qed.

Lemma ewm_mean_len (alpha : R) (n : nat) (series : list R) :
  len (ewm_mean alpha n series) = len series.
Proof. apply len_map_seq. Qed.

Lemma ewm_mean_nth (alpha : R) (n : nat) (series : list R) (i : nat) :
  (i < len series)%nat ->
  nth i (ewm_mean alpha n series) None
  = if (i + 1 <? n)%nat then None
    else
      let recent := rev (firstn (i + 1) series) in
      Some (weighted (1 - alpha) recent
            / weighted (1 - alpha) (map (fun _ => 1) recent)).
Proof. intros Hi. unfold ewm_mean. now rewrite nth_map_seq. Qed.

Lemma recent_Forall (P : R -> Prop) (series : list R) (i : nat) :
  Forall P series -> Forall P (rev (firstn (i + 1) series)).
Proof. intros H. now apply Forall_rev, Forall_firstn. Qed.

Lemma recent_nonempty (series : list R) (i : nat) :
  (i < len series)%nat -> rev (firstn (i + 1) series) <> [].
Proof.
  unfold len. intros Hi E. apply (f_equal (@Datatypes.length R)) in E.
  rewrite length_rev, length_firstn in E. cbn in E. lia.
Qed.

(** The weighted average of values that are not negative. *)
Lemma ewm_mean_nonneg (period : Z) (series : list R) (i : nat) (v : R) :
  (1 <= period)%Z ->
  Forall (fun x => 0 <= x) series ->
  nth i (ewm_mean (1 / IZR period) (Z.to_nat period) series) None = Some v ->
  0 <= v /\ (period <= Z.of_nat i + 1)%Z /\ (i < len series)%nat.
Proof.
  intros Hp Hs Hv.
  assert (Hi : (i < len series)%nat).
  { destruct (Nat.lt_ge_cases i (len series)) as [H | H]; [exact H |].
    rewrite nth_overflow in Hv; [discriminate |].
    fold (len (ewm_mean (1 / IZR period) (Z.to_nat period) series)).
    now rewrite ewm_mean_len. }
  rewrite ewm_mean_nth in Hv by exact Hi.
  destruct (i + 1 <? Z.to_nat period)%nat eqn:E; [discriminate |].
  apply Nat.ltb_ge in E. injection Hv as <-.
  assert (Hq : 0 <= 1 - 1 / IZR period).
  { assert (1 <= IZR period) by (now apply IZR_le).
    assert (1 / IZR period <= 1).
    { apply Rmult_le_reg_r with (IZR period); [lra |].
      unfold Rdiv. rewrite Rmult_assoc, Rinv_l by lra. lra. }
    lra. }
  split; [| split; [lia | exact Hi]].
  pose proof (weighted_nonneg _ _ Hq (recent_Forall _ series i Hs)) as Hn.
  pose proof (weighted_ones _ _ Hq (recent_nonempty series i Hi)) as Hd.
  apply Rmult_le_reg_r with (weighted (1 - 1 / IZR period)
                               (map (fun _ => 1) (rev (firstn (i + 1) series))));
    [lra |].
  unfold Rdiv. rewrite Rmult_assoc, Rinv_l by lra. lra.
Qed.

Lemma ewm_mean_zero (alpha : R) (n : nat) (series : list R) (i : nat) :
  Forall (fun x => x = 0) series ->
  replace_zero (nth i (ewm_mean alpha n series) None) = None.
Proof.
  intros Hs.
  destruct (Nat.lt_ge_cases i (len series)) as [Hi | Hi].
  - rewrite ewm_mean_nth by exact Hi.
    destruct (i + 1 <? n)%nat; [reflexivity |]. cbv zeta.
    rewrite (weighted_zero _ _ (recent_Forall _ series i Hs)).
    unfold replace_zero, Reqb, Rdiv. rewrite Rmult_0_l.
    destruct (Req_dec_T 0 0) as [_ | H]; [reflexivity | contradiction].
  - rewrite nth_overflow; [reflexivity |].
    fold (len (ewm_mean alpha n series)). now rewrite ewm_mean_len.
Qed.

Lemma rsi_at (close : list R) (period : Z) (out : list (option R)) :
  rsi close period = Some out ->
  (1 <= period)%Z
  /\ len out = len close
  /\ forall i, (i < len close)%nat ->
       let delta := diff close in
       let avg_gain :=
         ewm_mean (1 / IZR period) (Z.to_nat period)
           (where_ (fun d => Rgtb d 0) delta) in
       let avg_loss :=
         ewm_mean (1 / IZR period) (Z.to_nat period)
           (map Ropp (where_ (fun d => Rltb d 0) delta)) in
       nth i out None
       = fl_sub (Some 100)
           (fl_div (Some 100)
              (fl_add (Some 1)
                 (fl_div (nth i avg_gain None)
                    (replace_zero (nth i avg_loss None))))).
Proof.
  unfold rsi. destruct (period <? 1)%Z eqn:E; [discriminate |].
  apply Z.ltb_ge in E. intros H. split; [exact E |].
  assert (Hg : len (ewm_mean (1 / IZR period) (Z.to_nat period)
                      (where_ (fun d => Rgtb d 0) (diff close))) = len close).
  { now rewrite ewm_mean_len, where_len, diff_len. }
  assert (Hl : len (ewm_mean (1 / IZR period) (Z.to_nat period)
                      (map Ropp (where_ (fun d => Rltb d 0) (diff close))))
               = len close).
  { rewrite ewm_mean_len. unfold len. rewrite length_map.
    fold (len (where_ (fun d => Rltb d 0) (diff close))).
    now rewrite where_len, diff_len. }
  cbv zeta in H. injection H as <-.
  split.
  - unfold len at 1. rewrite length_map.
    fold (len (zip_with (fun g l => fl_div g (replace_zero l))
                 (ewm_mean (1 / IZR period) (Z.to_nat period)
                    (where_ (fun d => Rgtb d 0) (diff close)))
                 (ewm_mean (1 / IZR period) (Z.to_nat period)
                    (map Ropp (where_ (fun d => Rltb d 0) (diff close)))))).
    rewrite zip_with_len; [exact Hg | now rewrite Hg, Hl].
  - intros i Hi. cbv zeta.
    set (f := fun r => fl_sub (Some 100) (fl_div (Some 100) (fl_add (Some 1) r))).
    rewrite (nth_indep _ None (f None))
      by (rewrite length_map;
          fold (len (zip_with (fun g l => fl_div g (replace_zero l))
                       (ewm_mean (1 / IZR period) (Z.to_nat period)
                          (where_ (fun d => Rgtb d 0) (diff close)))
                       (ewm_mean (1 / IZR period) (Z.to_nat period)
                          (map Ropp (where_ (fun d => Rltb d 0) (diff close))))));
          rewrite zip_with_len; [now rewrite Hg | now rewrite Hg, Hl]).
    rewrite (map_nth f). unfold f. do 3 f_equal.
    apply (zip_with_nth (fun g l => fl_div g (replace_zero l)) _ _ None None None);
      [now rewrite Hg, Hl | now rewrite Hg].
Qed.

End Strength.

(** X30.  [rsi] raises for a period below 1.  Otherwise its series is
    as long as the closes; every value that is not NaN is at least 0
    and below 100 and stands at position [period - 1] or later; and on
    closes that never fall every value is NaN, the average loss being
    zero. *)
Theorem rsi_lies_between_0_and_100 :
  forall (close : list R) (period : Z),
    ((period < 1)%Z -> Indicators.rsi close period = None)
    /\ forall out,
         Indicators.rsi close period = Some out ->
         Py.len out = Py.len close
         /\ (forall i x, nth i out None = Some x ->
                         0 <= x < 100 /\ (period <= Z.of_nat i + 1)%Z)
         /\ (Sorted Rle close -> forall i, nth i out None = None).
Proof.
  intros close period. split.
  - intros Hp. unfold Indicators.rsi.
    destruct (period <? 1)%Z eqn:E; [reflexivity |].
    apply Z.ltb_ge in E. lia.
  - intros out H. apply rsi_at in H as (Hp & Hlen & Hat).
    split; [exact Hlen |]. split.
    + intros i x Hx.
      assert (Hi : (i < Py.len close)%nat).
      { destruct (Nat.lt_ge_cases i (Py.len close)) as [Hi | Hi]; [exact Hi |].
        rewrite nth_overflow in Hx; [discriminate |].
        fold (Py.len out). now rewrite Hlen. }
      rewrite (Hat i Hi) in Hx. cbv zeta in Hx.
      destruct (nth i (Indicators.ewm_mean _ _ (Indicators.where_ _ _)) None)
        as [g |] eqn:Eg; [| discriminate].
      destruct (nth i (Indicators.ewm_mean _ _ (map Ropp _)) None)
        as [l |] eqn:El; [| discriminate].
      apply ewm_mean_nonneg in Eg as (Hg & Hpi & _);
        [| exact Hp | apply gain_nonneg].
      apply ewm_mean_nonneg in El as (Hl & _ & _);
        [| exact Hp | apply loss_nonneg].
      split; [| exact Hpi].
      unfold Indicators.replace_zero, Py.Reqb in Hx.
      destruct (Req_dec_T l 0) as [Hz | Hz]; [discriminate |].
      unfold Indicators.fl_sub, Indicators.fl_div, Indicators.fl_add,
        Py.bind, Py.np_div in Hx.
      destruct (Req_dec_T l 0) as [Hz' | _]; [contradiction |].
      assert (Hr : 0 <= g / l).
      { apply Rmult_le_reg_r with l; [lra |].
        unfold Rdiv. rewrite Rmult_assoc, Rinv_l by lra. lra. }
      destruct (Req_dec_T (1 + g / l) 0) as [Hz' | _]; [lra |].
      injection Hx as <-.
      assert (H1 : 0 < / (1 + g / l) <= 1).
      { split; [apply Rinv_0_lt_compat; lra |].
        rewrite <- Rinv_1. apply Rinv_le_contravar; lra. }
      unfold Rdiv at 1 3. lra.
    + intros Hs i.
      destruct (Nat.lt_ge_cases i (Py.len close)) as [Hi | Hi].
      * rewrite (Hat i Hi). cbv zeta.
        rewrite (ewm_mean_zero _ _ _ i (loss_zero close Hs)).
        now destruct (nth i _ None).
      * apply nth_overflow. fold (Py.len out). now rewrite Hlen.
Qed.

Lemma rsi_lies_between_0_and_100_witness :
  exists out,
    Indicators.rsi [450; 451; 449] 2 = Some out
    /\ Py.len out = 3%nat.
Proof.
  eexists. split; [reflexivity |].
  match goal with
  | |- Py.len ?o = _ =>
      destruct (proj2 (rsi_lies_between_0_and_100 [450; 451; 449] 2) o eq_refl)
        as (Hlen & _)
  end.
  exact Hlen.
Defined.

(** ** Alerts and their cooldown *)

Lemma list_ascii_of_string_app (a b : string) :
  list_ascii_of_string (a ++ b)
  = (list_ascii_of_string a ++ list_ascii_of_string b)%list.
Proof.
  induction a as [| c a IH]; cbn; [reflexivity | now rewrite IH].
Qed.

Lemma list_ascii_of_string_inj (a b : string) :
  list_ascii_of_string a = list_ascii_of_string b -> a = b.
Proof.
  intros H. rewrite <- (string_of_list_ascii_of_string a),
    <- (string_of_list_ascii_of_string b). now rewrite H.
Qed.

(** The key of the cooldown table tells pattern and direction apart. *)
Lemma alert_key_inj (a b : Patterns.Signal) :
  Alerts.alert_key a = Alerts.alert_key b
  <-> Patterns.pattern a = Patterns.pattern b
      /\ Patterns.direction a = Patterns.direction b.
Proof.
  unfold Alerts.alert_key. split.
  - intros H. apply (f_equal list_ascii_of_string) in H.
    rewrite !list_ascii_of_string_app in H.
    destruct (Patterns.direction a), (Patterns.direction b);
      cbn [Patterns.direction_value] in H.
    + apply app_inv_tail in H. split; [now apply list_ascii_of_string_inj | reflexivity].
    + exfalso. apply (f_equal (@rev Ascii.ascii)) in H.
      rewrite !rev_app_distr in H. cbn in H. discriminate.
    + exfalso. apply (f_equal (@rev Ascii.ascii)) in H.
      rewrite !rev_app_distr in H. cbn in H. discriminate.
    + apply app_inv_tail in H. split; [now apply list_ascii_of_string_inj | reflexivity].
  - intros [-> ->]. reflexivity.
Qed.

Lemma same_direction_spec (a b : Patterns.Direction) :
  same_direction a b = true <-> a = b.
Proof. destruct a, b; cbn; split; congruence. Qed.

Lemma alerts_of_key (s0 : Patterns.Signal) (l : list Patterns.Signal) :
  alerts_of (Patterns.pattern s0) (Patterns.direction s0) l
  = filter (fun s => String.eqb (Alerts.alert_key s0) (Alerts.alert_key s)) l.
Proof.
  unfold alerts_of. apply filter_ext. intros s.
  destruct (String.eqb (Alerts.alert_key s0) (Alerts.alert_key s)) eqn:E.
  - apply String.eqb_eq in E. symmetry in E. apply alert_key_inj in E as [Hp Hd].
    apply andb_true_intro. split;
      [now apply String.eqb_eq | now apply same_direction_spec].
  - apply String.eqb_neq in E.
    destruct (_ && _) eqn:E'; [| reflexivity].
    apply andb_prop in E' as [Hp Hd]. exfalso. apply E. symmetry.
    apply alert_key_inj. split;
      [now apply String.eqb_eq | now apply same_direction_spec].
Qed.

Section Cooldown.
Variable format : Patterns.Signal -> string.

Lemma alert_suppressed (am : Alerts.AlertManager) (s : Patterns.Signal) :
  Alerts.should_alert am s = false ->
  Alerts.alert format am s = (am, ""%string).
Proof. intros H. unfold Alerts.alert. now rewrite H. Qed.

Lemma alert_settings (am : Alerts.AlertManager) (s : Patterns.Signal) :
  Alerts.cooldown_seconds (fst (Alerts.alert format am s))
  = Alerts.cooldown_seconds am
  /\ Alerts.min_confidence (fst (Alerts.alert format am s))
     = Alerts.min_confidence am.
Proof.
  unfold Alerts.alert. destruct (Alerts.should_alert am s); cbn; now split.
Qed.

Lemma alert_fired_table (am : Alerts.AlertManager) (s : Patterns.Signal)
    (k : string) :
  Alerts.should_alert am s = true ->
  Backtest.dict_get String.eqb k
    (Alerts._last_alerts (fst (Alerts.alert format am s)))
  = if String.eqb (Alerts.alert_key s) k then Some (Patterns.timestamp s)
    else Backtest.dict_get String.eqb k (Alerts._last_alerts am).
Proof.
  intros H. unfold Alerts.alert. rewrite H. cbn.
  destruct (String.eqb (Alerts.alert_key s) k) eqn:E.
  - apply String.eqb_eq in E. subst k.
    apply (dict_get_set_same String.eqb String.eqb_eq).
  - apply String.eqb_neq in E.
    now apply (dict_get_set_other String.eqb String.eqb_eq).
Qed.

Lemma should_alert_spec (am : Alerts.AlertManager) (s : Patterns.Signal) :
  Alerts.should_alert am s = true
  <-> Alerts.min_confidence am <= Patterns.confidence s
      /\ forall last,
           Backtest.dict_get String.eqb (Alerts.alert_key s)
             (Alerts._last_alerts am) = Some last ->
           (Alerts.cooldown_seconds am
            <= 60 * (Patterns.timestamp s - last))%Z.
Proof.
  unfold Alerts.should_alert, Rltb.
  destruct (Rlt_dec (Patterns.confidence s) (Alerts.min_confidence am)) as [Hc | Hc].
  - split; [discriminate | intros [H _]; lra].
  - destruct (Backtest.dict_get String.eqb (Alerts.alert_key s)
                (Alerts._last_alerts am)) as [last |].
    + destruct (60 * (Patterns.timestamp s - last)
                <? Alerts.cooldown_seconds am)%Z eqn:E.
      * apply Z.ltb_lt in E. split; [discriminate |].
        intros [_ H]. specialize (H last eq_refl). lia.
      * apply Z.ltb_ge in E. split; [| reflexivity].
        intros _. split; [lra |]. intros l [= <-]. exact E.
    + split; [| reflexivity]. intros _. split; [lra | discriminate].
Qed.

Lemma fired_alerts_cons (am : Alerts.AlertManager) (s : Patterns.Signal)
    (rest : list Patterns.Signal) :
  fired_alerts format am (s :: rest)
  = (if Alerts.should_alert am s then [s] else [])
    ++ fired_alerts format (fst (Alerts.alert format am s)) rest.
Proof. cbn [fired_alerts]. now destruct (Alerts.should_alert am s). Qed.

Lemma fired_alerts_subsequence (signals : list Patterns.Signal) :
  forall am, subsequence (fired_alerts format am signals) signals.
Proof.
  induction signals as [| s rest IH]; intros am.
  - apply subsequence_nil.
  - cbn [fired_alerts]. destruct (Alerts.should_alert am s).
    + apply subsequence_take, IH.
    + apply subsequence_skip, IH.
Qed.

Lemma fired_alerts_confident (signals : list Patterns.Signal) :
  forall am,
    Forall (fun s => Alerts.min_confidence am <= Patterns.confidence s)
      (fired_alerts format am signals).
Proof.
  induction signals as [| s rest IH]; intros am; [apply Forall_nil |].
  cbn [fired_alerts].
  pose proof (IH (fst (Alerts.alert format am s))) as IH'.
  rewrite (proj2 (alert_settings am s)) in IH'.
  destruct (Alerts.should_alert am s) eqn:E; [| exact IH'].
  apply Forall_cons; [| exact IH']. now apply should_alert_spec in E.
Qed.

(** The alerts of one key are spaced, the first of them from the time
    the table holds for the key. *)
Lemma fired_alerts_spaced (k : string) (signals : list Patterns.Signal) :
  forall am,
    let fired :=
      filter (fun s => String.eqb k (Alerts.alert_key s))
        (fired_alerts format am signals) in
    Sorted (spaced (Alerts.cooldown_seconds am)) fired
    /\ forall last s1 rest,
         Backtest.dict_get String.eqb k (Alerts._last_alerts am) = Some last ->
         fired = s1 :: rest ->
         (Alerts.cooldown_seconds am
          <= 60 * (Patterns.timestamp s1 - last))%Z.
Proof.
  induction signals as [| s tl IH]; intros am fired; subst fired.
  - cbn. split; [apply Sorted_nil | discriminate].
  - cbn [fired_alerts].
    destruct (IH (fst (Alerts.alert format am s))) as [IHs IHh].
    rewrite (proj1 (alert_settings am s)) in IHs, IHh.
    destruct (Alerts.should_alert am s) eqn:E.
    + cbn [filter].
      destruct (String.eqb k (Alerts.alert_key s)) eqn:Ek.
      * apply String.eqb_eq in Ek. subst k. split.
        -- apply Sorted_cons; [exact IHs |].
           destruct (filter _ (fired_alerts format _ tl)) as [| s1 rest] eqn:Ef;
             [apply HdRel_nil | apply HdRel_cons].
           unfold spaced. apply (IHh (Patterns.timestamp s) s1 rest);
             [| reflexivity].
           rewrite (alert_fired_table am s _ E). now rewrite String.eqb_refl.
        -- intros last s1 rest Hl [= <- _].
           apply should_alert_spec in E as [_ E]. now apply E.
      * split; [exact IHs |]. intros last s1 rest Hl Hf.
        apply (IHh last s1 rest); [| exact Hf].
        rewrite (alert_fired_table am s _ E).
        rewrite String.eqb_sym, Ek. exact Hl.
    + rewrite (alert_suppressed am s E) in *. cbn [fst] in *.
      split; [exact IHs | exact IHh].
Qed.

Lemma manager_after_settings (signals : list Patterns.Signal) :
  forall am,
    Alerts.cooldown_seconds (manager_after format am signals)
    = Alerts.cooldown_seconds am
    /\ Alerts.min_confidence (manager_after format am signals)
       = Alerts.min_confidence am.
Proof.
  induction signals as [| s tl IH]; intros am; [now split |].
  change (manager_after format am (s :: tl))
    with (manager_after format (fst (Alerts.alert format am s)) tl).
  destruct (IH (fst (Alerts.alert format am s))) as [-> ->].
  apply alert_settings.
Qed.

(** The table holds, for each key, the time of the latest alert fired
    for it. *)
Lemma manager_after_table (k : string) (signals : list Patterns.Signal) :
  forall am,
    Backtest.dict_get String.eqb k
      (Alerts._last_alerts (manager_after format am signals))
    = match rev (filter (fun s => String.eqb k (Alerts.alert_key s))
                   (fired_alerts format am signals)) with
      | latest :: _ => Some (Patterns.timestamp latest)
      | [] => Backtest.dict_get String.eqb k (Alerts._last_alerts am)
      end.
Proof.
  induction signals as [| s tl IH]; intros am; [reflexivity |].
  change (manager_after format am (s :: tl))
    with (manager_after format (fst (Alerts.alert format am s)) tl).
  rewrite IH. cbn [fired_alerts].
  destruct (Alerts.should_alert am s) eqn:E.
  - cbn [filter]. rewrite (alert_fired_table am s k E).
    rewrite (String.eqb_sym (Alerts.alert_key s) k).
    destruct (String.eqb k (Alerts.alert_key s)); [| reflexivity].
    cbn [rev].
    destruct (rev (filter _ (fired_alerts format _ tl))); reflexivity.
  - now rewrite (alert_suppressed am s E).
Qed.

End Cooldown.

(** X25.  Whatever the stream of signals and the manager's state, the
    alerts fired are signals of the stream in stream order, each with a
    confidence of at least [min_confidence], and of two consecutive
    alerts of the same pattern and direction the second comes at least
    [cooldown_seconds] after the first. *)
Theorem alerts_of_a_pattern_respect_the_cooldown :
  forall (format : Patterns.Signal -> string) (am : Alerts.AlertManager)
         (signals : list Patterns.Signal) (s0 : Patterns.Signal),
    let fired := fired_alerts format am signals in
    subsequence fired signals
    /\ Forall (fun s => Alerts.min_confidence am <= Patterns.confidence s) fired
    /\ Sorted (spaced (Alerts.cooldown_seconds am))
         (alerts_of (Patterns.pattern s0) (Patterns.direction s0) fired).
Proof.
  intros format am signals s0 fired. subst fired.
  split; [apply fired_alerts_subsequence |].
  split; [apply fired_alerts_confident |].
  rewrite alerts_of_key.
  apply (fired_alerts_spaced format (Alerts.alert_key s0) signals am).
Qed.

(** X26.  After a fresh manager has handled a stream, a further signal
    is alerted exactly when its confidence is at least
    [min_confidence] and the latest alert fired for its pattern and
    direction, if there is one, is at least [cooldown_seconds] before
    it; signals of other patterns or of the other direction do not
    count.  A suppressed signal leaves the manager as it is and gives
    the empty text. *)
Theorem alert_fires_unless_cooling_down :
  forall (format : Patterns.Signal -> string) (am : Alerts.AlertManager)
         (earlier : list Patterns.Signal) (s : Patterns.Signal),
    Alerts._last_alerts am = [] ->
    let now := manager_after format am earlier in
    let fired :=
      alerts_of (Patterns.pattern s) (Patterns.direction s)
        (fired_alerts format am earlier) in
    (Alerts.should_alert now s = true
     <-> Alerts.min_confidence am <= Patterns.confidence s
         /\ forall before latest,
              fired = before ++ [latest] -> spaced (Alerts.cooldown_seconds am) latest s)
    /\ (Alerts.should_alert now s = false ->
        Alerts.alert format now s = (now, ""%string)).
Proof.
  intros format am earlier s Hfresh now fired.
  split; [| apply alert_suppressed].
  rewrite should_alert_spec. subst now.
  destruct (manager_after_settings format earlier am) as [-> ->].
  rewrite (manager_after_table format (Alerts.alert_key s) earlier am).
  rewrite Hfresh. subst fired. rewrite alerts_of_key.
  set (l := filter _ _). unfold spaced.
  split; intros [Hc H]; (split; [exact Hc |]).
  - intros before latest Hl. apply H. rewrite Hl, rev_app_distr. reflexivity.
  - intros last Hl. destruct (rev l) as [| latest tl] eqn:Er; [discriminate |].
    injection Hl as <-. apply (H (rev tl) latest).
    rewrite <- (rev_involutive l), Er. reflexivity.
Qed.

Lemma alert_fires_unless_cooling_down_witness :
  Alerts.should_alert
    (manager_after (fun _ => ""%string) (Alerts.init 300 0.6 None true None)
       [breakout_signal 0])
    (breakout_signal 1) = true.
Proof.
  apply (proj1 (alert_fires_unless_cooling_down (fun _ => ""%string)
                  (Alerts.init 300 0.6 None true None)
                  [breakout_signal 0] (breakout_signal 1) eq_refl)).
  split; [cbn; lra |].
  intros before latest H.
  assert (Hf : Alerts.should_alert (Alerts.init 300 0.6 None true None)
                 (breakout_signal 0) = true).
  { apply should_alert_spec. split; [cbn; lra | cbn; discriminate]. }
  cbn [fired_alerts] in H. rewrite Hf in H.
  change ([breakout_signal 0] = before ++ [latest]) in H.
  change [breakout_signal 0] with ([] ++ [breakout_signal 0]) in H.
  apply app_inj_tail in H as [_ <-].
  unfold spaced. cbn. lia.
Defined.

Lemma string_length_append (a b : string) :
  String.length (a ++ b) = (String.length a + String.length b)%nat.
Proof.
  induction a as [| c a IH]; cbn; [reflexivity | now rewrite IH].
Qed.

Lemma str_repeat_length (c : Ascii.ascii) (n : nat) :
  String.length (Alerts.str_repeat (String c EmptyString) n) = n.
Proof. induction n as [| n IH]; cbn; [reflexivity | now rewrite IH]. Qed.

Lemma confidence_bar_length (c : R) :
  String.length (Alerts._confidence_bar c)
  = (2 + Z.to_nat (Py.py_int (c * 10))
     + Z.to_nat (10 - Py.py_int (c * 10)))%nat.
Proof.
  unfold Alerts._confidence_bar.
  rewrite !string_length_append, !str_repeat_length. cbn. lia.
Qed.

(** [int] truncates toward zero. *)
Lemma py_int_truncates (x : R) :
  (0 <= x -> (0 <= Py.py_int x)%Z
             /\ IZR (Py.py_int x) <= x < IZR (Py.py_int x) + 1)
  /\ (x < 0 -> (Py.py_int x <= 0)%Z
               /\ IZR (Py.py_int x) - 1 < x <= IZR (Py.py_int x)).
Proof.
  unfold Py.py_int. destruct (Rle_dec 0 x) as [H | H]; split; intros Hx;
    try lra.
  - split; [now apply (Zfloor_lub 0) | apply Zfloor_bound].
  - unfold Zceil. pose proof (Zfloor_bound (- x)) as [Hl Hu].
    rewrite opp_IZR. split; [| lra].
    assert (0 <= Zfloor (- x))%Z by (apply (Zfloor_lub 0); lra). lia.
Qed.

(** X27.  The confidence bar is never shorter than 12 characters, and
    it has exactly 12 (ten cells between the brackets) exactly for the
    confidences strictly between -0.1 and 1.1; any other confidence
    gives a longer bar. *)
Theorem confidence_bar_is_twelve_wide_on_valid_confidence :
  forall c : R,
    (12 <= String.length (Alerts._confidence_bar c))%nat
    /\ (String.length (Alerts._confidence_bar c) = 12%nat
        <-> -1 / 10 < c < 11 / 10).
Proof.
  intros c. rewrite confidence_bar_length.
  destruct (py_int_truncates (c * 10)) as [Hpos Hneg].
  split; [lia |]. split.
  - intros H.
    assert (Hf : (0 <= Py.py_int (c * 10) <= 10)%Z) by lia.
    destruct Hf as [Hf0 Hf10]. apply IZR_le in Hf0, Hf10.
    destruct (Rle_dec 0 (c * 10)) as [Hc | Hc].
    + destruct (Hpos Hc) as [_ Hb]. lra.
    + destruct (Hneg ltac:(lra)) as [_ Hb]. lra.
  - intros Hc.
    assert (Hf : (0 <= Py.py_int (c * 10) <= 10)%Z).
    { destruct (Rle_dec 0 (c * 10)) as [Hc0 | Hc0].
      - destruct (Hpos Hc0) as [H0 Hb]. split; [exact H0 |].
        apply Z.lt_succ_r, lt_IZR. rewrite succ_IZR. lra.
      - destruct (Hneg ltac:(lra)) as [H0 Hb]. split; [| lia].
        apply Z.lt_succ_r, lt_IZR. rewrite succ_IZR. lra. }
    lia.
Qed.

(** ** A signal with a reward of zero *)

Lemma gap_fill_long_on_filled_gap_day :
  exists s,
    Patterns._detect_gap_fill_long filled_gap_day = [s]
    /\ Patterns.entry_price s = 450
    /\ Patterns.stop_price s = 449
    /\ Patterns.target_price s = 450.
Proof.
  unfold Patterns._detect_gap_fill_long, filled_gap_day, Patterns.first_signal,
    Patterns.range, len.
  cbn -[IZR Rltb Rgtb Rmin]. decide_reals.
  cbn -[IZR Rltb Rgtb Rmin]. decide_reals.
  eexists. split; [reflexivity |]. cbn -[IZR Rmin].
  split; [reflexivity |]. split; [| reflexivity].
  rewrite (Rmin_left 449 449) by lra. apply Rmin_left. lra.
Qed.

(** An enabled detector's signals are signals of the scan. *)
Lemma detector_signal_in_scan cfg ddb ddt fsr (ctx : Patterns.Ctx)
    (name : string) (detect : Patterns.detector) (s : Patterns.Signal) :
  In (name, detect) (Patterns.detectors cfg ddb ddt fsr) ->
  In name (Config.enabled_patterns cfg) ->
  In s (returned (detect ctx)) ->
  In s (Patterns.scan cfg ddb ddt fsr ctx).
Proof.
  intros Ht Hn Hs. unfold Patterns.scan, Patterns.scan_table.
  apply (Permutation_in s (Permutation_sym (sort_by_timestamp_perm _))).
  rewrite run_detectors_spec. cbn [app]. unfold combined_signals.
  apply in_flat_map. exists (name, detect). split; [exact Ht |].
  cbn [fst snd].
  replace (existsb (String.eqb name) (Config.enabled_patterns cfg)) with true;
    [exact Hs |].
  symmetry. apply existsb_exists. exists name.
  split; [exact Hn | apply String.eqb_refl].
Qed.

(** C7, as stated, fails: on [filled_gap_day] the gap-fill detector
    emits, and the default scan returns, a signal whose target equals
    its entry while its stop lies a dollar below; its risk:reward is 0
    although entry and stop differ. *)
Lemma filled_gap_signal_has_zero_risk_reward :
  exists s,
    (forall ddb ddt fsr,
        In s (Patterns.scan Config.default ddb ddt fsr filled_gap_day))
    /\ In s (Patterns._detect_gap_fill_long filled_gap_day)
    /\ Patterns.risk_reward s = Some 0
    /\ Patterns.entry_price s <> Patterns.stop_price s.
Proof.
  destruct gap_fill_long_on_filled_gap_day as (s & Hs & He & Hst & Ht).
  exists s.
  assert (Hin : In s (Patterns._detect_gap_fill_long filled_gap_day))
    by (rewrite Hs; now left).
  split; [| split; [exact Hin | split]].
  - intros ddb ddt fsr.
    apply (detector_signal_in_scan Config.default ddb ddt fsr filled_gap_day
             "gap_fill_long"
             (fun ctx => Patterns.Returns (Patterns._detect_gap_fill_long ctx)));
      [| | exact Hin].
    + unfold Patterns.detectors. cbn [map fst snd]. do 16 right. now left.
    + cbn. tauto.
  - unfold Patterns.risk_reward. rewrite He, Hst, Ht.
    replace (450 - 449) with 1 by ring. replace (450 - 450) with 0 by ring.
    rewrite Rabs_R0, Rabs_R1. unfold Py.Rgtb, Py.Rltb.
    destruct (Rlt_dec 0 1) as [_ | H]; [| lra].
    unfold Py.py_div. destruct (Req_dec_T 1 0) as [H | _]; [lra |].
    f_equal. field.
  - rewrite He, Hst. lra.
Qed.

(** ** The maximum drawdown over the equity curve *)

Section DeepestDecline.
Import Backtest.

Lemma running_equity_map (ts : list OptionsModel.OptionTrade) :
  forall e,
    running_equity e ts
    = map (fun i => e + Py.sum (map OptionsModel.total_pnl (firstn i ts)))
        (seq 1 (len ts)).
Proof.
  induction ts as [| t ts IH]; intros e; [reflexivity |].
  cbn [running_equity]. change (len (t :: ts)) with (S (len ts)).
  cbn [seq map firstn]. f_equal.
  - rewrite sum_cons. unfold Py.sum. cbn. ring.
  - rewrite IH, <- (seq_shift (len ts) 1), map_map. apply map_ext. intros i.
    cbn [firstn map]. rewrite sum_cons. ring.
Qed.

Lemma maximum_accumulate_from_map (l : list R) :
  forall m,
    maximum_accumulate_from m l
    = map (fun i => fold_left Rmax (firstn i l) m) (seq 1 (len l)).
Proof.
  induction l as [| x l IH]; intros m; [reflexivity |].
  cbn [maximum_accumulate_from]. change (len (x :: l)) with (S (len l)).
  cbn [seq map firstn fold_left]. f_equal.
  rewrite IH, <- (seq_shift (len l) 1), map_map. reflexivity.
Qed.

Lemma firstn_seq_le (n : nat) :
  forall a i, (i <= n)%nat -> firstn i (seq a n) = seq a i.
Proof.
  induction n as [| n IH]; intros a [| i] Hi; try reflexivity; [lia |].
  cbn [seq firstn]. f_equal. apply IH. lia.
Qed.

Lemma firstn_map_seq {A : Type} (f : nat -> A) (a n i : nat) :
  (i <= n)%nat -> firstn i (map f (seq a n)) = map f (seq a i).
Proof. intros Hi. now rewrite firstn_map, firstn_seq_le. Qed.

Lemma drawdowns_map (f g : nat -> R) (s : list nat) :
  drawdowns (map f s) (map g s)
  = map (fun i => q <- np_div (f i - g i) (g i) ;; Some (q * 100)) s.
Proof. induction s as [| i s IH]; cbn; [reflexivity | now rewrite IH]. Qed.

(** The least of an array of drawdowns: every entry is finite and at
    least the result, and the result is one of them. *)
Lemma np_min_least (l : list (option R)) (d : R) :
  np_min l = Some d ->
  In (Some d) l /\ forall x, In x l -> exists v, x = Some v /\ d <= v.
Proof.
  revert d. induction l as [| x l IH]; intros d; [discriminate |].
  destruct l as [| y l'].
  - cbn. intros ->. split; [now left |].
    intros x' [<- | []]. exists d. split; [reflexivity | lra].
  - change (np_min (x :: y :: l'))
      with (a <- x ;; b <- np_min (y :: l') ;; Some (Rmin a b)).
    destruct x as [a |]; [| discriminate].
    destruct (np_min (y :: l')) as [b |] eqn:Eb; [| discriminate].
    cbn [bind]. intros [= <-].
    destruct (IH b eq_refl) as [Hin Hall].
    unfold Rmin. destruct (Rle_dec a b) as [Hab | Hab].
    + split; [now left |].
      intros x' [<- | Hx]; [exists a; split; [reflexivity | lra] |].
      destruct (Hall x' Hx) as (v & -> & Hv). exists v. split; [reflexivity | lra].
    + split; [now right |].
      intros x' [<- | Hx]; [exists a; split; [reflexivity | lra] |].
      exact (Hall x' Hx).
Qed.

Lemma fold_left_Rmax_bounds (l : list R) :
  forall m,
    m <= fold_left Rmax l m
    /\ Forall (fun x => x <= fold_left Rmax l m) l
    /\ (fold_left Rmax l m = m \/ In (fold_left Rmax l m) l).
Proof.
  induction l as [| x l IH]; intros m; cbn [fold_left].
  - split; [lra |]. split; [constructor | now left].
  - destruct (IH (Rmax m x)) as (Hm & Hall & Hin).
    pose proof (Rmax_l m x). pose proof (Rmax_r m x).
    split; [lra |]. split; [constructor; [lra | exact Hall] |].
    destruct Hin as [Hin | Hin]; [| right; now right].
    rewrite Hin. unfold Rmax. destruct (Rle_dec m x); [right; now left | now left].
Qed.

Lemma running_peak_is_the_peak (r : BacktestResult) (i : nat) :
  (forall j, (j <= i)%nat -> equity_after r j <= running_peak r i)
  /\ exists j, (j <= i)%nat /\ running_peak r i = equity_after r j.
Proof.
  unfold running_peak.
  destruct (fold_left_Rmax_bounds (map (equity_after r) (seq 1 i))
              (equity_after r 0)) as (Hm & Hall & Hin).
  split.
  - intros [| j] Hj; [exact Hm |].
    apply (proj1 (Forall_forall _ _) Hall). apply in_map, in_seq. lia.
  - destruct Hin as [-> | Hin]; [exists 0%nat; split; [lia | reflexivity] |].
    apply in_map_iff in Hin as (j & Hj & Hs). apply in_seq in Hs.
    exists j. split; [lia | now symmetry].
Qed.

(** The equity curve and its running maximum, point by point. *)
Lemma equity_curve_points (r : BacktestResult) :
  equity_curve r = map (equity_after r) (seq 0 (S (len (trades r))))
  /\ maximum_accumulate (equity_curve r)
     = map (running_peak r) (seq 0 (S (len (trades r)))).
Proof.
  assert (Hc : equity_curve r
               = map (equity_after r) (seq 0 (S (len (trades r))))).
  { unfold equity_curve.
    pose proof (equity_curve_running (trades r) [] (initial_capital r)) as Heq.
    cbn [app] in Heq. rewrite Heq, running_equity_map.
    cbn [seq map]. f_equal.
    unfold equity_after. cbn [firstn map]. unfold Py.sum. cbn. ring. }
  split; [exact Hc |].
  rewrite Hc. cbn [seq map maximum_accumulate]. f_equal.
  rewrite maximum_accumulate_from_map.
  unfold len. rewrite length_map, length_seq. fold (len (trades r)).
  apply map_ext_in. intros i Hi. apply in_seq in Hi.
  unfold running_peak. now rewrite firstn_map_seq by lia.
Qed.

End DeepestDecline.

(** C10.  The maximum drawdown is the deepest decline of the equity
    curve: whenever [max_drawdown] is a number it is the decline
    (equity - running peak) / running peak * 100 at some point of the
    curve, it is at most the decline at every point, and it is at most
    0, the decline of a point from a peak at or above it; the running
    peak at a point is the highest equity up to it.  It is a number
    whenever the initial capital is positive. *)
Theorem max_drawdown_is_the_deepest_decline :
  forall r : Backtest.BacktestResult,
    let n := Py.len (Backtest.trades r) in
    (forall i,
        (forall j, (j <= i)%nat -> equity_after r j <= running_peak r i)
        /\ exists j, (j <= i)%nat /\ running_peak r i = equity_after r j)
    /\ (forall d,
          Backtest.max_drawdown r = Some d ->
          d <= 0
          /\ (exists i, (i <= n)%nat /\ d = decline r i)
          /\ (forall i, (i <= n)%nat -> d <= decline r i))
    /\ (0 < Backtest.initial_capital r ->
        exists d, Backtest.max_drawdown r = Some d).
Proof.
  intros r n. subst n. split; [apply running_peak_is_the_peak |].
  split; [| apply max_drawdown_finite].
  intros d Hd. split; [exact (max_drawdown_nonpos r d Hd) |].
  destruct (equity_curve_points r) as [Hc Hp].
  unfold Backtest.max_drawdown in Hd.
  destruct (Backtest.trades r) as [| t ts] eqn:E.
  - injection Hd as <-.
    assert (H0 : decline r 0 = 0).
    { unfold decline, running_peak. cbn [seq map fold_left].
      unfold Rdiv. rewrite Rminus_diag. ring. }
    cbn [Py.len Datatypes.length]. split.
    + exists 0%nat. split; [lia | now rewrite H0].
    + intros i Hi. replace i with 0%nat by lia. rewrite H0. lra.
  - cbv zeta in Hd.
    rewrite Hp in Hd. rewrite Hc in Hd. rewrite drawdowns_map in Hd.
    apply np_min_least in Hd as [Hin Hall].
    assert (Hat : forall i v,
               (q <- Py.np_div (equity_after r i - running_peak r i)
                      (running_peak r i) ;; Some (q * 100)) = Some v ->
               v = decline r i).
    { intros i v. unfold Py.np_div, decline.
      destruct (Req_dec_T (running_peak r i) 0); cbn [Py.bind];
        [discriminate | now intros [= <-]]. }
    split.
    + apply in_map_iff in Hin as (i & Hi & Hs). apply in_seq in Hs.
      exists i. split; [lia | now apply Hat].
    + intros i Hi.
      destruct (Hall (q <- Py.np_div (equity_after r i - running_peak r i)
                            (running_peak r i) ;; Some (q * 100)))
        as (v & Hv & Hdv).
      { apply in_map_iff. exists i. split; [reflexivity |].
        apply in_seq. lia. }
      apply Hat in Hv. now rewrite <- Hv.
Qed.

(** ** Range breaks: the first crossing of a day, or every crossing *)

Section Crossings.
Import Patterns.

Lemma filter_all {A : Type} (f : A -> bool) (l : list A) :
  (forall x, In x l -> f x = true) -> filter f l = l.
Proof.
  induction l as [| x l IH]; intros H; cbn; [reflexivity |].
  rewrite (H x) by now left. f_equal. apply IH. intros y Hy. apply H. now right.
Qed.

Lemma filter_none {A : Type} (f : A -> bool) (l : list A) :
  (forall x, In x l -> f x = false) -> filter f l = [].
Proof.
  induction l as [| x l IH]; intros H; cbn; [reflexivity |].
  rewrite (H x) by now left. apply IH. intros y Hy. apply H. now right.
Qed.

(** A loop over the days that keeps each day's signals on that day:
    the signals of a day are those of its turn of the loop. *)
Lemma signals_on_flat_map {A : Type} (ka : A -> Z) (f : A -> list Signal)
    (l : list A) :
  NoDup (map ka l) ->
  (forall a s, In a l -> In s (f a) -> signal_date s = ka a) ->
  (forall a, In a l -> signals_on (ka a) (flat_map f l) = f a)
  /\ (forall d, ~ In d (map ka l) -> signals_on d (flat_map f l) = []).
Proof.
  unfold signals_on.
  induction l as [| a l IH]; intros Hnd Hkey.
  - split; [intros a [] | reflexivity].
  - inversion Hnd as [| ? ? Hnotin Hnd']; subst.
    destruct IH as [IH1 IH2];
      [exact Hnd' | intros b s Hb; apply Hkey; now right |].
    assert (Hown : filter (fun s => (signal_date s =? ka a)%Z) (f a) = f a).
    { apply filter_all. intros s Hs. apply Z.eqb_eq, Hkey; [now left | exact Hs]. }
    assert (Hother : forall d, d <> ka a ->
               filter (fun s => (signal_date s =? d)%Z) (f a) = []).
    { intros d Hd. apply filter_none. intros s Hs. apply Z.eqb_neq.
      rewrite (Hkey a s (or_introl eq_refl) Hs). congruence. }
    split.
    + intros b [<- | Hb]; cbn [flat_map]; rewrite filter_app.
      * rewrite Hown, (IH2 (ka a) Hnotin). apply app_nil_r.
      * rewrite Hother, (IH1 b Hb); [reflexivity |].
        intros E. apply Hnotin. rewrite <- E. now apply in_map.
    + intros d Hd. cbn [flat_map]. rewrite filter_app.
      cbn [map] in Hd.
      rewrite Hother by (intros E; apply Hd; now left).
      apply IH2. intros H. apply Hd. now right.
Qed.

(** A breaking loop is stamped at the first position that qualifies, a
    loop without a break at every position that does. *)
Lemma first_signal_stamps (bars : list Row) (q : nat -> bool)
    (body : nat -> option Signal) (l : list nat) :
  (forall i, match body i with
             | Some s => q i = true /\ timestamp s = index (iloc bars i)
             | None => q i = false
             end) ->
  map timestamp (first_signal body l) = first_crossing bars q l.
Proof.
  intros Hb. unfold first_crossing.
  induction l as [| i l IH]; cbn [first_signal find]; [reflexivity |].
  specialize (Hb i). destruct (body i) as [s |].
  - destruct Hb as [Hq Ht]. rewrite Hq. cbn. now rewrite Ht.
  - rewrite Hb. exact IH.
Qed.

Lemma each_signal_stamps (bars : list Row) (q : nat -> bool)
    (body : nat -> option Signal) (l : list nat) :
  (forall i, match body i with
             | Some s => q i = true /\ timestamp s = index (iloc bars i)
             | None => q i = false
             end) ->
  map timestamp (each_signal body l) = every_crossing bars q l.
Proof.
  intros Hb. unfold every_crossing, each_signal.
  induction l as [| i l IH]; cbn [flat_map filter]; [reflexivity |].
  specialize (Hb i). rewrite map_app, IH. destruct (body i) as [s |].
  - destruct Hb as [Hq Ht]. rewrite Hq. cbn. now rewrite Ht.
  - rewrite Hb. reflexivity.
Qed.

Variable config : Config.AgentConfig.

Ltac qualifying :=
  intros i; cbv beta zeta;
  lazymatch goal with
  | |- match (if ?c then _ else _) with _ => _ end => destruct c
  end;
  cbn [timestamp]; [split; reflexivity | reflexivity].

Lemma orb_long_day (ctx : Ctx) :
  let f := fun e : Z * (R * R) =>
    let '(date, (or_high, or_low)) := e in
    let bars := after_opening_range config (df ctx) date in
    first_crossing bars
      (fun i => crosses_above (or_high + Config.orb_breakout_buffer config)
                  (close (iloc bars (i - 1))) (close (iloc bars i)))
      (range 1 (len bars)) in
  (forall e, In e (_get_opening_range config (df ctx)) ->
             map timestamp (signals_on (fst e) (_detect_orb_long config ctx))
             = f e)
  /\ (forall d, ~ In d (map fst (_get_opening_range config (df ctx))) ->
                signals_on d (_detect_orb_long config ctx) = []).
Proof.
  intros f. unfold _detect_orb_long.
  match goal with
  | |- context [flat_map ?g _] =>
      destruct (signals_on_flat_map fst g (_get_opening_range config (df ctx)))
        as [H1 H2]
  end.
  - apply opening_range_keys.
  - intros [date [or_high or_low]] s _ Hs.
    apply first_signal_In in Hs as (i & Hi & Hb).
    cbv beta zeta in Hb.
    destruct (_ && _); [| discriminate]. injection Hb as <-.
    unfold signal_date. cbn [timestamp fst].
    now apply post_or_date.
  - split; [| exact H2].
    intros [date [or_high or_low]] He. rewrite (H1 _ He).
    unfold f, after_opening_range. cbv zeta. cbn [fst].
    apply first_signal_stamps. unfold crosses_above. qualifying.
Qed.

Lemma orb_short_day (ctx : Ctx) :
  let f := fun e : Z * (R * R) =>
    let '(date, (or_high, or_low)) := e in
    let bars := after_opening_range config (df ctx) date in
    first_crossing bars
      (fun i => crosses_below (or_low - Config.orb_breakout_buffer config)
                  (close (iloc bars (i - 1))) (close (iloc bars i)))
      (range 1 (len bars)) in
  (forall e, In e (_get_opening_range config (df ctx)) ->
             map timestamp (signals_on (fst e) (_detect_orb_short config ctx))
             = f e)
  /\ (forall d, ~ In d (map fst (_get_opening_range config (df ctx))) ->
                signals_on d (_detect_orb_short config ctx) = []).
Proof.
  intros f. unfold _detect_orb_short.
  match goal with
  | |- context [flat_map ?g _] =>
      destruct (signals_on_flat_map fst g (_get_opening_range config (df ctx)))
        as [H1 H2]
  end.
  - apply opening_range_keys.
  - intros [date [or_high or_low]] s _ Hs.
    apply first_signal_In in Hs as (i & Hi & Hb).
    cbv beta zeta in Hb.
    destruct (_ && _); [| discriminate]. injection Hb as <-.
    unfold signal_date. cbn [timestamp fst].
    now apply post_or_date.
  - split; [| exact H2].
    intros [date [or_high or_low]] He. rewrite (H1 _ He).
    unfold f, after_opening_range. cbv zeta. cbn [fst].
    apply first_signal_stamps. unfold crosses_below. qualifying.
Qed.

Lemma gap_fill_long_day (ctx : Ctx) :
  let f := fun g : Z * list Row =>
    match opening_gap ctx (snd g) with
    | Some gap =>
        if Rltb gap (- 0.5) then
          first_crossing (snd g) (rising_close (snd g))
            (range 2 (Nat.min (len (snd g)) 12))
        else []
    | None => []
    end in
  (forall g, In g (groupby_date (df ctx)) ->
             map timestamp (signals_on (fst g) (_detect_gap_fill_long ctx))
             = f g)
  /\ (forall d, ~ In d (map fst (groupby_date (df ctx))) ->
                signals_on d (_detect_gap_fill_long ctx) = []).
Proof.
  intros f. unfold _detect_gap_fill_long.
  destruct (has_prev_close ctx) eqn:Ep; cbn [negb].
  2: { split; [| reflexivity].
       intros g _. unfold f, opening_gap. rewrite Ep. reflexivity. }
  match goal with
  | |- context [flat_map ?g _] =>
      destruct (signals_on_flat_map fst g (groupby_date (df ctx)))
        as [H1 H2]
  end.
  - apply groupby_date_keys.
  - intros [date group] s Hg Hs.
    repeat match type of Hs with
    | context [match ?x with _ => _ end] => destruct x
    end; try contradiction.
    apply first_signal_In in Hs as (i & Hi & Hb).
    cbv beta zeta in Hb.
    destruct (Rgtb _ _); [| discriminate]. injection Hb as <-.
    unfold signal_date. cbn [timestamp fst].
    eapply group_position_date; eassumption.
  - split; [| exact H2].
    intros [date group] Hg. rewrite (H1 _ Hg).
    unfold f, opening_gap. cbn [fst snd]. rewrite Ep. cbn [andb].
    rewrite Nat.leb_antisym.
    destruct (len group <? 3)%nat; cbn [negb]; [reflexivity |].
    destruct (prev_close (iloc group 0)) as [pc |]; [| reflexivity].
    destruct (Rltb (open (iloc group 0) - pc) (- 0.5)); [| reflexivity].
    apply first_signal_stamps. unfold rising_close. qualifying.
Qed.

Lemma gap_fill_short_day (ctx : Ctx) :
  let f := fun g : Z * list Row =>
    match opening_gap ctx (snd g) with
    | Some gap =>
        if Rgtb gap 0.5 then
          first_crossing (snd g) (falling_close (snd g))
            (range 2 (Nat.min (len (snd g)) 12))
        else []
    | None => []
    end in
  (forall g, In g (groupby_date (df ctx)) ->
             map timestamp (signals_on (fst g) (_detect_gap_fill_short ctx))
             = f g)
  /\ (forall d, ~ In d (map fst (groupby_date (df ctx))) ->
                signals_on d (_detect_gap_fill_short ctx) = []).
Proof.
  intros f. unfold _detect_gap_fill_short.
  destruct (has_prev_close ctx) eqn:Ep; cbn [negb].
  2: { split; [| reflexivity].
       intros g _. unfold f, opening_gap. rewrite Ep. reflexivity. }
  match goal with
  | |- context [flat_map ?g _] =>
      destruct (signals_on_flat_map fst g (groupby_date (df ctx)))
        as [H1 H2]
  end.
  - apply groupby_date_keys.
  - intros [date group] s Hg Hs.
    repeat match type of Hs with
    | context [match ?x with _ => _ end] => destruct x
    end; try contradiction.
    apply first_signal_In in Hs as (i & Hi & Hb).
    cbv beta zeta in Hb.
    destruct (Rltb _ _); [| discriminate]. injection Hb as <-.
    unfold signal_date. cbn [timestamp fst].
    eapply group_position_date; eassumption.
  - split; [| exact H2].
    intros [date group] Hg. rewrite (H1 _ Hg).
    unfold f, opening_gap. cbn [fst snd]. rewrite Ep. cbn [andb].
    rewrite Nat.leb_antisym.
    destruct (len group <? 3)%nat; cbn [negb]; [reflexivity |].
    destruct (prev_close (iloc group 0)) as [pc |]; [| reflexivity].
    destruct (Rgtb (open (iloc group 0) - pc) 0.5); [| reflexivity].
    apply first_signal_stamps. unfold falling_close. qualifying.
Qed.

Lemma prev_high_break_stamps (ctx : Ctx) :
  map timestamp (_detect_prev_high_break ctx)
  = if has_prev_high ctx
    then every_crossing (df ctx) (breaks_prev_high (df ctx))
           (range 1 (len (df ctx)))
    else [].
Proof.
  unfold _detect_prev_high_break.
  destruct (has_prev_high ctx); cbn [negb]; [| reflexivity].
  apply each_signal_stamps. intros i. unfold breaks_prev_high, crosses_above.
  cbv beta zeta. destruct (prev_high (iloc (df ctx) i)) as [ph |];
    [| reflexivity].
  destruct (_ && _); cbn [timestamp]; [split; reflexivity | reflexivity].
Qed.

Lemma prev_low_break_stamps (ctx : Ctx) :
  map timestamp (_detect_prev_low_break ctx)
  = if has_prev_low ctx
    then every_crossing (df ctx) (breaks_prev_low (df ctx))
           (range 1 (len (df ctx)))
    else [].
Proof.
  unfold _detect_prev_low_break.
  destruct (has_prev_low ctx); cbn [negb]; [| reflexivity].
  apply each_signal_stamps. intros i. unfold breaks_prev_low, crosses_below.
  cbv beta zeta. destruct (prev_low (iloc (df ctx) i)) as [pl |];
    [| reflexivity].
  destruct (_ && _); cbn [timestamp]; [split; reflexivity | reflexivity].
Qed.

End Crossings.

(** C2, amended.  The opening-range breakout and breakdown detectors
    and the two gap-fill detectors emit at most one signal per trading
    day, stamped at the first bar of the day's scan that qualifies, and
    none on a day without such a bar.  For the opening range the scan
    runs over the day's bars after the opening range, from the second
    of them on, and a bar qualifies when its close is above the range's
    high plus the buffer (under its low minus the buffer) while the
    close of the bar before it is not.  For the gap fill the scan runs
    over the third to the twelfth bar of a day of at least three bars
    that opens more than 0.50 under (over) the previous close, and a
    bar qualifies when its close is above (below) the close before it.
    The previous-day high and low break detectors have no limit per
    day: they emit a signal at every bar of the frame, from the second
    on, whose close is above the bar's previous-day high (under its
    previous-day low) while the close of the bar before it is not. *)
Theorem range_breaks_emit_at_the_first_crossing_of_a_day :
  forall (cfg : Config.AgentConfig) (ctx : Patterns.Ctx),
    let rows := Patterns.df ctx in
    (one_signal_per_day (Patterns._detect_orb_long cfg ctx)
     /\ one_signal_per_day (Patterns._detect_orb_short cfg ctx)
     /\ one_signal_per_day (Patterns._detect_gap_fill_long ctx)
     /\ one_signal_per_day (Patterns._detect_gap_fill_short ctx))
    /\ (forall date or_high or_low,
          In (date, (or_high, or_low)) (Patterns._get_opening_range cfg rows) ->
          let bars := after_opening_range cfg rows date in
          map Patterns.timestamp
            (signals_on date (Patterns._detect_orb_long cfg ctx))
          = first_crossing bars
              (fun i =>
                 crosses_above (or_high + Config.orb_breakout_buffer cfg)
                   (Patterns.close (Patterns.iloc bars (i - 1)))
                   (Patterns.close (Patterns.iloc bars i)))
              (Patterns.range 1 (Py.len bars))
          /\ map Patterns.timestamp
               (signals_on date (Patterns._detect_orb_short cfg ctx))
             = first_crossing bars
                 (fun i =>
                    crosses_below (or_low - Config.orb_breakout_buffer cfg)
                      (Patterns.close (Patterns.iloc bars (i - 1)))
                      (Patterns.close (Patterns.iloc bars i)))
                 (Patterns.range 1 (Py.len bars)))
    /\ (forall date,
          ~ In date (map fst (Patterns._get_opening_range cfg rows)) ->
          signals_on date (Patterns._detect_orb_long cfg ctx) = []
          /\ signals_on date (Patterns._detect_orb_short cfg ctx) = [])
    /\ (forall date group,
          In (date, group) (Patterns.groupby_date rows) ->
          let candidates := Patterns.range 2 (Nat.min (Py.len group) 12) in
          map Patterns.timestamp
            (signals_on date (Patterns._detect_gap_fill_long ctx))
          = match opening_gap ctx group with
            | Some gap =>
                if Py.Rltb gap (- 0.5)
                then first_crossing group (rising_close group) candidates
                else []
            | None => []
            end
          /\ map Patterns.timestamp
               (signals_on date (Patterns._detect_gap_fill_short ctx))
             = match opening_gap ctx group with
               | Some gap =>
                   if Py.Rgtb gap 0.5
                   then first_crossing group (falling_close group) candidates
                   else []
               | None => []
               end)
    /\ (forall date,
          ~ In date (map fst (Patterns.groupby_date rows)) ->
          signals_on date (Patterns._detect_gap_fill_long ctx) = []
          /\ signals_on date (Patterns._detect_gap_fill_short ctx) = [])
    /\ map Patterns.timestamp (Patterns._detect_prev_high_break ctx)
       = (if Patterns.has_prev_high ctx
          then every_crossing rows (breaks_prev_high rows)
                 (Patterns.range 1 (Py.len rows))
          else [])
    /\ map Patterns.timestamp (Patterns._detect_prev_low_break ctx)
       = (if Patterns.has_prev_low ctx
          then every_crossing rows (breaks_prev_low rows)
                 (Patterns.range 1 (Py.len rows))
          else []).
Proof.
  intros cfg ctx rows.
  destruct (orb_long_day cfg ctx) as [Hol1 Hol2].
  destruct (orb_short_day cfg ctx) as [Hos1 Hos2].
  destruct (gap_fill_long_day ctx) as [Hgl1 Hgl2].
  destruct (gap_fill_short_day ctx) as [Hgs1 Hgs2].
  split.
  { split; [apply orb_long_one_per_day |].
    split; [apply orb_short_one_per_day |].
    split; [apply gap_fill_long_one_per_day | apply gap_fill_short_one_per_day]. }
  split.
  { intros date or_high or_low He bars. split.
    - exact (Hol1 (date, (or_high, or_low)) He).
    - exact (Hos1 (date, (or_high, or_low)) He). }
  split; [intros date Hd; split; [now apply Hol2 | now apply Hos2] |].
  split.
  { intros date group Hg candidates. split.
    - exact (Hgl1 (date, group) Hg).
    - exact (Hgs1 (date, group) Hg). }
  split; [intros date Hd; split; [now apply Hgl2 | now apply Hgs2] |].
  split; [apply prev_high_break_stamps | apply prev_low_break_stamps].
Qed.

(** ** Time value: calls, puts and the rate *)

Section GaussianIntegral.
Import OptionsModel.

Section IntegralsOfContinuousFunctions.

Variable f : R -> R.
Hypothesis f_continuity : continuity f.
Variable pr : forall a b, Riemann_integrable f a b.

(** The integral from a fixed point is a primitive. *)
Lemma integral_derivable_pt_lim (a x : R) :
  derivable_pt_lim (fun z => RiemannInt (pr a z)) x (f x).
Proof.
  set (lo := Rmin x a - 1). set (hi := Rmax x a + 1).
  pose proof (Rmin_l x a) as Hm1. pose proof (Rmin_r x a) as Hm2.
  pose proof (Rmax_l x a) as HM1. pose proof (Rmax_r x a) as HM2.
  assert (Hab : lo <= hi) by (unfold lo, hi; lra).
  assert (C0 : forall t, lo <= t <= hi -> continuity_pt f t)
    by (intros t _; apply f_continuity).
  assert (Hx : lo <= x <= hi) by (unfold lo, hi; lra).
  pose proof (@RiemannInt_P28 f lo hi x Hab C0 Hx) as Hprim.
  set (I0 := RiemannInt (pr a lo)).
  apply (derivable_pt_lim_locally_ext
           (fun z => I0 + primitive Hab (FTC_P1 Hab C0) z)
           (fun z => RiemannInt (pr a z)) x lo hi).
  - unfold lo, hi; lra.
  - intros z Hz. unfold primitive.
    destruct (Rle_dec lo z) as [Haz | Haz]; [| lra].
    destruct (Rle_dec z hi) as [Hzb | Hzb]; [| lra].
    unfold I0.
    now rewrite (RiemannInt_P26 (pr a lo) (FTC_P1 Hab C0 Haz Hzb) (pr a z)).
  - replace (f x) with (0 + f x) by ring.
    apply (derivable_pt_lim_plus (fct_cte I0) (primitive Hab (FTC_P1 Hab C0)));
      [apply derivable_pt_lim_const | exact Hprim].
Qed.

End IntegralsOfContinuousFunctions.

Lemma Rabs_le_bounds (a b : R) : Rabs a <= b -> - b <= a <= b.
Proof. unfold Rabs. destruct (Rcase_abs a); lra. Qed.

(** A function whose derivative vanishes everywhere is constant. *)
Lemma null_derivative_constant (h : R -> R) :
  (forall c, derivable_pt_lim h c 0) -> forall a b, h a = h b.
Proof.
  intros Hd.
  assert (Hlt : forall a b, a < b -> h a = h b).
  { intros a b Hab.
    destruct (MVT_cor2 h (fun _ => 0) a b Hab (fun c _ => Hd c))
      as (c & Hc & _). lra. }
  intros a b. destruct (Rtotal_order a b) as [H | [-> | H]];
    [now apply Hlt | reflexivity | symmetry; now apply Hlt].
Qed.

(** The integral of a continuous function is the increment of any of
    its primitives. *)
Lemma integral_of_derivative_family (f P : R -> R)
    (pr : forall a b, Riemann_integrable f a b) :
  continuity f ->
  (forall c, derivable_pt_lim P c (f c)) ->
  forall a b, RiemannInt (pr a b) = P b - P a.
Proof.
  intros Hc HP a b.
  set (h := fun z => RiemannInt (pr a z) - P z).
  assert (Hd : forall c, derivable_pt_lim h c 0).
  { intros c. replace 0 with (f c - f c) by ring.
    apply (derivable_pt_lim_minus (fun z => RiemannInt (pr a z)) P);
      [now apply integral_derivable_pt_lim | apply HP]. }
  pose proof (null_derivative_constant h Hd a b) as E.
  unfold h in E. rewrite RiemannInt_P9 in E. lra.
Qed.

(** A bound on the derivative between two points bounds the increment. *)
Lemma increment_bound (f f' : R -> R) (M a b : R) :
  (forall c, derivable_pt_lim f c (f' c)) ->
  (forall c, Rmin a b <= c <= Rmax a b -> Rabs (f' c) <= M) ->
  Rabs (f b - f a) <= M * Rabs (b - a).
Proof.
  intros Hd HM.
  assert (Hlt : forall u v, u < v ->
            (forall c, u <= c <= v -> Rabs (f' c) <= M) ->
            Rabs (f v - f u) <= M * (v - u)).
  { intros u v Huv Hb.
    destruct (MVT_cor2 f f' u v Huv (fun c _ => Hd c)) as (c & Hc & Hin).
    rewrite Hc, Rabs_mult, (Rabs_pos_eq (v - u)) by lra.
    apply Rmult_le_compat_r; [lra | apply Hb; lra]. }
  destruct (Rtotal_order a b) as [H | [-> | H]].
  - rewrite (Rabs_pos_eq (b - a)) by lra. apply Hlt; [assumption |].
    intros c Hc. apply HM. rewrite Rmin_left, Rmax_right by lra. exact Hc.
  - replace (f b - f b) with 0 by ring. replace (b - b) with 0 by ring.
    rewrite Rabs_R0. lra.
  - rewrite (Rabs_minus_sym (f b)), (Rabs_minus_sym b).
    rewrite (Rabs_pos_eq (a - b)) by lra. apply Hlt; [assumption |].
    intros c Hc. apply HM. rewrite Rmin_right, Rmax_left by lra. exact Hc.
Qed.

Lemma integral_of_derivative (f P : R -> R) (a b : R)
    (pr : Riemann_integrable f a b) :
  continuity f ->
  (forall c, derivable_pt_lim P c (f c)) ->
  RiemannInt pr = P b - P a.
Proof.
  intros Hc HP.
  rewrite (RiemannInt_P5 pr (continuous_integrable f Hc a b)).
  now apply integral_of_derivative_family.
Qed.

(** *** The kernel [exp (- x^2 (1 + t^2) / 2) / (1 + t^2)] *)

Lemma gauss_kernel_dx_continuity (x : R) : continuity (gauss_kernel_dx x).
Proof.
  unfold gauss_kernel_dx. apply derivable_continuous. intro t. reg.
Qed.

Lemma gauss_kernel_derivable_pt_lim (t x : R) :
  derivable_pt_lim (fun y => gauss_kernel y t) x (gauss_kernel_dx x t).
Proof.
  unfold gauss_kernel, gauss_kernel_dx.
  assert (pr : derivable_pt
                 (fun y => exp (- (y * y) * (1 + t * t) / 2) / (1 + t * t)) x)
    by reg.
  rewrite <- (derive_pt_eq _ _ _ pr). reg.
  unfold Rdiv. field. nra.
Qed.

Lemma gauss_kernel_dx_derivable_pt_lim (t x : R) :
  derivable_pt_lim (fun y => gauss_kernel_dx y t) x
    ((x * x * (1 + t * t) - 1) * exp (- (x * x) * (1 + t * t) / 2)).
Proof.
  unfold gauss_kernel_dx.
  assert (pr : derivable_pt
                 (fun y => - y * exp (- (y * y) * (1 + t * t) / 2)) x)
    by reg.
  rewrite <- (derive_pt_eq _ _ _ pr). reg.
  unfold comp, Rdiv. field.
Qed.

Lemma exp_half_bound (u : R) :
  0 <= u -> Rabs ((u - 1) * exp (- u / 2)) <= 1.
Proof.
  intros Hu.
  pose proof (exp_pos (- u / 2)) as He.
  assert (He1 : exp (- u / 2) <= 1)
    by (rewrite <- exp_0; apply exp_le; lra).
  apply Rabs_le. split; [nra |].
  destruct (Rle_dec u 1) as [H1 | H1]; [nra |].
  assert (Hq : u - 1 <= exp (u / 2)).
  { replace (u / 2) with (u / 4 + u / 4) by field. rewrite exp_plus.
    pose proof (exp_ineq1_le (u / 4)) as Hx.
    set (E := exp (u / 4)) in *. clearbody E.
    assert (Hsq : (1 + u / 4) * (1 + u / 4) <= E * E)
      by (apply Rmult_le_compat; lra).
    apply Rle_trans with (2 := Hsq).
    pose proof (Rle_0_sqr (u / 4 - 1)) as H2. unfold Rsqr in H2. lra. }
  assert (Hinv : exp (- u / 2) * exp (u / 2) = 1).
  { rewrite <- exp_plus. replace (- u / 2 + u / 2) with 0 by field.
    apply exp_0. }
  pose proof (exp_pos (u / 2)) as Hp. nra.
Qed.

Lemma gauss_kernel_dxx_bound (t x : R) :
  Rabs ((x * x * (1 + t * t) - 1) * exp (- (x * x) * (1 + t * t) / 2)) <= 1.
Proof.
  replace (- (x * x) * (1 + t * t) / 2) with (- (x * x * (1 + t * t)) / 2)
    by field.
  apply exp_half_bound. nra.
Qed.

(** The kernel is within [h^2] of its first-order expansion in [x]. *)
Lemma gauss_kernel_expansion (t x h : R) :
  Rabs (gauss_kernel (x + h) t - gauss_kernel x t - h * gauss_kernel_dx x t)
  <= h * h.
Proof.
  set (q := fun y => gauss_kernel y t - (y - x) * gauss_kernel_dx x t).
  set (q' := fun y => gauss_kernel_dx y t - gauss_kernel_dx x t).
  assert (Hq : forall c, derivable_pt_lim q c (q' c)).
  { intros c. unfold q, q', gauss_kernel, gauss_kernel_dx.
    assert (pr : derivable_pt
                   (fun y => exp (- (y * y) * (1 + t * t) / 2) / (1 + t * t)
                             - (y - x)
                               * (- x * exp (- (x * x) * (1 + t * t) / 2))) c)
      by reg.
    rewrite <- (derive_pt_eq _ _ _ pr). reg.
    unfold comp, Rdiv. field. nra. }
  assert (Hb : forall c, Rmin x (x + h) <= c <= Rmax x (x + h) ->
                         Rabs (q' c) <= Rabs h).
  { intros c Hc. unfold q'.
    apply Rle_trans with (1 * Rabs (c - x)).
    - apply (increment_bound (fun y => gauss_kernel_dx y t)
               (fun y => (y * y * (1 + t * t) - 1)
                         * exp (- (y * y) * (1 + t * t) / 2))).
      + intros y. apply gauss_kernel_dx_derivable_pt_lim.
      + intros y _. apply gauss_kernel_dxx_bound.
    - rewrite Rmult_1_l. unfold Rmin, Rmax in Hc.
      destruct (Rle_dec x (x + h)); unfold Rabs;
        destruct (Rcase_abs (c - x)), (Rcase_abs h); lra. }
  pose proof (increment_bound q q' (Rabs h) x (x + h) Hq Hb) as H.
  unfold q in H.
  replace (gauss_kernel (x + h) t - (x + h - x) * gauss_kernel_dx x t
           - (gauss_kernel x t - (x - x) * gauss_kernel_dx x t))
    with (gauss_kernel (x + h) t - gauss_kernel x t - h * gauss_kernel_dx x t)
    in H by ring.
  replace (x + h - x) with h in H by ring.
  apply Rle_trans with (1 := H).
  rewrite <- Rabs_mult. rewrite Rabs_pos_eq; [lra | nra].
Qed.

(** Differentiation under the integral sign. *)
Lemma gauss_kernel_integral_derivable_pt_lim (x : R)
    (pr : Riemann_integrable (gauss_kernel_dx x) 0 1) :
  derivable_pt_lim gauss_kernel_integral x (RiemannInt pr).
Proof.
  intros eps Heps. exists (mkposreal eps Heps). intros h Hh Hlt.
  cbn [pos] in Hlt.
  set (ki := fun y => continuous_integrable (gauss_kernel y)
                        (gauss_kernel_continuity y) 0 1).
  pose (pr1 := RiemannInt_P10 (-1) (ki (x + h)) (ki x)).
  pose (pr2 := RiemannInt_P10 (- h) pr1 pr).
  assert (E : RiemannInt pr2
              = gauss_kernel_integral (x + h) - gauss_kernel_integral x
                - h * RiemannInt pr).
  { rewrite (RiemannInt_P13 pr1 pr pr2).
    rewrite (RiemannInt_P13 (ki (x + h)) (ki x) pr1).
    unfold gauss_kernel_integral, ki. ring. }
  assert (Hb : Rabs (RiemannInt pr2) <= h * h).
  { assert (H01 : 0 <= 1) by lra.
    pose proof (@RiemannInt_const_bound _ 0 1 (- (h * h)) (h * h) pr2 H01)
      as H.
    apply Rabs_le.
    replace (h * h) with (h * h * (1 - 0)) at 2 by ring.
    replace (- (h * h)) with (- (h * h) * (1 - 0)) by ring.
    apply H. intros t _. apply Rabs_le_bounds.
    replace (gauss_kernel (x + h) t + -1 * gauss_kernel x t
             + - h * gauss_kernel_dx x t)
      with (gauss_kernel (x + h) t - gauss_kernel x t
            - h * gauss_kernel_dx x t) by ring.
    apply gauss_kernel_expansion. }
  replace ((gauss_kernel_integral (x + h) - gauss_kernel_integral x) / h
           - RiemannInt pr)
    with (RiemannInt pr2 / h) by (rewrite E; field; exact Hh).
  unfold Rdiv. rewrite Rabs_mult, Rabs_inv.
  apply Rle_lt_trans with (2 := Hlt).
  assert (Hpos : 0 < Rabs h) by now apply Rabs_pos_lt.
  apply Rmult_le_reg_r with (Rabs h); [exact Hpos |].
  rewrite Rmult_assoc, Rinv_l, Rmult_1_r by lra.
  apply Rle_trans with (1 := Hb).
  rewrite <- Rabs_mult. rewrite Rabs_pos_eq; [lra | nra].
Qed.

Lemma gauss_integral_derivable_pt_lim (x : R) :
  derivable_pt_lim gauss_integral x (gauss x).
Proof.
  exact (integral_derivable_pt_lim gauss gauss_continuity gauss_integrable 0 x).
Qed.

Lemma gauss_integral_0 : gauss_integral 0 = 0.
Proof. unfold gauss_integral. apply RiemannInt_P9. Qed.

(** Substituting [s = x t]: the integral of the kernel's derivative is
    the density at [x] times the integral of the density up to [x]. *)
Lemma gauss_kernel_dx_integral (x : R)
    (pr : Riemann_integrable (gauss_kernel_dx x) 0 1) :
  RiemannInt pr = - gauss x * gauss_integral x.
Proof.
  rewrite (integral_of_derivative (gauss_kernel_dx x)
             (fun t => - gauss x * gauss_integral (x * t)) 0 1 pr).
  - rewrite Rmult_1_r, Rmult_0_r, gauss_integral_0. ring.
  - apply gauss_kernel_dx_continuity.
  - intros c.
    replace (gauss_kernel_dx x c) with (- gauss x * (gauss (x * c) * (x * 1))).
    + apply (derivable_pt_lim_scal (fun t => gauss_integral (x * t))).
      apply (derivable_pt_lim_comp (mult_real_fct x id) gauss_integral).
      * apply derivable_pt_lim_scal, derivable_pt_lim_id.
      * apply gauss_integral_derivable_pt_lim.
    + unfold gauss_kernel_dx, gauss.
      replace (- exp (- (x * x) / 2) * (exp (- (x * c * (x * c)) / 2) * (x * 1)))
        with (- x * (exp (- (x * x) / 2) * exp (- (x * c * (x * c)) / 2)))
        by ring.
      rewrite <- exp_plus. do 2 f_equal. field.
Qed.

Lemma gauss_kernel_integral_0 : gauss_kernel_integral 0 = PI / 4.
Proof.
  unfold gauss_kernel_integral.
  rewrite (integral_of_derivative (gauss_kernel 0) atan 0 1).
  - rewrite atan_1, atan_0. ring.
  - apply gauss_kernel_continuity.
  - intros c. replace (gauss_kernel 0 c) with (/ (1 + c ^ 2)).
    + apply derivable_pt_lim_atan.
    + unfold gauss_kernel.
      replace (- (0 * 0) * (1 + c * c) / 2) with 0 by field.
      rewrite exp_0. field. nra.
Qed.

(** The square of the integral of the density and twice the integral of
    the kernel add up to [PI / 2]. *)
Lemma gauss_integral_identity (x : R) :
  gauss_integral x * gauss_integral x + 2 * gauss_kernel_integral x = PI / 2.
Proof.
  set (F := fun y => gauss_integral y * gauss_integral y
                     + 2 * gauss_kernel_integral y).
  assert (Hd : forall c, derivable_pt_lim F c 0).
  { intros c.
    pose (pr := continuous_integrable (gauss_kernel_dx c)
                  (gauss_kernel_dx_continuity c) 0 1).
    replace 0 with (gauss c * gauss_integral c + gauss_integral c * gauss c
                    + 2 * RiemannInt pr)
      by (rewrite gauss_kernel_dx_integral; ring).
    apply (derivable_pt_lim_plus (gauss_integral * gauss_integral)%F
             (mult_real_fct 2 gauss_kernel_integral)).
    - apply derivable_pt_lim_mult; apply gauss_integral_derivable_pt_lim.
    - apply derivable_pt_lim_scal, gauss_kernel_integral_derivable_pt_lim. }
  change (F x = PI / 2). rewrite (null_derivative_constant F Hd x 0).
  unfold F. rewrite gauss_integral_0, gauss_kernel_integral_0. field.
Qed.

Lemma gauss_kernel_bounds (x t : R) :
  0 <= gauss_kernel x t <= gauss x * gauss_kernel 0 t
  /\ 0 <= gauss_kernel 0 t <= 1.
Proof.
  unfold gauss_kernel, gauss.
  replace (- (0 * 0) * (1 + t * t) / 2) with 0 by field. rewrite exp_0.
  assert (Hm : 0 < 1 + t * t) by nra.
  assert (Hi : 0 < / (1 + t * t)) by now apply Rinv_0_lt_compat.
  assert (Hi1 : / (1 + t * t) <= 1).
  { rewrite <- Rinv_1. apply Rinv_le_contravar; nra. }
  pose proof (exp_pos (- (x * x) * (1 + t * t) / 2)) as He.
  assert (Hle : exp (- (x * x) * (1 + t * t) / 2) <= exp (- (x * x) / 2))
    by (apply exp_le; nra).
  unfold Rdiv. rewrite Rmult_1_l. repeat split; try nra.
Qed.

Lemma gauss_kernel_integral_bounds (x : R) :
  0 <= gauss_kernel_integral x <= gauss x * (PI / 4).
Proof.
  assert (H01 : 0 <= 1) by lra.
  set (ki := fun y => continuous_integrable (gauss_kernel y)
                        (gauss_kernel_continuity y) 0 1).
  pose proof (gauss_pos x) as Hg. pose proof (gauss_le_1 x) as Hg1.
  split.
  - pose proof (@RiemannInt_const_bound _ 0 1 0 1 (ki x) H01) as H.
    unfold gauss_kernel_integral. fold (ki x).
    assert (Hb : forall t, 0 < t < 1 -> 0 <= gauss_kernel x t <= 1).
    { intros t _. pose proof (gauss_kernel_bounds x t). nra. }
    specialize (H Hb). lra.
  - pose (pr := RiemannInt_P10 (- gauss x) (ki x) (ki 0)).
    pose proof (RiemannInt_P13 (ki x) (ki 0) pr) as E.
    pose proof (@RiemannInt_const_bound _ 0 1 (-1) 0 pr H01) as H.
    assert (Hb : forall t, 0 < t < 1 ->
              -1 <= gauss_kernel x t + - gauss x * gauss_kernel 0 t <= 0).
    { intros t _. pose proof (gauss_kernel_bounds x t). nra. }
    specialize (H Hb).
    pose proof gauss_kernel_integral_0 as E0.
    unfold gauss_kernel_integral in *. fold (ki x) (ki 0) in *.
    rewrite E0 in E. lra.
Qed.

(** *** The distribution function lies in [0, 1] and vanishes at minus
    infinity *)

Lemma norm_cdf_nonneg_arg_bounds (x : R) :
  0 <= x ->
  1 / 2 <= norm_cdf x <= 1 /\ 1 - norm_cdf x <= gauss x / 2.
Proof.
  intros Hx.
  change (norm_cdf x) with (1 / 2 + / sqrt (2 * PI) * gauss_integral x).
  pose proof (gauss_integral_identity x) as Hid.
  pose proof (gauss_kernel_integral_bounds x) as [HB0 HB1].
  pose proof (gauss_pos x) as Hg.
  assert (HA : 0 <= gauss_integral x).
  { pose proof (gauss_integral_bounds 0 x (gauss_integrable 0 x)
                  (conj (Rle_refl 0) Hx)) as [Hl _].
    unfold gauss_integral. nra. }
  pose proof PI_RGT_0 as Hpi.
  assert (Hs : 0 < sqrt (2 * PI)) by (apply sqrt_lt_R0; lra).
  assert (Hc : 0 < / sqrt (2 * PI)) by now apply Rinv_0_lt_compat.
  assert (Hcc : / sqrt (2 * PI) * / sqrt (2 * PI) = / (2 * PI)).
  { rewrite <- Rinv_mult. f_equal. apply sqrt_sqrt. lra. }
  set (c := / sqrt (2 * PI)) in *. set (A := gauss_integral x) in *.
  set (B := gauss_kernel_integral x) in *.
  set (y := c * A).
  assert (Hy : 0 <= y) by (unfold y; nra).
  set (b := B / PI).
  assert (Hb : 0 <= b <= gauss x / 4).
  { unfold b. split.
    - apply Rmult_le_pos; [lra | apply Rlt_le, Rinv_0_lt_compat; lra].
    - apply Rmult_le_reg_r with PI; [lra |].
      unfold Rdiv. rewrite Rmult_assoc, Rinv_l by lra. lra. }
  assert (Hyy : y * y = 1 / 4 - b).
  { unfold y, b.
    replace (c * A * (c * A)) with (c * c * (A * A)) by ring.
    rewrite Hcc. replace (A * A) with (PI / 2 - 2 * B) by lra.
    field. lra. }
  clearbody y b. nra.
Qed.

Lemma norm_cdf_bounds (x : R) : 0 <= norm_cdf x <= 1.
Proof.
  destruct (Rle_dec 0 x) as [H | H].
  - pose proof (norm_cdf_nonneg_arg_bounds x H). lra.
  - pose proof (norm_cdf_nonneg_arg_bounds (- x) ltac:(lra)) as [H1 _].
    rewrite norm_cdf_symmetry in H1. lra.
Qed.

Lemma norm_cdf_tail (x : R) : 0 <= x -> norm_cdf (- x) <= gauss x / 2.
Proof.
  intros Hx. rewrite norm_cdf_symmetry.
  now apply norm_cdf_nonneg_arg_bounds.
Qed.

(** The distribution function falls below every positive number. *)
Lemma norm_cdf_vanishes (eps : R) :
  0 < eps -> exists x0, forall x, x <= x0 -> norm_cdf x <= eps.
Proof.
  intros Heps. exists (- Rmax 0 (1 / 2 - ln eps)). intros x Hx.
  pose proof (Rmax_l 0 (1 / 2 - ln eps)) as H0.
  pose proof (Rmax_r 0 (1 / 2 - ln eps)) as H1.
  replace x with (- - x) by ring.
  apply Rle_trans with (gauss (- x) / 2); [apply norm_cdf_tail; lra |].
  pose proof (gauss_le_tail (- x)) as Ht. pose proof (gauss_pos (- x)) as Hp.
  assert (He : exp (1 / 2 - - x) <= eps).
  { apply Rle_trans with (exp (ln eps)); [apply exp_le; lra |].
    rewrite exp_ln by exact Heps. apply Rle_refl. }
  lra.
Qed.

(** *** The value is never negative *)

(** [exp (v d - v^2 / 2) * N(d) - N(d - v)] does not decrease in [d]
    and vanishes at minus infinity. *)
Lemma tilted_cdf_nonneg (v d : R) :
  0 <= v -> norm_cdf (d - v) <= exp (v * d - v * v / 2) * norm_cdf d.
Proof.
  intros Hv.
  set (c := / sqrt (2 * PI)).
  set (e := fun z => exp (v * z - v * v / 2)).
  set (g := fun z => e z * norm_cdf z - norm_cdf (z - v)).
  assert (He : forall z, derivable_pt_lim e z (v * e z)).
  { intros z. unfold e.
    assert (pr : derivable_pt (fun z => exp (v * z - v * v / 2)) z) by reg.
    rewrite <- (derive_pt_eq _ _ _ pr). reg. }
  assert (Hshift : forall z, e z * gauss z = gauss (z - v)).
  { intros z. unfold e, gauss. rewrite <- exp_plus. f_equal. field. }
  assert (Hg : forall z, derivable_pt_lim g z (v * e z * norm_cdf z)).
  { intros z.
    replace (v * e z * norm_cdf z)
      with (v * e z * norm_cdf z + e z * (c * gauss z)
            - c * gauss (z - v) * (1 - 0))
      by (rewrite <- Hshift; ring).
    apply (derivable_pt_lim_minus (e * norm_cdf)%F
             (comp norm_cdf (fun z => z - v))).
    - apply derivable_pt_lim_mult;
        [apply He | apply norm_cdf_derivable_pt_lim].
    - apply (derivable_pt_lim_comp (fun z => z - v) norm_cdf).
      + apply (derivable_pt_lim_minus id (fun _ => v));
          [apply derivable_pt_lim_id | apply derivable_pt_lim_const].
      + apply norm_cdf_derivable_pt_lim. }
  assert (Hmono : forall a b, a <= b -> g a <= g b).
  { intros a b [Hab | ->]; [| apply Rle_refl].
    destruct (MVT_cor2 g (fun z => v * e z * norm_cdf z) a b Hab
                (fun z _ => Hg z)) as (z & Hz & _).
    pose proof (norm_cdf_bounds z) as [Hn _].
    assert (0 < e z) by apply exp_pos.
    assert (0 <= v * e z * norm_cdf z) by (apply Rmult_le_pos; nra).
    nra. }
  assert (Hlow : forall eps, 0 < eps -> - eps <= g d).
  { intros eps Heps.
    destruct (norm_cdf_vanishes eps Heps) as (x0 & Hx0).
    pose proof (Hmono (Rmin d x0) d (Rmin_l _ _)) as H1.
    pose proof (Hx0 (Rmin d x0 - v) ltac:(pose proof (Rmin_r d x0); lra))
      as H2.
    pose proof (norm_cdf_bounds (Rmin d x0)) as [Hn _].
    assert (0 < e (Rmin d x0)) by apply exp_pos.
    unfold g in H1 at 1. nra. }
  destruct (Rle_dec 0 (g d)) as [H | H]; [unfold g, e in H; lra |].
  pose proof (Hlow (- g d / 2) ltac:(lra)). lra.
Qed.

Section ValueBounds.

Variables S K r sigma T : R.
Hypothesis HS : 0 < S.
Hypothesis HK : 0 < K.
Hypothesis Hsigma : 0 < sigma.
Hypothesis HT : 0 < T.

(** The ratio of the price to the discounted strike. *)
Lemma forward_moneyness :
  let v := sigma * sqrt T in
  K * exp (- r * T) * exp (v * bs_d1 S K r sigma T - v * v / 2) = S.
Proof.
  intros v.
  assert (Hq : sqrt T * sqrt T = T) by (apply sqrt_sqrt; lra).
  pose proof (sqrt_lt_R0 T HT) as Hq0.
  replace (v * bs_d1 S K r sigma T - v * v / 2) with (ln (S / K) + r * T).
  - rewrite exp_plus, exp_ln by now apply Rdiv_lt_0_compat.
    replace (K * exp (- r * T) * (S / K * exp (r * T)))
      with (S * (exp (- r * T) * exp (r * T))) by (field; lra).
    rewrite <- exp_plus. replace (- r * T + r * T) with 0 by ring.
    rewrite exp_0. ring.
  - unfold v, bs_d1. set (q := sqrt T) in *. clearbody q.
    rewrite <- Hq. replace 0.5 with (/ 2) by lra. field. lra.
Qed.

Lemma bs_value_nonneg ot : 0 <= bs_value S K r sigma ot T.
Proof.
  pose proof forward_moneyness as Hf. cbv zeta in Hf.
  pose proof (sqrt_lt_R0 T HT) as Hq0.
  set (v := sigma * sqrt T) in *.
  assert (Hv : 0 <= v) by (unfold v; nra).
  set (d1 := bs_d1 S K r sigma T) in *.
  pose proof (exp_pos (- r * T)) as Hd.
  unfold bs_value, bs_d2. fold d1 v.
  destruct ot.
  - pose proof (tilted_cdf_nonneg v d1 Hv) as H.
    rewrite <- Hf at 1.
    assert (0 <= K * exp (- r * T)
                 * (exp (v * d1 - v * v / 2) * norm_cdf d1 - norm_cdf (d1 - v)))
      by (apply Rmult_le_pos; nra).
    lra.
  - pose proof (tilted_cdf_nonneg v (- (d1 - v)) Hv) as H.
    replace (- (d1 - v) - v) with (- d1) in H by ring.
    replace (v * - (d1 - v) - v * v / 2) with (- (v * d1 - v * v / 2)) in H
      by field.
    rewrite exp_Ropp in H.
    pose proof (exp_pos (v * d1 - v * v / 2)) as He.
    set (E := exp (v * d1 - v * v / 2)) in *.
    set (D := K * exp (- r * T)) in *.
    assert (HD : 0 < D) by (unfold D; nra).
    set (N2 := norm_cdf (- (d1 - v))) in *. set (N1 := norm_cdf (- d1)) in *.
    assert (HE : E * N1 <= N2).
    { apply Rmult_le_compat_l with (r := E) in H; [| lra].
      rewrite <- Rmult_assoc, Rinv_r, Rmult_1_l in H by lra. exact H. }
    rewrite <- Hf. clearbody E D N1 N2. nra.
Qed.

(** The value is at least the discounted intrinsic value. *)
Lemma bs_value_above_discounted_intrinsic :
  S - K * exp (- r * T) <= bs_value S K r sigma CALL T
  /\ K * exp (- r * T) - S <= bs_value S K r sigma PUT T.
Proof.
  pose proof (bs_value_parity S K r sigma T) as Hp.
  pose proof (bs_value_nonneg CALL). pose proof (bs_value_nonneg PUT).
  lra.
Qed.

End ValueBounds.

(** *** Growth with the time to expiry *)

Section GrowthInTime.

Variables S K r sigma : R.
Hypothesis HS : 0 < S.
Hypothesis HK : 0 < K.
Hypothesis Hr : 0 <= r.
Hypothesis Hsigma : 0 < sigma.

(** Before expiry the value's derivative in [T] is [- 365 * theta]. *)
Lemma bs_value_derivable_theta ot (T : R) :
  0 < T ->
  derivable_pt_lim (bs_value S K r sigma ot) T
    (- 365 * greek theta S K T r sigma ot).
Proof.
  intros HT.
  pose proof (bs_value_derivable_in_time S K r HS HK ot sigma T Hsigma HT) as H.
  match type of H with
  | derivable_pt_lim _ _ ?l =>
      replace (- 365 * greek theta S K T r sigma ot) with l; [exact H |]
  end.
  unfold greek. rewrite calculate_greeks_value by assumption.
  cbn [theta]. unfold norm_pdf.
  pose proof (sqrt_lt_R0 T HT). pose proof sqrt_2PI_neq_0.
  destruct ot; field; split; lra.
Qed.

(** Where theta is not positive the value does not decrease. *)
Lemma bs_value_grows ot (T1 T2 : R) :
  0 < T1 -> T1 <= T2 ->
  (forall T, T1 < T < T2 -> greek theta S K T r sigma ot <= 0) ->
  bs_value S K r sigma ot T1 <= bs_value S K r sigma ot T2.
Proof.
  intros H1 [Hlt | ->] Hth; [| apply Rle_refl].
  destruct (MVT_cor2 (bs_value S K r sigma ot)
              (fun T => - 365 * greek theta S K T r sigma ot) T1 T2 Hlt)
    as (c & Hc & Hin).
  { intros c Hc. apply bs_value_derivable_theta. lra. }
  cbv beta in Hc. pose proof (Hth c Hin). nra.
Qed.

Lemma greek_theta_value ot (T : R) :
  0 < T ->
  let d1 := bs_d1 S K r sigma T in
  let d2 := bs_d2 S K r sigma T in
  greek theta S K T r sigma ot
  = match ot with
    | CALL => (- (S * norm_pdf d1 * sigma) / (2 * sqrt T)
               - r * K * exp (- r * T) * norm_cdf d2) / 365
    | PUT => (- (S * norm_pdf d1 * sigma) / (2 * sqrt T)
              + r * K * exp (- r * T) * norm_cdf (- d2)) / 365
    end.
Proof.
  intros HT d1 d2. unfold greek.
  rewrite calculate_greeks_value by assumption. cbn [theta].
  now destruct ot.
Qed.

Lemma decay_nonneg (T : R) :
  0 < T ->
  0 <= S * norm_pdf (bs_d1 S K r sigma T) * sigma / (2 * sqrt T).
Proof.
  intros HT. pose proof (sqrt_lt_R0 T HT) as Hq.
  assert (Hp : 0 < norm_pdf (bs_d1 S K r sigma T)).
  { unfold norm_pdf. apply Rdiv_lt_0_compat; [apply gauss_pos |].
    apply sqrt_lt_R0. pose proof PI_RGT_0. lra. }
  apply Rlt_le, Rdiv_lt_0_compat; [| lra].
  apply Rmult_lt_0_compat; [apply Rmult_lt_0_compat |]; assumption.
Qed.

(** A call's theta is never positive. *)
Lemma call_theta_nonpos (T : R) :
  0 < T -> greek theta S K T r sigma CALL <= 0.
Proof.
  intros HT. rewrite greek_theta_value by assumption. cbv zeta.
  pose proof (decay_nonneg T HT) as Hd.
  pose proof (norm_cdf_bounds (bs_d2 S K r sigma T)) as [Hn _].
  pose proof (exp_pos (- r * T)) as He.
  assert (0 <= r * K * exp (- r * T) * norm_cdf (bs_d2 S K r sigma T))
    by (repeat apply Rmult_le_pos; lra).
  unfold Rdiv in *. rewrite Ropp_mult_distr_l_reverse. lra.
Qed.

(** Without discounting, neither is a put's. *)
Lemma undiscounted_put_theta_nonpos (T : R) :
  0 < T -> r = 0 -> greek theta S K T r sigma PUT <= 0.
Proof.
  intros HT E. rewrite greek_theta_value by assumption. cbv zeta.
  pose proof (decay_nonneg T HT) as Hd.
  rewrite E at 2. unfold Rdiv in *. rewrite Ropp_mult_distr_l_reverse.
  rewrite !Rmult_0_l. lra.
Qed.

(** With discounting, a put's theta is not positive while the put is
    out of the money by more than the drift and the time to expiry is
    short for the rate. *)
Lemma discounted_put_theta_nonpos (T : R) :
  0 < T -> K <= S ->
  (sigma ^ 2 / 2 - r) * T <= ln (S / K) ->
  2 * PI * r ^ 2 * T <= sigma ^ 2 ->
  greek theta S K T r sigma PUT <= 0.
Proof.
  intros HT HKS Hdrift Hshort.
  rewrite greek_theta_value by assumption. cbv zeta.
  pose proof (sqrt_lt_R0 T HT) as Hq.
  assert (Hqq : sqrt T * sqrt T = T) by (apply sqrt_sqrt; lra).
  pose proof PI_RGT_0 as Hpi.
  assert (Hs : 0 < sqrt (2 * PI)) by (apply sqrt_lt_R0; lra).
  assert (Hss : sqrt (2 * PI) * sqrt (2 * PI) = 2 * PI)
    by (apply sqrt_sqrt; lra).
  assert (Hd2 : 0 <= bs_d2 S K r sigma T).
  { unfold bs_d2, bs_d1.
    replace ((ln (S / K) + (r + 0.5 * sigma ^ 2) * T) / (sigma * sqrt T)
             - sigma * sqrt T)
      with ((ln (S / K) - (sigma ^ 2 / 2 - r) * T) / (sigma * sqrt T)).
    - apply Rmult_le_pos; [lra |].
      apply Rlt_le, Rinv_0_lt_compat, Rmult_lt_0_compat; assumption.
    - set (q := sqrt T) in *. rewrite <- Hqq.
      replace 0.5 with (/ 2) by lra. field. lra. }
  pose proof (norm_cdf_tail _ Hd2) as Htail.
  pose proof (norm_cdf_bounds (- bs_d2 S K r sigma T)) as [Hn0 _].
  pose proof (gauss_d1_d2_discounted K r sigma HK Hsigma S T HS HT) as Hid.
  pose proof (gauss_pos (bs_d2 S K r sigma T)) as Hg.
  pose proof (exp_pos (- r * T)) as He.
  unfold norm_pdf.
  set (D := K * exp (- r * T)) in *. assert (HD : 0 < D) by (unfold D; nra).
  set (g2 := gauss (bs_d2 S K r sigma T)) in *.
  set (N := norm_cdf (- bs_d2 S K r sigma T)) in *.
  set (q := sqrt T) in *. set (w := sqrt (2 * PI)) in *.
  assert (Hrq : r * (w * q) <= sigma).
  { apply Rsqr_incr_0_var; [| lra]. unfold Rsqr.
    replace (r * (w * q) * (r * (w * q)))
      with (w * w * (r * r) * (q * q)) by ring.
    rewrite Hss, Hqq. lra. }
  replace (- (S * (gauss (bs_d1 S K r sigma T) / w) * sigma) / (2 * q))
    with (- (D * g2 * sigma / (2 * (w * q))))
    by (rewrite <- Hid; field; lra).
  replace (r * K * exp (- r * T) * N) with (D * (r * N)) by (unfold D; ring).
  assert (Hwq : 0 < w * q) by now apply Rmult_lt_0_compat.
  assert (Hkey : r * N <= g2 * sigma / (2 * (w * q))).
  { apply Rle_trans with (r * (g2 / 2)); [apply Rmult_le_compat_l; lra |].
    apply Rmult_le_reg_r with (2 * (w * q)); [lra |].
    replace (g2 * sigma / (2 * (w * q)) * (2 * (w * q))) with (g2 * sigma)
      by (field; lra).
    replace (r * (g2 / 2) * (2 * (w * q))) with (g2 * (r * (w * q)))
      by field.
    apply Rmult_le_compat_l; lra. }
  assert (D * (r * N) <= D * (g2 * sigma / (2 * (w * q))))
    by (apply Rmult_le_compat_l; lra).
  replace (D * g2 * sigma / (2 * (w * q)))
    with (D * (g2 * sigma / (2 * (w * q)))) by (field; lra).
  lra.
Qed.

End GrowthInTime.

End GaussianIntegral.

Lemma ln_nonneg (x : R) : 1 <= x -> 0 <= ln x.
Proof.
  intros [H | <-]; [| rewrite ln_1; apply Rle_refl].
  rewrite <- ln_1. left. apply ln_increasing; lra.
Qed.

(** C4, amended.  For positive S, K and sigma and a rate r >= 0 the
    pricer returns a price at every time to expiry, and the price at
    [T2] is at least the price at [T1 <= T2], from expiry on, for every
    call and, when r = 0, for every put.  For a put with r > 0 it is so
    from expiry ([T1 <= 0]) when the put is not in the money ([K <= S]);
    at all times up to [T2] when [K <= S],
    [(sigma^2 / 2 - r) * T2 <= ln (S / K)] and
    [2 PI r^2 T2 <= sigma^2]; and before expiry ([0 < T1]) whenever the
    theta computed by [calculate_greeks] is not positive between [T1]
    and [T2]. *)
Theorem price_grows_with_time_to_expiry :
  forall S K r sigma ot,
    0 < S -> 0 < K -> 0 <= r -> 0 < sigma ->
    (forall T,
        exists p, OptionsModel.black_scholes_price S K T r sigma ot = Some p)
    /\ (forall T1 T2 p1 p2,
          T1 <= T2 ->
          OptionsModel.black_scholes_price S K T1 r sigma ot = Some p1 ->
          OptionsModel.black_scholes_price S K T2 r sigma ot = Some p2 ->
          ot = OptionsModel.CALL
          \/ r = 0
          \/ (T1 <= 0 /\ K <= S)
          \/ (K <= S /\ (sigma ^ 2 / 2 - r) * T2 <= ln (S / K)
              /\ 2 * PI * r ^ 2 * T2 <= sigma ^ 2)
          \/ (0 < T1
              /\ forall T, T1 < T < T2 ->
                   greek OptionsModel.theta S K T r sigma ot <= 0) ->
          p1 <= p2).
Proof.
  intros S K r sigma ot HS HK Hr Hs.
  assert (Hs' : sigma <> 0) by lra.
  split.
  { intros T. destruct (Rle_dec T 0) as [H | H].
    - rewrite black_scholes_price_at_expiry by assumption. now eexists.
    - rewrite black_scholes_price_value by (assumption || lra). now eexists. }
  intros T1 T2 p1 p2 HT E1 E2 Hcase.
  assert (Hln : K <= S -> 0 <= ln (S / K)).
  { intros HKS. apply ln_nonneg.
    apply Rmult_le_reg_r with K; [lra |].
    unfold Rdiv. rewrite Rmult_assoc, Rinv_l by lra. lra. }
  destruct (Rle_dec T2 0) as [H2 | H2].
  { rewrite black_scholes_price_at_expiry in E1, E2 by lra.
    injection E1 as <-. injection E2 as <-. apply Rle_refl. }
  apply Rnot_le_lt in H2.
  rewrite (black_scholes_price_value S K T2) in E2 by (assumption || lra).
  injection E2 as <-.
  destruct (Rle_dec T1 0) as [H1 | H1].
  - rewrite black_scholes_price_at_expiry in E1 by lra. injection E1 as <-.
    pose proof (bs_value_above_discounted_intrinsic S K r sigma T2 HS HK Hs H2)
      as [Hc Hp].
    pose proof (bs_value_nonneg S K r sigma T2 HS HK Hs H2 ot) as H0.
    pose proof (Rmax_l (bs_value S K r sigma ot T2) 0.01) as Hm.
    pose proof (Rmax_r (bs_value S K r sigma ot T2) 0.01) as Hm'.
    assert (He : exp (- r * T2) <= 1)
      by (rewrite <- exp_0; apply exp_le; nra).
    destruct Hcase as [-> | [-> | [[_ HKS] | [[HKS _] | [Hpos _]]]]];
      [| | | | lra].
    + cbn [OptionsModel.intrinsic]. apply Rmax_lub; nra.
    + replace (- 0 * T2) with 0 in Hp, Hc by ring. rewrite exp_0 in Hp, Hc.
      destruct ot; cbn [OptionsModel.intrinsic]; apply Rmax_lub; lra.
    + destruct ot; cbn [OptionsModel.intrinsic]; apply Rmax_lub; nra.
    + destruct ot; cbn [OptionsModel.intrinsic]; apply Rmax_lub; nra.
  - apply Rnot_le_lt in H1.
    rewrite (black_scholes_price_value S K T1) in E1 by (assumption || lra).
    injection E1 as <-.
    apply Rle_max_compat_r.
    apply (bs_value_grows S K r sigma HS HK Hs ot T1 T2 H1 HT).
    intros T HTin.
    assert (HTpos : 0 < T) by lra.
    destruct Hcase as [-> | [-> | [[Hneg _] | [(HKS & Hd & Hsh) | [_ Hth]]]]].
    + now apply call_theta_nonpos.
    + destruct ot;
        [now apply call_theta_nonpos
        | now apply undiscounted_put_theta_nonpos].
    + lra.
    + destruct ot; [now apply call_theta_nonpos |].
      pose proof PI_RGT_0 as Hpi. specialize (Hln HKS).
      apply discounted_put_theta_nonpos; try assumption.
      * destruct (Rle_dec (sigma ^ 2 / 2 - r) 0); nra.
      * assert (0 <= 2 * PI * r ^ 2) by (simpl; nra). nra.
    + now apply Hth.
Qed.

Lemma price_grows_with_time_to_expiry_witness :
  exists p1 p2,
    OptionsModel.black_scholes_price 450 445 (1 / 1000) 0.05 0.2
      OptionsModel.PUT = Some p1
    /\ OptionsModel.black_scholes_price 450 445 (2 / 1000) 0.05 0.2
         OptionsModel.PUT = Some p2
    /\ p1 <= p2.
Proof.
  destruct (price_grows_with_time_to_expiry 450 445 0.05 0.2 OptionsModel.PUT
              ltac:(lra) ltac:(lra) ltac:(lra) ltac:(lra)) as [Htotal Hgrows].
  destruct (Htotal (1 / 1000)) as [p1 E1].
  destruct (Htotal (2 / 1000)) as [p2 E2].
  exists p1, p2. split; [exact E1 | split; [exact E2 |]].
  apply (Hgrows (1 / 1000) (2 / 1000) p1 p2 ltac:(lra) E1 E2).
  do 3 right. left.
  assert (Hln : 0 <= ln (450 / 445)) by (apply ln_nonneg; lra).
  pose proof PI_4 as Hpi. pose proof PI_RGT_0 as Hpi0.
  repeat split; simpl; lra.
Defined.
